(* ===== verification/_CoqProject ===== *)
-Q . S2P
Prelude.v
GoStrings.v
Regex.v
Calendar.v
Http.v
Store.v
Effects.v
Permission.v
Json.v
JsonTheory.v
TimeText.v
JsonAny.v
Token.v
TokenTheory.v
Condition.v
Gateway.v
Proxy.v
GatewayTheory.v
GatewayProps.v
UserData.v
GroupDal.v
ProfileDal.v
TeamSpec.v
TeamRefine.v
TeamTheory.v
TeamService.v
ProfileService.v
MessageService.v
MessageTheory.v
AuthService.v
AuthTheory.v
UserSystem.v
UserProps.v
CoreData.v
SpiderLoad.v
SubmitTheory.v
JobTheory.v
SpiderService.v
ContestProblems.v
Platforms.v
PlatformTheory.v
ContestTheory.v
ContestMatrix.v
ContestService.v
ReplyTheory.v
CoreProps.v
ContestProps.v
BulletinService.v
SnapshotService.v
SnapshotTheory.v
StatisticDal.v
AuditService.v
HistoryDal.v
HistoryTheory.v
HistoryProps.v
CoreHttp.v
Worker.v
Web.v
Discovery.v
ConfigLoader.v
Scrapers.v
NowCoder.v
Judges.v
ContestMeta.v
ScraperTheory.v
JudgeTheory.v
ScraperProps.v
AgentChat.v
AgentSummary.v
AgentTheory.v
CoreSystem.v
CoreTheory.v
JobLiveness.v
StatisticTheory.v
OpsProps.v
TokenProps.v
CronTheory.v
SystemProps.v
AgentProps.v
SiteStatistics.v
