(* ===== verification/Prelude.v ===== *)
(** * The ACM training tracker: a model of its services and their properties

    The program is a set of Go services.  The user service ([src/app/user]) keeps
    accounts, teams and direct messages; the core-data service
    ([src/app/core_data]) collects the submissions of users from online judges;
    a gateway ([src/app/gateway]) fronts both; an agent ([src/app/agent]) writes
    summaries.  Services keep their state in Postgres (through gorm) and Redis,
    queue jobs on RabbitMQ, and call each other over gRPC.  This development
    models the code of all four that decides something; see the end of this comment
    for what is left out.

    ** How a handler is modelled

    A handler is a function in the monad [Effects.M]: it passes a [world] along
    and returns a value or a Go [error] ([Prelude.outcome], [Prelude.goerr]).  The
    world holds the tables of the service, the Redis cache, a counter of the
    external calls made, and two functions of that counter: the clock, and
    whether a call fails.  Every database and cache call consults the second, so
    a theorem about all worlds is a theorem about every pattern of failures; a
    world is [healthy] when nothing fails.  Statements are [Store] functions on
    tables (lists of rows in key order with their sequence; soft deletion as gorm
    does it), and [Effects.transaction] rolls the tables, not the sequences, back
    on an error.  Errors that the code drops are dropped ([ignore_err]).

    The gateway has a monad of its own, [Http.G]: its state is what was sent to the
    backends, and a computation returns, fails or panics.

    ** The files

    - [Prelude] (this file): 64 and 32 bit integers as [Z] with explicit wrapping,
      times in nanoseconds, error values, list lemmas.  [GoStrings]: Go strings as
      bytes, runes, [TrimSpace], [EqualFold], [Contains], [Split].  [Regex]: the leftmost,
      greedy or lazy, matches of package [regexp] for the patterns of the code.  [Calendar],
      [TimeText]: dates, weeks, and the layouts that times are written in.  [Web]: HTTP
      clients, MD5, URL escapes, and JSON into structs.  [Json], [JsonTheory]: [Marshal], [Valid] and decoding, and
      that what is written is read back; [JsonAny]: values of any shape.  [Store], [Effects]: as above, with the
      proof rules [wp] (healthy runs), [wpv] (values returned under any faults),
      [wpd] (outcome and tables under any faults), [keeps] (an invariant of the
      tables under any faults).
    - [Permission]: [common/permission], [common/utils/auth], the rule files and
      password checks of the user service, the rules of the core-data service.
      [Token], [TokenTheory]: the payload of a token as [auth/check.go] reads it,
      with base64 and JSON.
    - Gateway: [Http] (headers, requests, round trippers), [Condition]
      ([proxy/condition], [proxy/retry.go]), [Gateway] (the JWT, CORS and rewrite
      middlewares, [middleware/registry.go], [buildMiddleware]), [Proxy]
      ([proxy/proxy.go], [proxy/error_handler.go], the merge of [config/config.go]);
      [GatewayTheory] counts requests and explains answers, [GatewayProps] states
      the properties.  [Discovery]: targets, nodes, the watch on services that all clients
      share ([client/target.go], [node.go], [factory.go], [servicewatch.go]) and the circuit
      breaker ([middleware/circuitbreaker]), with their theory.  [ConfigLoader]: the
      configuration files with their digests and the loop that watches them
      ([config/config.go]), what [cmd/gateway/main.go] does with them, and the loader of the
      control service ([config/config-loader]); files are a map, every call may fail.
    - User service: [UserData] (tables, cached update, audit rows), [GroupDal]
      ([data/dal/group.go]), [ProfileDal] ([data/dal/profile.go]), [TeamService] ([service/team.go],
      [service/group.go]), [ProfileService] ([service/profile.go],
      [service/role.go]), [MessageService] ([data/dal/message.go],
      [service/message.go]), [AuthService].  A service handler is
      called [svc_X] for the method [X].
    - [TeamSpec] is the contract of the team operations: an abstract machine over
      membership and ownership alone.  [TeamRefine] proves that each transaction of
      [GroupDal] and the deletion of a user refine it; [TeamTheory] draws the
      consequences for members.  [MessageTheory] is the invariant that ties
      unread counters to messages; [AuthTheory] says who gets in; [UserSystem]
      makes every route a request and proves invariants of all reachable states.
      [UserProps] states the properties, each with an instance on sample data.
    - Core-data service, refreshes: [CoreData] (tables, queue, limiters, key
      patterns), [SpiderLoad] ([task/spider.go], [task/scope.go],
      [biz/service/spider.go], [spider_normalize.go]), [SpiderService]
      ([service/spider.go]); [SubmitTheory] and [JobTheory] prove what a refresh
      stores and how a job ends; [CoreProps] states the properties.
    - Core-data service, contests: [ContestProblems] (keys, aliases and columns of
      [service/contest_matrix.go]), [ContestMatrix] (its cells and totals),
      [Platforms] (the paging loops of the scrapers, verdicts), [ContestService]
      ([service/contest.go], [contest_official_rank.go], the contest queries of
      [data/dal/spider.go]); [ContestTheory], [PlatformTheory], [ReplyTheory]; [ContestProps] states the properties.
    - Core-data service, scrapers ([internal/spider/platform]): [Scrapers] (sessions, QOJ,
      LuoGu), [NowCoder], [Judges] (Codeforces, AtCoder), each from its requests to the rows
      that are stored; [ContestMeta] ([service/contest_meta_cache.go] and the functions that
      fetch pages of contests through it).  [ScraperTheory]: tables in HTML, sessions, and
      the number of calls; [JudgeTheory]: archives in pages, contests from submissions,
      caches; [ScraperProps] states the properties, on pages of sample sites.
    - Core-data service, operations: [StatisticDal] ([data/dal/statistic.go] and the
      service around it), [AuditService], [SnapshotService]
      ([service/statistic_ops.go]), [BulletinService]; [StatisticTheory],
      [SnapshotTheory]; [OpsProps] states the properties.  [SiteStatistics]: the
      heatmap and the site-wide achievements of [service/statistic_ops.go], with their
      properties; floats are those of [SpecFloat], the time zone of the database session and
      the order in which a map is gone through are parameters.
    - Core-data service, histories: [HistoryDal] ([GetByUserId], [GetContestByUserId]
      and [SetCache] of [data/dal/spider.go], [service/submit_log.go]), with the sorted
      sets of Redis; [HistoryTheory] is the promise of the cache ([coherent]) and that a
      page from it is right, [HistoryProps] states the properties.
    - [CoreHttp] ([core_data/internal/server/http.go]): the routes registered without
      the framework's middlewares.  [TokenProps]: sessions from a login to them.
    - Core-data service as a whole: [Worker] ([biz/service/consumer.go], the hourly run of
      [task/cron.go], events as JSON), [CoreSystem] (every call, reachable states, and
      their invariant [core_ok]), [CoreTheory] (all calls keep it), [JobLiveness] (an
      open job has its message on the queue), [CronTheory] (the task and the user
      service together); [SystemProps] states the properties.
    - Agent: [AgentChat] ([agent/chat.go] and the tools), [AgentSummary]
      ([biz/service/summary.go], [biz/service/consumer.go], [service/summary.go], with
      [core_data/task/summary.go] and the other runs of the timer); [AgentTheory] says
      what a conversation leaves behind, [AgentProps] states the properties.

    ** What is shown

    - Teams: refinement, keys and invitations unique, owners are members;
      nobody is removed or added except rightfully; two ways in which an
      administrator breaks this are shown on concrete states.
    - Accounts: no request makes an administrator; a login verified a password;
      registration and the invite code round-trip; roles and passwords change only
      as the rules allow.  The token of a login is read back by every handler as
      that account; some handlers ask nothing of its signature.
    - Messages: counters are exact in every reachable state, and a broadcast adds
      one to each recipient.
    - Refreshes: nothing stored is lost, whatever a platform returns and whatever
      fails; jobs end with a truthful record; a request queues one job or names
      the conflicting one; listings hide what they must; the limiter holds.
    - Contests: what a cell and a column total mean in terms of submissions, the
      columns and where each submission is counted, the order and pages of a
      ranking in memory and in the database, replies that agree with themselves;
      the paging loops of two scrapers end with everything; one loop that may not
      end is shown to end exactly for small counts.
    - Scrapers: a table in HTML, with any markup around and in its cells, is read back as
      the submissions it shows; sessions are genuine and cost a bounded number of calls;
      every page of an archive is read, an update is a prefix of a full refresh, and the
      contests of an AtCoder user are those of the rows that count; one page that fails to
      load hides the problems of a contest for six hours.
    - Statistics: grouped and single queries agree, platforms add up, periods are
      nested; snapshots are read as saved and cleaned up within bounds; clearing
      the cache removes the right keys; pages of bulletins are complete.
      The heatmap adds up.  The contexts of the achievements say of each user what the submissions say, medians are
      those of the sorted numbers, and the stored snapshot of the site serves half an hour.
    - Histories: pages that come from the cache and from the database are right, the
      times of the last submissions are exact; a run is shown in which a cached page
      leaves rows out.
    - Core data as a whole: in every state that calls reach, whatever fails, the tables
      are well formed; when nothing fails every job ends, and the hourly task reaches
      every account.
    - Agent: conversations end when the model does; mail goes by the rules of the roles;
      a summary that was asked for appears, is valid JSON, and no message is stuck.
    - Gateway: nothing passes a required JWT middleware without a public path or a
      token that verifies; every request is answered with at most the configured
      attempts; only allowed origins pass; configured ranges mean what they say.  The
      clients of a service have the nodes of the instances last known, whatever clients are
      made, closed and cleaned up; the proxy serves the configuration of the files whose
      digest is recorded.  Runs are shown in which clients stay without nodes, priority files
      are lost, and the loop of the control service does not end.

    ** Bounds and fuel

    Retries recurse on the number of attempts left (12, or 1 for CodeForces; the
    configured number in the gateway); batches on the length of the list, and every
    batch takes at least one row; the JSON scanner on a fuel that is twice its
    input's length and a nesting bound (that it is enough for whatever [Marshal]
    writes is [JsonTheory.json_object_valid]); the members of an object on its
    length.  The paging loops of the scrapers take a fuel, the number of
    pages, that the theorems show to be enough ([Scrapers.qoj_pages] stops with [None] on a
    site whose pages go on for ever, as the code would not); a regular expression recurses
    on the text; the loop that makes up columns takes one as well, and
    [ContestProps.synthesis_ends_iff] says when any is enough.  A conversation with the
    model is bounded by a number of requests; without an answer its result is [None],
    and [AgentProps.chat_ends] says when that does not happen.  Emptying the queue takes
    as many deliveries as there are messages ([SystemProps.every_job_ends]).

    ** Assumptions and limits

    A request runs alone: the row locks of the code are not modelled.  Calls of
    handlers, deliveries to a worker and runs of the timer follow each other in any
    order, but do not overlap, although a worker takes two messages at a time; a
    message that a crash would bring back is not modelled.  The goroutine that fills a
    cache runs when the page has been read.  Keys of Redis do not expire.
    Unique indexes are invariants that are proved, not errors the tables raise; a
    constraint violation shows up as a fault of a call.  Ids stay within 64 bits.
    Ties of an ORDER BY are broken by primary key.  SCAN sees every key in one
    pass.  The queue and the limiters are not rolled back.  Pauses between
    retries take no time.  The caller of a handler is its decoded token, or none.
    What the code only calls is a class that states what it relies on, with an
    instance on which the theorems are run: bcrypt and the token library
    ([Bcrypt], [JwtSigner], [JwtCompact], [JwtVerifier]), the rate limiter
    ([RateLimit]), the sites of the judges ([Web]), [goquery] and HTML entities ([Goquery],
    [Html]), for the refresh jobs the scrapers as a whole ([Fetchers], [ContestPages]), the services called over
    gRPC ([CoreDataRPC], [UserService], [ProfileLister], [ProfileReader], [ToolServices]), the
    server of the model with the decoding of its replies ([ChatServer]), floating point
    in JSON ([Float64]), Postgres' order of texts and its JSON columns ([Collation], [Jsonb]),
    [encoding/gob] ([Gob]),
    the JSON of the snapshot of the site ([GlobalJson]), backends, URLs and
    status codes of the gateway ([Network], [UrlParser], [GrpcStatus]), the registry of
    services ([Registry]), the breaker of aegis and random numbers ([Breakers]), YAML and
    protojson ([ConfigFormat]).

    A site answers a client, a request and the number of the call, so that it may change
    and fail in any way; the cookies of a client are the site's affair.  Time zones are
    fixed offsets, right for Shanghai since 1992 and for Moscow as the code has it.

    Not modelled: the parser behind [goquery], the message broker's client and the
    loops that reconnect to it, the timers, the framework's routing and binding and its
    check of tokens, protobuf code; in the gateway streams, the middlewares
    bbr, logging, tracing, streamrecorder and transcoder, the selection of a node (p2c), the
    client of Consul, the settings of HTTP clients and TLS, flags, servers and debug handlers,
    the framework's start-up; the listing of cache keys with their remaining
    times, [GetRank] (called by nothing). *)
From stdpp Require Export base tactics numbers list gmap strings pretty sorting.
From Stdlib Require Export ZArith Lia.

#[global] Open Scope Z_scope.

(** ** Machine integers *)

(** Go's [int], [int64], [int32] and [uint] (64 bit) are [Z]; a conversion or an
    arithmetic result that the code relies on is wrapped explicitly. *)
Definition wrap_int64 (z : Z) : Z := (z + 2 ^ 63) mod 2 ^ 64 - 2 ^ 63.
Definition wrap_uint64 (z : Z) : Z := z mod 2 ^ 64.
Definition wrap_int32 (z : Z) : Z := (z + 2 ^ 31) mod 2 ^ 32 - 2 ^ 31.

Definition in_int64 (z : Z) : Prop := - 2 ^ 63 <= z < 2 ^ 63.
Definition in_int32 (z : Z) : Prop := - 2 ^ 31 <= z < 2 ^ 31.

Lemma wrap_int64_id z : in_int64 z -> wrap_int64 z = z.
Proof. unfold in_int64, wrap_int64. intros H. rewrite Z.mod_small; lia. Qed.

Lemma wrap_int32_id z : in_int32 z -> wrap_int32 z = z.
Proof. unfold in_int32, wrap_int32. intros H. rewrite Z.mod_small; lia. Qed.

Lemma wrap_uint64_id z : 0 <= z < 2 ^ 64 -> wrap_uint64 z = z.
Proof. intros H. unfold wrap_uint64. apply Z.mod_small; lia. Qed.

Lemma wrap_int64_range z : in_int64 (wrap_int64 z).
Proof.
  unfold in_int64, wrap_int64.
  pose proof (Z.mod_pos_bound (z + 2 ^ 63) (2 ^ 64)). lia.
Qed.

Lemma wrap_int32_range z : in_int32 (wrap_int32 z).
Proof.
  unfold in_int32, wrap_int32.
  pose proof (Z.mod_pos_bound (z + 2 ^ 31) (2 ^ 32)). lia.
Qed.

(** ** Time *)

(** A [time.Time] is its number of nanoseconds since the Unix epoch; the zero
    value of the type is 1 January of the year 1. *)
Definition second : Z := 10 ^ 9.
Definition minute : Z := 60 * second.
Definition hour : Z := 60 * minute.
Definition zero_time : Z := -62135596800 * second.
Definition time_is_zero (t : Z) : bool := bool_decide (t = zero_time).
Definition time_unix (t : Z) : Z := t / second.

(** [t.Sub(u)] saturates at the ends of [time.Duration] (an int64). *)
Definition time_sub (t u : Z) : Z := Z.max (- 2 ^ 63) (Z.min (2 ^ 63 - 1) (t - u)).

(** ** Errors *)

(** The [error] values the code builds and inspects. [Driver] is any failure of
    the database, the cache, the broker or a remote platform; [Wrapped p e] is
    [fmt.Errorf("p: %w", e)]; [Kratos] is a framework error with its HTTP code. *)
Inductive goerr :=
  | RecordNotFound
  | ActiveRefreshJob
  | Driver (msg : string)
  | ErrorText (msg : string)
  | Wrapped (prefix : string) (cause : goerr)
  | Kratos (code : Z) (reason message : string).

#[export] Instance goerr_eq_dec : EqDecision goerr.
Proof. solve_decision. Defined.

Fixpoint error_text (e : goerr) : string :=
  match e with
  | RecordNotFound => "record not found"
  | ActiveRefreshJob => "active spider refresh job already exists"
  | Driver m => m
  | ErrorText m => m
  | Wrapped p c => p +:+ ": " +:+ error_text c
  | Kratos c r m =>
      "error: code = " +:+ pretty c +:+ " reason = " +:+ r +:+ " message = " +:+ m
        +:+ " metadata = map[] cause = <nil>"
  end.

(** [errors.Is(err, gorm.ErrRecordNotFound)] *)
Fixpoint is_not_found (e : goerr) : bool :=
  match e with
  | RecordNotFound => true
  | Wrapped _ c => is_not_found c
  | _ => false
  end.

(** [errors.Is(err, task.ErrActiveRefreshJob)] *)
Fixpoint is_active_job (e : goerr) : bool :=
  match e with
  | ActiveRefreshJob => true
  | Wrapped _ c => is_active_job c
  | _ => false
  end.

Definition Unauthorized (r m : string) : goerr := Kratos 401 r m.
Definition Forbidden (r m : string) : goerr := Kratos 403 r m.
Definition BadRequest (r m : string) : goerr := Kratos 400 r m.
Definition NotFoundErr (r m : string) : goerr := Kratos 404 r m.
Definition InternalServer (r m : string) : goerr := Kratos 500 r m.

(** The result of a Go function that returns a value and an [error]. *)
Inductive outcome (A : Type) :=
  | Val (a : A)
  | Exn (e : goerr).
Arguments Val {A} a.
Arguments Exn {A} e.

#[export] Instance outcome_eq_dec {A} `{EqDecision A} : EqDecision (outcome A).
Proof. solve_decision. Defined.

Definition is_val {A} (o : outcome A) : bool :=
  match o with Val _ => true | Exn _ => false end.

(** ** Lists *)

Section lists.
Context {A : Type}.
Implicit Types (l : list A) (p : A -> bool).

(** [List.filter] on a boolean predicate; stdpp's [filter] is on propositions. *)
Definition where_ (p : A -> bool) (l : list A) : list A := List.filter p l.

Lemma elem_of_where p l x : x ∈ where_ p l <-> x ∈ l /\ p x = true.
Proof. rewrite !list_elem_of_In. apply filter_In. Qed.

Lemma where_app p l1 l2 : where_ p (l1 ++ l2) = where_ p l1 ++ where_ p l2.
Proof. apply List.filter_app. Qed.

Lemma where_ext p q l : (forall x, x ∈ l -> p x = q x) -> where_ p l = where_ q l.
Proof.
  intros H. apply filter_ext_in. intros x Hx. apply H. by apply list_elem_of_In.
Qed.

Lemma where_none p l : (forall x, x ∈ l -> p x = false) -> where_ p l = [].
Proof.
  induction l as [|x l IH]; intros H; [done|]. simpl. rewrite (H x) by set_solver.
  apply IH. set_solver.
Qed.

Lemma where_all p l : (forall x, x ∈ l -> p x = true) -> where_ p l = l.
Proof.
  induction l as [|x l IH]; intros H; [done|]. simpl. rewrite (H x) by set_solver.
  f_equal. apply IH. set_solver.
Qed.

Lemma where_where p q l : where_ p (where_ q l) = where_ (fun x => q x && p x) l.
Proof.
  induction l as [|x l IH]; [done|]. simpl.
  destruct (q x); simpl; [destruct (p x); simpl; by rewrite IH | done].
Qed.

Lemma head_where p l x : head (where_ p l) = Some x -> x ∈ l /\ p x = true.
Proof.
  intros H. apply elem_of_where. destruct (where_ p l); simplify_eq/=. set_solver.
Qed.

Lemma head_where_none p l : head (where_ p l) = None -> forall x, x ∈ l -> p x = false.
Proof.
  intros H x Hx. destruct (p x) eqn:E; [|done].
  assert (x ∈ where_ p l) as Hw by by apply elem_of_where.
  destruct (where_ p l); [set_solver | done].
Qed.

(** [LIMIT] and [OFFSET]; gorm writes neither for a negative limit or a
    non-positive offset. *)
Definition limit_rows (n : Z) l : list A := if decide (0 <= n) then take (Z.to_nat n) l else l.
Definition offset_rows (n : Z) l : list A := if decide (0 < n) then drop (Z.to_nat n) l else l.

Lemma limit_rows_length n l : 0 <= n -> Z.of_nat (length (limit_rows n l)) <= n.
Proof.
  intros H. unfold limit_rows. rewrite decide_True by done. rewrite length_take. lia.
Qed.

Lemma elem_of_limit_rows n l x : x ∈ limit_rows n l -> x ∈ l.
Proof.
  unfold limit_rows. case_decide; [|done].
  intros Hx. apply elem_of_take in Hx as (i & Hi & _). by eapply list_elem_of_lookup_2.
Qed.

Lemma elem_of_offset_rows n l x : x ∈ offset_rows n l -> x ∈ l.
Proof.
  unfold offset_rows. case_decide; [|done].
  intros Hx. apply list_elem_of_lookup in Hx as [i Hi]. rewrite lookup_drop in Hi.
  by eapply list_elem_of_lookup_2.
Qed.
End lists.

(** The pages of a list, one after the other. *)
Lemma pages_concat {A} (size : Z) (l : list A) (n : nat) : 0 < size ->
  concat (map (fun p => limit_rows size (offset_rows (Z.of_nat p * size) l)) (seq 0 n))
  = take (n * Z.to_nat size) l.
Proof.
  intros Hs. induction n as [|n IH]; [done|].
  rewrite seq_S, map_app, concat_app, IH. simpl. rewrite app_nil_r.
  replace (Z.to_nat size + n * Z.to_nat size)%nat with (n * Z.to_nat size + Z.to_nat size)%nat by lia.
  rewrite <- take_take_drop. f_equal. unfold limit_rows, offset_rows. rewrite decide_True by lia.
  case_decide as Hd; [|assert (n = 0%nat) as -> by nia; done].
  rewrite Z2Nat.inj_mul, Nat2Z.id by lia. done.
Qed.

Lemma map_where {A B} (f : A -> B) (p : B -> bool) (l : list A) :
  where_ p (map f l) = map f (where_ (fun x => p (f x)) l).
Proof.
  induction l as [|x l IH]; [done|]. simpl. destruct (p (f x)); simpl; by rewrite IH.
Qed.

Lemma map_id_in {A} (f : A -> A) (l : list A) : (forall x, x ∈ l -> f x = x) -> map f l = l.
Proof.
  induction l as [|x l IH]; intros H; [done|]. simpl. f_equal; [apply H | apply IH]; set_solver.
Qed.

Definition sum_list_Z (l : list Z) : Z := foldr Z.add 0 l.

Lemma sum_list_Z_app l1 l2 : sum_list_Z (l1 ++ l2) = sum_list_Z l1 + sum_list_Z l2.
Proof. induction l1 as [|x l1 IH]; simpl; [done | rewrite IH; lia]. Qed.

(** [COUNT] of the rows that satisfy a predicate. *)
Definition count_where {A} (p : A -> bool) (l : list A) : Z := Z.of_nat (length (where_ p l)).

Lemma count_where_app {A} (p : A -> bool) l1 l2 :
  count_where p (l1 ++ l2) = count_where p l1 + count_where p l2.
Proof. unfold count_where. rewrite where_app, length_app. lia. Qed.

Lemma count_where_nonneg {A} (p : A -> bool) l : 0 <= count_where p l.
Proof. unfold count_where. lia. Qed.

(** [ORDER BY f DESC], [ORDER BY f ASC], and [ORDER BY f DESC, g DESC]. *)
Definition desc_by {A} (f : A -> Z) : relation A := fun a b => f b <= f a.
Definition asc_by {A} (f : A -> Z) : relation A := fun a b => f a <= f b.
Definition desc_by2 {A} (f g : A -> Z) : relation A :=
  fun a b => f b < f a \/ (f b = f a /\ g b <= g a).

#[export] Instance desc_by_dec {A} (f : A -> Z) a b : Decision (desc_by f a b).
Proof. unfold desc_by. apply _. Defined.
#[export] Instance asc_by_dec {A} (f : A -> Z) a b : Decision (asc_by f a b).
Proof. unfold asc_by. apply _. Defined.
#[export] Instance desc_by2_dec {A} (f g : A -> Z) a b : Decision (desc_by2 f g a b).
Proof. unfold desc_by2. apply _. Defined.

(** ** Automation *)

(** Boolean tests of the code, turned into the propositions they decide. *)
Ltac bool_cases :=
  repeat match goal with
  | H : bool_decide _ = true |- _ => apply bool_decide_eq_true in H
  | H : bool_decide _ = false |- _ => apply bool_decide_eq_false in H
  | H : andb _ _ = true |- _ => apply andb_true_iff in H; destruct H
  | H : orb _ _ = false |- _ => apply orb_false_iff in H; destruct H
  | H : negb _ = true |- _ => apply negb_true_iff in H
  | H : negb _ = false |- _ => apply negb_false_iff in H
  | |- bool_decide _ = true => apply bool_decide_eq_true
  | |- bool_decide _ = false => apply bool_decide_eq_false
  | |- andb _ _ = true => apply andb_true_iff; split
  | |- negb _ = true => apply negb_true_iff
  | |- negb _ = false => apply negb_false_iff
  end.

Create HintDb golang.
Create Rewrite HintDb golang_rw.
#[export] Hint Rewrite @where_app @count_where_app @sum_list_Z_app @length_app @length_map : golang_rw.
#[export] Hint Resolve count_where_nonneg wrap_int64_range wrap_int32_range : golang.
