(* ===== verification/GoStrings.v ===== *)
(** The operations of Go's [strings], [unicode/utf8] and [strconv] packages that
    the code uses.  A Go string is its bytes; runes are decoded as [range] and
    [[]rune(s)] do it, an invalid byte giving U+FFFD.  [ToLower] and [ToUpper]
    are given on ASCII letters and leave every other rune alone. *)
From S2P Require Export Prelude.
From Stdlib Require Import Ascii.
#[local] Open Scope Z_scope.

Definition bytes_of (s : string) : list ascii := String.list_ascii_of_string s.
Definition of_bytes (l : list ascii) : string := String.string_of_list_ascii l.

Lemma of_bytes_of s : of_bytes (bytes_of s) = s.
Proof. apply String.string_of_list_ascii_of_string. Qed.

Lemma bytes_of_of l : bytes_of (of_bytes l) = l.
Proof. apply String.list_ascii_of_string_of_list_ascii. Qed.

(** ** UTF-8 *)

Definition code (a : ascii) : Z := Z.of_N (N_of_ascii a).
Definition is_between (lo hi z : Z) : bool := (lo <=? z) && (z <=? hi).
Definition cont (a : ascii) : bool := is_between 128 191 (code a).
Definition rune_error : Z := 65533.

(** A rune with the bytes it was read from. *)
Record chunk := Chunk { rune : Z; raw : list ascii }.

(** The range of the second byte of a three- or four-byte sequence. *)
Definition second_range (a : Z) : Z * Z :=
  if a =? 224 then (160, 191) else if a =? 237 then (128, 159)
  else if a =? 240 then (144, 191) else if a =? 244 then (128, 143) else (128, 191).
Definition second_ok (a b : ascii) : bool :=
  is_between (second_range (code a)).1 (second_range (code a)).2 (code b).

Definition bad (a : ascii) : chunk := Chunk rune_error [a].

Fixpoint chunks (l : list ascii) : list chunk :=
  match l with
  | [] => []
  | a :: l1 =>
    if code a <? 128 then Chunk (code a) [a] :: chunks l1
    else if is_between 194 223 (code a) then
      match l1 with
      | b :: l2 =>
        if cont b then Chunk ((code a - 192) * 64 + (code b - 128)) [a; b] :: chunks l2
        else bad a :: chunks l1
      | [] => bad a :: chunks l1
      end
    else if is_between 224 239 (code a) then
      match l1 with
      | b :: c :: l3 =>
        if second_ok a b && cont c then
          Chunk ((code a - 224) * 4096 + (code b - 128) * 64 + (code c - 128)) [a; b; c]
            :: chunks l3
        else bad a :: chunks l1
      | _ => bad a :: chunks l1
      end
    else if is_between 240 244 (code a) then
      match l1 with
      | b :: c :: d :: l4 =>
        if second_ok a b && cont c && cont d then
          Chunk ((code a - 240) * 262144 + (code b - 128) * 4096 + (code c - 128) * 64
                 + (code d - 128)) [a; b; c; d] :: chunks l4
        else bad a :: chunks l1
      | _ => bad a :: chunks l1
      end
    else bad a :: chunks l1
  end.

Definition chunks_of (s : string) : list chunk := chunks (bytes_of s).
Definition of_chunks (l : list chunk) : string := of_bytes (concat (map raw l)).

(** [[]rune(s)] and [len([]rune(s))] *)
Definition runes (s : string) : list Z := map rune (chunks_of s).
Definition rune_count (s : string) : Z := Z.of_nat (length (runes s)).

(** [string([]rune)]: runes are written back in UTF-8. *)
Definition byte_of (z : Z) : ascii := ascii_of_N (Z.to_N z).
Definition encode_rune (r : Z) : list ascii :=
  if r <? 128 then [byte_of r]
  else if r <? 2048 then [byte_of (192 + r / 64); byte_of (128 + r mod 64)]
  else if r <? 65536 then
    [byte_of (224 + r / 4096); byte_of (128 + r / 64 mod 64); byte_of (128 + r mod 64)]
  else [byte_of (240 + r / 262144); byte_of (128 + r / 4096 mod 64);
        byte_of (128 + r / 64 mod 64); byte_of (128 + r mod 64)].
Definition string_of_runes (l : list Z) : string := of_bytes (concat (map encode_rune l)).

(** Every byte is in exactly one chunk. *)
Lemma concat_raw_chunks l : concat (map raw (chunks l)) = l.
Proof.
  remember (length l) as n eqn:Hn.
  assert (length l <= n)%nat as Hle by lia. clear Hn. revert l Hle.
  induction n as [|n IH]; intros [|a l1] Hle; try done; [simpl in Hle; lia|].
  assert (forall l2, (length l2 <= length l1)%nat -> concat (map raw (chunks l2)) = l2) as H1.
  { intros l2 ?. apply IH. simpl in Hle. lia. }
  cbn [chunks]. repeat case_match; cbn [map raw bad concat app];
    rewrite H1; simpl; (done || lia).
Qed.

Lemma of_chunks_of s : of_chunks (chunks_of s) = s.
Proof. unfold of_chunks, chunks_of. by rewrite concat_raw_chunks, of_bytes_of. Qed.

(** ** [strings.TrimSpace] and [strings.Fields] *)

(** [unicode.IsSpace] *)
Definition is_space (r : Z) : bool :=
  is_between 9 13 r || bool_decide (r ∈ [32; 133; 160; 5760; 8232; 8233; 8239; 8287; 12288])
  || is_between 8192 8202 r.

Fixpoint drop_spaces (l : list chunk) : list chunk :=
  match l with
  | [] => []
  | c :: l' => if is_space (rune c) then drop_spaces l' else l
  end.

Definition trim_chunks (l : list chunk) : list chunk := rev (drop_spaces (rev (drop_spaces l))).
Definition trim_space (s : string) : string := of_chunks (trim_chunks (chunks_of s)).

Fixpoint fields_aux (l cur : list chunk) : list (list chunk) :=
  match l with
  | [] => match cur with [] => [] | _ => [rev cur] end
  | c :: l' =>
    if is_space (rune c)
    then match cur with [] => fields_aux l' [] | _ => rev cur :: fields_aux l' [] end
    else fields_aux l' (c :: cur)
  end.
Definition fields (s : string) : list string := map of_chunks (fields_aux (chunks_of s) []).

(** ** Case *)

Definition lower_byte (a : ascii) : ascii :=
  if is_between 65 90 (code a) then byte_of (code a + 32) else a.
Definition upper_byte (a : ascii) : ascii :=
  if is_between 97 122 (code a) then byte_of (code a - 32) else a.
Definition to_lower (s : string) : string := of_bytes (map lower_byte (bytes_of s)).
Definition to_upper (s : string) : string := of_bytes (map upper_byte (bytes_of s)).

(** Simple folding of the runes that fold to an ASCII letter (U+212A and U+017F
    are the two outside ASCII); exact when one side is ASCII, as it is wherever
    [EqualFold] is called. *)
Definition fold_rune (r : Z) : Z :=
  if is_between 65 90 r then r + 32 else if r =? 8490 then 107 else if r =? 383 then 115 else r.
Definition equal_fold (s t : string) : bool :=
  bool_decide (map fold_rune (runes s) = map fold_rune (runes t)).

(** ** Prefixes, substrings, joining *)

Fixpoint prefix_bytes (p l : list ascii) : bool :=
  match p, l with
  | [], _ => true
  | a :: p', b :: l' => Ascii.eqb a b && prefix_bytes p' l'
  | _ :: _, [] => false
  end.
Definition has_prefix (s p : string) : bool := prefix_bytes (bytes_of p) (bytes_of s).
Definition trim_prefix (s p : string) : string :=
  if has_prefix s p then of_bytes (drop (String.length p) (bytes_of s)) else s.

Fixpoint contains_bytes (p l : list ascii) : bool :=
  prefix_bytes p l || match l with [] => false | _ :: l' => contains_bytes p l' end.
Definition contains (s sub : string) : bool := contains_bytes (bytes_of sub) (bytes_of s).

Fixpoint join (sep : string) (l : list string) : string :=
  match l with
  | [] => ""
  | [x] => x
  | x :: l' => x +:+ sep +:+ join sep l'
  end.

Definition trim_suffix (s suf : string) : string :=
  of_bytes (rev (bytes_of (trim_prefix (of_bytes (rev (bytes_of s))) (of_bytes (rev (bytes_of suf)))))).
Definition has_suffix (s suf : string) : bool :=
  has_prefix (of_bytes (rev (bytes_of s))) (of_bytes (rev (bytes_of suf))).
Definition bytes_string (l : list Z) : string := of_bytes (map byte_of l).

(** [strings.Split] by one byte. *)
Fixpoint split_on (sep : Ascii.ascii) (l : list Ascii.ascii) : list (list Ascii.ascii) :=
  match l with
  | [] => [[]]
  | a :: l =>
      if decide (a = sep) then [] :: split_on sep l
      else match split_on sep l with [] => [[a]] | w :: ws => (a :: w) :: ws end
  end.
Definition split_by (sep : Ascii.ascii) (s : string) : list string := map of_bytes (split_on sep (bytes_of s)).


(** Byte-wise order of two strings, as [<] on Go strings. *)
Fixpoint bytes_lt (l1 l2 : list ascii) : bool :=
  match l1, l2 with
  | _, [] => false
  | [], _ :: _ => true
  | a :: l1', b :: l2' =>
    (code a <? code b) || ((code a =? code b) && bytes_lt l1' l2')
  end.
Definition string_lt (s t : string) : bool := bytes_lt (bytes_of s) (bytes_of t).

(** ** Facts *)

Lemma app_bytes s t : bytes_of (s +:+ t) = bytes_of s ++ bytes_of t.
Proof. induction s as [|a s IH]; [done|]. unfold bytes_of in *. simpl. by rewrite IH. Qed.

Lemma str_app_assoc (s t u : string) : (s +:+ t) +:+ u = s +:+ (t +:+ u).
Proof.
  rewrite <- (of_bytes_of ((s +:+ t) +:+ u)), <- (of_bytes_of (s +:+ (t +:+ u))).
  by rewrite !app_bytes, app_assoc.
Qed.

Lemma of_bytes_app l1 l2 : of_bytes (l1 ++ l2) = of_bytes l1 +:+ of_bytes l2.
Proof. induction l1 as [|a l1 IH]; [done|]. unfold of_bytes in *. simpl. by rewrite IH. Qed.

Lemma prefix_bytes_spec p l : prefix_bytes p l = true <-> exists k, l = p ++ k.
Proof.
  revert l. induction p as [|a p IH]; intros l; simpl; [split; [by exists l|done]|].
  destruct l as [|b l]; [split; [done | by intros [k ?]]|].
  rewrite andb_true_iff, Ascii.eqb_eq, IH. split.
  - intros [-> [k ->]]. by exists k.
  - intros [k [= -> ->]]. split; [done | by exists k].
Qed.

Lemma has_prefix_spec s p : has_prefix s p = true <-> exists r, s = p +:+ r.
Proof.
  unfold has_prefix. rewrite prefix_bytes_spec. split.
  - intros [k Hk]. exists (of_bytes k).
    by rewrite <- (of_bytes_of s), Hk, of_bytes_app, of_bytes_of.
  - intros [r ->]. exists (bytes_of r). apply app_bytes.
Qed.

Lemma contains_bytes_spec p l : contains_bytes p l = true <-> exists k1 k2, l = k1 ++ p ++ k2.
Proof.
  induction l as [|a l IH]; cbn [contains_bytes].
  - rewrite orb_false_r, prefix_bytes_spec. split.
    + intros [k Hk]. by exists [], k.
    + intros (k1 & k2 & Hk). symmetry in Hk. apply app_eq_nil in Hk as [-> Hk].
      apply app_eq_nil in Hk as [-> ->]. by exists [].
  - rewrite orb_true_iff, prefix_bytes_spec, IH. split.
    + intros [[k ->]|(k1 & k2 & ->)]; [by exists [], k | by exists (a :: k1), k2].
    + intros ([|b k1] & k2 & Hk); simpl in Hk; [left; by exists k2|].
      right. injection Hk as -> ->. by exists k1, k2.
Qed.

Lemma contains_spec s sub : contains s sub = true <-> exists a b, s = a +:+ sub +:+ b.
Proof.
  unfold contains. rewrite contains_bytes_spec. split.
  - intros (k1 & k2 & Hk). exists (of_bytes k1), (of_bytes k2).
    by rewrite <- (of_bytes_of s), Hk, !of_bytes_app, of_bytes_of.
  - intros (a & b & ->). exists (bytes_of a), (bytes_of b). by rewrite !app_bytes.
Qed.

Lemma drop_spaces_suffix l : exists k, l = k ++ drop_spaces l.
Proof.
  induction l as [|c l [k IH]]; [by exists []|]. simpl. destruct (is_space (rune c)).
  - exists (c :: k). simpl. by rewrite <- IH.
  - by exists [].
Qed.

Lemma drop_spaces_head l c k : drop_spaces l = c :: k -> is_space (rune c) = false.
Proof.
  induction l as [|d l IH]; simpl; [done|]. destruct (is_space (rune d)) eqn:E; [done|].
  by intros [= <- <-].
Qed.

Lemma drop_spaces_id l : (forall c k, l = c :: k -> is_space (rune c) = false) -> drop_spaces l = l.
Proof. destruct l as [|c l]; [done|]. intros H. simpl. by rewrite (H c l). Qed.

(** Trimming chunks twice is trimming them once. *)
Lemma trim_chunks_idem l : trim_chunks (trim_chunks l) = trim_chunks l.
Proof.
  unfold trim_chunks. set (m := drop_spaces l). set (n := drop_spaces (rev m)).
  assert (drop_spaces (rev n) = rev n) as Hn.
  { apply drop_spaces_id. intros c k Hc. destruct (drop_spaces_suffix (rev m)) as [h Hh].
    fold n in Hh. assert (m = rev n ++ rev h) as Hm by
      (rewrite <- (rev_involutive m), Hh, rev_app_distr; done).
    rewrite Hc in Hm. simpl in Hm. eapply drop_spaces_head. fold m. exact Hm. }
  rewrite Hn, rev_involutive. f_equal. apply drop_spaces_id.
  intros c k Hc. eapply drop_spaces_head. exact Hc.
Qed.

(** The first rune of a string. *)
Definition first_chunk (a : ascii) (l : list ascii) : chunk :=
  if code a <? 128 then Chunk (code a) [a]
  else if is_between 194 223 (code a) then
    match l with
    | b :: _ => if cont b then Chunk ((code a - 192) * 64 + (code b - 128)) [a; b] else bad a
    | [] => bad a
    end
  else if is_between 224 239 (code a) then
    match l with
    | b :: c :: _ =>
      if second_ok a b && cont c then
        Chunk ((code a - 224) * 4096 + (code b - 128) * 64 + (code c - 128)) [a; b; c]
      else bad a
    | _ => bad a
    end
  else if is_between 240 244 (code a) then
    match l with
    | b :: c :: d :: _ =>
      if second_ok a b && cont c && cont d then
        Chunk ((code a - 240) * 262144 + (code b - 128) * 4096 + (code c - 128) * 64
               + (code d - 128)) [a; b; c; d]
      else bad a
    | _ => bad a
    end
  else bad a.

Lemma chunks_cons a l :
  chunks (a :: l) = first_chunk a l :: chunks (drop (length (raw (first_chunk a l))) (a :: l)).
Proof.
  cbn [chunks]. unfold first_chunk.
  destruct (code a <? 128); [done|].
  destruct (is_between 194 223 (code a)); [destruct l as [|b l]; [done|]; by destruct (cont b)|].
  destruct (is_between 224 239 (code a));
    [destruct l as [|b [|c l]]; try done; by destruct (second_ok a b && cont c)|].
  destruct (is_between 240 244 (code a)); [|done].
  destruct l as [|b [|c [|d l]]]; try done. by destruct (second_ok a b && cont c && cont d).
Qed.

Lemma first_chunk_raw a l : exists k, a :: l = raw (first_chunk a l) ++ k /\ raw (first_chunk a l) <> [].
Proof. unfold first_chunk. repeat case_match; subst; by eexists. Qed.

(** It does not depend on what is cut off behind it. *)
Lemma first_chunk_cut a l k r :
  a :: l = raw (first_chunk a (l ++ r)) ++ k -> first_chunk a (l ++ r) = first_chunk a l.
Proof.
  unfold first_chunk. destruct (code a <? 128); [done|].
  destruct (is_between 194 223 (code a)); [destruct l as [|b l]; simpl; [|done]|].
  { by repeat case_match. }
  destruct (is_between 224 239 (code a)).
  { destruct l as [|b [|c l]]; simpl; try done; by repeat case_match. }
  destruct (is_between 240 244 (code a)); [|done].
  destruct l as [|b [|c [|d l]]]; simpl; try done; by repeat case_match.
Qed.

(** One rune is read, and it does not depend on what is cut off behind it. *)
Lemma chunks_step a L : exists c K,
  chunks (a :: L) = c :: chunks K /\
  forall K' r, K = K' ++ r -> chunks (raw c ++ K') = c :: chunks K'.
Proof.
  destruct (first_chunk_raw a L) as (K & HK & Hne).
  assert (forall l, drop (length (raw (first_chunk a L))) (raw (first_chunk a L) ++ l) = l) as Hd
    by (intros; apply drop_app_length).
  exists (first_chunk a L), K. rewrite chunks_cons, HK, Hd. split; [done|].
  intros K' r ->. destruct (raw (first_chunk a L)) as [|x R] eqn:E; [done|].
  cbn [app] in HK. injection HK as <- ->. cbn [app].
  assert (first_chunk a (R ++ K') = first_chunk a (R ++ K' ++ r)) as Hc.
  { rewrite app_assoc. symmetry. apply (first_chunk_cut a (R ++ K') K' r).
    rewrite <- app_assoc, E. done. }
  rewrite chunks_cons, Hc, E. f_equal. f_equal. apply Hd.
Qed.

(** Decoding a part of a string between two runes gives the same runes. *)
Lemma chunks_prefix l1 : forall L l2, chunks L = l1 ++ l2 -> chunks (concat (map raw l1)) = l1.
Proof.
  induction l1 as [|c l1 IH]; intros [|a L] l2 He; try done.
  destruct (chunks_step a L) as (d & K & Hc & Hcut). rewrite Hc in He. injection He as -> He.
  simpl. rewrite (Hcut _ (concat (map raw l2))); [by rewrite (IH K l2)|].
  by rewrite <- (concat_raw_chunks K), He, map_app, concat_app.
Qed.

Lemma chunks_suffix l1 : forall L l2, chunks L = l1 ++ l2 -> chunks (concat (map raw l2)) = l2.
Proof.
  induction l1 as [|c l1 IH]; intros L l2 He; [by simpl in He; rewrite <- He, concat_raw_chunks|].
  destruct L as [|a L]; [done|]. destruct (chunks_step a L) as (d & K & Hc & _).
  rewrite Hc in He. injection He as _ He. by apply (IH K).
Qed.

Lemma trim_space_idem s : trim_space (trim_space s) = trim_space s.
Proof.
  unfold trim_space, of_chunks, chunks_of. rewrite bytes_of_of.
  assert (chunks (concat (map raw (trim_chunks (chunks (bytes_of s))))) = trim_chunks (chunks (bytes_of s))) as ->.
  { unfold trim_chunks. set (m := drop_spaces (chunks (bytes_of s))).
    destruct (drop_spaces_suffix (chunks (bytes_of s))) as [k Hk]. fold m in Hk.
    destruct (drop_spaces_suffix (rev m)) as [h Hh].
    assert (m = rev (drop_spaces (rev m)) ++ rev h) as Hm
      by (rewrite <- rev_app_distr, <- Hh, rev_involutive; done).
    apply chunks_suffix in Hk. eapply chunks_prefix. by rewrite Hk. }
  by rewrite trim_chunks_idem.
Qed.

Lemma drop_spaces_length l : (length (drop_spaces l) <= length l)%nat.
Proof. induction l as [|c l IH]; simpl; [done|]. destruct (is_space (rune c)); simpl; lia. Qed.

Lemma trim_chunks_length l : (length (trim_chunks l) <= length l)%nat.
Proof.
  unfold trim_chunks. rewrite length_rev.
  pose proof (drop_spaces_length (rev (drop_spaces l))) as H1.
  rewrite length_rev in H1. pose proof (drop_spaces_length l). lia.
Qed.

(** ** Numbers inside keys *)

(** The decimal form of a number has digits and a sign only. *)
Definition number_char (a : ascii) : bool := is_between 48 57 (code a) || (code a =? 45).

Lemma pretty_N_char_number n : number_char (pretty_N_char n) = true.
Proof. unfold pretty_N_char. by repeat case_match. Qed.

Lemma pretty_N_go_number n s :
  Forall (fun a => number_char a = true) (bytes_of s) ->
  Forall (fun a => number_char a = true) (bytes_of (pretty_N_go n s)).
Proof.
  revert s. induction (N.lt_wf_0 n) as [n _ IH]; intros s Hs.
  assert (n = 0 \/ 0 < n)%N as [->|?] by lia; [by rewrite pretty_N_go_0|].
  rewrite pretty_N_go_step by done. apply IH; [by apply N.div_lt|].
  constructor; [apply pretty_N_char_number | done].
Qed.

Lemma pretty_Z_number (z : Z) : Forall (fun a => number_char a = true) (bytes_of (pretty z)).
Proof.
  assert (forall p : positive, Forall (fun a => number_char a = true) (bytes_of (pretty p))) as Hp.
  { intros p. unfold pretty, pretty_positive, pretty, pretty_N. case_decide; [by repeat constructor|].
    by apply pretty_N_go_number. }
  destruct z as [|p|p]; [by repeat constructor | apply Hp |].
  unfold pretty, pretty_Z. rewrite app_bytes. constructor; [done | apply Hp].
Qed.

Lemma split_at_unique {A} (c : A) l1 l2 k1 k2 :
  c ∉ l1 -> c ∉ l2 -> l1 ++ c :: k1 = l2 ++ c :: k2 -> l1 = l2 /\ k1 = k2.
Proof.
  revert l2. induction l1 as [|x l1 IH]; intros [|y l2] H1 H2 He; simplify_eq/=; [done|set_solver..|].
  rewrite not_elem_of_cons in H1, H2. destruct H1, H2. by destruct (IH l2) as [-> ->].
Qed.

Lemma number_no_sep (z : Z) (c : ascii) : number_char c = false -> c ∉ bytes_of (pretty z).
Proof.
  intros Hc Hin. pose proof (pretty_Z_number z) as Hall. rewrite Forall_forall in Hall.
  apply Hall in Hin. congruence.
Qed.

(** Two numbers joined by a separator determine both. *)
Lemma number_pair_inj (c : ascii) (a b x y : Z) :
  number_char c = false ->
  pretty a +:+ of_bytes [c] +:+ pretty b = pretty x +:+ of_bytes [c] +:+ pretty y ->
  a = x /\ b = y.
Proof.
  intros Hc He. apply (f_equal bytes_of) in He. rewrite !app_bytes, !bytes_of_of in He. simpl in He.
  apply split_at_unique in He as [H1 H2]; [|by apply number_no_sep..].
  apply (f_equal of_bytes) in H1, H2. rewrite !of_bytes_of in H1, H2.
  split; by apply (inj pretty).
Qed.

(** A printed number has no space around it. *)
Lemma number_char_ascii a : number_char a = true -> 0 <= code a < 128 /\ is_space (code a) = false.
Proof.
  unfold number_char, is_between. rewrite orb_true_iff, andb_true_iff, !Z.leb_le, Z.eqb_eq.
  intros Ha. split; [lia|]. unfold is_space, is_between. rewrite !orb_false_iff, !andb_false_iff, !Z.leb_gt.
  split_and!; [lia | | lia]. apply bool_decide_eq_false. set_unfold. lia.
Qed.

Definition one_byte (a : ascii) : chunk := Chunk (code a) [a].

Lemma chunks_ascii l : Forall (fun a => 0 <= code a < 128) l -> chunks l = map one_byte l.
Proof.
  induction 1 as [|a l Ha Hl IH]; [done|]. rewrite chunks_cons. unfold first_chunk.
  rewrite (proj2 (Z.ltb_lt _ _)) by lia. change (one_byte a :: chunks l = one_byte a :: map one_byte l). by rewrite IH.
Qed.

Lemma trim_chunks_id l : Forall (fun c => is_space (rune c) = false) l -> trim_chunks l = l.
Proof.
  intros Hl. unfold trim_chunks.
  assert (forall k, Forall (fun c => is_space (rune c) = false) k -> drop_spaces k = k) as Hid.
  { intros k Hk. apply drop_spaces_id. intros c k' ->. by inversion Hk. }
  rewrite (Hid l Hl), Hid by by apply Forall_rev. apply rev_involutive.
Qed.

Lemma trim_space_number (z : Z) : trim_space (pretty z) = pretty z.
Proof.
  unfold trim_space, chunks_of. pose proof (pretty_Z_number z) as Hz.
  rewrite trim_chunks_id; [by apply of_chunks_of|].
  rewrite chunks_ascii; [rewrite Forall_map|];
    (eapply Forall_impl; [exact Hz|]; intros a Ha; by apply number_char_ascii).
Qed.

(** ** Splitting *)

Lemma split_on_none sep l : sep ∉ l -> split_on sep l = [l].
Proof.
  induction l as [|a l IH]; intros Hs; [done|]. simpl. rewrite decide_False by set_solver.
  by rewrite IH by set_solver.
Qed.
Lemma split_on_app sep l r : sep ∉ l -> split_on sep (l ++ sep :: r) = l :: split_on sep r.
Proof.
  induction l as [|a l IH]; intros Hs; simpl; [by rewrite decide_True|].
  rewrite decide_False by set_solver. by rewrite IH by set_solver.
Qed.

(** ** Bytes *)

Lemma code_range a : 0 <= code a < 256.
Proof. unfold code. pose proof (N_ascii_bounded a). lia. Qed.
Lemma byte_of_code a : byte_of (code a) = a.
Proof. unfold code, byte_of. rewrite N2Z.id. apply ascii_N_embedding. Qed.
Lemma code_byte_of z : 0 <= z < 256 -> code (byte_of z) = z.
Proof. intros Hz. unfold code, byte_of. rewrite N_ascii_embedding; lia. Qed.
