(* ===== verification/Regex.v ===== *)
(** The [regexp] package on the patterns that the scrapers compile: sequences of
    literals, classes and repeated classes, with groups.  A match is the first one that
    a backtracking search finds, from the leftmost rune where there is one; a greedy
    repetition tries to go on first, a lazy one to stop.  Runes are those of a [range]
    over the text, so that a byte that is no UTF-8 is U+FFFD.  What the patterns of the
    scrapers find is then said with [strings.Cut]: an element is what stands between its
    opening and the next closing tag, and taking the tags out of a text leaves what is
    between them. *)
From S2P Require Export GoStrings.
From Stdlib Require Import Ascii.

(** A piece of a pattern.  [Mark] is a parenthesis, open or closed; [Stop] is [$]. *)
Inductive piece :=
  | One (p : Z -> bool)
  | Many (greedy : bool) (p : Z -> bool)
  | Mark
  | Stop.
Definition pattern := list piece.

Definition lit (s : string) : pattern := map (fun r => One (Z.eqb r)) (runes s).
Definition one_of (s : string) (r : Z) : bool := bool_decide (r ∈ runes s).
Definition none_of (s : string) (r : Z) : bool := negb (one_of s r).
(** [.] without and with the flag [s], and [\s]. *)
Definition dot (r : Z) : bool := negb (r =? 10).
Definition any_rune (r : Z) : bool := true.
Definition re_space (r : Z) : bool := bool_decide (r ∈ [9; 10; 12; 13; 32]).
Definition re_digit (r : Z) : bool := is_between 48 57 r.
Definition re_letter (r : Z) : bool := is_between 65 90 r || is_between 97 122 r.

Definition zero_or_more (p : Z -> bool) : pattern := [Many true p].
Definition one_or_more (p : Z -> bool) : pattern := [One p; Many true p].
Definition lazy_more (p : Z -> bool) : pattern := [Many false p].
Definition lazy_one_or_more (p : Z -> bool) : pattern := [One p; Many false p].
Definition captured (p : pattern) : pattern := Mark :: p ++ [Mark].

(** Where the parentheses were met, latest first, each as the text that was left. *)
Definition marks := list (list chunk).

(** A match at the beginning of a text: its marks and what is left of the text. *)
Fixpoint match_here (ps : pattern) : list chunk -> marks -> option (marks * list chunk) :=
  match ps with
  | [] => fun l ms => Some (ms, l)
  | One p :: ps => fun l ms =>
      match l with
      | c :: l => if p (rune c) then match_here ps l ms else None
      | [] => None
      end
  | Many true p :: ps =>
      fix more (l : list chunk) (ms : marks) {struct l} :=
        match l with
        | c :: l' =>
            if p (rune c)
            then match more l' ms with Some r => Some r | None => match_here ps l ms end
            else match_here ps l ms
        | [] => match_here ps l ms
        end
  | Many false p :: ps =>
      fix more (l : list chunk) (ms : marks) {struct l} :=
        match match_here ps l ms with
        | Some r => Some r
        | None => match l with c :: l' => if p (rune c) then more l' ms else None | [] => None end
        end
  | Mark :: ps => fun l ms => match_here ps l (l :: ms)
  | Stop :: ps => fun l ms => match l with [] => match_here ps l ms | _ => None end
  end.

(** The text between two places, the second of which is further on. *)
Definition between (from to : list chunk) : list chunk := take (length from - length to) from.

(** A match in a text: what it consists of, and where it begins and ends. *)
Record found := Found { fd_marks : marks; fd_start : list chunk; fd_end : list chunk }.

Fixpoint search (ps : pattern) (l : list chunk) : option found :=
  match match_here ps l [] with
  | Some (ms, rest) => Some (Found (rev ms) l rest)
  | None => match l with [] => None | _ :: l => search ps l end
  end.

(** All matches, one after the other; the patterns at hand match no empty text. *)
Fixpoint search_all (fuel : nat) (ps : pattern) (l : list chunk) : list found :=
  match fuel with
  | O => []
  | S fuel =>
      match search ps l with
      | None => []
      | Some f => f :: search_all fuel ps (fd_end f)
      end
  end.

(** The text between two of the parentheses, counted from 0 in the order in which they
    stand in the pattern. *)
Definition submatch (f : found) (i j : nat) : string :=
  match fd_marks f !! i, fd_marks f !! j with
  | Some from, Some to => of_chunks (between from to)
  | _, _ => ""
  end.

(** [FindStringSubmatch], [FindAllStringSubmatch] and [MatchString]; the first group of
    a pattern without nested groups is [group1]. *)
Definition FindSubmatch (ps : pattern) (s : string) : option found := search ps (chunks_of s).
Definition FindAll (ps : pattern) (s : string) : list found :=
  search_all (S (length (chunks_of s))) ps (chunks_of s).
Definition group1 (f : found) : string := submatch f 0 1.
Definition group2 (f : found) : string := submatch f 2 3.
(** A pattern between [^] and [$]. *)
Definition MatchWhole (ps : pattern) (s : string) : bool :=
  match match_here (ps ++ [Stop]) (chunks_of s) [] with Some _ => true | None => false end.

(** [ReplaceAllString(s, "")] *)
Fixpoint remove_all (fuel : nat) (ps : pattern) (l : list chunk) : list chunk :=
  match fuel with
  | O => l
  | S fuel =>
      match search ps l with
      | None => l
      | Some f => between l (fd_start f) ++ remove_all fuel ps (fd_end f)
      end
  end.
Definition RemoveAll (ps : pattern) (s : string) : string :=
  of_chunks (remove_all (S (length (chunks_of s))) ps (chunks_of s)).


(** ** Literals *)

(** A text after a literal at its beginning. *)
Fixpoint strip (rs : list Z) (l : list chunk) : option (list chunk) :=
  match rs, l with
  | [], _ => Some l
  | r :: rs, c :: l => if r =? rune c then strip rs l else None
  | _ :: _, [] => None
  end.
(** [strings.Cut]: what is before and after the first occurrence. *)
Fixpoint cut (rs : list Z) (l : list chunk) : option (list chunk * list chunk) :=
  match strip rs l with
  | Some rest => Some ([], rest)
  | None => match l with [] => None | c :: l => (fun r => (c :: r.1, r.2)) <$> cut rs l end
  end.

Lemma match_lit s ps l ms : match_here (lit s ++ ps) l ms =
  match strip (runes s) l with Some l' => match_here ps l' ms | None => None end.
Proof.
  unfold lit. revert l. induction (runes s) as [|r rs IH]; intros [|c l]; try done. simpl.
  by destruct (r =? rune c).
Qed.

Lemma strip_length rs : forall l l', strip rs l = Some l' -> (length l = length rs + length l')%nat.
Proof.
  induction rs as [|r rs IH]; intros [|c l] l' H; simpl in H; simplify_eq; simpl; [done..|].
  case_match; [|done]. by rewrite (IH _ _ H).
Qed.

Lemma strip_suffix rs : forall l l', strip rs l = Some l' -> l' `suffix_of` l.
Proof.
  induction rs as [|r rs IH]; intros [|c l] l' H; simpl in H; simplify_eq; try done.
  case_match; [|done]. by apply suffix_cons_r, IH.
Qed.

Lemma cut_parts rs l b a : cut rs l = Some (b, a) -> exists l', l = b ++ l' /\ strip rs l' = Some a.
Proof.
  revert b. induction l as [|c l IH]; intros b H; simpl in H.
  - destruct (strip rs []) eqn:E; [|done]. simplify_eq. by exists [].
  - destruct (strip rs (c :: l)) eqn:E; [simplify_eq; by eexists|].
    destruct (cut rs l) as [[b' a']|] eqn:Hc; [|done]. simpl in H. simplify_eq.
    destruct (IH b' eq_refl) as (l' & -> & Hs). by exists l'.
Qed.

(** Of two suffixes of a text one is a suffix of the other. *)
Lemma suffixes_nested {A} (l x y : list A) :
  x `suffix_of` l -> y `suffix_of` l -> (length x <= length y)%nat -> x `suffix_of` y.
Proof.
  intros [k ->] [k' Hk] Hlen. pose proof (f_equal length Hk) as Hl. rewrite !length_app in Hl.
  apply (f_equal (drop (length k'))) in Hk. rewrite drop_app_length, drop_app_le in Hk by lia.
  rewrite <- Hk. by exists (drop (length k') k).
Qed.

Lemma cut_after rs l b a : cut rs l = Some (b, a) ->
  a `suffix_of` l /\ (length a + length rs + length b = length l)%nat.
Proof.
  intros H. apply cut_parts in H as (l' & -> & H). split; [by apply suffix_app_r, (strip_suffix rs)|].
  apply strip_length in H. rewrite length_app. lia.
Qed.

(** A literal that occurs in a suffix occurs, and not later. *)
Lemma cut_suffix rs l l' b' a' : l' `suffix_of` l -> cut rs l' = Some (b', a') ->
  exists b a, cut rs l = Some (b, a) /\ a' `suffix_of` a.
Proof.
  intros [k ->] Hc. induction k as [|c k IH]; [by exists b', a'|].
  destruct IH as (b & a & Hb & Ha). simpl.
  destruct (strip rs (c :: k ++ l')) as [rest|] eqn:E; [|rewrite Hb; by eexists _, _].
  exists [], rest. split; [done|]. etrans; [exact Ha|].
  apply cut_after in Hb as [Hs Hl]. apply (suffixes_nested (c :: k ++ l')).
  - by apply suffix_cons_r.
  - by apply (strip_suffix rs).
  - apply strip_length in E. simpl in E. lia.
Qed.

(** ** A group up to a literal *)

Lemma match_lazy s l ms : match_here (lazy_more any_rune ++ Mark :: lit s) l ms =
  (fun r => (drop (length r.1) l :: ms, r.2)) <$> cut (runes s) l.
Proof.
  revert ms. induction l as [|c l IH]; intros ms.
  - cbn [lazy_more app match_here any_rune]. replace (lit s) with (lit s ++ []) by apply app_nil_r.
    rewrite match_lit. simpl. by destruct (strip (runes s) []).
  - cbn [lazy_more app match_here any_rune cut]. replace (lit s) with (lit s ++ []) at 1 by apply app_nil_r.
    rewrite match_lit. destruct (strip (runes s) (c :: l)) as [rest|] eqn:E; [done|].
    specialize (IH ms). cbn [lazy_more app match_here any_rune] in IH.
    replace (match_here (Mark :: lit s)) with (fun l ms => match_here (lit s) l (l :: ms)) in IH by done.
    rewrite IH. by destruct (cut (runes s) l) as [[b a]|].
Qed.

(** How a pattern begins, when there is only one way to match it: what is left after. *)
Definition opens (p : pattern) (f : list chunk -> option (list chunk)) : Prop :=
  forall ps l ms, match_here (p ++ ps) l ms = match f l with Some l' => match_here ps l' ms | None => None end.
(** Beginning later leaves no more. *)
Definition forward (f : list chunk -> option (list chunk)) : Prop := forall l l' r r',
  l' `suffix_of` l -> f l = Some r -> f l' = Some r' -> r' `suffix_of` r.

Fixpoint find_open (f : list chunk -> option (list chunk)) (l : list chunk) : option (list chunk) :=
  match f l with
  | Some rest => Some rest
  | None => match l with [] => None | _ :: l => find_open f l end
  end.

(** An element: its content and what follows it. *)
Definition element (f : list chunk -> option (list chunk)) (close : string) (l : list chunk)
    : option (list chunk * list chunk) :=
  rest ← find_open f l; cut (runes close) rest.

Lemma find_open_suffix f l r : find_open f l = Some r -> exists l', l' `suffix_of` l /\ f l' = Some r.
Proof.
  induction l as [|c l IH]; simpl; intros H; destruct (f _) as [rest|] eqn:E; simplify_eq; try by eexists.
  destruct (IH H) as (l' & Hl & Hf). exists l'. split; [by apply suffix_cons_r|done].
Qed.

(** The content of the first group of a match, and where the match ends. *)
Definition finding (f : found) : string * list chunk := (group1 f, fd_end f).
Definition content_of (r : list chunk * list chunk) : string * list chunk := (of_chunks r.1, r.2).

Lemma between_drop (l : list chunk) n : (n <= length l)%nat -> between l (drop n l) = take n l.
Proof. intros H. unfold between. rewrite length_drop. f_equal. lia. Qed.

Section elements.
Context (p : pattern) (f : list chunk -> option (list chunk)) (close : string).
Context (Hopens : opens p f) (Hforward : forward f).
Let re := p ++ captured (lazy_more any_rune) ++ lit close.

Lemma re_match l : match_here re l [] =
  rest ← f l; r ← cut (runes close) rest; Some ([drop (length r.1) rest; rest], r.2).
Proof.
  unfold re, captured. rewrite Hopens. destruct (f l) as [rest|]; [|done]. cbn [mbind option_bind].
  cbn [app]. rewrite <- app_assoc. cbn [app match_here]. change (Many false any_rune :: Mark :: lit close)
    with (lazy_more any_rune ++ Mark :: lit close).
  rewrite match_lazy. by destruct (cut (runes close) rest).
Qed.

Lemma search_element l : finding <$> search re l = content_of <$> element f close l.
Proof.
  unfold element. induction l as [|c l IH].
  - cbn [search find_open]. rewrite re_match. destruct (f []) as [rest|] eqn:E; [|done]. simpl.
    destruct (cut (runes close) rest) as [[b a]|] eqn:Hc; [|done]. simpl.
    unfold finding, content_of, group1, submatch. simpl. f_equal. f_equal. f_equal.
    apply cut_parts in Hc as (l' & -> & _).
    rewrite between_drop by (rewrite length_app; lia). by rewrite take_app_length.
  - cbn [search find_open]. rewrite re_match. destruct (f (c :: l)) as [rest|] eqn:E; simpl.
    + destruct (cut (runes close) rest) as [[b a]|] eqn:Hc; simpl.
      * unfold finding, content_of, group1, submatch. simpl. f_equal. f_equal. f_equal.
        apply cut_parts in Hc as (l' & -> & _).
        rewrite between_drop by (rewrite length_app; lia). by rewrite take_app_length.
      * rewrite IH. destruct (find_open f l) as [r|] eqn:Hf; [|done]. simpl.
        destruct (cut (runes close) r) as [[b a]|] eqn:Hr; [|done]. exfalso.
        apply find_open_suffix in Hf as (l' & Hl & Hf').
        destruct (cut_suffix (runes close) rest r b a) as (b' & a' & H & _); [|done|congruence].
        eapply (Hforward (c :: l) l'); [by apply suffix_cons_r|done..].
    + apply IH.
Qed.

Fixpoint all_elements (fuel : nat) (l : list chunk) : list string :=
  match fuel with
  | O => []
  | S fuel =>
      match element f close l with
      | None => []
      | Some r => of_chunks r.1 :: all_elements fuel r.2
      end
  end.

Lemma search_all_elements fuel : forall l, map group1 (search_all fuel re l) = all_elements fuel l.
Proof.
  induction fuel as [|fuel IH]; intros l; [done|]. simpl. pose proof (search_element l) as H.
  destruct (search re l) as [fd|], (element f close l) as [r|]; try done. simpl in *.
  injection H as Hg Hr. unfold finding, content_of in *. rewrite <- Hr, IH. by rewrite Hg.
Qed.
End elements.

(** ** The tags at hand *)

Lemma opens_lit s : opens (lit s) (strip (runes s)).
Proof. intros ps l ms. apply match_lit. Qed.

Lemma strip_forward rs : forward (strip rs).
Proof.
  intros l l' r r' Hs Hr Hr'. apply (suffixes_nested l).
  - etrans; [by apply (strip_suffix rs)|done].
  - by apply (strip_suffix rs).
  - apply strip_length in Hr. apply strip_length in Hr'. apply suffix_length in Hs. lia.
Qed.

(** [<name ...>]: everything up to the next [>]. *)
Definition tag_open (rs : list Z) (l : list chunk) : option (list chunk) :=
  l ← strip rs l; snd <$> cut (runes ">") l.

Lemma runes_gt : runes ">" = [62].
Proof. done. Qed.

Lemma match_many p ps l ms : match_here (Many true p :: ps) l ms =
  match l with
  | c :: l' =>
      if p (rune c) then
        match match_here (Many true p :: ps) l' ms with Some r => Some r | None => match_here ps l ms end
      else match_here ps l ms
  | [] => match_here ps l ms
  end.
Proof. by destruct l. Qed.

Lemma none_of_gt r : none_of ">" r = negb (62 =? r).
Proof.
  unfold none_of, one_of. rewrite runes_gt. f_equal.
  destruct (Z.eqb_spec 62 r); [apply bool_decide_eq_true|apply bool_decide_eq_false]; set_solver.
Qed.

Lemma match_attributes ps l ms : match_here (zero_or_more (none_of ">") ++ lit ">" ++ ps) l ms =
  match snd <$> cut (runes ">") l with Some l' => match_here ps l' ms | None => None end.
Proof.
  change (zero_or_more (none_of ">") ++ lit ">" ++ ps) with (Many true (none_of ">") :: One (Z.eqb 62) :: ps).
  rewrite runes_gt. induction l as [|c l IH]; [done|].
  rewrite match_many, none_of_gt, IH. cbn [match_here cut strip].
  destruct (62 =? rune c); [done|]. cbn [negb]. destruct (cut [62] l) as [[b a]|]; [|done]. simpl.
  by destruct (match_here ps a ms).
Qed.

Lemma opens_tag s : opens (lit s ++ zero_or_more (none_of ">") ++ lit ">") (tag_open (runes s)).
Proof.
  intros ps l ms. rewrite <- !app_assoc, match_lit. unfold tag_open.
  destruct (strip (runes s) l) as [l'|]; [|done]. cbn [mbind option_bind]. rewrite match_attributes.
  by destruct (cut (runes ">") l') as [[b a]|].
Qed.

Lemma tag_forward rs : forward (tag_open rs).
Proof.
  intros l l' r r' Hs Hr Hr'. unfold tag_open in *.
  destruct (strip rs l) as [m|] eqn:E; [|done]. destruct (strip rs l') as [m'|] eqn:E'; [|done].
  simpl in *. destruct (cut (runes ">") m) as [[b a]|] eqn:Hc; [|done].
  destruct (cut (runes ">") m') as [[b' a']|] eqn:Hc'; [|done]. simpl in *. simplify_eq.
  destruct (cut_suffix (runes ">") m m' b' r') as (b1 & a1 & H & Hs'); [|done|].
  - by apply (strip_forward rs l l').
  - rewrite Hc in H. by simplify_eq.
Qed.

(** ** Texts without a literal *)

Section absent.
Context (h : Z) (t : list Z) (Hh : h ∉ t).

(** A text that does not continue a literal that has begun. *)
Definition begins (y : list chunk) : Prop := match y with [] => True | c :: _ => rune c = h end.

Lemma strip_cross rs x y r : h ∉ rs -> begins y -> strip rs (x ++ y) = Some r -> is_Some (strip rs x).
Proof.
  revert x. induction rs as [|k rs IH]; intros x Hk Hy H; [by eexists|].
  apply not_elem_of_cons in Hk as [Hk Hrs]. destruct x as [|c x]; simpl in *.
  - destruct y as [|c y]; [done|]. simpl in Hy. destruct (k =? rune c) eqn:E; [apply Z.eqb_eq in E; congruence|done].
  - destruct (k =? rune c); [by eapply IH|done].
Qed.

(** A literal that is not in a text is not found in it, nor across its end. *)
Lemma cut_app x y : cut (h :: t) x = None -> begins y ->
  cut (h :: t) (x ++ y) = (fun r => (x ++ r.1, r.2)) <$> cut (h :: t) y.
Proof.
  intros Hx Hy. induction x as [|c x IH]; [cbn [app]; by destruct (cut (h :: t) y) as [[b a]|]|].
  cbn [app cut] in *. destruct (strip (h :: t) (c :: x)) eqn:E; [done|].
  destruct (cut (h :: t) x) as [[b a]|] eqn:Hc; [done|].
  assert (strip (h :: t) (c :: x ++ y) = None) as ->.
  { simpl in *. destruct (h =? rune c); [|done]. destruct (strip t (x ++ y)) eqn:E'; [|done].
    apply strip_cross in E' as [? ?]; [congruence|done..]. }
  rewrite IH by done. by destruct (cut (h :: t) y) as [[]|].
Qed.

Lemma cut_none_app x y : cut (h :: t) x = None -> cut (h :: t) y = None -> begins y ->
  cut (h :: t) (x ++ y) = None.
Proof. intros Hx Hy Hb. by rewrite cut_app, Hy. Qed.

(** What stands before the first occurrence. *)
Lemma cut_before x y rest : cut (h :: t) x = None -> begins y -> strip (h :: t) y = Some rest ->
  cut (h :: t) (x ++ y) = Some (x, rest).
Proof.
  intros Hx Hy Hs. rewrite cut_app by done. destruct y as [|c y]; [done|].
  assert (cut (h :: t) (c :: y) = Some ([], rest)) as ->; [cbn [cut]; by rewrite Hs|].
  simpl. by rewrite app_nil_r.
Qed.
End absent.

Lemma strip_longer rs rs' l : strip rs l = None -> strip (rs ++ rs') l = None.
Proof.
  revert l. induction rs as [|r rs IH]; intros [|c l] H; simpl in *; try done.
  case_match; [by apply IH|done].
Qed.
Lemma cut_longer rs rs' l : cut rs l = None -> cut (rs ++ rs') l = None.
Proof.
  intros H. induction l as [|c l IH]; cbn [cut] in *.
  - destruct (strip rs []) eqn:E; [done|]. by rewrite strip_longer.
  - destruct (strip rs (c :: l)) eqn:E; [done|]. rewrite strip_longer by done.
    destruct (cut rs l) as [[]|]; [done|]. by rewrite IH.
Qed.
Lemma cut_absent h t l : Forall (fun c => rune c <> h) l -> cut (h :: t) l = None.
Proof.
  induction 1 as [|c l Hc Hl IH]; [done|]. cbn [cut strip].
  destruct (h =? rune c) eqn:E; [apply Z.eqb_eq in E; congruence|]. by rewrite IH.
Qed.

(** ** Taking the tags out *)

(** The runes outside of tags; a tag that is not closed is text. *)
Fixpoint untag (fuel : nat) (l : list chunk) : list chunk :=
  match fuel, l with
  | O, _ | _, [] => l
  | S fuel, c :: l' =>
      if 60 =? rune c then
        match cut (runes ">") l' with
        | Some (_, rest) => untag fuel rest
        | None => l
        end
      else c :: untag fuel l'
  end.

(** [(?s)<[^>]*>] *)
Definition any_tag : pattern := lit "<" ++ zero_or_more (none_of ">") ++ lit ">".

Lemma match_tag c l ms : match_here any_tag (c :: l) ms =
  if 60 =? rune c then match cut (runes ">") l with Some r => Some (ms, r.2) | None => None end else None.
Proof.
  pose proof (opens_tag "<" [] (c :: l) ms) as H. rewrite app_nil_r in H. unfold any_tag. rewrite H.
  unfold tag_open. change (runes "<") with [60]. cbn [strip].
  destruct (60 =? rune c); [|done]. simpl. by destruct (cut (runes ">") l) as [[b a]|].
Qed.

Lemma search_tag c l : search any_tag (c :: l) =
  if 60 =? rune c
  then match cut (runes ">") l with Some r => Some (Found [] (c :: l) r.2) | None => None end
  else search any_tag l.
Proof.
  cbn [search]. rewrite match_tag. destruct (60 =? rune c) eqn:E; [|done].
  destruct (cut (runes ">") l) as [[b a]|] eqn:Hc; [done|]. clear E.
  induction l as [|d l IH]; [done|]. cbn [search]. rewrite match_tag.
  assert (cut (runes ">") l = None) as Hl.
  { rewrite runes_gt in *. cbn [cut] in Hc. destruct (strip [62] (d :: l)); [done|].
    by destruct (cut [62] l) as [[]|]. }
  rewrite Hl, IH by done. by destruct (60 =? rune d).
Qed.

Lemma search_suffix ps l f : search ps l = Some f -> fd_start f `suffix_of` l.
Proof.
  induction l as [|c l IH]; cbn [search]; destruct (match_here ps _ []) as [[ms rest]|]; intros H;
    simplify_eq; try done. apply suffix_cons_r. by apply IH.
Qed.

Lemma remove_tags n : forall l fuel, (length l <= n)%nat -> (length l < fuel)%nat ->
  remove_all fuel any_tag l = untag n l.
Proof.
  induction n as [|n IH]; intros [|c l] [|fuel] Hn Hf; simpl in Hn, Hf; try lia; try done.
  cbn [remove_all untag]. rewrite search_tag. destruct (60 =? rune c).
  - destruct (cut (runes ">") l) as [[b a]|] eqn:Hc; [|done]. cbn [fd_start fd_end].
    apply cut_after in Hc as [_ Hl]. unfold between. rewrite Nat.sub_diag. cbn [take app].
    apply IH; simpl; lia.
  - rewrite <- (IH l (S fuel)) by lia. cbn [remove_all].
    destruct (search any_tag l) as [f|] eqn:Hs; [|done].
    apply search_suffix, suffix_length in Hs. unfold between. cbn [length].
    replace (S (length l) - length (fd_start f))%nat with (S (length l - length (fd_start f))) by lia.
    done.
Qed.

Theorem RemoveAll_tags s : RemoveAll any_tag s = of_chunks (untag (length (chunks_of s)) (chunks_of s)).
Proof. unfold RemoveAll. rewrite (remove_tags (length (chunks_of s))) by lia. done. Qed.

(** ** Texts next to each other *)

(** A text that starts below 128 starts a rune. *)
Definition starts_ascii (l : list Ascii.ascii) : Prop := match l with [] => True | a :: _ => code a < 128 end.

Lemma chunks_app k l : starts_ascii l -> chunks (k ++ l) = chunks k ++ chunks l.
Proof.
  intros Hl. remember (length k) as n eqn:Hn. assert (length k <= n)%nat as Hle by lia. clear Hn.
  revert k Hle. induction n as [|n IH]; intros [|a k] Hle; try done; [simpl in Hle; lia|].
  destruct (first_chunk_raw a (k ++ l)) as (r & Hr & Hne).
  assert (first_chunk a (k ++ l) = first_chunk a k) as He.
  { unfold first_chunk. destruct (code a <? 128); [done|].
    destruct l as [|b l]; [by rewrite app_nil_r|]. simpl in Hl.
    assert (cont b = false) as Hcont.
    { unfold cont, is_between. apply andb_false_iff. left. apply Z.leb_gt. lia. }
    assert (forall x, second_ok x b = false) as Hsec.
    { intros x. unfold second_ok, is_between. apply andb_false_iff. left. apply Z.leb_gt.
      unfold second_range. repeat case_match; simpl; lia. }
    destruct (is_between 194 223 (code a)); [destruct k as [|c k]; simpl; [by rewrite Hcont|done]|].
    destruct (is_between 224 239 (code a)).
    { destruct k as [|c [|d k]]; simpl; [|by rewrite Hcont, andb_false_r|done].
      rewrite Hsec. by destruct l. }
    destruct (is_between 240 244 (code a)); [|done].
    destruct k as [|c [|d [|e k]]]; simpl; [| | by rewrite Hcont, andb_false_r |done].
    - rewrite Hsec. by repeat case_match.
    - rewrite Hcont, andb_false_r. by destruct l. }
  cbn [app]. rewrite !chunks_cons, He. cbn [app]. f_equal.
  assert (length (raw (first_chunk a k)) <= length (a :: k))%nat as Hlen.
  { destruct (first_chunk_raw a k) as (r' & Hr' & _). rewrite Hr', length_app. lia. }
  change (a :: k ++ l) with ((a :: k) ++ l). rewrite drop_app_le by done. apply IH.
  rewrite length_drop. rewrite He in Hne. destruct (raw (first_chunk a k)); [done|]. simpl in *. lia.
Qed.

Lemma chunks_ascii_app k l : Forall (fun a => code a < 128) k -> chunks (k ++ l) = chunks k ++ chunks l.
Proof.
  induction 1 as [|a k Ha Hk IH]; [done|]. cbn [app chunks].
  rewrite (proj2 (Z.ltb_lt _ _) Ha). cbn [app]. by f_equal.
Qed.
