(* ===== verification/Calendar.v ===== *)
(** Dates of Go's [time] package: days of the proleptic Gregorian calendar counted
    from 1 January 1970, and the instants at which the days, weeks, months and years
    of Shanghai begin.  The zone is eight hours ahead of UTC, as it has been since
    1992; the code asks for it only at the present. *)
From S2P Require Export GoStrings.

#[local] Ltac Zify.zify_post_hook ::= Z.to_euclidean_division_equations.

(** ** Days *)

(** The day on which a year begins. *)
Definition year_start (y : Z) : Z :=
  365 * y + (y - 1) / 4 - (y - 1) / 100 + (y - 1) / 400 - 719527.
Definition leap_days (y : Z) : Z := year_start (y + 1) - year_start y - 365.

(** The days of a year before its [i]th month, counted from 0. *)
Definition days_before (y i : Z) : Z :=
  let l := leap_days y in
  if i <? 1 then 0 else if i <? 2 then 31 else if i <? 3 then 59 + l else if i <? 4 then 90 + l
  else if i <? 5 then 120 + l else if i <? 6 then 151 + l else if i <? 7 then 181 + l
  else if i <? 8 then 212 + l else if i <? 9 then 243 + l else if i <? 10 then 273 + l
  else if i <? 11 then 304 + l else 334 + l.

(** [time.Date] normalises a month outside 1..12 into its year. *)
Definition month_start (y m : Z) : Z :=
  let y := y + (m - 1) / 12 in year_start y + days_before y ((m - 1) mod 12).

(** The year of a day, from an estimate that is off by one at most. *)
Definition year_of (z : Z) : Z :=
  let y := (400 * z) / 146097 + 1970 in
  if z <? year_start y then y - 1 else if year_start (y + 1) <=? z then y + 1 else y.

(** The last month that begins by the day. *)
Fixpoint month_from (n : nat) (y z : Z) : Z :=
  match n with
  | O => 1
  | S k => if month_start y (Z.of_nat n + 1) <=? z then Z.of_nat n + 1 else month_from k y z
  end.
Definition month_of (z : Z) : Z := month_from 11 (year_of z) z.

(** [time.Weekday]: Sunday is 0. *)
Definition weekday (z : Z) : Z := (z + 4) mod 7.

(** ** Instants in Shanghai *)

Definition day : Z := 24 * hour.
Definition zone : Z := 8 * hour.
Definition local_day (t : Z) : Z := (t + zone) / day.
(** Midnight of a day. *)
Definition midnight (z : Z) : Z := z * day - zone.

Lemma midnight_le t : midnight (local_day t) <= t < midnight (local_day t + 1).
Proof.
  unfold midnight, local_day. pose proof (Z.div_mod (t + zone) day ltac:(done)).
  pose proof (Z.mod_pos_bound (t + zone) day eq_refl). lia.
Qed.

Lemma midnight_mono a b : a <= b -> midnight a <= midnight b.
Proof. unfold midnight, day, hour, minute, second. lia. Qed.
Lemma midnight_mono_lt a b : a < b -> midnight a < midnight b.
Proof. unfold midnight, day, hour, minute, second. lia. Qed.

(** ** Texts of a day *)

Definition day_of_month (z : Z) : Z := z - month_start (year_of z) (month_of z) + 1.
Definition zero_pad (n : nat) (z : Z) : string :=
  let digits := pretty (Z.abs z) in
  (if z <? 0 then "-" else "") +:+ of_bytes (replicate (n - String.length digits) (byte_of 48)) +:+ digits.
(** [Format("20060102")] and [Format("2006年1月2日")] *)
Definition format_compact (z : Z) : string :=
  zero_pad 4 (year_of z) +:+ zero_pad 2 (month_of z) +:+ zero_pad 2 (day_of_month z).
Definition format_long (z : Z) : string :=
  zero_pad 4 (year_of z) +:+ "年" +:+ pretty (month_of z) +:+ "月" +:+ pretty (day_of_month z) +:+ "日".

(** ** Years and months follow each other *)

Lemma leap_days_bound y : 0 <= leap_days y <= 1.
Proof. unfold leap_days, year_start. lia. Qed.

Lemma year_start_next y : year_start y + 365 <= year_start (y + 1) <= year_start y + 366.
Proof. pose proof (leap_days_bound y). unfold leap_days in *. lia. Qed.

Lemma year_of_spec z : year_start (year_of z) <= z < year_start (year_of z + 1).
Proof.
  unfold year_of. set (y := (400 * z) / 146097 + 1970).
  assert (year_start (y - 1) <= z /\ z < year_start (y + 2)) as [Hlo Hhi].
  { unfold y, year_start. lia. }
  destruct (Z.ltb_spec z (year_start y)); [replace (y - 1 + 1) with y by lia; lia|].
  destruct (Z.leb_spec (year_start (y + 1)) z); [|lia].
  replace (y + 1 + 1) with (y + 2) by lia. lia.
Qed.

Lemma days_before_bound y i : 0 <= days_before y i <= 335.
Proof.
  pose proof (leap_days_bound y). unfold days_before. repeat case_match; lia.
Qed.

Lemma month_start_in y m : year_start (y + (m - 1) / 12) <= month_start y m < year_start (y + (m - 1) / 12 + 1).
Proof.
  unfold month_start. pose proof (days_before_bound (y + (m - 1) / 12) ((m - 1) mod 12)).
  pose proof (year_start_next (y + (m - 1) / 12)). lia.
Qed.

Lemma days_before_next y i : 0 <= i < 11 -> days_before y i < days_before y (i + 1).
Proof.
  intros Hi. pose proof (leap_days_bound y).
  assert (i = 0 \/ i = 1 \/ i = 2 \/ i = 3 \/ i = 4 \/ i = 5 \/ i = 6 \/ i = 7 \/ i = 8 \/ i = 9 \/ i = 10) as Hc by lia.
  destruct_or! Hc; subst i; unfold days_before; simpl; lia.
Qed.

Lemma month_start_next y m : month_start y m < month_start y (m + 1).
Proof.
  pose proof (Z.mod_pos_bound (m - 1) 12 eq_refl) as Hb. pose proof (Z.div_mod (m - 1) 12 ltac:(done)) as Hd.
  destruct (decide ((m - 1) mod 12 = 11)) as [He|Hne].
  - assert ((m + 1 - 1) / 12 = (m - 1) / 12 + 1) as Hq by lia.
    pose proof (month_start_in y m). pose proof (month_start_in y (m + 1)) as Hn. rewrite Hq in Hn.
    replace (y + ((m - 1) / 12 + 1)) with (y + (m - 1) / 12 + 1) in Hn by lia. lia.
  - unfold month_start. assert ((m + 1 - 1) / 12 = (m - 1) / 12) as -> by lia.
    assert ((m + 1 - 1) mod 12 = (m - 1) mod 12 + 1) as -> by lia.
    pose proof (days_before_next (y + (m - 1) / 12) ((m - 1) mod 12)). lia.
Qed.

Lemma month_start_january y : month_start y 1 = year_start y.
Proof.
  unfold month_start. change ((1 - 1) / 12) with 0. change ((1 - 1) mod 12) with 0.
  cbv zeta. rewrite (Z.add_0_r y). change (days_before y 0) with 0. apply Z.add_0_r.
Qed.

Lemma month_start_next_year y : month_start y 13 = year_start (y + 1).
Proof.
  unfold month_start. change ((13 - 1) / 12) with 1. change ((13 - 1) mod 12) with 0.
  cbv zeta. change (days_before (y + 1) 0) with 0. apply Z.add_0_r.
Qed.

Lemma month_from_spec n y z : (n <= 11)%nat -> month_start y 1 <= z < month_start y (Z.of_nat n + 2) ->
  let m := month_from n y z in 1 <= m <= Z.of_nat n + 1 /\ month_start y m <= z < month_start y (m + 1).
Proof.
  induction n as [|n IH]; intros Hn Hz; [simpl in *; split; [lia|exact Hz]|]. cbn zeta.
  cbn [month_from]. destruct (Z.leb_spec (month_start y (Z.of_nat (S n) + 1)) z) as [Hle|Hgt].
  - split; [lia|]. replace (Z.of_nat (S n) + 1 + 1) with (Z.of_nat (S n) + 2) by lia. lia.
  - replace (Z.of_nat (S n) + 1) with (Z.of_nat n + 2) in Hgt by lia.
    destruct (IH ltac:(lia) ltac:(lia)) as [H1 H2]. split; [lia|exact H2].
Qed.

Lemma month_of_spec z : 1 <= month_of z <= 12 /\
  month_start (year_of z) (month_of z) <= z < month_start (year_of z) (month_of z + 1).
Proof.
  unfold month_of. pose proof (year_of_spec z) as Hy.
  destruct (month_from_spec 11 (year_of z) z) as [H1 H2]; [lia| |split; [exact H1|exact H2]].
  change (Z.of_nat 11 + 2) with 13. by rewrite month_start_january, month_start_next_year.
Qed.

(** The first day of the week that ends on a Sunday. *)
Definition week_start_day (z : Z) : Z :=
  z - (if decide (weekday z = 0) then 7 - 1 else weekday z - 1).

Lemma week_start_spec z : week_start_day z <= z < week_start_day z + 7 /\ weekday (week_start_day z) = 1.
Proof.
  unfold week_start_day, weekday. pose proof (Z.mod_pos_bound (z + 4) 7 eq_refl).
  case_decide; split; lia.
Qed.
