(* ===== verification/Http.v ===== *)
(** What the gateway uses of Go's [net/http]: headers, requests, responses, round
    trippers; and the state in which a request is served. *)
From S2P Require Export Prelude GoStrings.

(** ** Headers *)

(** The characters of a header name (RFC 7230 tokens). *)
Definition token_char (c : Z) : bool :=
  is_between 48 57 c || is_between 65 90 c || is_between 97 122 c
  || bool_decide (c ∈ [33; 35; 36; 37; 38; 39; 42; 43; 45; 46; 94; 95; 96; 124; 126]).

Fixpoint canonical_from (up : bool) (l : list Ascii.ascii) : list Ascii.ascii :=
  match l with
  | [] => []
  | a :: l => (if up then upper_byte a else lower_byte a) :: canonical_from (code a =? 45) l
  end.

(** [http.CanonicalHeaderKey] *)
Definition CanonicalHeaderKey (s : string) : string :=
  if forallb (fun a => token_char (code a)) (bytes_of s) then of_bytes (canonical_from true (bytes_of s)) else s.

Abbreviation Header := (gmap string (list string)).
Definition header_get (h : Header) (k : string) : string :=
  match h !! CanonicalHeaderKey k with Some (v :: _) => v | _ => "" end.
Definition header_set (k v : string) (h : Header) : Header := <[CanonicalHeaderKey k := [v]]> h.
Definition header_add (k v : string) (h : Header) : Header :=
  <[CanonicalHeaderKey k := default [] (h !! CanonicalHeaderKey k) ++ [v]]> h.
Definition header_del (k : string) (h : Header) : Header := delete (CanonicalHeaderKey k) h.

(** ** Messages *)

Record Request := HttpRequest {
  rq_Method : string; rq_Path : string; rq_Host : string; rq_Header : Header; rq_Body : string;
  rq_ClientIP : option string }.

(** [rs_Header]: the map may be nil.  [rs_Conn]: the body is read from a connection, so that nothing can be read from it
    once it is closed; a body made by the gateway stays readable. *)
Record Response := HttpResponse {
  rs_Status : Z; rs_Header : option Header; rs_Body : string; rs_Conn : bool; rs_Closed : bool }.

Definition set_path (p : string) (r : Request) : Request :=
  HttpRequest (rq_Method r) p (rq_Host r) (rq_Header r) (rq_Body r) (rq_ClientIP r).
Definition set_host (h : string) (r : Request) : Request :=
  HttpRequest (rq_Method r) (rq_Path r) h (rq_Header r) (rq_Body r) (rq_ClientIP r).
Definition map_header (f : Header -> Header) (r : Request) : Request :=
  HttpRequest (rq_Method r) (rq_Path r) (rq_Host r) (f (rq_Header r)) (rq_Body r) (rq_ClientIP r).
Definition reply_header (r : Response) : Header := default ∅ (rs_Header r).
Definition set_reply_header (h : Header) (r : Response) : Response :=
  HttpResponse (rs_Status r) (Some h) (rs_Body r) (rs_Conn r) (rs_Closed r).
Definition close_body (r : Response) : Response :=
  HttpResponse (rs_Status r) (rs_Header r) (rs_Body r) (rs_Conn r) true.

(** ** Serving *)

(** What one request changes: the requests that were sent to a backend, in order, and
    the outcomes the retry breaker was told, latest first. *)
Record gateway := GatewayState { gw_sent : list Request; gw_marks : list bool }.

(** A Go function returns a value, returns an error, or panics. *)
Inductive result (A : Type) :=
  | Ok (a : A)
  | Failed (e : goerr)
  | Panicked (msg : string).
Arguments Ok {A} a.
Arguments Failed {A} e.
Arguments Panicked {A} msg.

Definition G (A : Type) : Type := gateway -> result A * gateway.
#[export] Instance G_ret : MRet G := fun _ a w => (Ok a, w).
#[export] Instance G_bind : MBind G := fun _ _ f m w =>
  match m w with
  | (Ok a, w') => f a w'
  | (Failed e, w') => (Failed e, w')
  | (Panicked s, w') => (Panicked s, w')
  end.
Definition g_fail {A} (e : goerr) : G A := fun w => (Failed e, w).
Definition g_panic {A} (s : string) : G A := fun w => (Panicked s, w).

Definition RoundTripper : Type := Request -> G Response.

(** [context.Canceled] and [context.DeadlineExceeded] *)
Definition Canceled : goerr := ErrorText "context canceled".
Definition DeadlineExceeded : goerr := ErrorText "context deadline exceeded".
Fixpoint error_is (target e : goerr) : bool :=
  bool_decide (e = target) || match e with Wrapped _ c => error_is target c | _ => false end.

(** What the gateway relies on from outside: the answer of the backends to the [n]th
    request sent, the expiry of the request's context when [n] were sent, the breaker
    that throttles retries, and the switch of the retry feature. *)
Class Network := {
  backend : nat -> Request -> outcome Response;
  ctx_err : nat -> option goerr;
  retry_allowed : list bool -> bool;
  retry_enabled : bool
}.

Section client.
Context `{Network}.

(** [client.RoundTrip]: pick a node and send. *)
Definition client_trip : RoundTripper := fun req w =>
  (match backend (length (gw_sent w)) req with Val r => Ok r | Exn e => Failed e end,
   GatewayState (gw_sent w ++ [req]) (gw_marks w)).
End client.
