(* ===== verification/Store.v ===== *)
(** The persistent state the services share and the statements they run on it.

    A SQL table is the list of its rows in primary-key order with the next value
    of its sequence.  The model of a statement is the meaning of the SQL that the
    gorm call chain writes: [First] is [ORDER BY id LIMIT 1], a model with a
    [deleted_at] column hides the rows on which it is set, [Updates] writes every
    matching visible row and reports how many there were.  Whether a call reaches
    the database, the cache or the broker at all is not decided here: every
    external call consults [w_fault], so that each theorem holds for every
    pattern of failures.  A transaction that returns an error, or whose commit
    fails, restores the rows; sequences and the cache are not transactional. *)
From S2P Require Export Prelude.

(** ** Tables *)

Record table (R : Type) := Table { rows : list R; next_id : Z }.
Arguments Table {R} rows next_id.
Arguments rows {R} _.
Arguments next_id {R} _.

(** What a row type promises to the statements: its primary key and whether the
    row is visible ([deleted_at] is null; always, in a table without it). *)
Class Entity (R : Type) := {
  row_id : R -> Z;
  row_live : R -> bool
}.

(** A model with [deleted_at]: a delete hides the row. *)
Class SoftDelete (R : Type) `{Entity R} := {
  row_kill : R -> R;
  row_kill_id r : row_id (row_kill r) = row_id r;
  row_kill_live r : row_live (row_kill r) = false
}.

(** A database [D] holds a table of rows [R]. *)
Class Holds (D R : Type) := {
  table_of : D -> table R;
  set_table : table R -> D -> D;
  table_of_set t d : table_of (set_table t d) = t
}.

(** What a transaction restores: [rollback old new] has the rows of [old]. *)
Class Transactional (D : Type) := {
  rollback : D -> D -> D
}.

Definition rollback_table {R} (old new : table R) : table R :=
  Table (rows old) (Z.max (next_id old) (next_id new)).

Lemma sorted_lt_NoDup (l : list Z) : StronglySorted Z.lt l -> NoDup l.
Proof.
  induction 1 as [|x l _ IH Hall]; constructor; [|done].
  intros Hx. rewrite Forall_forall in Hall. specialize (Hall _ Hx). simpl in Hall. lia.
Qed.

Section statements.
Context {R : Type} `{Entity R}.
Implicit Types (t : table R) (p : R -> bool) (f : R -> R).

Definition visible p : R -> bool := fun r => row_live r && p r.

Definition select p t : list R := where_ (visible p) (rows t).
Definition first_match p t : option R := head (select p t).
Definition count_match p t : Z := count_where (visible p) (rows t).
Definition update_match p f t : table R :=
  Table (map (fun r => if visible p r then f r else r) (rows t)) (next_id t).
Definition insert_row (mk : Z -> R) t : table R :=
  Table (rows t ++ [mk (next_id t)]) (next_id t + 1).
(** A [DELETE] on a model without [deleted_at], or after [Unscoped]. *)
Definition remove_match p t : table R :=
  Table (where_ (fun r => negb (visible p r)) (rows t)) (next_id t).

Definition by_id (id : Z) : R -> bool := fun r => bool_decide (row_id r = id).

(** Keys are positive, increasing, and below the sequence. *)
Definition table_wf t : Prop :=
  StronglySorted Z.lt (map row_id (rows t)) /\
  Forall (fun r => 0 < row_id r < next_id t) (rows t) /\ 0 < next_id t.

(** Row [id] is visible in [t] and is [r]. *)
Definition has_row t (id : Z) (r : R) : Prop := first_match (by_id id) t = Some r.

Lemma elem_of_select p t r : r ∈ select p t <-> r ∈ rows t /\ row_live r = true /\ p r = true.
Proof. unfold select. rewrite elem_of_where. unfold visible. rewrite andb_true_iff. tauto. Qed.

Lemma first_match_some p t r :
  first_match p t = Some r -> r ∈ rows t /\ row_live r = true /\ p r = true.
Proof.
  intros Hf. apply elem_of_select. unfold first_match in Hf.
  destruct (select p t); simplify_eq/=. set_solver.
Qed.

Lemma first_match_none p t r :
  first_match p t = None -> r ∈ rows t -> row_live r = true -> p r = false.
Proof.
  intros Hf Hr Hl. apply (head_where_none _ _ Hf) in Hr.
  unfold visible in Hr. by rewrite Hl in Hr.
Qed.

Lemma has_row_id t id r : has_row t id r -> row_id r = id.
Proof. intros (_ & _ & Hp)%first_match_some. unfold by_id in Hp. by bool_cases. Qed.

Lemma has_row_in t id r : has_row t id r -> r ∈ rows t /\ row_live r = true.
Proof. intros (? & ? & _)%first_match_some. done. Qed.

(** *** Keys are unique *)

Lemma sorted_ids_unique (l : list R) r1 r2 :
  StronglySorted Z.lt (map row_id l) -> r1 ∈ l -> r2 ∈ l -> row_id r1 = row_id r2 -> r1 = r2.
Proof.
  induction l as [|r l IH]; simpl; intros Hs H1 H2 He; [set_solver|].
  inversion Hs as [|? ? Hs' Hall]; subst. rewrite Forall_map, Forall_forall in Hall.
  apply elem_of_cons in H1 as [->|H1]; apply elem_of_cons in H2 as [->|H2]; auto.
  - specialize (Hall _ H2). simpl in Hall. lia.
  - specialize (Hall _ H1). simpl in Hall. lia.
Qed.

Lemma table_wf_unique t r1 r2 :
  table_wf t -> r1 ∈ rows t -> r2 ∈ rows t -> row_id r1 = row_id r2 -> r1 = r2.
Proof. intros [Hs _]. by apply sorted_ids_unique. Qed.

Lemma has_row_iff t id r :
  table_wf t -> has_row t id r <-> r ∈ rows t /\ row_live r = true /\ row_id r = id.
Proof.
  intros Hwf. split.
  - intros Hr. pose proof (has_row_id _ _ _ Hr). apply has_row_in in Hr as [? ?]. done.
  - intros (Hin & Hl & Hid). unfold has_row.
    destruct (first_match (by_id id) t) as [r'|] eqn:E.
    + apply first_match_some in E as (Hin' & Hl' & Hp). unfold by_id in Hp. bool_cases.
      f_equal. eapply table_wf_unique; eauto. congruence.
    + eapply first_match_none in E; [|done..]. unfold by_id in E. bool_cases. congruence.
Qed.

Lemma has_row_fun t id r1 r2 : has_row t id r1 -> has_row t id r2 -> r1 = r2.
Proof. unfold has_row. congruence. Qed.

(** *** The statements preserve well-formedness *)

Lemma map_row_id_update p f (l : list R) :
  (forall r, row_id (f r) = row_id r) ->
  map row_id (map (fun r => if visible p r then f r else r) l) = map row_id l.
Proof.
  intros Hf. rewrite map_map. apply map_ext. intros r. by destruct (visible p r).
Qed.

Lemma table_wf_update p f t :
  (forall r, row_id (f r) = row_id r) -> table_wf t -> table_wf (update_match p f t).
Proof.
  intros Hf (Hs & Hall & Hn). unfold table_wf, update_match; simpl. split_and!; [|  |done].
  - by rewrite map_row_id_update.
  - rewrite Forall_map. eapply Forall_impl; [exact Hall|]. simpl.
    intros r ?. destruct (visible p r); rewrite ?Hf; done.
Qed.

Lemma sorted_snoc (l : list Z) x :
  StronglySorted Z.lt l -> Forall (fun y => y < x) l -> StronglySorted Z.lt (l ++ [x]).
Proof.
  induction l as [|y l IH]; simpl; intros Hs Hall; [repeat constructor|].
  inversion Hs; inversion Hall; subst. constructor; [auto|].
  apply Forall_app. split; [done | by repeat constructor].
Qed.

Lemma table_wf_insert mk t :
  (forall i, row_id (mk i) = i) -> table_wf t -> table_wf (insert_row mk t).
Proof.
  intros Hmk (Hs & Hall & Hn). unfold table_wf, insert_row; simpl. split_and!; [| |lia].
  - rewrite map_app. simpl. rewrite Hmk. apply sorted_snoc; [done|].
    rewrite Forall_map. eapply Forall_impl; [exact Hall|]. simpl. lia.
  - apply Forall_app. split.
    + eapply Forall_impl; [exact Hall|]. simpl. lia.
    + constructor; [rewrite Hmk; lia | constructor].
Qed.

Lemma sorted_where p (l : list R) :
  StronglySorted Z.lt (map row_id l) -> StronglySorted Z.lt (map row_id (where_ p l)).
Proof.
  induction l as [|r l IH]; simpl; intros Hs; [constructor|].
  inversion Hs as [|? ? Hs' Hall]; subst.
  destruct (p r); simpl; [|auto]. constructor; [auto|].
  rewrite Forall_map, Forall_forall in Hall |- *. intros x [Hx _]%elem_of_where. auto.
Qed.

Lemma table_wf_remove p t : table_wf t -> table_wf (remove_match p t).
Proof.
  intros (Hs & Hall & Hn). unfold table_wf, remove_match; simpl. split_and!; [| |done].
  - by apply sorted_where.
  - rewrite Forall_forall in Hall |- *. intros x [Hx _]%elem_of_where. auto.
Qed.

Lemma table_wf_rollback t t' : table_wf t -> table_wf (rollback_table t t').
Proof.
  intros (Hs & Hall & Hn). unfold table_wf, rollback_table; simpl. split_and!; [done| |lia].
  eapply Forall_impl; [exact Hall|]. simpl. lia.
Qed.

(** *** What a visible row becomes *)

Lemma elem_of_update p f t r' :
  r' ∈ rows (update_match p f t) <->
  exists r, r ∈ rows t /\ r' = if visible p r then f r else r.
Proof.
  simpl. rewrite list_elem_of_In, in_map_iff. setoid_rewrite <- list_elem_of_In. naive_solver.
Qed.

Lemma elem_of_insert mk t r :
  r ∈ rows (insert_row mk t) <-> r ∈ rows t \/ r = mk (next_id t).
Proof. simpl. rewrite elem_of_app, list_elem_of_singleton. done. Qed.

(** The row with a given key is updated and no other. *)
Lemma elem_of_update_id f t r r' :
  table_wf t -> r ∈ rows t -> row_live r = true ->
  r' ∈ rows (update_match (by_id (row_id r)) f t) ->
  r' = f r \/ r' ∈ rows t /\ row_id r' <> row_id r.
Proof.
  intros Hwf Hr Hl (r0 & Hr0 & ->)%elem_of_update. unfold visible, by_id.
  destruct (decide (row_id r0 = row_id r)) as [He|Hne].
  - rewrite (table_wf_unique t r0 r) by done. rewrite Hl, bool_decide_true by done. by left.
  - right. rewrite bool_decide_false, andb_false_r by done. done.
Qed.

Lemma has_row_update p f t id r :
  table_wf t -> (forall r, row_id (f r) = row_id r) ->
  has_row (update_match p f t) id r <->
  exists r0, r0 ∈ rows t /\ row_live r = true /\ row_id r0 = id /\
             r = if visible p r0 then f r0 else r0.
Proof.
  intros Hwf Hf. rewrite has_row_iff by by apply table_wf_update.
  rewrite elem_of_update. split.
  - intros ((r0 & Hin & ->) & Hl & Hid). exists r0. split_and!; auto.
    destruct (visible p r0); [by rewrite Hf in Hid | done].
  - intros (r0 & Hin & Hl & Hid & ->). split_and!; eauto.
    destruct (visible p r0); [by rewrite Hf | done].
Qed.

Lemma has_row_insert mk t id r :
  table_wf t -> (forall i, row_id (mk i) = i) -> (forall i, row_live (mk i) = true) ->
  has_row (insert_row mk t) id r <-> has_row t id r \/ (id = next_id t /\ r = mk id).
Proof.
  intros Hwf Hmk Hl. rewrite !has_row_iff by (done || by apply table_wf_insert).
  rewrite elem_of_insert. split.
  - intros ([?| ->] & ? & Hid); [by left|]. right. by rewrite Hmk in Hid; subst.
  - intros [(?&?&?)|[-> ->]]; [by auto|]. split_and!; auto.
Qed.

(** *** Looking a key up after a statement *)

Lemma select_update p f q t :
  (forall r, row_id (f r) = row_id r) -> (forall r, row_live (f r) = row_live r) ->
  (forall r, q (f r) = q r) ->
  select q (update_match p f t) = map (fun r => if visible p r then f r else r) (select q t).
Proof.
  intros Hid Hl Hq. unfold select, update_match; simpl. rewrite map_where. f_equal.
  apply where_ext. intros r _. unfold visible at 1 3. destruct (visible p r); [|done].
  by rewrite Hl, Hq.
Qed.

Lemma first_match_update p f id t :
  (forall r, row_id (f r) = row_id r) -> (forall r, row_live (f r) = row_live r) ->
  first_match (by_id id) (update_match p f t) =
  (fun r => if p r then f r else r) <$> first_match (by_id id) t.
Proof.
  intros Hid Hl. unfold first_match. rewrite select_update;
    [|done|done| intros r; unfold by_id; by rewrite Hid].
  destruct (select (by_id id) t) as [|r l] eqn:E; [done|]. simpl. do 2 f_equal.
  assert (r ∈ select (by_id id) t) as Hr by (rewrite E; set_solver).
  apply elem_of_select in Hr as (_ & Hr & _). unfold visible. by rewrite Hr.
Qed.

Lemma first_match_insert mk id t :
  (forall i, row_id (mk i) = i) -> (forall i, row_live (mk i) = true) ->
  first_match (by_id id) (insert_row mk t) =
  match first_match (by_id id) t with
  | Some r => Some r
  | None => if decide (id = next_id t) then Some (mk id) else None
  end.
Proof.
  intros Hmk Hl. unfold first_match, select, insert_row; simpl. rewrite where_app.
  destruct (where_ (visible (by_id id)) (rows t)); simpl; [|done].
  unfold visible, by_id. rewrite Hl, Hmk. simpl. case_decide as Hd.
  - subst. by rewrite bool_decide_true.
  - by rewrite bool_decide_false by congruence.
Qed.

(** Keys at and above the sequence are free. *)
Lemma first_match_fresh id t : table_wf t -> next_id t <= id -> first_match (by_id id) t = None.
Proof.
  intros (_ & Hall & _) Hid. destruct (first_match (by_id id) t) as [r|] eqn:E; [|done].
  pose proof (has_row_id _ _ _ E). apply has_row_in in E as [Hin _].
  rewrite Forall_forall in Hall. specialize (Hall _ Hin). simpl in Hall. lia.
Qed.

(** *** Counting after a statement *)

Lemma count_match_insert p mk t :
  count_match p (insert_row mk t) =
  count_match p t + if visible p (mk (next_id t)) then 1 else 0.
Proof.
  unfold count_match, insert_row; simpl. rewrite count_where_app. f_equal.
  unfold count_where; simpl. by destruct (visible p (mk (next_id t))).
Qed.

Lemma count_match_update p f q q' t :
  (forall r, r ∈ rows t -> visible q (if visible p r then f r else r) = visible q' r) ->
  count_match q (update_match p f t) = count_match q' t.
Proof.
  intros Hq. unfold count_match, count_where, update_match; simpl.
  rewrite map_where, length_map. do 2 f_equal. by apply where_ext.
Qed.

Lemma count_match_none p t : (forall r, r ∈ rows t -> p r = false) -> count_match p t = 0.
Proof.
  intros Hp. unfold count_match, count_where. rewrite where_none; [done|].
  intros r Hr. unfold visible. rewrite (Hp r Hr). by destruct (row_live r).
Qed.

Lemma has_row_rollback t t' id r : has_row (rollback_table t t') id r <-> has_row t id r.
Proof. done. Qed.
End statements.

Section soft_delete.
Context {R : Type} `{SoftDelete R}.
Implicit Types (t : table R) (p : R -> bool).

Definition delete_match p t : table R := update_match p row_kill t.

Lemma table_wf_delete p t : table_wf t -> table_wf (delete_match p t).
Proof. apply table_wf_update, row_kill_id. Qed.

Lemma has_row_delete p t id r :
  table_wf t ->
  has_row (delete_match p t) id r <-> has_row t id r /\ p r = false.
Proof.
  intros Hwf. unfold delete_match. rewrite has_row_update by (done || apply row_kill_id).
  rewrite has_row_iff by done. unfold visible. split.
  - intros (r0 & Hin & Hl & Hid & ->).
    destruct (row_live r0) eqn:E; simpl in *; [|congruence].
    destruct (p r0) eqn:E'; [by rewrite row_kill_live in Hl | done].
  - intros ((Hin & Hl & Hid) & Hp). exists r. by rewrite Hl, Hp.
Qed.

Lemma first_match_delete p t id :
  table_wf t ->
  first_match (by_id id) (delete_match p t) =
  match first_match (by_id id) t with
  | Some r => if p r then None else Some r
  | None => None
  end.
Proof.
  intros Hwf. apply option_eq. intros r.
  change (has_row (delete_match p t) id r <->
    match first_match (by_id id) t with
    | Some r0 => if p r0 then None else Some r0 | None => None end = Some r).
  rewrite has_row_delete by done. unfold has_row.
  destruct (first_match (by_id id) t) as [r0|]; [|split; [by intros [? _] | done]].
  destruct (p r0) eqn:E; split.
  - intros [[= <-] ?]. congruence.
  - done.
  - by intros [[= <-] _].
  - by intros [= <-].
Qed.
End soft_delete.

#[export] Hint Resolve table_wf_delete table_wf_rollback table_wf_remove : golang.
