(* ===== verification/Effects.v ===== *)
(** The monad in which the handlers are written: state passing over the world
    the process runs in, with Go's [error] as the alternative result, and the
    rules by which the proofs go through a handler statement by statement. *)
From S2P Require Export Store.

(** What Redis holds under a key: a text, or a sorted set, as the scores of its members
    (times in seconds, which a float64 holds exactly). *)
Inductive redis_value :=
  | RStr (s : string)
  | RZset (z : gmap string Z).
Coercion RStr : string >-> redis_value.

(** What a handler acts on.  [w_calls] numbers the external calls; [w_fault n] is
    the failure of call [n], if it fails; [w_clock n] is what [time.Now()] reads
    when it is call [n]. *)
Record world (D : Type) := World {
  w_db : D;
  w_redis : gmap string redis_value;
  w_calls : nat;
  w_fault : nat -> option string;
  w_clock : nat -> Z
}.
Arguments World {D} _ _ _ _ _.
Arguments w_db {D} _.
Arguments w_redis {D} _.
Arguments w_calls {D} _.
Arguments w_fault {D} _ _.
Arguments w_clock {D} _ _.

Definition tick {D} (w : world D) : world D :=
  World (w_db w) (w_redis w) (S (w_calls w)) (w_fault w) (w_clock w).
Definition set_db {D} (d : D) (w : world D) : world D :=
  World d (w_redis w) (w_calls w) (w_fault w) (w_clock w).
Definition set_redis {D} (r : gmap string redis_value) (w : world D) : world D :=
  World (w_db w) r (w_calls w) (w_fault w) (w_clock w).

(** No external call fails. *)
Definition healthy {D} (w : world D) : Prop := forall n, w_fault w n = None.

Definition M (D A : Type) : Type := world D -> outcome A * world D.

#[export] Instance M_ret D : MRet (M D) := fun _ a w => (Val a, w).
#[export] Instance M_bind D : MBind (M D) := fun _ _ f m w =>
  match m w with
  | (Val a, w') => f a w'
  | (Exn e, w') => (Exn e, w')
  end.

Section effects.
Context {D : Type}.
Implicit Types (w : world D).

Definition throw {A} (e : goerr) : M D A := fun w => (Exn e, w).

(** The error of [m] as a value, for code that inspects it. *)
Definition attempt {A} (m : M D A) : M D (outcome A) := fun w => (Val (m w).1, (m w).2).

(** [if err != nil { return g(err) }] *)
Definition map_err {A} (g : goerr -> goerr) (m : M D A) : M D A := fun w =>
  match m w with
  | (Exn e, w') => (Exn (g e), w')
  | r => r
  end.
Definition or_fail {A} (m : M D A) (e : goerr) : M D A := map_err (fun _ => e) m.
Definition wrap {A} (p : string) (m : M D A) : M D A := map_err (Wrapped p) m.

(** [if cond { return err }] *)
Definition refuse_if (b : bool) (e : goerr) : M D () := if b then throw e else mret ().

(** A call whose error the code drops. *)
Definition ignore_err {A} (m : M D A) : M D () := fun w => (Val (), (m w).2).

(** One call to the database that reads, or that also writes. *)
Definition query {A} (q : D -> A) : M D A := fun w =>
  match w_fault w (w_calls w) with
  | Some e => (Exn (Driver e), tick w)
  | None => (Val (q (w_db w)), tick w)
  end.
Definition exec {A} (f : D -> A * D) : M D A := fun w =>
  match w_fault w (w_calls w) with
  | Some e => (Exn (Driver e), tick w)
  | None => (Val (f (w_db w)).1, set_db (f (w_db w)).2 (tick w))
  end.

Definition now : M D Z := fun w => (Val (w_clock w (w_calls w)), tick w).

(** A call to another process: [f n] is what call [n] gets. *)
Definition remote {A} (f : nat -> outcome A) : M D A := fun w => (f (w_calls w), tick w).

Definition wrong_type : string := "WRONGTYPE Operation against a key holding the wrong kind of value".
(** [rdb.Get]: a missing key is an error as well. *)
Definition redis_get (k : string) : M D string := fun w =>
  match w_fault w (w_calls w), w_redis w !! k with
  | Some e, _ => (Exn (Driver e), tick w)
  | None, Some (RStr v) => (Val v, tick w)
  | None, Some (RZset _) => (Exn (Driver wrong_type), tick w)
  | None, None => (Exn (Driver "redis: nil"), tick w)
  end.
(** [rdb.Exists] of one key. *)
Definition redis_exists (k : string) : M D Z := fun w =>
  match w_fault w (w_calls w) with
  | Some e => (Exn (Driver e), tick w)
  | None => (Val (if decide (is_Some (w_redis w !! k)) then 1 else 0), tick w)
  end.
Definition redis_set (k v : string) : M D () := fun w =>
  match w_fault w (w_calls w) with
  | Some e => (Exn (Driver e), tick w)
  | None => (Val (), set_redis (<[k := RStr v]> (w_redis w)) (tick w))
  end.
Definition redis_del (ks : list string) : M D () := fun w =>
  match w_fault w (w_calls w) with
  | Some e => (Exn (Driver e), tick w)
  | None => (Val (), set_redis (foldr delete (w_redis w) ks) (tick w))
  end.

(** [rdb.MGet]: [None] for a key that is missing or holds no text; without keys it is an
    error. *)
Definition redis_mget (ks : list string) : M D (list (option string)) := fun w =>
  match w_fault w (w_calls w), ks with
  | Some e, _ => (Exn (Driver e), tick w)
  | None, [] => (Exn (Driver "ERR wrong number of arguments for 'mget' command"), tick w)
  | None, _ => (Val (map (fun k => match w_redis w !! k with Some (RStr s) => Some s | _ => None end) ks), tick w)
  end.
(** A pipeline: one call, in which the commands run one after the other. *)
Definition redis_exec (f : gmap string redis_value -> gmap string redis_value) : M D () := fun w =>
  match w_fault w (w_calls w) with
  | Some e => (Exn (Driver e), tick w)
  | None => (Val (), set_redis (f (w_redis w)) (tick w))
  end.

(** [db.Transaction(func(tx) error)]: the body and then the commit. *)
Definition transaction `{Transactional D} {A} (m : M D A) : M D A := fun w =>
  match m w with
  | (Exn e, w') => (Exn e, set_db (rollback (w_db w) (w_db w')) w')
  | (Val a, w') =>
      match w_fault w' (w_calls w') with
      | Some e => (Exn (Driver e), set_db (rollback (w_db w) (w_db w')) (tick w'))
      | None => (Val a, tick w')
      end
  end.

(** [for _, x := range xs { body }] with an early return on error. *)
Fixpoint for_each {A} (xs : list A) (body : A -> M D ()) : M D () :=
  match xs with
  | [] => mret ()
  | x :: xs => body x ;; for_each xs body
  end.
End effects.

(** Statements on the table of [R]; [T] fixes the row type. *)
Section table_statements.
Context {D R : Type} `{Entity R} `{Holds D R}.

Definition first_by (p : R -> bool) : M D R :=
  o ← query (fun d => first_match p (table_of d));
  match o with Some r => mret r | None => throw RecordNotFound end.
Definition find_where (p : R -> bool) : M D (list R) :=
  query (fun d => select p (table_of d)).
(** [Order(..).Limit(l).Offset(o).Find]; [le] is the order the clause names. *)
Definition find_page (p : R -> bool) (le : relation R) `{forall x y, Decision (le x y)}
    (l o : Z) : M D (list R) :=
  query (fun d => limit_rows l (offset_rows o (merge_sort le (select p (table_of d))))).
Definition count_rows (p : R -> bool) : M D Z := query (fun d => count_match p (table_of d)).
Definition update_where (p : R -> bool) (f : R -> R) : M D Z :=
  exec (fun d => (count_match p (table_of d), set_table (update_match p f (table_of d)) d)).
Definition delete_where `{!SoftDelete R} (p : R -> bool) : M D Z :=
  exec (fun d => (count_match p (table_of d), set_table (delete_match p (table_of d)) d)).
Definition remove_where (p : R -> bool) : M D Z :=
  exec (fun d => (count_match p (table_of d), set_table (remove_match p (table_of d)) d)).
Definition create (mk : Z -> R) : M D R :=
  exec (fun d => (mk (next_id (table_of d)), set_table (insert_row mk (table_of d)) d)).
End table_statements.

Ltac unfold_head m :=
  lazymatch m with
  | ?f _ => unfold_head f
  | _ => unfold m
  end.

(** ** Going through a successful run *)

(** [wpv m Q w]: if [m] returns a value from [w], then [Q] holds of it. *)
Definition wpv {D A} (m : M D A) (Q : A -> world D -> Prop) (w : world D) : Prop :=
  forall a w', m w = (Val a, w') -> Q a w'.

Section wpv_rules.
Context {D : Type}.
Implicit Types (w : world D).

Lemma wpv_mono {A} (m : M D A) (P Q : A -> world D -> Prop) w :
  wpv m P w -> (forall a w', P a w' -> Q a w') -> wpv m Q w.
Proof. unfold wpv. eauto. Qed.

(** Nothing depends on what [m] does. *)
Lemma wpv_any {A} (m : M D A) (Q : A -> world D -> Prop) w :
  (forall a w', Q a w') -> wpv m Q w.
Proof. intros HQ a w' _. apply HQ. Qed.

Lemma wpv_ret {A} (a : A) Q w : Q a w -> wpv (mret a) Q w.
Proof. intros HQ a' w' [= <- <-]. done. Qed.

Lemma wpv_throw {A} e (Q : A -> world D -> Prop) w : wpv (throw e) Q w.
Proof. by intros a w' [=]. Qed.

Lemma wpv_bind {A B} (m : M D A) (f : A -> M D B) Q w :
  wpv m (fun a w' => wpv (f a) Q w') w -> wpv (m ≫= f) Q w.
Proof.
  unfold wpv, mbind, M_bind. intros Hm b w'' Hb.
  destruct (m w) as [[a|e] w'] eqn:E; [|done]. by eapply Hm.
Qed.

Lemma wpv_map_err {A} g (m : M D A) Q w : wpv m Q w -> wpv (map_err g m) Q w.
Proof.
  unfold wpv, map_err. intros Hm a w'. destruct (m w) as [[b|e] w1] eqn:E; [|done].
  intros [= <- <-]. by apply Hm.
Qed.

Lemma wpv_or_fail {A} (m : M D A) e Q w : wpv m Q w -> wpv (or_fail m e) Q w.
Proof. apply wpv_map_err. Qed.

Lemma wpv_wrap {A} p (m : M D A) Q w : wpv m Q w -> wpv (wrap p m) Q w.
Proof. apply wpv_map_err. Qed.

Lemma wpv_refuse_if b e Q w : (b = false -> Q () w) -> wpv (refuse_if b e) Q w.
Proof. destruct b; intros HQ; [apply wpv_throw | by apply wpv_ret, HQ]. Qed.

Lemma wpv_query {A} (q : D -> A) Q w : Q (q (w_db w)) (tick w) -> wpv (query q) Q w.
Proof.
  intros HQ a w'. unfold query. destruct (w_fault w (w_calls w)); [done|].
  by intros [= <- <-].
Qed.

Lemma wpv_exec {A} (f : D -> A * D) Q w :
  Q (f (w_db w)).1 (set_db (f (w_db w)).2 (tick w)) -> wpv (exec f) Q w.
Proof.
  intros HQ a w'. unfold exec. destruct (w_fault w (w_calls w)); [done|].
  by intros [= <- <-].
Qed.

Lemma wpv_now Q w : Q (w_clock w (w_calls w)) (tick w) -> wpv now Q w.
Proof. intros HQ a w' [= <- <-]. done. Qed.

Lemma wpv_attempt {A} (m : M D A) Q w :
  (forall o w', m w = (o, w') -> Q o w') -> wpv (attempt m) Q w.
Proof.
  intros HQ a w'. unfold attempt. destruct (m w) as [o w1] eqn:E. simpl.
  intros [= <- <-]. by apply HQ.
Qed.

Lemma wpv_ignore_err {A} (m : M D A) Q w :
  (forall o w', m w = (o, w') -> Q () w') -> wpv (ignore_err m) Q w.
Proof.
  intros HQ a w'. unfold ignore_err. destruct (m w) as [o w1] eqn:E. simpl.
  intros [= <- <-]. by eapply HQ.
Qed.

Lemma wpv_transaction `{Transactional D} {A} (m : M D A) (Q : A -> world D -> Prop) w :
  wpv m (fun a w' => Q a (tick w')) w -> wpv (transaction m) Q w.
Proof.
  unfold wpv, transaction. intros Hm a w'.
  destruct (m w) as [[b|e] w1] eqn:E; [|done].
  destruct (w_fault w1 (w_calls w1)); [done|]. intros [= <- <-]. by apply Hm.
Qed.

(** A transaction that returns an error has changed no row. *)
Lemma transaction_exn `{Transactional D} {A} (m : M D A) w e w' :
  transaction m w = (Exn e, w') -> exists d, w_db w' = rollback (w_db w) d.
Proof.
  unfold transaction. destruct (m w) as [[b|e'] w1] eqn:E.
  - destruct (w_fault w1 (w_calls w1)); [|done]. intros [= <- <-]. by eexists.
  - intros [= <- <-]. by eexists.
Qed.

Lemma wpv_first_by {R} `{Entity R, Holds D R} (p : R -> bool) (Q : _ -> world D -> Prop) w :
  (forall r, first_match p (table_of (w_db w)) = Some r -> Q r (tick w)) ->
  wpv (first_by p) Q w.
Proof.
  intros HQ. unfold first_by. apply wpv_bind, wpv_query.
  destruct (first_match p (table_of (w_db w))) eqn:E; [|apply wpv_throw].
  by apply wpv_ret, HQ.
Qed.

Lemma wpv_attempt_first {R} `{Entity R, Holds D R} (p : R -> bool) Q w :
  (forall r, first_match p (table_of (w_db w)) = Some r -> Q (Val r) (tick w)) ->
  (first_match p (table_of (w_db w)) = None -> Q (Exn RecordNotFound) (tick w)) ->
  (forall e, Q (Exn (Driver e)) (tick w)) ->
  wpv (attempt (first_by p)) Q w.
Proof.
  intros HV HN HE. apply wpv_attempt. intros o w'.
  unfold first_by, query, mbind, M_bind. destruct (w_fault w (w_calls w)).
  - intros [= <- <-]. apply HE.
  - destruct (first_match p (table_of (w_db w))) eqn:E; intros [= <- <-]; auto.
Qed.
End wpv_rules.

(** ** Invariants *)

(** Whatever [m] returns, it takes databases that satisfy [I] to such. *)
Definition keeps {D A} (I : D -> Prop) (m : M D A) : Prop :=
  forall w, I (w_db w) -> I (w_db (m w).2).

(** [m] does not change the database. *)
Definition reads {D A} (m : M D A) : Prop := forall w, w_db (m w).2 = w_db w.

Section keeps_rules.
Context {D : Type} (I : D -> Prop).

Lemma keeps_reads {A} (m : M D A) : reads m -> keeps I m.
Proof. intros Hm w Hw. by rewrite Hm. Qed.

Lemma keeps_bind {A B} (m : M D A) (f : A -> M D B) :
  keeps I m -> (forall a, keeps I (f a)) -> keeps I (m ≫= f).
Proof.
  intros Hm Hf w Hw. unfold mbind, M_bind. specialize (Hm w Hw).
  destruct (m w) as [[a|e] w']; simpl in *; [by apply Hf | done].
Qed.

(** What follows [m], from the states in which [m] can leave the world. *)
Lemma keeps_bind_run {A B} (m : M D A) (f : A -> M D B) :
  keeps I m ->
  (forall w a w', I (w_db w) -> m w = (Val a, w') -> I (w_db w') -> I (w_db (f a w').2)) ->
  keeps I (m ≫= f).
Proof.
  intros Hm Hf w Hw. unfold mbind, M_bind. pose proof (Hm w Hw) as Hm'.
  destruct (m w) as [[a|e] w'] eqn:E; simpl in *; [by apply (Hf w a w') | done].
Qed.

Lemma keeps_guarded {A} b e (m : M D A) :
  (b = false -> keeps I m) -> keeps I (refuse_if b e;; m).
Proof. intros Hm w Hw. destruct b; [done | by apply Hm]. Qed.

Lemma keeps_map_err {A} g (m : M D A) : keeps I m -> keeps I (map_err g m).
Proof.
  intros Hm w Hw. unfold map_err. specialize (Hm w Hw). by destruct (m w) as [[a|e] w'].
Qed.

Lemma keeps_or_fail {A} (m : M D A) e : keeps I m -> keeps I (or_fail m e).
Proof. apply keeps_map_err. Qed.

Lemma keeps_wrap {A} p (m : M D A) : keeps I m -> keeps I (wrap p m).
Proof. apply keeps_map_err. Qed.

Lemma keeps_attempt {A} (m : M D A) : keeps I m -> keeps I (attempt m).
Proof. intros Hm w Hw. by apply Hm. Qed.

Lemma keeps_ignore_err {A} (m : M D A) : keeps I m -> keeps I (ignore_err m).
Proof. intros Hm w Hw. by apply Hm. Qed.

Lemma keeps_exec {A} (f : D -> A * D) : (forall d, I d -> I (f d).2) -> keeps I (exec f).
Proof. intros Hf w Hw. unfold exec. destruct (w_fault w (w_calls w)); simpl; auto. Qed.

Lemma keeps_for_each {A} (xs : list A) body :
  (forall x, keeps I (body x)) -> keeps I (for_each xs body).
Proof.
  intros Hb. induction xs as [|x xs IH]; [by intros w Hw|]. by apply keeps_bind.
Qed.

Lemma keeps_tx `{Transactional D} {A} (m : M D A) :
  (forall d d', I d -> I (rollback d d')) -> keeps I m -> keeps I (transaction m).
Proof.
  intros Hr Hm w Hw. unfold transaction. pose proof (Hm w Hw) as Hm'.
  destruct (m w) as [[a|e] w']; simpl in *; [|auto].
  destruct (w_fault w' (w_calls w')); simpl; auto.
Qed.

(** A transaction keeps [I] when its body does on its successful runs. *)
Lemma keeps_transaction `{Transactional D} {A} (m : M D A) :
  (forall d d', I d -> I (rollback d d')) ->
  (forall w, I (w_db w) -> wpv m (fun _ w' => I (w_db w')) w) ->
  keeps I (transaction m).
Proof.
  intros Hr Hm w Hw. unfold transaction. destruct (m w) as [[a|e] w'] eqn:E; simpl; [|auto].
  destruct (w_fault w' (w_calls w')); simpl; [auto|]. by eapply Hm.
Qed.
End keeps_rules.

Section reads_rules.
Context {D : Type}.

Lemma reads_ret {A} (a : A) : reads (D := D) (mret a).
Proof. done. Qed.

Lemma reads_throw {A} e : reads (D := D) (A := A) (throw e).
Proof. done. Qed.

Lemma reads_bind {A B} (m : M D A) (f : A -> M D B) :
  reads m -> (forall a, reads (f a)) -> reads (m ≫= f).
Proof.
  intros Hm Hf w. unfold mbind, M_bind. specialize (Hm w).
  destruct (m w) as [[a|e] w']; simpl in *; [by rewrite Hf | done].
Qed.

Lemma reads_query {A} (q : D -> A) : reads (query q).
Proof. intros w. unfold query. by destruct (w_fault w (w_calls w)). Qed.

Lemma reads_now : reads (D := D) now.
Proof. done. Qed.

Lemma reads_remote {A} (f : nat -> outcome A) : reads (D := D) (remote f).
Proof. done. Qed.

Lemma reads_redis_get k : reads (D := D) (redis_get k).
Proof. intros w. unfold redis_get. by repeat case_match. Qed.

Lemma reads_redis_set k v : reads (D := D) (redis_set k v).
Proof. intros w. unfold redis_set. by case_match. Qed.

Lemma reads_redis_mget ks : reads (D := D) (redis_mget ks).
Proof. intros w. unfold redis_mget. by repeat case_match. Qed.
Lemma reads_redis_exec f : reads (D := D) (redis_exec f).
Proof. intros w. unfold redis_exec. by case_match. Qed.

Lemma reads_redis_del ks : reads (D := D) (redis_del ks).
Proof. intros w. unfold redis_del. by case_match. Qed.

Lemma reads_map_err {A} g (m : M D A) : reads m -> reads (map_err g m).
Proof. intros Hm w. unfold map_err. specialize (Hm w). by destruct (m w) as [[a|e] w']. Qed.

Lemma reads_or_fail {A} (m : M D A) e : reads m -> reads (or_fail m e).
Proof. apply reads_map_err. Qed.

Lemma reads_wrap {A} p (m : M D A) : reads m -> reads (wrap p m).
Proof. apply reads_map_err. Qed.

Lemma reads_attempt {A} (m : M D A) : reads m -> reads (attempt m).
Proof. done. Qed.

Lemma reads_ignore_err {A} (m : M D A) : reads m -> reads (ignore_err m).
Proof. done. Qed.

Lemma reads_refuse_if b e : reads (D := D) (refuse_if b e).
Proof. by destruct b. Qed.

Lemma reads_for_each {A} (xs : list A) body :
  (forall x, reads (D := D) (body x)) -> reads (for_each xs body).
Proof. intros Hb. induction xs as [|x xs IH]; [done|]. by apply reads_bind. Qed.

Context {R : Type} `{Entity R} `{Holds D R}.

Lemma reads_first_by (p : R -> bool) : reads (D := D) (first_by p).
Proof. apply reads_bind; [apply reads_query|]. by intros [r|]. Qed.

Lemma reads_find_where (p : R -> bool) : reads (D := D) (find_where p).
Proof. apply reads_query. Qed.

Lemma reads_find_page (p : R -> bool) le `{forall x y, Decision (le x y)} l o :
  reads (D := D) (find_page p le l o).
Proof. apply reads_query. Qed.

Lemma reads_count_rows (p : R -> bool) : reads (D := D) (count_rows p).
Proof. apply reads_query. Qed.
End reads_rules.

(** ** What no statement touches *)

(** [m] leaves the pattern of failures and the clock alone. *)
Definition steady {D A} (m : M D A) : Prop :=
  forall w, w_fault (m w).2 = w_fault w /\ w_clock (m w).2 = w_clock w.

Section steady_rules.
Context {D : Type}.

Lemma steady_ret {A} (a : A) : steady (D := D) (mret a).
Proof. done. Qed.
Lemma steady_throw {A} e : steady (D := D) (A := A) (throw e).
Proof. done. Qed.
Lemma steady_now : steady (D := D) now.
Proof. done. Qed.
Lemma steady_remote {A} (f : nat -> outcome A) : steady (D := D) (remote f).
Proof. done. Qed.
Lemma steady_refuse_if b e : steady (D := D) (refuse_if b e).
Proof. by destruct b. Qed.
Lemma steady_query {A} (q : D -> A) : steady (query q).
Proof. intros w. unfold query. by case_match. Qed.
Lemma steady_exec {A} (f : D -> A * D) : steady (exec f).
Proof. intros w. unfold exec. by case_match. Qed.
Lemma steady_redis_del ks : steady (D := D) (redis_del ks).
Proof. intros w. unfold redis_del. by case_match. Qed.
Lemma steady_redis_mget ks : steady (D := D) (redis_mget ks).
Proof. intros w. unfold redis_mget. by repeat case_match. Qed.
Lemma steady_redis_exec f : steady (D := D) (redis_exec f).
Proof. intros w. unfold redis_exec. by case_match. Qed.
Lemma steady_redis_get k : steady (D := D) (redis_get k).
Proof. intros w. unfold redis_get. by repeat case_match. Qed.
Lemma steady_redis_set k v : steady (D := D) (redis_set k v).
Proof. intros w. unfold redis_set. by case_match. Qed.

Lemma steady_bind {A B} (m : M D A) (f : A -> M D B) :
  steady m -> (forall a, steady (f a)) -> steady (m ≫= f).
Proof.
  intros Hm Hf w. unfold mbind, M_bind. destruct (Hm w) as [H1 H2].
  destruct (m w) as [[a|e] w']; simpl in *; [|done]. destruct (Hf a w'). split; congruence.
Qed.

Lemma steady_map_err {A} g (m : M D A) : steady m -> steady (map_err g m).
Proof. intros Hm w. unfold map_err. specialize (Hm w). by destruct (m w) as [[a|e] w']. Qed.
Lemma steady_attempt {A} (m : M D A) : steady m -> steady (attempt m).
Proof. done. Qed.
Lemma steady_ignore_err {A} (m : M D A) : steady m -> steady (ignore_err m).
Proof. done. Qed.

Lemma steady_transaction `{Transactional D} {A} (m : M D A) : steady m -> steady (transaction m).
Proof.
  intros Hm w. unfold transaction. specialize (Hm w).
  destruct (m w) as [[a|e] w']; simpl in *; [|done]. by case_match.
Qed.

Lemma steady_for_each {A} (xs : list A) body :
  (forall x, steady (D := D) (body x)) -> steady (for_each xs body).
Proof. intros Hb. induction xs as [|x xs IH]; [done|]. by apply steady_bind. Qed.
End steady_rules.

Create HintDb steady.
Ltac steady_step :=
  lazymatch goal with
  | |- forall _, _ => intros ?
  | |- steady (mret _) => apply steady_ret
  | |- steady (throw _) => apply steady_throw
  | |- steady now => apply steady_now
  | |- steady (remote _) => apply steady_remote
  | |- steady (refuse_if _ _) => apply steady_refuse_if
  | |- steady (query _) => apply steady_query
  | |- steady (exec _) => apply steady_exec
  | |- steady (redis_del _) => apply steady_redis_del
  | |- steady (redis_get _) => apply steady_redis_get
  | |- steady (redis_mget _) => apply steady_redis_mget
  | |- steady (redis_exec _) => apply steady_redis_exec
  | |- steady (redis_set _ _) => apply steady_redis_set
  | |- steady (mbind _ _) => apply steady_bind
  | |- steady (map_err _ _) => apply steady_map_err
  | |- steady (attempt _) => apply steady_attempt
  | |- steady (ignore_err _) => apply steady_ignore_err
  | |- steady (transaction _) => apply steady_transaction
  | |- steady (for_each _ _) => apply steady_for_each
  | |- steady (match _ with _ => _ end) => case_match
  | |- steady ?m => first [solve [eauto with steady] | unfold_head m; cbn zeta beta]
  end.
Ltac solve_steady := repeat steady_step.

(** [m] does not return an error. *)
Definition nothrow {D A} (m : M D A) : Prop := forall w, exists a, (m w).1 = Val a.

Section nothrow_rules.
Context {D : Type}.

Lemma nothrow_ret {A} (a : A) : nothrow (D := D) (mret a).
Proof. intros w. by exists a. Qed.
Lemma nothrow_now : nothrow (D := D) now.
Proof. intros w. by eexists. Qed.
Lemma nothrow_attempt {A} (m : M D A) : nothrow (attempt m).
Proof. intros w. by eexists. Qed.
Lemma nothrow_ignore_err {A} (m : M D A) : nothrow (ignore_err m).
Proof. intros w. by eexists. Qed.
Lemma nothrow_bind {A B} (m : M D A) (f : A -> M D B) :
  nothrow m -> (forall a, nothrow (f a)) -> nothrow (m ≫= f).
Proof.
  intros Hm Hf w. unfold mbind, M_bind. destruct (Hm w) as [a Ha].
  destruct (m w) as [[a'|e] w']; simplify_eq/=. apply Hf.
Qed.
Lemma nothrow_for_each {A} (xs : list A) body :
  (forall x, nothrow (D := D) (body x)) -> nothrow (for_each xs body).
Proof. intros Hb. induction xs; [apply nothrow_ret | by apply nothrow_bind]. Qed.
End nothrow_rules.

Create HintDb nothrow.
Ltac nothrow_step :=
  lazymatch goal with
  | |- forall _, _ => intros ?
  | |- nothrow (mret _) => apply nothrow_ret
  | |- nothrow now => apply nothrow_now
  | |- nothrow (attempt _) => apply nothrow_attempt
  | |- nothrow (ignore_err _) => apply nothrow_ignore_err
  | |- nothrow (mbind _ _) => apply nothrow_bind
  | |- nothrow (for_each _ _) => apply nothrow_for_each
  | |- nothrow (match _ with _ => _ end) => case_match
  | |- nothrow ?m => first [solve [eauto with nothrow] | unfold_head m; cbn zeta beta]
  end.
Ltac solve_nothrow := repeat nothrow_step.

(** ** Runs without failures *)

(** [wp m Q w]: [Q] holds of whatever [m] returns from [w]. *)
Definition wp {D A} (m : M D A) (Q : outcome A -> world D -> Prop) (w : world D) : Prop :=
  Q (m w).1 (m w).2.

Section wp_rules.
Context {D : Type}.
Implicit Types (w : world D).

Lemma wp_ret {A} (a : A) (Q : outcome A -> world D -> Prop) w :
  Q (Val a) w -> wp (mret a) Q w.
Proof. done. Qed.

Lemma wp_throw {A} e (Q : outcome A -> world D -> Prop) w : Q (Exn e) w -> wp (throw e) Q w.
Proof. done. Qed.

Lemma wp_bind {A B} (m : M D A) (f : A -> M D B) Q w :
  wp m (fun o w' => match o with Val a => wp (f a) Q w' | Exn e => Q (Exn e) w' end) w ->
  wp (m ≫= f) Q w.
Proof. unfold wp, mbind, M_bind. by destruct (m w) as [[a|e] w']. Qed.

Lemma wp_map_err {A} g (m : M D A) (Q : outcome A -> world D -> Prop) w :
  wp m (fun o w' => match o with Val a => Q (Val a) w' | Exn e => Q (Exn (g e)) w' end) w ->
  wp (map_err g m) Q w.
Proof. unfold wp, map_err. by destruct (m w) as [[a|e] w']. Qed.

Lemma wp_attempt {A} (m : M D A) (Q : outcome (outcome A) -> world D -> Prop) w :
  wp m (fun o w' => Q (Val o) w') w -> wp (attempt m) Q w.
Proof. done. Qed.

Lemma wp_ignore_err {A} (m : M D A) (Q : outcome () -> world D -> Prop) w :
  wp m (fun _ w' => Q (Val ()) w') w -> wp (ignore_err m) Q w.
Proof. done. Qed.

Lemma wp_refuse_if (b : bool) e (Q : outcome () -> world D -> Prop) w :
  (if b then Q (Exn e) w else Q (Val ()) w) -> wp (refuse_if b e) Q w.
Proof. by destruct b. Qed.

Lemma wp_query {A} (q : D -> A) (Q : outcome A -> world D -> Prop) w :
  healthy w -> Q (Val (q (w_db w))) (tick w) -> wp (query q) Q w.
Proof. unfold wp, query. intros Hw. by rewrite Hw. Qed.

Lemma wp_exec {A} (f : D -> A * D) (Q : outcome A -> world D -> Prop) w :
  healthy w -> Q (Val (f (w_db w)).1) (set_db (f (w_db w)).2 (tick w)) -> wp (exec f) Q w.
Proof. unfold wp, exec. intros Hw. by rewrite Hw. Qed.

Lemma wp_now (Q : outcome Z -> world D -> Prop) w : Q (Val (w_clock w (w_calls w))) (tick w) -> wp now Q w.
Proof. done. Qed.

Lemma wp_redis_del ks (Q : outcome () -> world D -> Prop) w :
  healthy w -> Q (Val ()) (set_redis (foldr delete (w_redis w) ks) (tick w)) ->
  wp (redis_del ks) Q w.
Proof. unfold wp, redis_del. intros Hw. by rewrite Hw. Qed.

Lemma wp_redis_mget k ks (Q : outcome (list (option string)) -> world D -> Prop) w :
  healthy w ->
  Q (Val (map (fun k => match w_redis w !! k with Some (RStr s) => Some s | _ => None end) (k :: ks))) (tick w) ->
  wp (redis_mget (k :: ks)) Q w.
Proof. unfold wp, redis_mget. intros Hw. by rewrite Hw. Qed.

Lemma wp_redis_exec f (Q : outcome () -> world D -> Prop) w :
  healthy w -> Q (Val ()) (set_redis (f (w_redis w)) (tick w)) -> wp (redis_exec f) Q w.
Proof. unfold wp, redis_exec. intros Hw. by rewrite Hw. Qed.

Lemma wp_transaction `{Transactional D} {A} (m : M D A) (Q : outcome A -> world D -> Prop) w :
  wp m (fun o w' =>
    match o with
    | Val a => healthy w' /\ Q (Val a) (tick w')
    | Exn e => Q (Exn e) (set_db (rollback (w_db w) (w_db w')) w')
    end) w ->
  wp (transaction m) Q w.
Proof.
  unfold wp, transaction. destruct (m w) as [[a|e] w']; simpl; [|done].
  intros [Hw HQ]. by rewrite Hw.
Qed.

Lemma wp_first_by {R} `{Entity R, Holds D R} (p : R -> bool) (Q : _ -> world D -> Prop) w :
  healthy w ->
  match first_match p (table_of (w_db w)) with
  | Some r => Q (Val r) (tick w)
  | None => Q (Exn RecordNotFound) (tick w)
  end -> wp (first_by p) Q w.
Proof.
  intros Hw HQ. unfold first_by. apply wp_bind, wp_query; [done|].
  destruct (first_match p (table_of (w_db w))); done.
Qed.

(** A call that cannot fail, in a run without failures. *)
Lemma wp_calm {A B} (I : D -> Prop) (m : M D A) (f : A -> M D B)
    (Q : outcome B -> world D -> Prop) w :
  nothrow m -> steady m -> keeps I m -> healthy w -> I (w_db w) ->
  (forall a w', healthy w' -> I (w_db w') -> wp (f a) Q w') -> wp (m ≫= f) Q w.
Proof.
  unfold wp, mbind, M_bind. intros Hn Hs Hk Hw Hi HQ. destruct (Hn w) as [a Ha].
  destruct (Hs w) as [Hf _]. specialize (Hk w Hi).
  destruct (m w) as [[a'|e] w']; simplify_eq/=. apply HQ; [|done]. intros n. rewrite Hf. apply Hw.
Qed.

(** What [m] keeps may be assumed of its result. *)
Lemma wp_keeps {A} (I : D -> Prop) (m : M D A) (Q : outcome A -> world D -> Prop) w :
  keeps I m -> I (w_db w) -> wp m (fun o w' => I (w_db w') -> Q o w') w -> wp m Q w.
Proof. unfold wp. intros Hk Hi HQ. by apply HQ, Hk. Qed.

Lemma wp_mono {A} (m : M D A) (P Q : outcome A -> world D -> Prop) w :
  wp m P w -> (forall o w', P o w' -> Q o w') -> wp m Q w.
Proof. unfold wp. eauto. Qed.

Lemma healthy_tick w : healthy w -> healthy (tick w).
Proof. done. Qed.
Lemma healthy_set_db d w : healthy w -> healthy (set_db d w).
Proof. done. Qed.
Lemma healthy_set_redis r w : healthy w -> healthy (set_redis r w).
Proof. done. Qed.
End wp_rules.

(** [m] keeps [I] when no call fails. *)
Definition calm {D A} (I : D -> Prop) (m : M D A) : Prop :=
  forall w, healthy w -> I (w_db w) -> healthy (m w).2 /\ I (w_db (m w).2).

Section calm_rules.
Context {D : Type} (I : D -> Prop).

Lemma calm_keeps {A} (m : M D A) : steady m -> keeps I m -> calm I m.
Proof.
  intros Hs Hk w Hw Hi. split; [|by apply Hk]. intros n. destruct (Hs w) as [-> _]. apply Hw.
Qed.
Lemma calm_bind {A B} (m : M D A) (f : A -> M D B) :
  calm I m -> (forall a, calm I (f a)) -> calm I (m ≫= f).
Proof.
  intros Hm Hf w Hw Hi. destruct (Hm w Hw Hi) as [Hw' Hi']. unfold mbind, M_bind.
  destruct (m w) as [[a|e] w']; simpl in *; [by apply Hf | done].
Qed.
Lemma calm_map_err {A} g (m : M D A) : calm I m -> calm I (map_err g m).
Proof.
  intros Hm w Hw Hi. unfold map_err. destruct (Hm w Hw Hi). by destruct (m w) as [[a|e] w'].
Qed.
Lemma calm_attempt {A} (m : M D A) : calm I m -> calm I (attempt m).
Proof. done. Qed.
Lemma calm_for_each {A} (xs : list A) body :
  (forall x, calm I (body x)) -> calm I (for_each xs body).
Proof. intros Hb. induction xs as [|x xs IH]; [by intros w Hw|]. by apply calm_bind. Qed.
End calm_rules.

(** ** Outcomes and databases, under any pattern of failures *)

(** [wpd m Q w]: [Q] holds of what [m] returns from [w] and of the database it
    leaves. *)
Definition wpd {D A} (m : M D A) (Q : outcome A -> D -> Prop) (w : world D) : Prop :=
  Q (m w).1 (w_db (m w).2).

(** [m] cannot fail and does not touch the database. *)
Definition silent {D} (m : M D ()) : Prop :=
  forall w, (m w).1 = Val () /\ w_db (m w).2 = w_db w.

Section silent_rules.
Context {D : Type}.

Lemma silent_ret : silent (D := D) (mret ()).
Proof. done. Qed.

Lemma silent_ignore_err {A} (m : M D A) : reads m -> silent (ignore_err m).
Proof. intros Hm w. split; [done | apply Hm]. Qed.

Lemma silent_bind (m n : M D ()) : silent m -> silent n -> silent (m ;; n).
Proof.
  intros Hm Hn w. unfold mbind, M_bind. destruct (Hm w) as [H1 H2].
  destruct (m w) as [[a|e] w']; simplify_eq/=. destruct (Hn w') as [H3 H4].
  split; [done | congruence].
Qed.

Lemma silent_for_each {A} (xs : list A) body :
  (forall x, silent (D := D) (body x)) -> silent (for_each xs body).
Proof. intros Hb. induction xs; [done|]. by apply silent_bind. Qed.
End silent_rules.

Section wpd_rules.
Context {D : Type}.
Implicit Types (w : world D).

Lemma wpd_mono {A} (m : M D A) (P Q : outcome A -> D -> Prop) w :
  wpd m P w -> (forall o d, P o d -> Q o d) -> wpd m Q w.
Proof. unfold wpd. eauto. Qed.

Lemma wpd_reads {A} (m : M D A) (Q : outcome A -> D -> Prop) w :
  reads m -> (forall o, Q o (w_db w)) -> wpd m Q w.
Proof. unfold wpd. intros Hm HQ. by rewrite Hm. Qed.

Lemma wpd_bind {A B} (m : M D A) (f : A -> M D B) (Q : outcome B -> D -> Prop) w :
  wp m (fun o w' => match o with Val a => wpd (f a) Q w' | Exn e => Q (Exn e) (w_db w') end) w ->
  wpd (m ≫= f) Q w.
Proof. unfold wp, wpd, mbind, M_bind. by destruct (m w) as [[a|e] w']. Qed.

(** [m] only reads. *)
Lemma wpd_bind_reads {A B} (m : M D A) (f : A -> M D B) (Q : outcome B -> D -> Prop) w :
  reads m -> (forall e, Q (Exn e) (w_db w)) ->
  (forall a w', m w = (Val a, w') -> w_db w' = w_db w -> wpd (f a) Q w') -> wpd (m ≫= f) Q w.
Proof.
  unfold wpd, mbind, M_bind. intros Hm HE HV. specialize (Hm w).
  destruct (m w) as [[a|e] w'] eqn:E; simpl in *; [by apply HV | by rewrite Hm].
Qed.

(** What follows [m] neither fails nor touches the database. *)
Lemma wpd_then_silent {A} (m : M D A) (f : A -> M D ()) (Q : outcome () -> D -> Prop) w :
  (forall a, silent (f a)) ->
  wpd m (fun o d => match o with Val _ => Q (Val ()) d | Exn e => Q (Exn e) d end) w ->
  wpd (m ≫= f) Q w.
Proof.
  unfold wpd, mbind, M_bind. intros Hf. destruct (m w) as [[a|e] w']; simpl; [|done].
  destruct (Hf a w') as [H1 H2]. by rewrite H1, H2.
Qed.

Lemma wpd_refuse_if b e {A} (m : M D A) (Q : outcome A -> D -> Prop) w :
  Q (Exn e) (w_db w) -> (b = false -> wpd m Q w) -> wpd (refuse_if b e ;; m) Q w.
Proof. intros HE HQ. destruct b; [done | by apply HQ]. Qed.

Lemma wpd_transaction `{Transactional D} {A} (m : M D A) (Q : outcome A -> D -> Prop) w :
  (forall e d, Q (Exn e) (rollback (w_db w) d)) ->
  wpv m (fun a w' => Q (Val a) (w_db w')) w ->
  wpd (transaction m) Q w.
Proof.
  intros HE HV. unfold wpd, transaction. destruct (m w) as [[a|e] w'] eqn:E; simpl; [|auto].
  destruct (w_fault w' (w_calls w')); simpl; [auto|]. by eapply HV.
Qed.
End wpd_rules.

(** ** Automation *)

Create HintDb reads.
#[export] Hint Resolve reads_ret reads_throw reads_bind reads_query reads_now reads_remote reads_redis_mget reads_redis_exec reads_redis_get
  reads_redis_set reads_redis_del reads_map_err reads_or_fail reads_wrap reads_attempt
  reads_ignore_err reads_refuse_if reads_for_each reads_first_by reads_find_where
  reads_find_page reads_count_rows : reads.

(** [reads m] for a handler that only queries. *)
Ltac reads_step :=
  lazymatch goal with
  | |- forall _, _ => intros ?
  | |- reads (mbind _ _) => apply reads_bind
  | |- reads (map_err _ _) => apply reads_map_err
  | |- reads (or_fail _ _) => apply reads_or_fail
  | |- reads (wrap _ _) => apply reads_wrap
  | |- reads (attempt _) => apply reads_attempt
  | |- reads (ignore_err _) => apply reads_ignore_err
  | |- reads (for_each _ _) => apply reads_for_each
  | |- reads (match _ with _ => _ end) => case_match
  | |- reads _ => solve [eauto 3 with reads]
  end.
Ltac solve_reads := repeat reads_step.

(** [keeps I m], down to the statements that write and the leaves the hints know. *)
Create HintDb keeps.
Ltac keeps_step :=
  lazymatch goal with
  | |- forall _, _ => intros ?
  | |- keeps _ (mret _) => apply keeps_reads, reads_ret
  | |- keeps _ (throw _) => apply keeps_reads, reads_throw
  | |- keeps _ now => apply keeps_reads, reads_now
  | |- keeps _ (query _) => apply keeps_reads, reads_query
  | |- keeps _ (first_by _) => apply keeps_reads, reads_first_by
  | |- keeps _ (find_where _) => apply keeps_reads, reads_find_where
  | |- keeps _ (find_page _ _ _ _) => apply keeps_reads, reads_find_page
  | |- keeps _ (count_rows _) => apply keeps_reads, reads_count_rows
  | |- keeps _ (refuse_if _ _) => apply keeps_reads, reads_refuse_if
  | |- keeps _ (redis_del _) => apply keeps_reads, reads_redis_del
  | |- keeps _ (remote _) => apply keeps_reads, reads_remote
  | |- keeps _ (mbind (fun _ => _) (refuse_if _ _)) => apply keeps_guarded; intros ?
  | |- keeps _ (mbind _ _) => apply keeps_bind
  | |- keeps _ (map_err _ _) => apply keeps_map_err
  | |- keeps _ (or_fail _ _) => apply keeps_or_fail
  | |- keeps _ (wrap _ _) => apply keeps_wrap
  | |- keeps _ (attempt _) => apply keeps_attempt
  | |- keeps _ (ignore_err _) => apply keeps_ignore_err
  | |- keeps _ (for_each _ _) => apply keeps_for_each
  | |- keeps _ (match _ with _ => _ end) => case_match
  | |- keeps _ (update_where _ _) => apply keeps_exec; intros ? ?; cbn [fst snd]; solve [eauto with keeps]
  | |- keeps _ (delete_where _) => apply keeps_exec; intros ? ?; cbn [fst snd]; solve [eauto with keeps]
  | |- keeps _ (remove_where _) => apply keeps_exec; intros ? ?; cbn [fst snd]; solve [eauto with keeps]
  | |- keeps _ (create _) => apply keeps_exec; intros ? ?; cbn [fst snd]; solve [eauto with keeps]
  | |- keeps _ (transaction _) => apply keeps_tx; [by eauto with keeps|]
  | |- keeps _ (redis_set _ _) => apply keeps_reads, reads_redis_set
  | |- keeps _ (redis_mget _) => apply keeps_reads, reads_redis_mget
  | |- keeps _ (redis_exec _) => apply keeps_reads, reads_redis_exec
  | |- keeps _ (redis_get _) => apply keeps_reads, reads_redis_get
  | |- keeps _ ?m => first [solve [eauto with keeps] | unfold_head m; cbn zeta beta]
  end.
Ltac solve_keeps := repeat keeps_step.

#[export] Hint Resolve healthy_tick healthy_set_db healthy_set_redis : golang.

(** One statement of a handler, on its successful path. *)
Ltac wpv_step :=
  lazymatch goal with
  | |- wpv (mret _) _ _ => apply wpv_ret
  | |- wpv (throw _) _ _ => apply wpv_throw
  | |- wpv (first_by _) _ _ => apply wpv_first_by; intros ? ?
  | |- wpv (or_fail _ _) _ _ => apply wpv_or_fail
  | |- wpv (wrap _ _) _ _ => apply wpv_wrap
  | |- wpv (map_err _ _) _ _ => apply wpv_map_err
  | |- wpv (mbind _ _) _ _ => apply wpv_bind
  | |- wpv (refuse_if _ _) _ _ => apply wpv_refuse_if; intros ?
  | |- wpv (transaction _) _ _ => apply wpv_transaction
  | |- wpv now _ _ => apply wpv_now
  | |- wpv (query _) _ _ => apply wpv_query
  | |- wpv (attempt (first_by _)) _ _ => apply wpv_attempt_first
  | |- wpv (attempt _) _ _ => apply wpv_attempt
  | |- wpv (exec _) _ _ => apply wpv_exec
  | |- wpv (find_where _) _ _ => apply wpv_query
  | |- wpv (find_page _ _ _ _) _ _ => apply wpv_query
  | |- wpv (count_rows _) _ _ => apply wpv_query
  | |- wpv (update_where _ _) _ _ => apply wpv_exec
  | |- wpv (delete_where _) _ _ => apply wpv_exec
  | |- wpv (remove_where _) _ _ => apply wpv_exec
  | |- wpv (create _) _ _ => apply wpv_exec
  | |- wpv (?f _ _) _ _ => unfold f
  end; cbn beta iota.

(** [calm I m], where the hints know the calls that keep [I] only without failures. *)
Create HintDb calm.
Ltac calm_step :=
  lazymatch goal with
  | |- forall _, _ => intros ?
  | |- calm _ ?m =>
      first
        [ solve [eauto 2 with calm]
        | lazymatch m with
          | mbind _ _ => apply calm_bind
          | attempt _ => apply calm_attempt
          | map_err _ _ => apply calm_map_err
          | or_fail _ _ => apply calm_map_err
          | for_each _ _ => apply calm_for_each
          | match _ with _ => _ end => case_match
          end
        | apply calm_keeps; [by solve_steady | by solve_keeps] ]
  end.
Ltac solve_calm := repeat calm_step.

(** One statement of a handler in a run without failures. *)
Ltac wp_step :=
  lazymatch goal with
  | |- wp (mret _) _ _ => apply wp_ret
  | |- wp (throw _) _ _ => apply wp_throw
  | |- wp (first_by _) _ _ => apply wp_first_by; [by eauto with golang|]
  | |- wp (or_fail _ _) _ _ => apply wp_map_err
  | |- wp (wrap _ _) _ _ => apply wp_map_err
  | |- wp (map_err _ _) _ _ => apply wp_map_err
  | |- wp (attempt _) _ _ => apply wp_attempt
  | |- wp (ignore_err _) _ _ => apply wp_ignore_err
  | |- wp (mbind _ _) _ _ => apply wp_bind
  | |- wp (refuse_if _ _) _ _ => apply wp_refuse_if
  | |- wp (transaction _) _ _ => apply wp_transaction
  | |- wp now _ _ => apply wp_now
  | |- wp (query _) _ _ => apply wp_query; [by eauto with golang|]
  | |- wp (exec _) _ _ => apply wp_exec; [by eauto with golang|]
  | |- wp (find_where _) _ _ => apply wp_query; [by eauto with golang|]
  | |- wp (count_rows _) _ _ => apply wp_query; [by eauto with golang|]
  | |- wp (create _) _ _ => apply wp_exec; [by eauto with golang|]
  | |- wp (update_where _ _) _ _ => apply wp_exec; [by eauto with golang|]
  | |- wp (delete_where _) _ _ => apply wp_exec; [by eauto with golang|]
  | |- wp (remove_where _) _ _ => apply wp_exec; [by eauto with golang|]
  | |- wp (redis_del _) _ _ => apply wp_redis_del; [by eauto with golang|]
  | |- wp (redis_exec _) _ _ => apply wp_redis_exec; [by eauto with golang|]
  | |- wp (find_page _ _ _ _) _ _ => apply wp_query; [by eauto with golang|]
  end; cbn beta iota.
