(* ===== verification/Permission.v ===== *)
(** Roles and the rules that decide who may do what: [app/common/permission],
    [app/common/utils/auth], and the rule files of the user and core-data
    services.  A request's context is the decoded JWT payload, when there is one. *)
From S2P Require Export Prelude GoStrings.

(** ** Roles ([permission/const.go]) *)

Definition RoleUser : Z := 0.
Definition RoleCoach : Z := 2.
Definition RoleAdmin : Z := 1.

Definition RoleName (role : Z) : option string :=
  if decide (role = RoleUser) then Some "普通用户"
  else if decide (role = RoleCoach) then Some "教练"
  else if decide (role = RoleAdmin) then Some "管理员" else None.

Definition role_string (role : Z) : string :=
  match RoleName role with Some name => name | None => "未知角色" end.

Definition IsValid (role : Z) : bool :=
  bool_decide (role = RoleUser) || bool_decide (role = RoleCoach)
  || bool_decide (role = RoleAdmin).

Definition CanManage (callerRole targetRole : Z) : bool := bool_decide (targetRole <= callerRole).

(** ** The caller ([auth/check.go]) *)

Record JwtPayload := Jwt {
  jwt_UserID : Z;
  jwt_Username : string;
  jwt_Name : string;
  jwt_Email : string;
  jwt_RoleID : Z
}.

(** The payload of the request's token; [None] when it cannot be decoded. *)
Abbreviation ctx := (option JwtPayload).

Definition GetCurrentUser (c : ctx) : option JwtPayload := c.

Definition GetCurrentUserId (c : ctx) : Z :=
  match c with Some pd => jwt_UserID pd | None => 0 end.

Definition VerifyMinRole (c : ctx) (minRole : Z) : bool :=
  match c with Some pd => bool_decide (minRole <= jwt_RoleID pd) | None => false end.

Definition VerifySelfOrAbove (c : ctx) (targetUserId : Z) : bool :=
  match c with
  | None => false
  | Some pd =>
      if decide (jwt_RoleID pd = RoleAdmin) then true
      else if decide (jwt_RoleID pd = RoleCoach) then bool_decide (targetUserId = jwt_UserID pd)
      else bool_decide (jwt_UserID pd = targetUserId)
  end.

Definition VerifyAdmin (c : ctx) : bool :=
  match c with Some pd => bool_decide (jwt_RoleID pd = RoleAdmin) | None => false end.

Definition VerifyCoach (c : ctx) : bool :=
  match c with Some pd => bool_decide (jwt_RoleID pd = RoleCoach) | None => false end.

(** [JWTSecretBytes]; [None] is a nil configuration. *)
Definition JWTSecretBytes (jwt_secret : option string) : outcome string :=
  match jwt_secret with
  | None => Exn (ErrorText "server config is nil")
  | Some s =>
      let secret := trim_space s in
      if decide (secret = "") then Exn (ErrorText "server.jwt_secret is required")
      else if decide (String.length secret < 32)%nat
      then Exn (ErrorText "server.jwt_secret must be at least 32 characters")
      else Val secret
  end.

(** ** Rules of the user service *)

Definition canSetUserRole (callerID callerRole targetID targetRole newRole : Z) : bool :=
  if decide (callerRole <> RoleAdmin) then false
  else if decide (callerID = targetID) then false
  else if decide (targetRole = RoleAdmin) then false
  else if decide (newRole = RoleAdmin) then false
  else IsValid newRole.

Definition canDeleteUser (callerID callerRole targetID targetRole : Z) : bool :=
  if decide (callerRole <> RoleAdmin) then false
  else if decide (callerID = targetID) then false
  else bool_decide (targetRole <> RoleAdmin).

Definition canBroadcastMessage (callerRole : Z) : bool :=
  bool_decide (callerRole = RoleAdmin) || bool_decide (callerRole = RoleCoach).

Definition CanManageTeam (operatorId ownerId : Z) : bool :=
  bool_decide (0 < operatorId) && bool_decide (0 < ownerId) && bool_decide (operatorId = ownerId).

Definition defaultRegisterInviteCode : string := "wustacm666".

Definition validateRegisterInviteCode (input expected : string) : bool * string :=
  let input := trim_space input in
  let expected := trim_space expected in
  if decide (input = "") then (false, "请输入邀请码")
  else
    let expected := if decide (expected = "") then defaultRegisterInviteCode else expected in
    if decide (input <> expected) then (false, "邀请码错误") else (true, "").

(** ** Rules of the core-data service ([service/spider.go]) *)

Definition canManageCoreOps (roleID : Z) : bool :=
  bool_decide (roleID = RoleAdmin) || bool_decide (roleID = RoleCoach).

Definition canOperateUserDetail (currentUserID roleID targetUserID : Z) : bool :=
  bool_decide (currentUserID = targetUserID) || canManageCoreOps roleID.

Definition isCoachOrAdmin (c : ctx) : bool :=
  match c with Some pd => canManageCoreOps (jwt_RoleID pd) | None => false end.

Definition canViewUserDetail (c : ctx) (userId : Z) : bool :=
  match c with
  | Some pd => canOperateUserDetail (wrap_int64 (jwt_UserID pd)) (jwt_RoleID pd) userId
  | None => false
  end.

(** ** Passwords ([service/password.go]) *)

(** What the code relies on of [golang.org/x/crypto/bcrypt]: hashing a password
    succeeds or is refused, a hash verifies the password it was made from, and it
    carries the version prefix. *)
Class Bcrypt := {
  GenerateFromPassword : string -> Z -> option string;
  CompareHashAndPassword : string -> string -> bool;
  bcrypt_verifies p c h :
    GenerateFromPassword p c = Some h -> CompareHashAndPassword h p = true;
  bcrypt_prefix p c h :
    GenerateFromPassword p c = Some h -> has_prefix h "$2a$" = true
}.

Definition passwordHashCost : Z := 12.

Definition isBcryptHash (value : string) : bool :=
  has_prefix value "$2a$" || has_prefix value "$2b$"
  || has_prefix value "$2x$" || has_prefix value "$2y$".

Section passwords.
Context `{Bcrypt}.

Definition hashPassword (password : string) : option string :=
  GenerateFromPassword password passwordHashCost.

(** [(valid, needsRehash)] *)
Definition verifyPassword (stored candidate : string) : bool * bool :=
  if isBcryptHash stored then (CompareHashAndPassword stored candidate, false)
  else if decide (stored = candidate) then (true, true) else (false, false).

(** What it means for a password to be the one that is stored: a value with a
    bcrypt version prefix is a hash, any other is a password in clear. *)
Definition password_matches (stored candidate : string) : Prop :=
  let hashed := exists v, v ∈ ["$2a$"; "$2b$"; "$2x$"; "$2y$"] /\ has_prefix stored v = true in
  (hashed /\ CompareHashAndPassword stored candidate = true) \/ (~ hashed /\ stored = candidate).

Lemma isBcryptHash_iff stored : isBcryptHash stored = true <->
  exists v, v ∈ ["$2a$"; "$2b$"; "$2x$"; "$2y$"] /\ has_prefix stored v = true.
Proof.
  unfold isBcryptHash. rewrite !orb_true_iff. split.
  - intros [[[H0|H0]|H0]|H0]; eexists; (split; [|exact H0]); set_solver.
  - intros (v & Hv & Hp). rewrite !elem_of_cons, elem_of_nil in Hv.
    destruct Hv as [->|[->|[->|[->|[]]]]]; tauto.
Qed.

Lemma verifyPassword_iff stored candidate :
  (verifyPassword stored candidate).1 = true <-> password_matches stored candidate.
Proof.
  unfold verifyPassword, password_matches. rewrite <- isBcryptHash_iff.
  destruct (isBcryptHash stored); [|case_decide as Hd]; simpl.
  - split; [by left|]. intros [[_ Hc]|[Hn _]]; [done|by destruct Hn].
  - split; [by right|done].
  - split; [done|]. intros [[Hb _]|[_ Hs]]; [done|by destruct Hd].
Qed.
End passwords.

(** A bcrypt that satisfies the laws: it accepts the passwords bcrypt accepts (72
    bytes at most) and keeps them in clear behind the prefix. *)
Definition clear_generate (p : string) (cost : Z) : option string :=
  if decide (String.length p <= 72)%nat then Some ("$2a$" +:+ p) else None.
Definition clear_compare (h p : string) : bool := bool_decide (h = "$2a$" +:+ p).

#[export, refine] Instance clear_bcrypt : Bcrypt | 100 :=
  {| GenerateFromPassword := clear_generate; CompareHashAndPassword := clear_compare |}.
Proof.
  - intros p c h. unfold clear_generate, clear_compare. case_decide; [|done].
    intros [= <-]. by apply bool_decide_eq_true.
  - intros p c h. unfold clear_generate. case_decide; [|done].
    intros [= <-]. apply has_prefix_spec. by exists p.
Defined.

(** ** What the rules guarantee *)

Module Rules.
(** A role change that the rules allow: made by an administrator, on someone
    else, who is not an administrator before or after it. *)
Lemma canSetUserRole_iff callerID callerRole targetID targetRole newRole :
  canSetUserRole callerID callerRole targetID targetRole newRole = true <->
  callerRole = RoleAdmin /\ callerID <> targetID /\ targetRole <> RoleAdmin /\
  (newRole = RoleUser \/ newRole = RoleCoach).
Proof.
  unfold canSetUserRole, IsValid, RoleAdmin, RoleUser, RoleCoach.
  repeat case_decide; rewrite ?orb_true_iff, ?bool_decide_eq_true; naive_solver lia.
Qed.

Lemma canDeleteUser_iff callerID callerRole targetID targetRole :
  canDeleteUser callerID callerRole targetID targetRole = true <->
  callerRole = RoleAdmin /\ callerID <> targetID /\ targetRole <> RoleAdmin.
Proof.
  unfold canDeleteUser. repeat case_decide; rewrite ?bool_decide_eq_true; naive_solver.
Qed.

Lemma CanManageTeam_iff operatorId ownerId :
  CanManageTeam operatorId ownerId = true <-> operatorId = ownerId /\ 0 < operatorId.
Proof.
  unfold CanManageTeam. rewrite !andb_true_iff, !bool_decide_eq_true. lia.
Qed.

Lemma VerifySelfOrAbove_iff c target :
  VerifySelfOrAbove c target = true <->
  exists pd, c = Some pd /\ (jwt_RoleID pd = RoleAdmin \/ jwt_UserID pd = target).
Proof.
  destruct c as [pd|]; simpl; [|naive_solver].
  repeat case_decide; rewrite ?bool_decide_eq_true; naive_solver.
Qed.
End Rules.
