(* ===== verification/Json.v ===== *)
(** [encoding/json] as the code uses it: encoding a flat [map[string]any] (keys in
    order, strings escaped as [Marshal] escapes them), and the syntax check of
    [Valid]. *)
From S2P Require Export GoStrings.
From Stdlib Require Import Ascii.

Inductive json :=
  | JInt (z : Z)
  | JBool (b : bool)
  | JString (s : string).

Definition hex_digit (z : Z) : ascii := if z <? 10 then byte_of (48 + z) else byte_of (87 + z).

(** The escape of a byte below 128, when it has one; [<], [>] and [&] are escaped
    for HTML. *)
Definition escape_ascii (r : Z) : list ascii :=
  if bool_decide (r ∈ [34; 92]) then [byte_of 92; byte_of r]
  else if r =? 8 then [byte_of 92; byte_of 98] else if r =? 12 then [byte_of 92; byte_of 102]
  else if r =? 10 then [byte_of 92; byte_of 110] else if r =? 13 then [byte_of 92; byte_of 114]
  else if r =? 9 then [byte_of 92; byte_of 116]
  else if (r <? 32) || bool_decide (r ∈ [38; 60; 62]) then
    map byte_of [92; 117; 48; 48] ++ [hex_digit (r / 16); hex_digit (r mod 16)]
  else [byte_of r].

Definition escape_chunk (c : chunk) : list ascii :=
  if rune c <? 128 then escape_ascii (rune c)
  else if (rune c =? rune_error) && bool_decide (length (raw c) = 1%nat)
  then bytes_of "\ufffd"
  else if rune c =? 8232 then bytes_of "\u2028"
  else if rune c =? 8233 then bytes_of "\u2029"
  else raw c.

Definition quote : string := of_bytes [byte_of 34].
Definition json_string (s : string) : string :=
  quote +:+ of_bytes (concat (map escape_chunk (chunks_of s))) +:+ quote.

Definition json_value (j : json) : string :=
  match j with
  | JInt z => pretty z
  | JBool b => if b then "true" else "false"
  | JString s => json_string s
  end.

Definition key_le (x y : string * json) : Prop := string_lt y.1 x.1 = false.
#[export] Instance key_le_dec x y : Decision (key_le x y).
Proof. unfold key_le. apply _. Defined.

(** [json.Marshal] of a map: the keys are written in increasing order. *)
Definition json_object (kvs : list (string * json)) : string :=
  "{" +:+ join "," (map (fun kv => json_string kv.1 +:+ ":" +:+ json_value kv.2)
                        (merge_sort key_le kvs)) +:+ "}".

(** ** [json.Valid] *)

Definition json_space (c : Z) : bool := bool_decide (c ∈ [32; 9; 10; 13]).
Definition is_digit (c : Z) : bool := is_between 48 57 c.
Definition is_hex (c : Z) : bool := is_digit c || is_between 65 70 c || is_between 97 102 c.

Fixpoint skip_spaces (l : list Z) : list Z :=
  match l with
  | c :: l' => if json_space c then skip_spaces l' else l
  | [] => []
  end.

(** The bytes after the closing quote. *)
Fixpoint scan_string (l : list Z) : option (list Z) :=
  match l with
  | [] => None
  | 34 :: l => Some l
  | 92 :: 117 :: a :: b :: c :: d :: l =>
      if is_hex a && is_hex b && is_hex c && is_hex d then scan_string l else None
  | 92 :: c :: l =>
      if bool_decide (c ∈ [34; 92; 47; 98; 102; 110; 114; 116]) then scan_string l else None
  | c :: l => if (c <? 32) || (c =? 92) then None else scan_string l
  end.

Fixpoint skip_digits (l : list Z) : list Z :=
  match l with
  | c :: l' => if is_digit c then skip_digits l' else l
  | [] => []
  end.
Definition some_digits (l : list Z) : option (list Z) :=
  match l with
  | c :: l' => if is_digit c then Some (skip_digits l') else None
  | [] => None
  end.
Definition scan_fraction (l : list Z) : option (list Z) :=
  match l with 46 :: l' => some_digits l' | _ => Some l end.
Definition scan_exponent (l : list Z) : option (list Z) :=
  match l with
  | c :: l' =>
      if (c =? 101) || (c =? 69)
      then match l' with
           | s :: l'' => if (s =? 43) || (s =? 45) then some_digits l'' else some_digits l'
           | [] => None
           end
      else Some l
  | [] => Some l
  end.
Definition scan_number (l : list Z) : option (list Z) :=
  let l := match l with 45 :: l' => l' | _ => l end in
  l ← match l with 48 :: l' => Some l' | _ => some_digits l end;
  l ← scan_fraction l;
  scan_exponent l.

Definition max_depth : nat := 10000.

(** What the scanner has to read next: a value, or what follows a value in an
    array or an object (with a member before it, when the value is its first). *)
Inductive json_part := JValue | JItems | JMembers.

Fixpoint scan (fuel depth : nat) (part : json_part) (l : list Z) : option (list Z) :=
  match fuel with
  | O => None
  | S fuel =>
      let l := skip_spaces l in
      match part with
      | JValue =>
          match l with
          | 34 :: l => scan_string l
          | 91 :: l =>
              if decide (max_depth <= depth)%nat then None
              else match skip_spaces l with
                   | 93 :: l => Some l
                   | l => scan fuel (S depth) JItems l
                   end
          | 123 :: l =>
              if decide (max_depth <= depth)%nat then None
              else match skip_spaces l with
                   | 125 :: l => Some l
                   | l => scan fuel (S depth) JMembers l
                   end
          | 116 :: 114 :: 117 :: 101 :: l => Some l
          | 102 :: 97 :: 108 :: 115 :: 101 :: l => Some l
          | 110 :: 117 :: 108 :: 108 :: l => Some l
          | l => scan_number l
          end
      | JItems =>
          l ← scan fuel depth JValue l;
          match skip_spaces l with
          | 44 :: l => scan fuel depth JItems l
          | 93 :: l => Some l
          | _ => None
          end
      | JMembers =>
          match l with
          | 34 :: l =>
              l ← scan_string l;
              match skip_spaces l with
              | 58 :: l =>
                  l ← scan fuel depth JValue l;
                  match skip_spaces l with
                  | 44 :: l => scan fuel depth JMembers l
                  | 125 :: l => Some l
                  | _ => None
                  end
              | _ => None
              end
          | _ => None
          end
      end
  end.

Definition json_valid (s : string) : bool :=
  let l := map code (bytes_of s) in
  match scan (S (2 * length l)) 0 JValue l with
  | Some l => bool_decide (skip_spaces l = [])
  | None => false
  end.

(** ** Decoding *)

(** The value of decimal digits ([strconv]). *)
Definition digits_value (l : list Z) : option Z :=
  match l with
  | [] => None
  | _ => if forallb is_digit l then Some (foldl (fun n c => 10 * n + (c - 48)) 0 l) else None
  end.

(** A quoted string: its raw bytes and the code units of its [\u] escapes, and what
    follows the closing quote. *)
Definition hex_value (c : Z) : Z := if c <=? 57 then c - 48 else if c <=? 70 then c - 55 else c - 87.
Definition escaped (c : Z) : Z :=
  if c =? 98 then 8 else if c =? 102 then 12 else if c =? 110 then 10 else if c =? 114 then 13
  else if c =? 116 then 9 else c.
Fixpoint string_units (l : list Z) : list (Z + Z) * list Z :=
  match l with
  | [] => ([], [])
  | 34 :: l => ([], l)
  | 92 :: 117 :: a :: b :: c :: d :: l =>
      let r := string_units l in
      (inr (((hex_value a * 16 + hex_value b) * 16 + hex_value c) * 16 + hex_value d) :: r.1, r.2)
  | 92 :: c :: l => let r := string_units l in (inl (escaped c) :: r.1, r.2)
  | c :: l => let r := string_units l in (inl c :: r.1, r.2)
  end.
Fixpoint unit_bytes (l : list (Z + Z)) : list Ascii.ascii :=
  match l with
  | [] => []
  | inl b :: l => byte_of b :: unit_bytes l
  | inr u :: ((inr v :: l') as l) =>
      if is_between 55296 56319 u && is_between 56320 57343 v
      then encode_rune ((u - 55296) * 1024 + (v - 56320) + 65536) ++ unit_bytes l'
      else encode_rune (if is_between 55296 57343 u then rune_error else u) ++ unit_bytes l
  | inr u :: l => encode_rune (if is_between 55296 57343 u then rune_error else u) ++ unit_bytes l
  end.
(** Bytes that are no UTF-8 become the replacement character. *)
Definition valid_utf8 (s : string) : string := string_of_runes (runes s).

(** The members of a valid object, after its opening brace: the keys, and the text of
    their values. *)
Fixpoint object_members (fuel : nat) (l : list Z) : list (string * list Z) :=
  match fuel with
  | O => []
  | S fuel =>
      match skip_spaces l with
      | 34 :: l =>
          let k := string_units l in
          match skip_spaces k.2 with
          | 58 :: l =>
              let l := skip_spaces l in
              match scan (S (2 * length l)) 1 JValue l with
              | Some rest =>
                  (valid_utf8 (of_bytes (unit_bytes k.1)), take (length l - length rest) l)
                    :: match skip_spaces rest with 44 :: l => object_members fuel l | _ => [] end
              | None => []
              end
          | _ => []
          end
      | _ => []
      end
  end.

(** [json.NewDecoder(body).Decode(&v)]: the text of the first value; what follows is not
    looked at. *)
Definition first_value (s : string) : option (list Z) :=
  let l := skip_spaces (map code (bytes_of s)) in
  match scan (S (2 * length l)) 0 JValue l with
  | Some rest => Some (take (length l - length rest) l)
  | None => None
  end.
(** The members of a value, [None] when it is no object; a [null] has none. *)
Definition value_members (v : list Z) : option (list (string * list Z)) :=
  match v with
  | 123 :: l => Some (object_members (length l) l)
  | 110 :: _ => Some []
  | _ => None
  end.

(** [strconv.ParseInt(s, 10, 64)]: the number, when there is one, and the number in
    range. *)
Definition signed_digits (s : string) : option Z :=
  match map code (bytes_of s) with
  | 45 :: l => Z.opp <$> digits_value l
  | 43 :: l => digits_value l
  | l => digits_value l
  end.
Definition parse_int64 (s : string) : option Z :=
  match signed_digits s with
  | Some r => if (- 2 ^ 63 <=? r) && (r <? 2 ^ 63) then Some r else None
  | None => None
  end.
(** The value that comes with the error: zero, or the nearest number in range. *)
Definition parse_int64_lax (s : string) : Z :=
  match signed_digits s with Some r => Z.max (- 2 ^ 63) (Z.min (2 ^ 63 - 1) r) | None => 0 end.
