(* ===== verification/JsonTheory.v ===== *)
(** What [encoding/json] writes, its own scanner and decoder read back. *)
From S2P Require Export Json.
From Stdlib Require Import Ascii.

(** ** Printed numbers *)

Definition digits_from (n : Z) (l : list ascii) : Z := foldl (fun n c => 10 * n + (c - 48)) n (map code l).
Definition all_digits (l : list ascii) : Prop := Forall (fun a => is_digit (code a) = true) l.

Lemma digit_char n : (n < 10)%N -> is_digit (code (pretty_N_char n)) = true /\ code (pretty_N_char n) = 48 + Z.of_N n.
Proof.
  intros Hn.
  assert (Forall (fun k => let c := code (pretty_N_char (N.of_nat k)) in is_digit c = true /\ c = 48 + Z.of_nat k) (seq 0 10)) as Hall
    by (repeat constructor).
  rewrite Forall_forall in Hall. specialize (Hall (N.to_nat n)). rewrite N2Nat.id, N_nat_Z in Hall.
  apply Hall, elem_of_seq. lia.
Qed.

(** The digits that are put before [s] are those of [n]. *)
Lemma pretty_N_go_digits n s : exists d, bytes_of (pretty_N_go n s) = d ++ bytes_of s
  /\ all_digits d /\ digits_from 0 d = Z.of_N n /\ ((0 < n)%N -> d <> []).
Proof.
  revert s. induction (N.lt_wf_0 n) as [n _ IH]; intros s.
  assert (n = 0 \/ 0 < n)%N as [->|Hn] by lia.
  { exists []. rewrite pretty_N_go_0. split_and!; [done | constructor | done | lia]. }
  rewrite pretty_N_go_step by done.
  destruct (IH (n `div` 10)%N (N.div_lt n 10 Hn eq_refl) (String (pretty_N_char (n `mod` 10)) s))
    as (d & Hd & Hall & Hv & _).
  destruct (digit_char (n `mod` 10)) as [Hc1 Hc2]; [by apply N.mod_lt|].
  exists (d ++ [pretty_N_char (n `mod` 10)]). split_and!.
  - rewrite Hd. simpl. by rewrite <- app_assoc.
  - apply Forall_app. split; [done|]. by repeat constructor.
  - unfold digits_from in *. rewrite map_app, foldl_app, Hv. simpl. rewrite Hc2.
    pose proof (N.div_mod n 10). lia.
  - intros _ Hnil. by apply app_eq_nil in Hnil as [_ ?].
Qed.

Lemma pretty_digits (z : Z) : 0 <= z -> exists d, bytes_of (pretty z) = d /\ all_digits d
  /\ digits_from 0 d = z /\ d <> [].
Proof.
  intros Hz. destruct z as [|p|p]; [|clear Hz|lia].
  { eexists. split; [done|]. split_and!; [by repeat constructor | done | done]. }
  destruct (pretty_N_go_digits (Npos p) "") as (d & Hd & Hall & Hv & Hne).
  exists d. rewrite app_nil_r in Hd. split_and!; [|done | done | by apply Hne].
  rewrite <- Hd. unfold pretty, pretty_Z, pretty, pretty_positive, pretty, pretty_N. by case_decide.
Qed.

(** ** Runes *)

(** [utf8.ValidString]: no byte is read as an error. *)
Definition good_chunk (c : chunk) : bool := negb ((rune c =? rune_error) && bool_decide (length (raw c) = 1%nat)).
Definition ValidString (s : string) : bool := forallb good_chunk (chunks_of s).

(** A chunk is one ASCII character, the bytes above 127 that encode its rune, or an error. *)
Definition ascii_chunk (c : chunk) : Prop := 0 <= rune c < 128 /\ raw c = [byte_of (rune c)].
Definition wide_chunk (c : chunk) : Prop :=
  128 <= rune c /\ raw c = encode_rune (rune c) /\ Forall (fun a => 128 <= code a) (raw c)
  /\ (2 <= length (raw c))%nat.

Ltac byte_eq :=
  match goal with |- byte_of ?z = ?a =>
    replace z with (code a) by (Z.div_mod_to_equations; lia); apply byte_of_code end.

Ltac high_bytes := repeat (apply Forall_cons; split; [lia|]); by apply Forall_nil.

Lemma encode_wide r bs : 128 <= r -> encode_rune r = bs ->
  Forall (fun a => 128 <= code a) bs -> (2 <= length bs)%nat -> wide_chunk (Chunk r bs).
Proof. intros. by repeat split. Qed.

Lemma cont_range b : cont b = true -> 128 <= code b <= 191.
Proof. unfold cont, is_between. lia. Qed.
Lemma second_ok_range a b : second_ok a b = true ->
  128 <= code b <= 191 /\ (code a = 224 -> 160 <= code b) /\ (code a = 240 -> 144 <= code b).
Proof.
  unfold second_ok, second_range, is_between. intros Hb.
  destruct (code a =? 224) eqn:?, (code a =? 237) eqn:?, (code a =? 240) eqn:?, (code a =? 244) eqn:?; simpl in Hb; lia.
Qed.

Lemma first_chunk_shape a l :
  first_chunk a l = bad a \/ ascii_chunk (first_chunk a l) \/ wide_chunk (first_chunk a l).
Proof.
  pose proof (code_range a). unfold first_chunk.
  destruct (code a <? 128) eqn:Ha; [right; left; split; cbn; [lia | by rewrite byte_of_code]|].
  destruct (is_between 194 223 (code a)) eqn:H2; [|destruct (is_between 224 239 (code a)) eqn:H3;
    [|destruct (is_between 240 244 (code a)) eqn:H4; [|by left]]].
  - destruct l as [|b l]; [by left|]. destruct (cont b) eqn:Hb; [|by left]. right; right.
    apply cont_range in Hb. unfold is_between in H2. apply encode_wide; [lia| |high_bytes|simpl; lia].
    unfold encode_rune. rewrite (proj2 (Z.ltb_ge _ _)), (proj2 (Z.ltb_lt _ _)) by lia.
    repeat f_equal; byte_eq.
  - destruct l as [|b [|c l]]; try by left. destruct (second_ok a b && cont c) eqn:Hb; [|by left]. right; right.
    apply andb_true_iff in Hb as [Hb%second_ok_range Hc%cont_range].
    unfold is_between in H3. apply encode_wide; [lia| |high_bytes|simpl; lia].
    unfold encode_rune. do 2 rewrite (proj2 (Z.ltb_ge _ _)) by lia. rewrite (proj2 (Z.ltb_lt _ _)) by lia.
    repeat f_equal; byte_eq.
  - destruct l as [|b [|c [|d l]]]; try by left.
    destruct (second_ok a b && cont c && cont d) eqn:Hb; [|by left]. right; right.
    apply andb_true_iff in Hb as [[Hb%second_ok_range Hc%cont_range]%andb_true_iff Hd%cont_range].
    unfold is_between in H4. apply encode_wide; [lia| |high_bytes|simpl; lia].
    unfold encode_rune. do 3 rewrite (proj2 (Z.ltb_ge _ _)) by lia.
    repeat f_equal; byte_eq.
Qed.

Lemma chunks_shape l c : c ∈ chunks l -> (exists a, c = bad a) \/ ascii_chunk c \/ wide_chunk c.
Proof.
  remember (length l) as n eqn:Hn. assert (length l <= n)%nat as Hl by lia. clear Hn. revert l Hl.
  induction n as [|n IH]; intros [|a l] Hl Hc; try (by apply not_elem_of_nil in Hc); [simpl in Hl; lia|].
  rewrite chunks_cons in Hc. apply elem_of_cons in Hc as [->|Hc].
  - destruct (first_chunk_shape a l) as [->|?]; [left; by exists a | by right].
  - apply IH in Hc; [done|]. destruct (first_chunk_raw a l) as (k & Hk & Hne).
    rewrite length_drop. destruct (raw (first_chunk a l)); [done|]. simpl in *. lia.
Qed.

(** The chunks of a valid string. *)
Lemma ValidString_chunks s : ValidString s = true -> Forall (fun c => ascii_chunk c \/ wide_chunk c) (chunks_of s).
Proof.
  unfold ValidString. rewrite forallb_forall, Forall_forall. intros Hs c Hc.
  destruct (chunks_shape _ _ Hc) as [[a ->]|?]; [|done].
  apply list_elem_of_In, Hs in Hc. done.
Qed.

Lemma encode_ascii r : r < 128 -> encode_rune r = [byte_of r].
Proof. intros Hr. unfold encode_rune. by rewrite (proj2 (Z.ltb_lt _ _)). Qed.

Lemma valid_utf8_id s : ValidString s = true -> valid_utf8 s = s.
Proof.
  intros Hs%ValidString_chunks. unfold valid_utf8, string_of_runes, runes.
  rewrite <- (of_chunks_of s) at 2. unfold of_chunks. do 2 f_equal. rewrite map_map.
  apply map_ext_Forall. eapply Forall_impl; [exact Hs|]. cbn. intros c [[Hr ->]|(_ & -> & _)]; [|done].
  apply encode_ascii. lia.
Qed.

(** ** Strings, written and read *)

(** A test of every ASCII character is made by evaluation. *)
Lemma ascii_cases (P : Z -> Prop) : Forall (fun n => P (Z.of_nat n)) (seq 0 128) -> forall r, 0 <= r < 128 -> P r.
Proof.
  intros HP r Hr. rewrite Forall_forall in HP. specialize (HP (Z.to_nat r)). rewrite Z2Nat.id in HP by lia.
  apply HP, elem_of_seq. lia.
Qed.
(** What the decoder takes for one unit. *)
Definition unit_byte (u : Z + Z) : list ascii :=
  match u with inl b => [byte_of b] | inr u => encode_rune u end.
Definition plain_unit (u : Z + Z) : bool := match u with inl _ => true | inr u => negb (is_between 55296 57343 u) end.

Lemma unit_bytes_plain us : forallb plain_unit us = true -> unit_bytes us = concat (map unit_byte us).
Proof.
  induction us as [|[b|u] us IH]; cbn [forallb plain_unit]; intros Hp; [done| |].
  - simpl. by rewrite IH.
  - bool_cases. cbn [map concat unit_byte]. rewrite <- IH by done.
    assert (is_between 55296 56319 u = false) as Hs by (unfold is_between in *; lia).
    cbn [unit_bytes]. destruct us as [|[b|v] us]; rewrite ?Hs, H; done.
Qed.

Lemma string_units_other c l : c <> 34 -> c <> 92 ->
  string_units (c :: l) = (inl c :: (string_units l).1, (string_units l).2).
Proof.
  intros H1 H2. destruct c as [|p|p]; try reflexivity.
  repeat (destruct p as [p|p|]; try reflexivity; try lia).
Qed.
Lemma scan_string_other c l : 32 <= c -> c <> 34 -> c <> 92 -> scan_string (c :: l) = scan_string l.
Proof.
  intros H0 H1 H2. transitivity (if (c <? 32) || (c =? 92) then None else scan_string l).
  - destruct c as [|p|p]; try reflexivity. repeat (destruct p as [p|p|]; try reflexivity; try lia).
  - rewrite (proj2 (Z.ltb_ge _ _)), (proj2 (Z.eqb_neq _ _)) by lia. done.
Qed.

(** The ways in which an ASCII character is written, with the unit that is read. *)
Inductive written : list Z -> Z + Z -> Prop :=
  | as_is r : (32 <=? r) && negb (r =? 34) && negb (r =? 92) = true -> written [r] (inl r)
  | as_short c : bool_decide (c ∈ [34; 92; 98; 102; 110; 114; 116]) = true -> written [92; c] (inl (escaped c))
  | as_hex a b c d : is_hex a && is_hex b && is_hex c && is_hex d = true ->
      written [92; 117; a; b; c; d]
        (inr (((hex_value a * 16 + hex_value b) * 16 + hex_value c) * 16 + hex_value d)).

Lemma written_reads l u rest : written l u ->
  string_units (l ++ rest) = (u :: (string_units rest).1, (string_units rest).2)
  /\ scan_string (l ++ rest) = scan_string rest.
Proof.
  destruct 1 as [r Hr|c Hc|a b c d Hh]; cbn [app].
  - bool_cases. rewrite Z.leb_le, !Z.eqb_neq in *. by rewrite string_units_other, scan_string_other by lia.
  - apply bool_decide_eq_true in Hc. repeat (apply elem_of_cons in Hc as [->|Hc]; [by split|]).
    by apply not_elem_of_nil in Hc.
  - split; [done|]. cbn [scan_string]. by rewrite Hh.
Qed.

Definition ascii_unit (r : Z) : Z + Z :=
  if bool_decide (r ∈ [8; 9; 10; 12; 13]) then inl r
  else if (r <? 32) || bool_decide (r ∈ [38; 60; 62]) then inr r else inl r.
Lemma escape_ascii_written : forall r, 0 <= r < 128 -> written (map code (escape_ascii r)) (ascii_unit r).
Proof.
  apply ascii_cases. cbn [seq].
  repeat (apply Forall_cons; split;
    [vm_compute; (refine (as_is _ _); reflexivity) || (refine (as_short _ _); reflexivity)
       || (refine (as_hex _ _ _ _ _); reflexivity)|]).
  by apply Forall_nil.
Qed.
Lemma ascii_unit_plain : forall r, 0 <= r < 128 ->
  plain_unit (ascii_unit r) = true /\ unit_byte (ascii_unit r) = [byte_of r].
Proof.
  apply ascii_cases. cbn [seq]. repeat (apply Forall_cons; split; [by split|]). by apply Forall_nil.
Qed.

Lemma high_units bs rest : Forall (fun a => 128 <= code a) bs ->
  string_units (map code bs ++ rest) = (map (fun a => inl (code a)) bs ++ (string_units rest).1, (string_units rest).2).
Proof.
  induction 1 as [|a bs Ha _ IH]; [exact (surjective_pairing (string_units rest))|]. cbn [map app].
  rewrite string_units_other by lia. by rewrite IH.
Qed.
Lemma high_scan bs rest : Forall (fun a => 128 <= code a) bs -> scan_string (map code bs ++ rest) = scan_string rest.
Proof. induction 1 as [|a bs Ha _ IH]; [done|]. cbn [map app]. by rewrite scan_string_other by lia. Qed.

(** One chunk of a string, escaped and read again. *)
Definition shaped (c : chunk) : Prop := (exists a, c = bad a) \/ ascii_chunk c \/ wide_chunk c.
Lemma escape_chunk_reads c rest : shaped c ->
  scan_string (map code (escape_chunk c) ++ rest) = scan_string rest
  /\ exists us, string_units (map code (escape_chunk c) ++ rest) = (us ++ (string_units rest).1, (string_units rest).2)
     /\ forallb plain_unit us = true /\ concat (map unit_byte us) = encode_rune (rune c).
Proof.
  unfold escape_chunk. intros [[a ->]|[[Hr Hraw]|(Hr & Hraw & Hhigh & Hlen)]].
  - split; [done|]. by exists [inr rune_error].
  - rewrite (proj2 (Z.ltb_lt _ _)) by lia.
    destruct (written_reads _ _ rest (escape_ascii_written _ Hr)) as [-> ->].
    split; [done|]. exists [ascii_unit (rune c)]. destruct (ascii_unit_plain _ Hr) as [Hp Hb].
    split; [done|]. cbn [forallb map concat]. rewrite Hp, Hb. split; [done|]. symmetry. apply encode_ascii. lia.
  - rewrite (proj2 (Z.ltb_ge _ _)) by lia.
    rewrite (bool_decide_false (length (raw c) = 1%nat)), andb_false_r by lia.
    destruct (rune c =? 8232) eqn:E1; [|destruct (rune c =? 8233) eqn:E2].
    + apply Z.eqb_eq in E1. rewrite E1. split; [done|]. by exists [inr 8232].
    + apply Z.eqb_eq in E2. rewrite E2. split; [done|]. by exists [inr 8233].
    + rewrite <- Hraw. split; [by apply high_scan|]. exists (map (fun a => inl (code a)) (raw c)).
      rewrite high_units by done. split; [done|]. split; [clear; by induction (raw c)|].
      rewrite map_map. clear. induction (raw c) as [|a l IH]; [done|]. simpl in *. by rewrite byte_of_code, IH.
Qed.

Definition codes (s : string) : list Z := map code (bytes_of s).
Lemma codes_app s t : codes (s +:+ t) = codes s ++ codes t.
Proof. unfold codes. by rewrite app_bytes, map_app. Qed.

(** A quoted string is scanned to its end and gives its bytes back. *)
Lemma json_string_codes s rest :
  codes (json_string s) ++ rest = 34 :: map code (concat (map escape_chunk (chunks_of s))) ++ 34 :: rest.
Proof.
  unfold json_string. rewrite !codes_app. unfold codes. rewrite bytes_of_of. simpl. by rewrite <- app_assoc.
Qed.

Lemma escaped_reads l rest : Forall shaped l ->
  scan_string (map code (concat (map escape_chunk l)) ++ 34 :: rest) = Some rest
  /\ exists us, string_units (map code (concat (map escape_chunk l)) ++ 34 :: rest) = (us, rest)
     /\ forallb plain_unit us = true /\ concat (map unit_byte us) = concat (map encode_rune (map rune l)).
Proof.
  induction 1 as [|c l Hc _ [IH (us & Hus & Hp & Hb)]]; [split; [done|]; by exists []|].
  cbn [map concat]. rewrite map_app, <- app_assoc.
  destruct (escape_chunk_reads c (map code (concat (map escape_chunk l)) ++ 34 :: rest) Hc) as [Hs (us' & Hus' & Hp' & Hb')].
  split; [by rewrite Hs|]. exists (us' ++ us). rewrite Hus', Hus. split; [done|].
  by rewrite forallb_app, Hp', Hp, map_app, concat_app, Hb, Hb'.
Qed.

Lemma json_string_reads s rest : exists l, codes (json_string s) ++ rest = 34 :: l
  /\ scan_string l = Some rest /\ (string_units l).2 = rest
  /\ of_bytes (unit_bytes (string_units l).1) = valid_utf8 s.
Proof.
  rewrite json_string_codes. eexists. split; [done|].
  destruct (escaped_reads (chunks_of s) rest) as [-> (us & -> & Hp & Hb)].
  { apply Forall_forall. intros c. apply chunks_shape. }
  split; [done|]. split; [done|]. cbn [fst snd]. by rewrite unit_bytes_plain, Hb.
Qed.

(** ** Numbers *)

Lemma pretty_N_go_head n s : (0 < n)%N ->
  exists a l, bytes_of (pretty_N_go n s) = a :: l /\ is_digit (code a) = true /\ code a <> 48.
Proof.
  revert s. induction (N.lt_wf_0 n) as [n _ IH]; intros s Hn. rewrite pretty_N_go_step by done.
  destruct (decide (n < 10)%N) as [Hs|Hs].
  - rewrite N.div_small, N.mod_small, pretty_N_go_0 by done.
    destruct (digit_char n Hs) as [Hd Hc]. eexists _, _. split; [done|]. split; [done | lia].
  - apply IH; [by apply N.div_lt|]. apply N.div_str_pos. lia.
Qed.

Lemma pretty_pos_head (p : positive) : exists a l, bytes_of (pretty (Zpos p)) = a :: l
  /\ is_digit (code a) = true /\ code a <> 48.
Proof.
  unfold pretty, pretty_Z, pretty, pretty_positive, pretty, pretty_N. case_decide; [done|]. by apply pretty_N_go_head.
Qed.

(** Numbers are read back from their text. *)
Lemma digits_value_all d : all_digits d -> d <> [] -> digits_value (map code d) = Some (digits_from 0 d).
Proof.
  intros Hall Hne. unfold digits_value. destruct d as [|a d]; [done|]. cbn [map].
  rewrite (proj2 (forallb_forall _ (code a :: map code d))); [done|].
  intros c Hc. change (code a :: map code d) with (map code (a :: d)) in Hc.
  apply in_map_iff in Hc as (b & <- & Hb). apply list_elem_of_In in Hb. by eapply Forall_forall in Hall.
Qed.

Lemma signed_digits_plain s : (forall c l, map code (bytes_of s) = c :: l -> is_digit c = true) ->
  signed_digits s = digits_value (map code (bytes_of s)).
Proof.
  unfold signed_digits. destruct (map code (bytes_of s)) as [|c l]; [done|]. intros Hc. specialize (Hc c l eq_refl).
  unfold is_digit, is_between in Hc. apply andb_true_iff in Hc as [H1%Z.leb_le H2%Z.leb_le].
  destruct c as [|q|q]; [lia| |lia].
  assert (q = 45 \/ q = 43 \/ (q <> 45 /\ q <> 43))%positive as [->|[->|[? ?]]] by lia; [lia..|].
  repeat (destruct q as [q|q|]; try done).
Qed.

Lemma signed_digits_pretty (z : Z) : signed_digits (pretty z) = Some z.
Proof.
  assert (forall z, 0 <= z -> digits_value (map code (bytes_of (pretty z))) = Some z) as Hpos.
  { intros n Hn. destruct (pretty_digits n Hn) as (d & -> & Hall & Hv & Hne). rewrite digits_value_all; by f_equal. }
  destruct (Z.le_gt_cases 0 z) as [Hz|Hz].
  - rewrite signed_digits_plain; [by apply Hpos|]. intros c l Hc.
    destruct (pretty_digits z Hz) as (d & Hd & Hall & _). rewrite Hd in Hc. destruct d as [|a d]; [done|].
    injection Hc as <- _. by apply Forall_inv in Hall.
  - destruct z as [|p|p]; [lia..|]. unfold signed_digits.
    change (pretty (Z.neg p)) with ("-" +:+ pretty (Z.pos p)). rewrite app_bytes.
    change (map code (bytes_of "-" ++ bytes_of (pretty (Z.pos p)))) with (45 :: map code (bytes_of (pretty (Z.pos p)))).
    cbv beta iota. by rewrite (Hpos (Z.pos p)).
Qed.

Lemma parse_int64_lax_pretty (z : Z) : in_int64 z -> parse_int64_lax (pretty z) = z.
Proof. intros [H1 H2]. unfold parse_int64_lax. rewrite signed_digits_pretty. lia. Qed.

(** What may follow a value inside an object or an array. *)
Definition closes (l : list Z) : Prop := exists c k, l = c :: k /\ c ∈ [44; 125; 93].

Lemma skip_digits_all d rest : all_digits d -> closes rest -> skip_digits (map code d ++ rest) = rest.
Proof.
  intros Hd (c & k & -> & Hc). induction Hd as [|a d Ha _ IH]; simpl.
  - by repeat (apply elem_of_cons in Hc as [->|Hc]; [done|]); apply not_elem_of_nil in Hc.
  - by rewrite Ha.
Qed.

Lemma scan_number_tail rest : closes rest -> (l ← scan_fraction rest; scan_exponent l) = Some rest.
Proof. intros (c & k & -> & Hc). by repeat (apply elem_of_cons in Hc as [->|Hc]; [done|]); apply not_elem_of_nil in Hc. Qed.

Lemma scan_unsigned c l : is_digit c = true -> c <> 48 -> scan_number (c :: l)
  = (l ← Some (skip_digits l); l ← scan_fraction l; scan_exponent l).
Proof.
  intros Hc Hz. unfold is_digit, is_between in Hc.
  transitivity (l ← some_digits (c :: l); l ← scan_fraction l; scan_exponent l).
  - destruct c as [|p|p]; [done| |done]. repeat (destruct p as [p|p|]; try reflexivity; try done; try lia).
  - unfold some_digits. unfold is_digit, is_between. by rewrite Hc.
Qed.

Lemma scan_signed c l : is_digit c = true -> scan_number (45 :: c :: l) = scan_number (c :: l).
Proof.
  intros Hc. unfold is_digit, is_between in Hc. unfold scan_number.
  destruct c as [|p|p]; [done| |done]. repeat (destruct p as [p|p|]; try reflexivity; try done; try lia).
Qed.

Lemma scan_number_pretty (z : Z) rest : closes rest -> scan_number (codes (pretty z) ++ rest) = Some rest.
Proof.
  intros Hr.
  assert (forall p, scan_number (codes (pretty (Zpos p)) ++ rest) = Some rest) as Hpos.
  { intros p. destruct (pretty_pos_head p) as (a & l & Hl & Ha & Hz).
    destruct (pretty_digits (Zpos p)) as (d & Hd & Hall & _); [lia|].
    rewrite Hl in Hd. subst d. inversion Hall; subst. unfold codes. rewrite Hl. cbn [map app].
    rewrite scan_unsigned, skip_digits_all by done. by apply scan_number_tail. }
  destruct z as [|p|p]; [|done|].
  - change (codes (pretty 0)) with [48]. exact (scan_number_tail rest Hr).
  - destruct (pretty_pos_head p) as (a & l & Hl & Ha & Hz). specialize (Hpos p).
    change (pretty (Z.neg p)) with ("-" +:+ pretty (Z.pos p)). rewrite codes_app.
    change (codes "-") with [45]. unfold codes in *. rewrite Hl in *. cbn [map app] in *. by rewrite scan_signed.
Qed.

(** ** Objects *)

Lemma scan_value_number fuel depth c l : is_digit c || (c =? 45) = true ->
  scan (S fuel) depth JValue (c :: l) = scan_number (c :: l).
Proof.
  intros Hc. unfold is_digit, is_between in Hc.
  destruct c as [|p|p]; [done| |done]. repeat (destruct p as [p|p|]; try reflexivity; try done; try lia).
Qed.

Lemma pretty_head (z : Z) : exists c l, codes (pretty z) = c :: l /\ is_digit c || (c =? 45) = true.
Proof.
  destruct z as [|p|p]; [by eexists _, _| |by eexists _, _].
  destruct (pretty_pos_head p) as (a & l & Hl & Ha & _). unfold codes. rewrite Hl. eexists _, _.
  split; [done|]. by rewrite Ha.
Qed.

Lemma scan_json fuel depth j rest : closes rest ->
  scan (S fuel) depth JValue (codes (json_value j) ++ rest) = Some rest.
Proof.
  intros Hr. destruct j as [z|[]|s]; [|done..|].
  - cbn [json_value]. destruct (pretty_head z) as (c & l & Hl & Hc). pose proof (scan_number_pretty z rest Hr) as Hs.
    rewrite Hl in *. cbn [app] in *. by rewrite scan_value_number.
  - cbn [json_value]. by destruct (json_string_reads s rest) as (l & -> & Hs & _).
Qed.

(** A member as [Marshal] writes it. *)
Definition member (kv : string * json) : string := json_string kv.1 +:+ ":" +:+ json_value kv.2.

Lemma member_codes kv rest :
  codes (member kv) ++ rest = codes (json_string kv.1) ++ 58 :: codes (json_value kv.2) ++ rest.
Proof. unfold member. rewrite !codes_app. change (codes ":") with [58]. by rewrite <- !app_assoc. Qed.

Lemma members_cons kv kvs rest : exists sep,
  codes (join "," (map member (kv :: kvs))) ++ 125 :: rest = codes (member kv) ++ sep
  /\ closes sep
  /\ (sep = 125 :: rest /\ kvs = []
      \/ sep = 44 :: codes (join "," (map member kvs)) ++ 125 :: rest /\ kvs <> []).
Proof.
  destruct kvs as [|kv' kvs]; [exists (125 :: rest); split; [done|]; split; [by eexists _, _; split; [done | set_solver] | by left]|].
  exists (44 :: codes (join "," (map member (kv' :: kvs))) ++ 125 :: rest). split; [|split; [by eexists _, _; split; [done | set_solver] | by right]].
  change (join "," (map member (kv :: kv' :: kvs))) with (member kv +:+ "," +:+ join "," (map member (kv' :: kvs))).
  rewrite !codes_app. change (codes ",") with [44]. by rewrite <- !app_assoc.
Qed.

Lemma skip_closes l : closes l -> skip_spaces l = l.
Proof. intros (c & k & -> & Hc). by repeat (apply elem_of_cons in Hc as [->|Hc]; [done|]); apply not_elem_of_nil in Hc. Qed.

(** One member, once its key and its value are known. *)
Lemma scan_member f depth l v rest sep :
  scan_string l = Some (58 :: v) -> scan f depth JValue v = Some sep -> closes sep ->
  (sep = 125 :: rest \/ exists k, sep = 44 :: k /\ scan f depth JMembers k = Some rest) ->
  scan (S f) depth JMembers (34 :: l) = Some rest.
Proof.
  intros Hl Hv Hsep Hcase.
  transitivity (match scan_string l with
                | Some l =>
                    match skip_spaces l with
                    | 58 :: l =>
                        match scan f depth JValue l with
                        | Some l => match skip_spaces l with
                                    | 44 :: l => scan f depth JMembers l
                                    | 125 :: l => Some l
                                    | _ => None
                                    end
                        | None => None
                        end
                    | _ => None
                    end
                | None => None
                end); [reflexivity|].
  rewrite Hl. change (skip_spaces (58 :: v)) with (58 :: v). cbv beta iota. rewrite Hv. cbv beta iota.
  rewrite skip_closes by done. destruct Hcase as [->|(k & -> & Hk)]; [done | exact Hk].
Qed.

Lemma scan_members kvs : forall fuel depth rest, kvs <> [] -> (length kvs < fuel)%nat ->
  scan fuel depth JMembers (codes (join "," (map member kvs)) ++ 125 :: rest) = Some rest.
Proof.
  induction kvs as [|kv kvs IH]; intros fuel depth rest Hne Hf; [done|].
  destruct fuel as [|[|fuel]]; [simpl in Hf; lia..|].
  destruct (members_cons kv kvs rest) as (sep & -> & Hsep & Hcase). rewrite member_codes.
  destruct (json_string_reads kv.1 (58 :: codes (json_value kv.2) ++ sep)) as (l & -> & Hs & _).
  eapply scan_member; [exact Hs | by apply scan_json | done |].
  destruct Hcase as [[-> ->]|[-> Hk]]; [by left|]. right. eexists. split; [done|]. apply IH; [done|]. simpl in Hf. lia.
Qed.

Lemma object_codes kvs rest : codes ("{" +:+ join "," (map member kvs) +:+ "}") ++ rest
  = 123 :: codes (join "," (map member kvs)) ++ 125 :: rest.
Proof. rewrite !codes_app. change (codes "{") with [123]. change (codes "}") with [125]. by rewrite <- !app_assoc. Qed.

Lemma members_head kv kvs rest : exists l, codes (join "," (map member (kv :: kvs))) ++ 125 :: rest = 34 :: l.
Proof.
  destruct (members_cons kv kvs rest) as (sep & -> & _ & _). rewrite member_codes, json_string_codes. by eexists.
Qed.

Lemma scan_object kvs fuel rest : (S (length kvs) < fuel)%nat ->
  scan fuel 0 JValue (123 :: codes (join "," (map member kvs)) ++ 125 :: rest) = Some rest.
Proof.
  intros Hf. destruct fuel as [|fuel]; [lia|]. destruct kvs as [|kv kvs]; [done|].
  pose proof (scan_members (kv :: kvs) fuel 1 rest) as Hm. destruct (members_head kv kvs rest) as [l Hl].
  rewrite Hl in *. apply Hm; [done|lia].
Qed.

Lemma members_length kvs : (2 * length kvs <= length (codes (join "," (map member kvs))))%nat.
Proof.
  induction kvs as [|kv kvs IH]; [simpl; lia|].
  assert (2 <= length (codes (member kv)))%nat as Hm.
  { rewrite <- (app_nil_r (codes (member kv))), member_codes, json_string_codes. simpl. rewrite length_app. simpl. lia. }
  destruct kvs as [|kv' kvs]; [simpl in *; lia|].
  change (join "," (map member (kv :: kv' :: kvs))) with (member kv +:+ "," +:+ join "," (map member (kv' :: kvs))).
  rewrite !codes_app, !length_app. simpl in *. lia.
Qed.

Lemma json_object_text kvs :
  json_object kvs = "{" +:+ join "," (map member (merge_sort key_le kvs)) +:+ "}".
Proof. done. Qed.

(** Whatever is marshalled is valid. *)
Lemma json_object_valid kvs : json_valid (json_object kvs) = true.
Proof.
  unfold json_valid. rewrite json_object_text. set (l := merge_sort key_le kvs).
  change (map code (bytes_of ?s)) with (codes s). pose proof (object_codes l []) as Ho. rewrite app_nil_r in Ho.
  rewrite Ho, scan_object; [by apply bool_decide_eq_true|].
  pose proof (members_length l). cbn [length]. rewrite length_app. cbn [length]. lia.
Qed.

Lemma value_skip j rest : skip_spaces (codes (json_value j) ++ rest) = codes (json_value j) ++ rest.
Proof.
  destruct j as [z|[]|s]; [|done..|cbn [json_value]; by rewrite json_string_codes].
  cbn [json_value]. destruct (pretty_head z) as (c & l & -> & Hc). cbn [app skip_spaces].
  assert (json_space c = false) as ->; [|done].
  apply bool_decide_eq_false. unfold is_digit, is_between in Hc. set_unfold. lia.
Qed.

(** One member, decoded. *)
Lemma member_decoded fuel key l us j sep :
  string_units l = (us, 58 :: codes (json_value j) ++ sep) -> valid_utf8 (of_bytes (unit_bytes us)) = key ->
  closes sep ->
  object_members (S fuel) (34 :: l)
  = (key, codes (json_value j)) :: match sep with 44 :: l => object_members fuel l | _ => [] end.
Proof.
  intros Hl Hk Hsep. cbn [object_members]. change (skip_spaces (34 :: l)) with (34 :: l). cbv beta iota zeta.
  rewrite Hl. cbn [fst snd]. change (skip_spaces (58 :: ?x)) with (58 :: x). cbv beta iota zeta.
  rewrite value_skip, scan_json, Hk, skip_closes by done. f_equal. f_equal.
  rewrite length_app. replace (length _ + length sep - length sep)%nat with (length (codes (json_value j))) by lia.
  apply take_app_length.
Qed.

(** The members of an object that was marshalled. *)
Lemma object_members_marshalled kvs : forall fuel, (length kvs <= fuel)%nat ->
  Forall (fun kv => ValidString kv.1 = true) kvs ->
  object_members fuel (codes (join "," (map member kvs)) ++ [125])
  = map (fun kv => (kv.1, codes (json_value kv.2))) kvs.
Proof.
  induction kvs as [|kv kvs IH]; intros fuel Hf Hv; [by destruct fuel|].
  destruct fuel as [|fuel]; [simpl in Hf; lia|]. inversion Hv as [|? ? Hk Hv']; subst.
  destruct (members_cons kv kvs []) as (sep & -> & Hsep & Hcase). rewrite member_codes.
  destruct (json_string_reads kv.1 (58 :: codes (json_value kv.2) ++ sep)) as (l & -> & _ & Hl2 & Hl1).
  rewrite (member_decoded fuel kv.1 l (string_units l).1 kv.2 sep); [|rewrite <- Hl2; apply surjective_pairing
    |rewrite Hl1, (valid_utf8_id kv.1 Hk); by apply valid_utf8_id|done].
  cbn [map]. f_equal. destruct Hcase as [[-> ->]|[-> Hne]]; [done|]. apply IH; [simpl in Hf; lia | done].
Qed.
