(* ===== verification/TimeText.v ===== *)
(** [time.Parse] and [time.ParseInLocation] on the layouts that the scrapers use: fields
    of fixed width with separators between them.  As in the package, an hour may have
    one digit, a space in the layout stands for any number of spaces, and a fraction is
    read after the seconds although no layout names one.  Shanghai and Moscow are eight
    and three hours ahead, as they are for every time a judge reports since 2014.  A
    time that is written is read back. *)
From S2P Require Export Calendar JsonTheory.

Inductive layout_part :=
  | LongYear | ZeroMonth | MonthName | ZeroDay | Hour24 | ZeroMinute | ZeroSecond | NumZone
  | Sep (c : Z).
Definition layout := list layout_part.

(** ["2006-01-02 15:04:05"], the same with ["-0700"], and ["Jan/02/2006 15:04"] *)
Definition date_time : layout :=
  [LongYear; Sep 45; ZeroMonth; Sep 45; ZeroDay; Sep 32; Hour24; Sep 58; ZeroMinute; Sep 58; ZeroSecond].
Definition date_time_zone : layout := date_time ++ [NumZone].
Definition month_date_time : layout :=
  [MonthName; Sep 47; ZeroDay; Sep 47; LongYear; Sep 32; Hour24; Sep 58; ZeroMinute].

Record civil := Civil {
  cv_year : Z; cv_month : Z; cv_day : Z; cv_hour : Z; cv_min : Z; cv_sec : Z; cv_nsec : Z;
  cv_offset : option Z }.

(** One or two digits; two, when the width is [fixed]. *)
Definition getnum (fixed : bool) (l : list Z) : option (Z * list Z) :=
  match l with
  | a :: l =>
      if negb (is_digit a) then None
      else match l with
           | b :: l' => if is_digit b then Some ((a - 48) * 10 + (b - 48), l')
                        else if fixed then None else Some (a - 48, l)
           | [] => if fixed then None else Some (a - 48, [])
           end
  | [] => None
  end.
Definition ranged (lo hi : Z) (r : option (Z * list Z)) : option (Z * list Z) :=
  match r with Some (n, l) => if is_between lo hi n then Some (n, l) else None | None => None end.

Fixpoint cut_space (l : list Z) : list Z :=
  match l with 32 :: l => cut_space l | _ => l end.
(** One separator; no layout has two spaces in a row. *)
Definition skip_sep (c : Z) (l : list Z) : option (list Z) :=
  if c =? 32 then
    match l with
    | [] => Some []
    | b :: _ => if b =? 32 then Some (cut_space l) else None
    end
  else match l with b :: l => if b =? c then Some l else None | [] => None end.

Definition lower_code (c : Z) : Z := if is_between 65 90 c then c + 32 else c.
Definition month_names : list string :=
  ["jan"; "feb"; "mar"; "apr"; "may"; "jun"; "jul"; "aug"; "sep"; "oct"; "nov"; "dec"].
Definition month_number (l : list Z) : option Z :=
  (fun r => Z.of_nat r.1 + 1) <$>
    list_find (fun n => bool_decide (take 3 (map lower_code l) = map code (bytes_of n))) month_names.

(** The digits after a period or a comma: nine of them count. *)
Fixpoint leading_digits (l : list Z) : list Z :=
  match l with c :: l => if is_digit c then c :: leading_digits l else [] | [] => [] end.
Definition fraction (l : list Z) : Z * list Z :=
  match l with
  | p :: ((d :: _) as l') =>
      if ((p =? 46) || (p =? 44)) && is_digit d then
        let ds := leading_digits l' in
        let used := take 9 ds in
        (default 0 (digits_value used) * 10 ^ (9 - Z.of_nat (length used)), drop (length ds) l')
      else (0, l)
  | _ => (0, l)
  end.

(** A sign, two digits of hours and two of minutes. *)
Definition num_zone (l : list Z) : option (Z * list Z) :=
  match l with
  | s :: a :: b :: c :: d :: rest =>
      h ← fst <$> getnum true [a; b];
      m ← fst <$> getnum true [c; d];
      if (24 <? h) || (60 <? m) then None
      else
        let offset := (h * 60 + m) * 60 in
        if s =? 43 then Some (offset, rest) else if s =? 45 then Some (- offset, rest) else None
  | _ => None
  end.

(** One element of a layout. *)
Definition parse_part (p : layout_part) (c : civil) (l : list Z) : option (civil * list Z) :=
  let '(Civil y mo d h mi s ns o) := c in
  match p with
  | Sep b => r ← skip_sep b l; Some (c, r)
  | LongYear =>
      match digits_value (take 4 l) with
      | Some n => if decide (4 <= length l)%nat then Some (Civil n mo d h mi s ns o, drop 4 l) else None
      | None => None
      end
  | ZeroMonth => r ← ranged 1 12 (getnum true l); Some (Civil y r.1 d h mi s ns o, r.2)
  | MonthName =>
      n ← month_number l; Some (Civil y n d h mi s ns o, drop 3 l)
  | ZeroDay => r ← getnum true l; Some (Civil y mo r.1 h mi s ns o, r.2)
  | Hour24 => r ← ranged 0 23 (getnum false l); Some (Civil y mo d r.1 mi s ns o, r.2)
  | ZeroMinute => r ← ranged 0 59 (getnum true l); Some (Civil y mo d h r.1 s ns o, r.2)
  | ZeroSecond =>
      r ← ranged 0 59 (getnum true l);
      let f := fraction r.2 in
      Some (Civil y mo d h mi r.1 f.1 o, f.2)
  | NumZone => r ← num_zone l; Some (Civil y mo d h mi s ns (Some r.1), r.2)
  end.
Fixpoint parse_layout (ps : layout) (c : civil) (l : list Z) : option civil :=
  match ps with
  | [] => match l with [] => Some c | _ => None end
  | p :: ps => r ← parse_part p c l; parse_layout ps r.1 r.2
  end.

Definition days_in (y m : Z) : Z := month_start y (m + 1) - month_start y m.

(** The instant; [offset] seconds east of Greenwich, unless the text says. *)
Definition civil_time (offset : Z) (c : civil) : Z :=
  (month_start (cv_year c) (cv_month c) + cv_day c - 1) * day
  + cv_hour c * hour + cv_min c * minute + (cv_sec c - default offset (cv_offset c)) * second
  + cv_nsec c.
Definition parse_time (ps : layout) (offset : Z) (s : string) : option Z :=
  c ← parse_layout ps (Civil 0 1 1 0 0 0 0 None) (map code (bytes_of s));
  if is_between 1 (days_in (cv_year c) (cv_month c)) (cv_day c) then Some (civil_time offset c)
  else None.

Definition shanghai : Z := 8 * 3600.
Definition moscow : Z := 3 * 3600.

(** [t.Format("2006-01-02 15:04:05")] in a zone. *)
Definition format_date_time (offset t : Z) : string :=
  let l := t / second + offset in
  let z := l / 86400 in
  let s := l mod 86400 in
  zero_pad 4 (year_of z) +:+ "-" +:+ zero_pad 2 (month_of z) +:+ "-" +:+ zero_pad 2 (day_of_month z)
    +:+ " " +:+ zero_pad 2 (s / 3600) +:+ ":" +:+ zero_pad 2 (s / 60 mod 60) +:+ ":" +:+ zero_pad 2 (s mod 60).


#[local] Ltac Zify.zify_post_hook ::= Z.to_euclidean_division_equations.

(** ** Padded numbers *)

Definition two_digits (z : Z) : list Z := [48 + z / 10; 48 + z mod 10].
Definition four_digits (z : Z) : list Z := [48 + z / 1000; 48 + z / 100 mod 10; 48 + z / 10 mod 10; 48 + z mod 10].

Lemma below_cases (P : Z -> bool) (n : nat) : forallb (fun k => P (Z.of_nat k)) (seq 0 n) = true -> forall z, 0 <= z < Z.of_nat n -> P z = true.
Proof.
  intros H z Hz. rewrite forallb_forall in H. specialize (H (Z.to_nat z)).
  rewrite Z2Nat.id in H by lia. apply H. apply in_seq. lia.
Qed.

Lemma pad_two z : 0 <= z < 100 -> codes (zero_pad 2 z) = two_digits z.
Proof.
  intros Hz. apply (below_cases (fun z => bool_decide (codes (zero_pad 2 z) = two_digits z)) 100) in Hz;
    [by apply bool_decide_eq_true in Hz|vm_compute; reflexivity].
Qed.
(** The years of two centuries are enough. *)
Definition near (y : Z) : Prop := 1900 <= y < 2100.
Lemma near_cases (P : Z -> bool) : forallb (fun k => P (1900 + Z.of_nat k)) (seq 0 200) = true ->
  forall y, near y -> P y = true.
Proof.
  intros H y Hy. unfold near in Hy. replace y with (1900 + (y - 1900)) by lia.
  apply (below_cases (fun k => P (1900 + k)) 200 H). lia.
Qed.
Lemma pad_four y : near y -> codes (zero_pad 4 y) = four_digits y.
Proof.
  intros Hy. apply (near_cases (fun y => bool_decide (codes (zero_pad 4 y) = four_digits y))) in Hy;
    [by apply bool_decide_eq_true in Hy|vm_compute; reflexivity].
Qed.

Lemma digit_ok d : 0 <= d < 10 -> is_digit (48 + d) = true.
Proof. intros H. unfold is_digit, is_between. apply andb_true_iff. rewrite !Z.leb_le. lia. Qed.

Lemma getnum_two fixed z rest : 0 <= z < 100 -> getnum fixed (two_digits z ++ rest) = Some (z, rest).
Proof.
  intros Hz. unfold two_digits. cbn [app getnum]. rewrite !digit_ok by lia. cbn [negb].
  f_equal. f_equal. lia.
Qed.
Lemma range_two lo hi fixed z rest : 0 <= lo -> hi < 100 -> lo <= z <= hi ->
  ranged lo hi (getnum fixed (two_digits z ++ rest)) = Some (z, rest).
Proof.
  intros Hlo Hhi Hz. unfold ranged. rewrite getnum_two by lia. unfold is_between.
  by destruct (Z.leb_spec lo z), (Z.leb_spec z hi); try lia.
Qed.

Lemma four_value y : near y -> foldl (fun n c => 10 * n + (c - 48)) 0 (four_digits y) = y.
Proof.
  intros Hy. apply (near_cases (fun y => foldl (fun n c => 10 * n + (c - 48)) 0 (four_digits y) =? y)) in Hy;
    [by apply Z.eqb_eq in Hy|vm_compute; reflexivity].
Qed.

Lemma year_digits y rest : near y ->
  digits_value (take 4 (four_digits y ++ rest)) = Some y /\ drop 4 (four_digits y ++ rest) = rest
  /\ (4 <= length (four_digits y ++ rest))%nat.
Proof.
  intros Hy. pose proof (four_value y Hy) as Hv. unfold near, four_digits in *.
  cbn [app take drop length digits_value forallb]. rewrite !digit_ok by lia. cbn [andb].
  split_and!; [by f_equal|done|simpl; lia].
Qed.

(** ** A date and a time *)

Definition written (y mo d h mi s : Z) : list Z :=
  four_digits y ++ 45 :: two_digits mo ++ 45 :: two_digits d ++ 32 :: two_digits h ++ 58 :: two_digits mi
    ++ 58 :: two_digits s.

Lemma skip_same c l : (c =? 32) = false -> skip_sep c (c :: l) = Some l.
Proof. intros H. unfold skip_sep. by rewrite H, Z.eqb_refl. Qed.
Lemma skip_space h l : 0 <= h < 100 -> skip_sep 32 (32 :: two_digits h ++ l) = Some (two_digits h ++ l).
Proof.
  intros Hh. unfold skip_sep, two_digits. cbn [Z.eqb Pos.eqb cut_space app]. f_equal.
  assert (48 + h / 10 <> 32) as Hne by lia. destruct (48 + h / 10) eqn:E; try done. by repeat case_match.
Qed.

#[local] Ltac field := cbn [parse_layout parse_part mbind option_bind fst snd].
Lemma parse_written y mo d h mi s : near y -> 1 <= mo <= 12 -> 1 <= d <= 31 -> 0 <= h < 24 ->
  0 <= mi < 60 -> 0 <= s < 60 ->
  parse_layout date_time (Civil 0 1 1 0 0 0 0 None) (written y mo d h mi s) = Some (Civil y mo d h mi s 0 None).
Proof.
  intros Hy Hmo Hd Hh Hmi Hs. unfold date_time, written.
  cbn [parse_layout parse_part].
  match goal with |- context[digits_value (take 4 (_ ++ ?r))] => destruct (year_digits y r Hy) as (-> & Hr & Hl) end.
  rewrite decide_True by done. rewrite Hr. clear Hr Hl. field.
  rewrite skip_same by done. field.
  rewrite range_two by lia. field.
  rewrite skip_same by done. field.
  rewrite getnum_two by lia. field.
  rewrite skip_space by lia. field.
  rewrite range_two by lia. field.
  rewrite skip_same by done. field.
  rewrite range_two by lia. field.
  rewrite skip_same by done. field.
  rewrite <- (app_nil_r (two_digits s)), range_two by lia. done.
Qed.

Lemma days_in_bound y m : 1 <= m <= 12 -> days_in y m <= 31.
Proof.
  intros Hm. pose proof (leap_days_bound y) as Hl.
  assert (m = 1 \/ m = 2 \/ m = 3 \/ m = 4 \/ m = 5 \/ m = 6 \/ m = 7 \/ m = 8 \/ m = 9 \/ m = 10 \/ m = 11 \/ m = 12) as Hc by lia.
  destruct_or! Hc; subst m; unfold days_in; try (unfold month_start; simpl; rewrite ?Z.add_0_r; unfold days_before; simpl; lia).
  rewrite month_start_next_year. unfold month_start, days_before, leap_days in *. simpl. rewrite ?Z.add_0_r. lia.
Qed.

Lemma format_codes offset t : let l := t / second + offset in let z := l / 86400 in let s := l mod 86400 in
  near (year_of z) ->
  codes (format_date_time offset t) =
    written (year_of z) (month_of z) (day_of_month z) (s / 3600) (s / 60 mod 60) (s mod 60)
  /\ 1 <= day_of_month z <= days_in (year_of z) (month_of z).
Proof.
  intros l z s Hy. pose proof (month_of_spec z) as [Hm Hz].
  assert (1 <= day_of_month z <= days_in (year_of z) (month_of z)) as Hd.
  { unfold day_of_month, days_in. lia. }
  split; [|done]. pose proof (days_in_bound (year_of z) (month_of z) Hm) as Hb.
  unfold format_date_time. fold l z s. assert (0 <= s < 86400) as Hs by (apply Z.mod_pos_bound; lia).
  set (d := day_of_month z) in *. set (m := month_of z) in *. set (y := year_of z) in *.
  clearbody s d m y. rewrite !codes_app, pad_four, !pad_two by (done || lia). done.
Qed.

(** Whole seconds. *)
Lemma time_round_trip offset (t : Z) : near (year_of ((t + offset) / 86400)) ->
  parse_time date_time offset (format_date_time offset (t * second)) = Some (t * second).
Proof.
  intros Hy. pose proof (format_codes offset (t * second)) as H.
  rewrite Z.div_mul in H by done. destruct (H Hy) as [Hc Hd]. clear H.
  set (l := t + offset) in *. set (z := l / 86400) in *.
  assert (0 <= l mod 86400 < 86400) as Hs by (apply Z.mod_pos_bound; lia).
  pose proof (Z.div_mod l 86400 ltac:(lia)) as Hl. fold z in Hl. set (s := l mod 86400) in *.
  pose proof (month_of_spec z) as [Hm Hz]. pose proof (days_in_bound (year_of z) (month_of z) Hm) as Hb.
  unfold parse_time. fold (codes (format_date_time offset (t * second))). rewrite Hc.
  rewrite parse_written by (done || lia). cbn [mbind option_bind cv_year cv_month cv_day].
  unfold is_between. destruct (Z.leb_spec 1 (day_of_month z)), (Z.leb_spec (day_of_month z) (days_in (year_of z) (month_of z))); try lia.
  cbn [andb]. f_equal. unfold civil_time. cbn [cv_year cv_month cv_day cv_hour cv_min cv_sec cv_nsec cv_offset default].
  replace (month_start (year_of z) (month_of z) + day_of_month z - 1) with z by (unfold day_of_month; lia).
  unfold day, hour, minute. replace t with (l - offset) by (unfold l; lia). clearbody l s z.
  assert (s = s / 3600 * 3600 + s / 60 mod 60 * 60 + s mod 60) as Hsum by (clear - Hs; lia).
  set (a := s / 3600) in *. set (b := s / 60 mod 60) in *. set (c := s mod 60) in *. clearbody a b c.
  change second with 1000000000. lia.
Qed.
