(* ===== verification/JsonAny.v ===== *)
(** [encoding/json] with values of any shape: [Unmarshal] into [map[string]interface{}]
    and [Marshal] of what it gives.  Floating point is a class: which texts are numbers
    in range, and the text of a number. *)
From S2P Require Export JsonTheory.

(** [strconv.ParseFloat] and the format of [Marshal]: what is written is a number. *)
Class Float64 := {
  float64 : Type;
  parse_float : string -> option float64;
  float_text : float64 -> string;
  float_text_head f : exists c l, codes (float_text f) = c :: l /\ is_digit c || (c =? 45) = true;
  float_text_scan f rest : closes rest -> scan_number (codes (float_text f) ++ rest) = Some rest
}.

(** The values behind [interface{}].  An object is a map: its keys differ and are in
    increasing order. *)
Inductive any `{Float64} :=
  | ANull
  | ABool (b : bool)
  | AInt (z : Z)
  | AFloat (f : float64)
  | AString (s : string)
  | AArray (l : list any)
  | AObject (kvs : list (string * any)).

Section any.
Context `{Float64}.

(** ** Maps *)

Fixpoint map_set {A} (k : string) (v : A) (m : list (string * A)) : list (string * A) :=
  match m with
  | [] => [(k, v)]
  | (k', v') :: m' =>
      if decide (k = k') then (k, v) :: m'
      else if string_lt k k' then (k, v) :: m else (k', v') :: map_set k v m'
  end.
Fixpoint map_get {A} (k : string) (m : list (string * A)) : option A :=
  match m with
  | [] => None
  | (k', v) :: m => if decide (k = k') then Some v else map_get k m
  end.
(** A repeated key gets its last value. *)
Definition map_of {A} (kvs : list (string * A)) : list (string * A) :=
  foldl (fun m kv => map_set kv.1 kv.2 m) [] kvs.

(** ** Decoding *)

(** The texts of the elements of a valid array, after its opening bracket. *)
Fixpoint array_items (fuel : nat) (l : list Z) : list (list Z) :=
  match fuel with
  | O => []
  | S fuel =>
      match skip_spaces l with
      | 93 :: _ => []
      | l =>
          match scan (S (2 * length l)) 1 JValue l with
          | Some rest =>
              take (length l - length rest) l
                :: match skip_spaces rest with 44 :: l => array_items fuel l | _ => [] end
          | None => []
          end
      end
  end.

(** The value of a valid text; [None] when one of its numbers is out of range.  The
    nesting is bounded as in the scanner. *)
Fixpoint decode_any (fuel depth : nat) (v : list Z) : option any :=
  match fuel with
  | O => None
  | S fuel =>
      match v with
      | 34 :: l => Some (AString (valid_utf8 (of_bytes (unit_bytes (string_units l).1))))
      | 91 :: l =>
          if decide (max_depth <= depth)%nat then None
          else AArray <$> mapM (decode_any fuel (S depth)) (array_items (length l) l)
      | 123 :: l =>
          if decide (max_depth <= depth)%nat then None
          else (fun kvs => AObject (map_of kvs)) <$>
                 mapM (fun kv => v ← decode_any fuel (S depth) kv.2; Some (kv.1, v)) (object_members (length l) l)
      | 116 :: _ => Some (ABool true)
      | 102 :: _ => Some (ABool false)
      | 110 :: _ => Some ANull
      | v => AFloat <$> parse_float (bytes_string v)
      end
  end.

(** [json.Unmarshal] into [map[string]interface{}]. *)
Definition unmarshal_map (s : string) : option (list (string * any)) :=
  if json_valid s then
    let l := skip_spaces (codes s) in
    match decode_any (length l) 0 l with
    | Some (AObject kvs) => Some kvs
    | Some ANull => Some []
    | _ => None
    end
  else None.

(** ** Encoding *)

Fixpoint marshal (v : any) : string :=
  match v with
  | ANull => "null"
  | ABool b => if b then "true" else "false"
  | AInt z => pretty z
  | AFloat f => float_text f
  | AString s => json_string s
  | AArray l => "[" +:+ join "," (map marshal l) +:+ "]"
  | AObject kvs => "{" +:+ join "," (map (fun kv => json_string kv.1 +:+ ":" +:+ marshal kv.2) kvs) +:+ "}"
  end.
End any.

(** ** What is written is valid *)

Section texts.
Implicit Types (t : string) (d n : nat).

(** A text that the scanner reads as one value, with enough fuel, whatever closes it. *)
Definition value_text d n t : Prop :=
  (exists c l, codes t = c :: l /\ json_space c = false /\ c <> 93)
  /\ forall fuel rest, (n <= fuel)%nat -> closes rest -> scan fuel d JValue (codes t ++ rest) = Some rest.

Lemma value_text_skip d n t rest : value_text d n t -> skip_spaces (codes t ++ rest) = codes t ++ rest.
Proof. intros [(c & l & Hc & Hs & _) _]. rewrite Hc. cbn [app skip_spaces]. by rewrite Hs. Qed.

Lemma value_text_more d n n' t : (n <= n')%nat -> value_text d n t -> value_text d n' t.
Proof. intros Hn [Hh Ht]. split; [done|]. intros fuel rest Hf. apply Ht. lia. Qed.

(** The texts of a list, separated by commas, before the byte that ends it. *)
Lemma joined_cons t ts e rest : e ∈ [125; 93] -> exists sep,
  codes (join "," (t :: ts)) ++ e :: rest = codes t ++ sep /\ closes sep
  /\ (sep = e :: rest /\ ts = [] \/ sep = 44 :: codes (join "," ts) ++ e :: rest /\ ts <> []).
Proof.
  intros He. destruct ts as [|t' ts].
  - exists (e :: rest). split_and!; [done| |by left]. eexists _, _. split; [done|]. set_solver.
  - exists (44 :: codes (join "," (t' :: ts)) ++ e :: rest). split_and!; [| |by right].
    + change (join "," (t :: t' :: ts)) with (t +:+ "," +:+ join "," (t' :: ts)).
      rewrite !codes_app. change (codes ",") with [44]. by rewrite <- !app_assoc.
    + eexists _, _. split; [done|]. set_solver.
Qed.

Lemma scan_items d n ts : Forall (value_text d n) ts -> forall fuel rest, ts <> [] -> (length ts + n <= fuel)%nat ->
  scan fuel d JItems (codes (join "," ts) ++ 93 :: rest) = Some rest.
Proof.
  induction 1 as [|t ts Ht _ IH]; intros fuel rest Hne Hf; [done|]. destruct fuel as [|fuel]; [simpl in Hf; lia|].
  destruct (joined_cons t ts 93 rest) as (sep & -> & Hsep & Hcase); [set_solver|]. cbn [scan].
  rewrite (value_text_skip d n) by done. destruct Ht as [_ Ht]. rewrite Ht by (simpl in Hf; lia || done).
  cbn [mbind option_bind]. rewrite skip_closes by done. destruct Hcase as [[-> _]|[-> Hk]]; [done|].
  cbv iota. apply IH; [done|]. simpl in Hf. lia.
Qed.

Definition pair_text (kt : string * string) : string := json_string kt.1 +:+ ":" +:+ kt.2.

Lemma scan_pairs d n kts : Forall (fun kt => value_text d n kt.2) kts ->
  forall fuel rest, kts <> [] -> (length kts + n <= fuel)%nat ->
  scan fuel d JMembers (codes (join "," (map pair_text kts)) ++ 125 :: rest) = Some rest.
Proof.
  induction 1 as [|[k t] kts Ht _ IH]; intros fuel rest Hne Hf; [done|]. destruct fuel as [|fuel]; [simpl in Hf; lia|].
  cbn [map]. destruct (joined_cons (pair_text (k, t)) (map pair_text kts) 125 rest) as (sep & -> & Hsep & Hcase); [set_solver|].
  unfold pair_text at 1. rewrite !codes_app. change (codes ":") with [58]. rewrite <- !app_assoc. cbn [fst snd app] in *.
  destruct (json_string_reads k (58 :: codes t ++ sep)) as (l & -> & Hs & _).
  destruct Ht as [_ Ht]. eapply scan_member; [exact Hs | apply Ht; [simpl in Hf; lia | done] | done |].
  destruct Hcase as [[-> _]|[-> Hk]]; [by left|]. right. eexists. split; [done|].
  apply IH; [by destruct kts|]. simpl in Hf. lia.
Qed.

Lemma joined_nonspace t ts e rest : (exists c l, codes t = c :: l /\ json_space c = false /\ c <> 93) -> e ∈ [125; 93] ->
  exists c l, codes (join "," (t :: ts)) ++ e :: rest = c :: l /\ json_space c = false /\ c <> 93.
Proof.
  intros (c & l & Hc & Hs) He. destruct (joined_cons t ts e rest He) as (sep & -> & _). rewrite Hc. by eexists _, _.
Qed.

Lemma array_text d n ts : (d < max_depth)%nat -> Forall (value_text (S d) n) ts ->
  value_text d (S (length ts + n)) ("[" +:+ join "," ts +:+ "]").
Proof.
  intros Hd Hts. split; [by eexists _, _|]. intros [|fuel] rest Hf _; [lia|].
  rewrite !codes_app. change (codes "[") with [91]. change (codes "]") with [93]. rewrite <- !app_assoc. cbn [app].
  cbn [scan]. change (skip_spaces (91 :: ?x)) with (91 :: x). cbv iota. rewrite decide_False by lia.
  destruct ts as [|t ts]; [done|].
  destruct (joined_nonspace t ts 93 rest) as (c & l & Hc & Hs & Hne); [by inversion Hts as [|? ? []] | set_solver|].
  pose proof (scan_items (S d) n (t :: ts) Hts fuel rest ltac:(done)) as Hi. rewrite Hc in Hi |- *.
  cbn [skip_spaces]. rewrite Hs. rewrite <- Hi by lia.
  destruct c as [|p|p]; [done| |done]. repeat (destruct p as [p|p|]; try reflexivity; try done).
Qed.

Lemma scan_pairs_object d n kts : (d < max_depth)%nat -> Forall (fun kt => value_text (S d) n kt.2) kts ->
  forall fuel rest, (S (length kts + n) <= fuel)%nat ->
  scan fuel d JValue (codes ("{" +:+ join "," (map pair_text kts) +:+ "}") ++ rest) = Some rest.
Proof.
  intros Hd Hts [|fuel] rest Hf; [lia|].
  rewrite !codes_app. change (codes "{") with [123]. change (codes "}") with [125]. rewrite <- !app_assoc. cbn [app].
  cbn [scan]. change (skip_spaces (123 :: ?x)) with (123 :: x). cbv iota. rewrite decide_False by lia.
  destruct kts as [|kt kts]; [done|].
  pose proof (scan_pairs (S d) n (kt :: kts) Hts fuel rest ltac:(done)) as Hi.
  assert (exists l, codes (join "," (map pair_text (kt :: kts))) ++ 125 :: rest = 34 :: l) as [l Hl].
  { cbn [map]. destruct (joined_cons (pair_text kt) (map pair_text kts) 125 rest) as (sep & -> & _); [set_solver|].
    unfold pair_text. rewrite !codes_app, <- !app_assoc, json_string_codes. by eexists. }
  rewrite Hl in *. change (skip_spaces (34 :: l)) with (34 :: l). cbv iota. apply Hi. lia.
Qed.
Lemma object_text d n kts : (d < max_depth)%nat -> Forall (fun kt => value_text (S d) n kt.2) kts ->
  value_text d (S (length kts + n)) ("{" +:+ join "," (map pair_text kts) +:+ "}").
Proof. intros Hd Hts. split; [by eexists _, _|]. intros fuel rest Hf _. by apply (scan_pairs_object d n). Qed.

Lemma text_length ts t : t ∈ ts -> (length (codes t) + length ts <= S (length (codes (join "," ts))))%nat.
Proof.
  revert t. induction ts as [|t' ts IH]; intros t Ht; [by apply not_elem_of_nil in Ht|].
  destruct ts as [|t2 ts]; [apply list_elem_of_singleton in Ht as ->; simpl; lia|].
  change (join "," (t' :: t2 :: ts)) with (t' +:+ "," +:+ join "," (t2 :: ts)). rewrite !codes_app, !length_app.
  change (codes ",") with [44]. apply elem_of_cons in Ht as [->|Ht].
  - specialize (IH t2 (list_elem_of_here _ _)). simpl in *. lia.
  - specialize (IH t Ht). simpl in *. lia.
Qed.
End texts.

Section marshalled.
Context `{Float64}.

(** Induction over a value and the values in it. *)
Lemma any_nested (P : any -> Prop) :
  P ANull -> (forall b, P (ABool b)) -> (forall z, P (AInt z)) -> (forall f, P (AFloat f)) -> (forall s, P (AString s)) ->
  (forall l, Forall P l -> P (AArray l)) -> (forall kvs, Forall (fun kv => P kv.2) kvs -> P (AObject kvs)) ->
  forall v, P v.
Proof.
  intros Hn Hb Hz Hf Hs Ha Ho. fix IH 1. intros [| | | | |l|kvs]; [done|auto..| |].
  - apply Ha. induction l as [|v l IHl]; constructor; [apply IH | exact IHl].
  - apply Ho. induction kvs as [|[k v] kvs IHl]; constructor; [apply IH | exact IHl].
Qed.

(** The nesting stays within the scanner's bound, from a depth on. *)
Fixpoint fits (d : nat) (v : any) : Prop :=
  match v with
  | AArray l => (d < max_depth)%nat /\ foldr (fun v P => fits (S d) v /\ P) True l
  | AObject kvs => (d < max_depth)%nat /\ foldr (fun kv P => fits (S d) kv.2 /\ P) True kvs
  | _ => True
  end.
Fixpoint any_size (v : any) : nat :=
  match v with
  | AArray l => S (length l + foldr (fun v n => max (any_size v) n) O l)
  | AObject kvs => S (length kvs + foldr (fun kv n => max (any_size kv.2) n) O kvs)
  | _ => 1
  end.

Lemma foldr_and {A} (P : A -> Prop) l : foldr (fun x Q => P x /\ Q) True l <-> Forall P l.
Proof. induction l as [|x l IH]; [by split|]. cbn [foldr]. by rewrite IH, Forall_cons. Qed.
Lemma foldr_max {A} (f : A -> nat) l x : x ∈ l -> (f x <= foldr (fun x n => max (f x) n) O l)%nat.
Proof.
  induction l as [|y l IH]; intros Hx; [by apply not_elem_of_nil in Hx|]. simpl.
  apply elem_of_cons in Hx as [->|Hx]; [lia|]. specialize (IH Hx). lia.
Qed.
Lemma foldr_max_le {A} (f : A -> nat) l n : Forall (fun x => (f x <= n)%nat) l -> (foldr (fun x n => max (f x) n) O l <= n)%nat.
Proof. induction 1; simpl; lia. Qed.

Lemma leaf_text d t l c : codes t = c :: l -> json_space c = false -> c <> 93 ->
  (forall fuel rest, closes rest -> scan (S fuel) d JValue (codes t ++ rest) = Some rest) -> value_text d 1 t.
Proof. intros Hc Hs Hne Ht. split; [by eexists _, _|]. intros [|fuel] rest Hf; [lia | by apply Ht]. Qed.

Lemma number_text d t : (exists c l, codes t = c :: l /\ is_digit c || (c =? 45) = true) ->
  (forall rest, closes rest -> scan_number (codes t ++ rest) = Some rest) -> value_text d 1 t.
Proof.
  intros (c & l & Hc & Hd) Ht.
  assert (c = 45 \/ 48 <= c <= 57) as Hr by (unfold is_digit, is_between in Hd; lia).
  apply (leaf_text d t l c); [done|apply bool_decide_eq_false; set_unfold; lia|lia|].
  intros fuel rest Hrest. specialize (Ht rest Hrest). rewrite Hc in *. cbn [app] in *. by rewrite scan_value_number.
Qed.

Lemma string_text d s : value_text d 1 (json_string s).
Proof.
  pose proof (json_string_codes s []) as Hc. rewrite app_nil_r in Hc. eapply leaf_text; [exact Hc|done|done|].
  intros fuel rest _. by destruct (json_string_reads s rest) as (l & -> & Hs & _).
Qed.

Lemma marshal_text v : forall d, fits d v -> value_text d (any_size v) (marshal v).
Proof.
  induction v as [| |z|f|s|l IH|kvs IH] using any_nested; intros d Hf.
  - by apply (leaf_text d _ [117; 108; 108] 110).
  - destruct b; [by apply (leaf_text d _ [114; 117; 101] 116) | by apply (leaf_text d _ [97; 108; 115; 101] 102)].
  - apply number_text; [apply pretty_head | apply scan_number_pretty].
  - apply number_text; [apply float_text_head | apply float_text_scan].
  - apply string_text.
  - destruct Hf as [Hd Hf%foldr_and]. cbn [marshal any_size]. rewrite <- (length_map marshal l). apply array_text; [done|].
    apply Forall_map. rewrite Forall_forall in IH, Hf |- *. intros v Hv.
    eapply value_text_more; [|by apply IH; auto]. by apply (foldr_max any_size).
  - destruct Hf as [Hd Hf%foldr_and]. cbn [marshal any_size].
    rewrite <- (length_map (fun kv : string * any => (kv.1, marshal kv.2)) kvs).
    replace (map _ kvs) with (map pair_text (map (fun kv => (kv.1, marshal kv.2)) kvs)) by by rewrite map_map.
    apply object_text; [done|]. apply Forall_map. rewrite Forall_forall in IH, Hf |- *. intros kv Hv.
    eapply value_text_more; [|by apply IH; auto]. by apply (foldr_max (fun kv => any_size kv.2)).
Qed.

Lemma foldr_max_in {A} (f : A -> nat) l : l <> [] -> exists x, x ∈ l /\ (foldr (fun x n => max (f x) n) O l <= f x)%nat.
Proof.
  induction l as [|y l IH]; [done|]. intros _. destruct (decide (l = [])) as [->|Hne]; [exists y; simpl; split; [set_solver | lia]|].
  destruct (IH Hne) as (x & Hx & Hle). destruct (decide (f x <= f y)%nat); [exists y | exists x]; simpl; (split; [set_solver | lia]).
Qed.

Lemma bracketed_length (e1 e2 : string) ts t n : length (codes e1) = 1%nat -> length (codes e2) = 1%nat -> t ∈ ts ->
  (n <= 2 * length (codes t))%nat -> (S (length ts + n) <= 2 * length (codes (e1 +:+ join "," ts +:+ e2)))%nat.
Proof.
  intros H1 H2 Ht Hn. pose proof (text_length ts t Ht). rewrite !codes_app, !length_app, H1, H2. lia.
Qed.

Lemma size_bound v : (any_size v <= 2 * length (codes (marshal v)))%nat.
Proof.
  induction v as [|b|z|f|s|l IH|kvs IH] using any_nested; cbn [any_size]; try (destruct b); try (simpl; lia).
  - destruct (pretty_head z) as (c & l & Hc & _). cbn [marshal]. rewrite Hc. simpl. lia.
  - destruct (float_text_head f) as (c & l & Hc & _). cbn [marshal]. rewrite Hc. simpl. lia.
  - cbn [marshal]. destruct (decide (l = [])) as [->|Hne]; [simpl; lia|].
    destruct (foldr_max_in any_size l Hne) as (x & Hx & Hle). rewrite Forall_forall in IH. specialize (IH x Hx).
    rewrite <- (length_map marshal l). apply (bracketed_length _ _ _ (marshal x)); [done|done| |lia].
    by apply list_elem_of_fmap_2.
  - cbn [marshal]. destruct (decide (kvs = [])) as [->|Hne]; [simpl; lia|].
    destruct (foldr_max_in (fun kv => any_size kv.2) kvs Hne) as (x & Hx & Hle). rewrite Forall_forall in IH. specialize (IH x Hx).
    rewrite <- (length_map (fun kv => json_string kv.1 +:+ ":" +:+ marshal kv.2) kvs).
    apply (bracketed_length _ _ _ (json_string x.1 +:+ ":" +:+ marshal x.2)); [done|done| |].
    + by apply (list_elem_of_fmap_2 (fun kv => json_string kv.1 +:+ ":" +:+ marshal kv.2)).
    + rewrite !codes_app, !length_app. lia.
Qed.

(** The text of an object is valid. *)
Lemma marshal_valid kvs : fits 0 (AObject kvs) -> json_valid (marshal (AObject kvs)) = true.
Proof.
  intros [Hd Hf%foldr_and]. pose proof (size_bound (AObject kvs)) as Hs. cbn [any_size] in Hs.
  unfold json_valid. change (map code (bytes_of ?s)) with (codes s). cbn [marshal] in *.
  set (n := foldr _ O kvs) in *.
  assert (map (fun kv : string * any => json_string kv.1 +:+ ":" +:+ marshal kv.2) kvs
          = map pair_text (map (fun kv => (kv.1, marshal kv.2)) kvs)) as E by by rewrite map_map.
  rewrite E in *. set (t := "{" +:+ _) in *. pose proof (scan_pairs_object 0 n (map (fun kv => (kv.1, marshal kv.2)) kvs) Hd) as Hp.
  fold t in Hp. rewrite <- (app_nil_r (codes t)) at 2. rewrite Hp; [by apply bool_decide_eq_true| |rewrite length_map; lia].
  apply Forall_map. rewrite Forall_forall in Hf |- *. intros kv Hv. eapply value_text_more; [|by apply marshal_text, Hf].
  by apply (foldr_max (fun kv => any_size kv.2)).
Qed.

(** ** What is decoded *)

Lemma Forall_map_set {A} (P : A -> Prop) k v (m : list (string * A)) :
  P v -> Forall (fun kv => P kv.2) m -> Forall (fun kv => P kv.2) (map_set k v m).
Proof.
  intros Hv. induction 1 as [|[k' v'] m Hv' Hm IH]; simpl; [by repeat constructor|].
  repeat case_match; by repeat constructor.
Qed.
Lemma Forall_map_of {A} (P : A -> Prop) (kvs : list (string * A)) :
  Forall (fun kv => P kv.2) kvs -> Forall (fun kv => P kv.2) (map_of kvs).
Proof.
  intros Hk. unfold map_of. assert (Forall (fun kv : string * A => P kv.2) []) as Hm by constructor. revert Hm.
  generalize (@nil (string * A)). induction Hk as [|[k v] kvs Hv Hk IH]; intros m Hm; [done|]. cbn [foldl fst snd].
  apply IH. by apply Forall_map_set.
Qed.

Lemma decode_fits n : forall d l v, decode_any n d l = Some v -> fits d v.
Proof.
  induction n as [|n IH]; intros d l v Hv; [done|].
  assert (forall ls vs, mapM (decode_any n (S d)) ls = Some vs -> Forall (fits (S d)) vs) as Hlist.
  { intros ls vs Hm%mapM_Some. induction Hm as [|x y xs ys Hx _ IHm]; constructor; [by eapply IH | done]. }
  assert (forall ls vs, mapM (fun kv : string * list Z => v ← decode_any n (S d) kv.2; Some (kv.1, v)) ls = Some vs ->
    Forall (fun kv => fits (S d) kv.2) vs) as Hpairs.
  { intros ls vs Hm%mapM_Some. induction Hm as [|x y xs ys Hx _ IHm]; constructor; [|done].
    destruct (decode_any n (S d) x.2) eqn:E; [|done]. injection Hx as <-. by eapply IH. }
  cbn [decode_any] in Hv.
  assert (forall x, AFloat <$> parse_float x = Some v -> fits d v) as Hnum.
  { intros x Hx. destruct (parse_float x); [by injection Hx as <- | done]. }
  destruct l as [|c l]; [by eapply Hnum|].
  repeat match type of Hv with
         | match ?p with xI _ => _ | xO _ => _ | xH => _ end = _ => destruct p
         | match ?z with Z0 => _ | Zpos _ => _ | Zneg _ => _ end = _ => destruct z
         end; try (by eapply Hnum); try (by injection Hv as <-).
  - destruct (decide _) as [|Hd]; [done|]. apply fmap_Some in Hv as (vs & Hvs & ->).
    split; [lia|]. apply foldr_and, Forall_map_of. by eapply Hpairs.
  - destruct (decide _) as [|Hd]; [done|]. apply fmap_Some in Hv as (vs & Hvs & ->).
    split; [lia|]. apply foldr_and. by eapply Hlist.
Qed.

Lemma unmarshal_fits s kvs : unmarshal_map s = Some kvs -> fits 0 (AObject kvs).
Proof.
  unfold unmarshal_map. destruct (json_valid s); [|done]. destruct (decode_any _ 0 _) as [[]|] eqn:E; try done.
  - intros [= <-]. split; [by apply Nat.ltb_lt | done].
  - intros [= <-]. by apply decode_fits in E.
Qed.
End marshalled.
