(* ===== verification/Token.v ===== *)
(** The payload of a token as the handlers read it: [common/utils/auth/check.go], with
    what it uses of [encoding/base64] and [encoding/json]. *)
From S2P Require Export Permission Json.
From Stdlib Require Import Ascii.

(** ** [base64.RawURLEncoding] *)

Definition b64_char (v : Z) : Z :=
  if v <? 26 then v + 65 else if v <? 52 then v + 71 else if v <? 62 then v - 4
  else if v =? 62 then 45 else 95.
Definition b64_value (c : Z) : option Z :=
  if is_between 65 90 c then Some (c - 65) else if is_between 97 122 c then Some (c - 71)
  else if is_between 48 57 c then Some (c + 4) else if c =? 45 then Some 62
  else if c =? 95 then Some 63 else None.

Fixpoint b64_encode (l : list Z) : list Z :=
  match l with
  | a :: b :: c :: l =>
      b64_char (a / 4) :: b64_char (a mod 4 * 16 + b / 16) :: b64_char (b mod 16 * 4 + c / 64)
        :: b64_char (c mod 64) :: b64_encode l
  | [a; b] => [b64_char (a / 4); b64_char (a mod 4 * 16 + b / 16); b64_char (b mod 16 * 4)]
  | [a] => [b64_char (a / 4); b64_char (a mod 4 * 16)]
  | [] => []
  end.

(** The bytes of groups of six bits; bits left over are not looked at. *)
Fixpoint b64_bytes (vs : list Z) : option (list Z) :=
  match vs with
  | a :: b :: c :: d :: vs =>
      rest ← b64_bytes vs;
      Some (a * 4 + b / 16 :: b mod 16 * 16 + c / 4 :: c mod 4 * 64 + d :: rest)
  | [a; b; c] => Some [a * 4 + b / 16; b mod 16 * 16 + c / 4]
  | [a; b] => Some [a * 4 + b / 16]
  | [_] => None
  | [] => Some []
  end.
(** Line breaks are skipped. *)
Definition b64_decode (l : list Z) : option (list Z) :=
  vs ← mapM b64_value (where_ (fun c => negb (bool_decide (c ∈ [10; 13]))) l); b64_bytes vs.
Definition DecodedLen (n : nat) : nat := (n * 6 / 8)%nat.

(** ** [json.Unmarshal] into the struct *)


(** A [null] leaves a field as it is. *)
Definition decode_string (v : list Z) : option (option string) :=
  match v with
  | 34 :: l => Some (Some (valid_utf8 (of_bytes (unit_bytes (string_units l).1))))
  | 110 :: _ => Some None
  | _ => None
  end.
Definition decode_uint (v : list Z) : option (option Z) :=
  match v with
  | 110 :: _ => Some None
  | l => z ← digits_value l; if z <? 2 ^ 64 then Some (Some z) else None
  end.
Definition decode_int (v : list Z) : option (option Z) :=
  match v with
  | 110 :: _ => Some None
  | 45 :: l => z ← digits_value l; if z <=? 2 ^ 63 then Some (Some (- z)) else None
  | l => z ← digits_value l; if z <? 2 ^ 63 then Some (Some z) else None
  end.

(** Keys are matched without regard to case; other keys are skipped. *)
Definition set_field (pd : JwtPayload) (kv : string * list Z) : option JwtPayload :=
  let '(Jwt id username name email role) := pd in
  if equal_fold kv.1 "userId" then
    x ← decode_uint kv.2; Some (Jwt (default id x) username name email role)
  else if equal_fold kv.1 "username" then
    x ← decode_string kv.2; Some (Jwt id (default username x) name email role)
  else if equal_fold kv.1 "name" then
    x ← decode_string kv.2; Some (Jwt id username (default name x) email role)
  else if equal_fold kv.1 "email" then
    x ← decode_string kv.2; Some (Jwt id username name (default email x) role)
  else if equal_fold kv.1 "roleId" then
    x ← decode_int kv.2; Some (Jwt id username name email (default role x))
  else Some pd.

Fixpoint set_fields (pd : JwtPayload) (kvs : list (string * list Z)) : option JwtPayload :=
  match kvs with
  | [] => Some pd
  | kv :: kvs => pd ← set_field pd kv; set_fields pd kvs
  end.

Definition unmarshal_payload (text : string) : option JwtPayload :=
  if negb (json_valid text) then None
  else match skip_spaces (map code (bytes_of text)) with
       | 123 :: l => set_fields (Jwt 0 "" "" "" 0) (object_members (length l) l)
       | 110 :: _ => Some (Jwt 0 "" "" "" 0)
       | _ => None
       end.

(** ** [auth/check.go] *)

Fixpoint after_space (l : list ascii) : option (list ascii) :=
  match l with
  | [] => None
  | a :: l => if decide (a = byte_of 32) then Some l else after_space l
  end.

(** [auth] is the header [Authorization]. *)
Definition praseJwtToken (auth : string) : string :=
  match after_space (bytes_of auth) with Some l => of_bytes l | None => "" end.

Definition parsePayload (auth : string) : ctx :=
  match split_by (byte_of 46) (praseJwtToken auth) with
  | [_; payloadBase64; _] =>
      let l := map code (bytes_of payloadBase64) in
      match b64_decode l with
      | None => None
      | Some bytes =>
          let dst := bytes ++ repeat 0 (DecodedLen (length l) - length bytes) in
          unmarshal_payload (bytes_string dst)
      end
  | _ => None
  end.
