(* ===== verification/TokenTheory.v ===== *)
(** What is encoded for a token is read back from it. *)
From S2P Require Export Token JsonTheory.
From Stdlib Require Import Ascii.

(** ** Base 64 *)

Lemma sextet_cases (P : Z -> Prop) : Forall (fun n => P (Z.of_nat n)) (seq 0 64) -> forall v, 0 <= v < 64 -> P v.
Proof.
  intros HP v Hv. rewrite Forall_forall in HP. specialize (HP (Z.to_nat v)). rewrite Z2Nat.id in HP by lia.
  apply HP, elem_of_seq. lia.
Qed.

(** The characters are read as what they stand for, and are neither a dot nor a line break. *)
Lemma b64_char_value : forall v, 0 <= v < 64 ->
  b64_value (b64_char v) = Some v /\ 45 <= b64_char v < 128 /\ b64_char v <> 46.
Proof.
  apply sextet_cases. cbn [seq].
  repeat (apply Forall_cons; split; [split; [reflexivity | by vm_compute]|]). by apply Forall_nil.
Qed.

(** Lists of bytes, three at a time. *)
Lemma triples_ind (P : list Z -> Prop) :
  P [] -> (forall a, P [a]) -> (forall a b, P [a; b]) ->
  (forall a b c l, P l -> P (a :: b :: c :: l)) -> forall l, P l.
Proof.
  intros H0 H1 H2 H3. fix IH 1. intros [|a [|b [|c l]]]; [done | done | done |]. apply H3, IH.
Qed.

Definition is_byte (b : Z) : Prop := 0 <= b < 256.
Ltac sextet := Z.div_mod_to_equations; lia.

Lemma b64_encode_chars l : Forall is_byte l ->
  Forall (fun c => exists v, c = b64_char v /\ 0 <= v < 64) (b64_encode l).
Proof.
  induction l as [|a|a b|a b c l IH] using triples_ind; intros Hl; cbn [b64_encode]; [done|..];
    repeat match goal with H : Forall _ (_ :: _) |- _ => apply Forall_cons in H as [? H] end; unfold is_byte in *;
    repeat (apply Forall_cons; split; [eexists; split; [done | sextet]|]); auto.
Qed.

Lemma b64_values l : Forall is_byte l -> exists vs, mapM b64_value (b64_encode l) = Some vs /\ b64_bytes vs = Some l.
Proof.
  induction l as [|a|a b|a b c l IH] using triples_ind; intros Hl; cbn [b64_encode];
    repeat match goal with H : Forall _ (_ :: _) |- _ => apply Forall_cons in H as [? H] end; unfold is_byte in *.
  - by exists [].
  - eexists. split.
    + cbn [mapM]. rewrite !(fun v H => proj1 (b64_char_value v H)) by sextet. done.
    + cbn [b64_bytes]. repeat f_equal. sextet.
  - eexists. split.
    + cbn [mapM]. rewrite !(fun v H => proj1 (b64_char_value v H)) by sextet. done.
    + cbn [b64_bytes]. repeat f_equal; sextet.
  - destruct IH as (vs & Hvs & Hb); [done|]. eexists. split.
    + cbn [mapM]. rewrite !(fun v H => proj1 (b64_char_value v H)) by sextet. rewrite Hvs. done.
    + cbn [b64_bytes mbind option_bind]. rewrite Hb. cbn. repeat f_equal; sextet.
Qed.

Lemma b64_length l : DecodedLen (length (b64_encode l)) = length l.
Proof.
  unfold DecodedLen. induction l as [|a|a b|a b c l IH] using triples_ind; [done..|].
  cbn [b64_encode length]. revert IH. generalize (length (b64_encode l)) (length l). intros n k.
  replace (S (S (S (S n))) * 6)%nat with (n * 6 + 3 * 8)%nat by lia. rewrite Nat.div_add by lia. lia.
Qed.

Theorem b64_roundtrip l : Forall is_byte l -> b64_decode (b64_encode l) = Some l.
Proof.
  intros Hl. destruct (b64_values l Hl) as (vs & Hvs & Hb). unfold b64_decode.
  rewrite where_all; [by rewrite Hvs|]. intros c Hc.
  pose proof (b64_encode_chars l Hl) as Hchars. rewrite Forall_forall in Hchars.
  destruct (Hchars _ Hc) as (v & -> & Hv). pose proof (b64_char_value v Hv).
  apply negb_true_iff, bool_decide_eq_false. set_unfold. lia.
Qed.

(** ** Fields *)

Lemma codes_bytes s : Forall is_byte (codes s).
Proof. unfold codes. apply Forall_map, Forall_forall. intros a _. apply code_range. Qed.
Lemma bytes_string_codes s : bytes_string (codes s) = s.
Proof.
  unfold bytes_string, codes. rewrite map_map, (map_id_in (fun x => byte_of (code x))); [apply of_bytes_of|].
  intros a _. apply byte_of_code.
Qed.

Lemma decode_string_marshalled s : ValidString s = true -> decode_string (codes (json_string s)) = Some (Some s).
Proof.
  intros Hs. destruct (json_string_reads s []) as (l & Hl & _ & _ & Hv). rewrite app_nil_r in Hl. rewrite Hl.
  cbn [decode_string]. rewrite Hv, (valid_utf8_id s Hs). by rewrite valid_utf8_id.
Qed.

Lemma digits_value_pretty (z : Z) : 0 <= z -> digits_value (codes (pretty z)) = Some z.
Proof.
  intros Hz. destruct (pretty_digits z Hz) as (d & Hd & Hall & Hv & Hne). unfold codes. rewrite Hd.
  destruct d as [|a d]; [done|]. unfold digits_value. cbn [map].
  change (code a :: map code d) with (map code (a :: d)).
  rewrite (proj2 (forallb_forall _ _)); [by f_equal|].
  intros c Hc. apply in_map_iff in Hc as (b & <- & Hb). apply list_elem_of_In in Hb. by eapply Forall_forall in Hall.
Qed.

(** A printed number that is not negative starts with a digit. *)
Lemma digit_match {A} (l : list Z) (x y : A) (f : list Z -> A) : (exists c k, l = c :: k /\ is_digit c = true) ->
  match l with 110 :: _ => x | _ => y end = y /\ match l with 110 :: _ => x | 45 :: k => f k | _ => y end = y.
Proof.
  intros (c & k & -> & Hc). unfold is_digit, is_between in Hc.
  destruct c as [|p|p]; [done| |done]. repeat (destruct p as [p|p|]; try (by split); try done; try lia).
Qed.
Lemma pretty_starts (z : Z) : 0 <= z -> exists c k, codes (pretty z) = c :: k /\ is_digit c = true.
Proof.
  intros Hz. destruct (pretty_digits z Hz) as (d & Hd & Hall & _ & Hne). unfold codes. rewrite Hd.
  destruct d as [|a d]; [done|]. eexists _, _. split; [done|]. by inversion Hall.
Qed.

Lemma decode_uint_marshalled (z : Z) : 0 <= z < 2 ^ 64 -> decode_uint (codes (pretty z)) = Some (Some z).
Proof.
  intros Hz. unfold decode_uint. rewrite (proj1 (digit_match _ _ _ (fun _ => None) (pretty_starts z (proj1 Hz)))).
  rewrite digits_value_pretty by lia. cbn. by rewrite (proj2 (Z.ltb_lt _ _)) by lia.
Qed.

Lemma decode_int_marshalled (z : Z) : in_int64 z -> decode_int (codes (pretty z)) = Some (Some z).
Proof.
  unfold in_int64. intros Hz. destruct (decide (0 <= z)) as [Hp|Hn]; unfold decode_int.
  - rewrite (proj2 (digit_match _ _ _ _ (pretty_starts z Hp))).
    rewrite digits_value_pretty by lia. cbn. by rewrite (proj2 (Z.ltb_lt _ _)) by lia.
  - destruct z as [|p|p]; [lia..|].
    change (codes (pretty (Z.neg p))) with (45 :: codes (pretty (Z.pos p))). cbv beta iota.
    rewrite digits_value_pretty by lia. cbn. by rewrite (proj2 (Z.leb_le _ _)) by lia.
Qed.

(** ** Tokens *)

(** The claims of a session. *)
Definition session_claims (pd : JwtPayload) (roleIds : string) (exp nbf : Z) : list (string * json) :=
  [("userId", JInt (jwt_UserID pd)); ("username", JString (jwt_Username pd)); ("name", JString (jwt_Name pd));
   ("email", JString (jwt_Email pd)); ("roleId", JInt (jwt_RoleID pd)); ("roleIds", JString roleIds);
   ("exp", JInt exp); ("nbf", JInt nbf)].

Definition encodable (pd : JwtPayload) : Prop :=
  0 <= jwt_UserID pd < 2 ^ 64 /\ in_int64 (jwt_RoleID pd)
  /\ ValidString (jwt_Username pd) = true /\ ValidString (jwt_Name pd) = true /\ ValidString (jwt_Email pd) = true.

Ltac fold_keys :=
  repeat match goal with |- context [equal_fold ?a ?b] =>
    let v := eval vm_compute in (equal_fold a b) in change (equal_fold a b) with v end; cbv iota.

Lemma sorted_claims pd roleIds exp nbf : merge_sort key_le (session_claims pd roleIds exp nbf)
  = [("email", JString (jwt_Email pd)); ("exp", JInt exp); ("name", JString (jwt_Name pd)); ("nbf", JInt nbf);
     ("roleId", JInt (jwt_RoleID pd)); ("roleIds", JString roleIds); ("userId", JInt (jwt_UserID pd));
     ("username", JString (jwt_Username pd))].
Proof. reflexivity. Qed.

Lemma unmarshal_claims pd roleIds exp nbf : encodable pd ->
  unmarshal_payload (json_object (session_claims pd roleIds exp nbf)) = Some pd.
Proof.
  intros (Hid & Hrole & Hun & Hname & Hemail). unfold unmarshal_payload. rewrite json_object_valid. cbn [negb].
  rewrite json_object_text, sorted_claims.
  match goal with |- context [map member ?l] => set (kvs := l) end.
  change (map code (bytes_of ?s)) with (codes s).
  pose proof (object_codes kvs []) as Ho. rewrite app_nil_r in Ho. rewrite Ho.
  change (skip_spaces (123 :: ?x)) with (123 :: x). cbv beta iota.
  rewrite object_members_marshalled; [| |by repeat (constructor; [vm_compute; reflexivity|])].
  2:{ pose proof (members_length kvs). rewrite length_app. lia. }
  subst kvs. cbn [map fst snd json_value set_fields]. destruct pd as [id username name email role]. cbn in *.
  unfold set_field. cbn [fst snd]. fold_keys.
  rewrite decode_string_marshalled by done. cbn.
  repeat (fold_keys; rewrite ?decode_string_marshalled, ?decode_uint_marshalled, ?decode_int_marshalled by done; cbn).
  done.
Qed.

(** A token in its compact form: header, payload and signature. *)
Definition compact (header : string) (claims : list (string * json)) (signature : string) : string :=
  header +:+ "." +:+ bytes_string (b64_encode (codes (json_object claims))) +:+ "." +:+ signature.
Definition dotless (s : string) : Prop := byte_of 46 ∉ bytes_of s.

Lemma dotless_check s : bool_decide (byte_of 46 ∈ bytes_of s) = false -> dotless s.
Proof. apply bool_decide_eq_false_1. Qed.

Lemma b64_ascii l : Forall is_byte l -> codes (bytes_string (b64_encode l)) = b64_encode l /\ dotless (bytes_string (b64_encode l)).
Proof.
  intros Hl. pose proof (b64_encode_chars l Hl) as Hc. unfold dotless, codes, bytes_string. rewrite bytes_of_of. split.
  - rewrite map_map. rewrite <- (map_id (b64_encode l)) at 2. apply map_ext_Forall. eapply Forall_impl; [exact Hc|].
    intros c (v & -> & Hv). pose proof (b64_char_value v Hv). apply code_byte_of. lia.
  - intros Hin. apply list_elem_of_In, in_map_iff in Hin as (c & Heq & Hin%list_elem_of_In).
    rewrite Forall_forall in Hc. destruct (Hc _ Hin) as (v & -> & Hv). pose proof (b64_char_value v Hv).
    apply (f_equal code) in Heq. rewrite !code_byte_of in Heq by lia. lia.
Qed.

Lemma bearer_token token : praseJwtToken ("Bearer " +:+ token) = token.
Proof. unfold praseJwtToken. change (bytes_of ("Bearer " +:+ token)) with (bytes_of "Bearer " ++ bytes_of token). exact (of_bytes_of token). Qed.

Lemma split_compact h p s : dotless h -> dotless p -> dotless s ->
  split_by (byte_of 46) (h +:+ "." +:+ p +:+ "." +:+ s) = [h; p; s].
Proof.
  intros Hh Hp Hs. unfold split_by. rewrite !app_bytes. change (bytes_of ".") with [byte_of 46]. cbn [app].
  rewrite split_on_app, split_on_app, split_on_none by done. cbn [map]. by rewrite !of_bytes_of.
Qed.

(** Whoever reads a token in compact form finds what was marshalled into it; nothing is
    asked of its signature. *)
Lemma parsePayload_compact header signature claims : dotless header -> dotless signature ->
  parsePayload ("Bearer " +:+ compact header claims signature) = unmarshal_payload (json_object claims).
Proof.
  intros Hh Hs. unfold parsePayload, compact. rewrite bearer_token.
  set (text := json_object claims). pose proof (codes_bytes text) as Hb.
  destruct (b64_ascii _ Hb) as [Hc Hd]. rewrite split_compact by done.
  fold (codes (bytes_string (b64_encode (codes text)))). rewrite Hc, b64_roundtrip by done.
  rewrite b64_length, Nat.sub_diag. cbn [repeat]. by rewrite app_nil_r, bytes_string_codes.
Qed.

Lemma session_read header signature pd roleIds exp nbf : dotless header -> dotless signature -> encodable pd ->
  parsePayload ("Bearer " +:+ compact header (session_claims pd roleIds exp nbf) signature) = Some pd.
Proof. intros. rewrite parsePayload_compact by done. by apply unmarshal_claims. Qed.
