(* ===== verification/Condition.v ===== *)
(** When the gateway retries: [proxy/condition/condition.go] and [proxy/retry.go]. *)
From S2P Require Export Http Json.

(** ** Numbers and lists of the configuration *)

(** [strconv.ParseInt(s, 10, 16)] *)
Definition parse_int16 (s : string) : outcome Z :=
  match signed_digits s with
  | Some z => if (- 2 ^ 15 <=? z) && (z <? 2 ^ 15) then Val z
              else Exn (ErrorText ("strconv.ParseInt: parsing " +:+ json_string s +:+ ": value out of range"))
  | None => Exn (ErrorText ("strconv.ParseInt: parsing " +:+ json_string s +:+ ": invalid syntax"))
  end.

(** The items of a valid array of strings; a [null] leaves an item empty. *)
Fixpoint string_items (fuel : nat) (l : list Z) : option (list string) :=
  match fuel with
  | O => None
  | S fuel =>
      match skip_spaces l with
      | 93 :: _ => Some []
      | 44 :: l => string_items fuel l
      | 34 :: l =>
          let r := string_units l in
          rest ← string_items fuel r.2; Some (valid_utf8 (of_bytes (unit_bytes r.1)) :: rest)
      | 110 :: 117 :: 108 :: 108 :: l => rest ← string_items fuel l; Some ("" :: rest)
      | _ => None
      end
  end.
Definition parseAsStringList (s : string) : outcome (list string) :=
  let l := map code (bytes_of s) in
  let r := if json_valid s
           then match skip_spaces l with 91 :: l => string_items (S (length l)) l | _ => None end
           else None in
  match r with Some l => Val l | None => Exn (ErrorText "json: cannot unmarshal") end.

(** ** Conditions *)

(** [config.Condition]; the last one is a condition that is not set. *)
Inductive condition_cfg :=
  | Condition_ByHeader (name value : string)
  | Condition_ByStatusCode (codes : string)
  | Condition_unset.

Inductive Condition :=
  | byHeader (name : string) (values : list string)
  | byStatusCode (parsedCodes : list Z).

Definition collect {A B} (f : A -> outcome B) : list A -> outcome (list B) :=
  fix go l :=
    match l with
    | [] => Val []
    | x :: l => match f x with
                | Exn e => Exn e
                | Val y => match go l with Exn e => Exn e | Val ys => Val (y :: ys) end
                end
    end.

Definition Prepare (c : condition_cfg) : outcome Condition :=
  match c with
  | Condition_ByStatusCode codes =>
      let parts := split_by (byte_of 45) codes in
      if decide (2 < length parts)%nat then Exn (ErrorText ("invalid condition " +:+ codes))
      else match collect parse_int16 parts with Exn e => Exn e | Val cs => Val (byStatusCode cs) end
  | Condition_ByHeader name value =>
      if has_prefix value "["
      then match parseAsStringList value with Exn e => Exn e | Val vs => Val (byHeader name vs) end
      else Val (byHeader name [value])
  | Condition_unset => Exn (ErrorText "unknown condition type: <nil>")
  end.
Definition ParseConditon : list condition_cfg -> outcome (list Condition) := collect Prepare.

Definition Judge (c : Condition) (resp : Response) : bool :=
  match c with
  | byStatusCode [] => false
  | byStatusCode [c] => bool_decide (rs_Status resp = c)
  | byStatusCode (lo :: hi :: _) => (lo <=? rs_Status resp) && (rs_Status resp <=? hi)
  | byHeader name values =>
      let v := header_get (reply_header resp) name in
      negb (bool_decide (v = "")) && bool_decide (v ∈ values)
  end.
Definition JudgeConditons (cs : list Condition) (resp : Response) (onEmpty : bool) : bool :=
  match cs with [] => onEmpty | _ => existsb (fun c => Judge c resp) cs end.

(** ** The retry strategy *)

(** The number of attempts is unsigned. *)
Record Retry := RetryCfg {
  rt_Attempts : N; rt_PerTryTimeout : option Z; rt_Conditions : list condition_cfg }.

Record retryStrategy := Strategy {
  st_attempts : Z; st_timeout : Z; st_perTryTimeout : Z; st_conditions : list Condition }.

Definition or_second (t : Z) : Z := if t <=? 0 then second else t.
Definition calcTimeout (timeout : option Z) : Z := or_second (default 0 timeout).
Definition calcAttempts (retry : option Retry) : Z :=
  match retry with
  | None => 1
  | Some r => if decide (rt_Attempts r = 0%N) then 1 else Z.of_N (rt_Attempts r)
  end.
Definition calcPerTryTimeout (timeout : option Z) (retry : option Retry) : Z :=
  or_second (match retry with
             | Some (RetryCfg _ (Some t) _) => t
             | _ => default 0 timeout
             end).

Definition prepareRetryStrategy (stream : bool) (timeout : option Z) (retry : option Retry)
    : outcome retryStrategy :=
  if stream && match retry with Some _ => true | None => false end
  then Exn (ErrorText "cannot configure retry strategy for stream endpoints")
  else
    match match retry with None => Val [] | Some r => ParseConditon (rt_Conditions r) end with
    | Exn e => Exn e
    | Val cs => Val (Strategy (calcAttempts retry) (calcTimeout timeout) (calcPerTryTimeout timeout retry) cs)
    end.

Definition judgeRetryRequired (cs : list Condition) (resp : Response) : bool := JudgeConditons cs resp false.

Example ranges_parse : ParseConditon [Condition_ByStatusCode "502-504"] = Val [byStatusCode [502; 504]].
Proof. vm_compute. reflexivity. Qed.
Definition quoted (s : string) : string := quote +:+ s +:+ quote.
Example lists_parse : parseAsStringList ("[" +:+ quoted "14" +:+ ", null," +:+ quoted "a\u00e9" +:+ "]")
  = Val ["14"; ""; "aé"].
Proof. vm_compute. reflexivity. Qed.
