(* ===== verification/Gateway.v ===== *)
(** The gateway's middlewares and how they are put around a client:
    [middleware/jwt], [middleware/cors], [middleware/rewrite], [middleware/registry.go]
    and [Proxy.buildMiddleware]. *)
From S2P Require Export Condition.

Definition Middleware : Type := RoundTripper -> RoundTripper.

(** A response that the gateway makes itself. *)
Definition static_response (status : Z) (h : option Header) (body : string) : Response :=
  HttpResponse status h body false false.

(** ** [middleware/jwt] *)

Definition defaultPublicPaths : list string :=
  ["/v1/user/auth/login"; "/v1/user/auth/register"; "/v1/user/profile/get-by-id";
   "/v1/user/profile/get-by-name"; "/v1/user/profile/list"; "/v1/user/role/list"; "/v1/user/group/get";
   "/v1/user/group/list"; "/v1/user/team/detail"; "/v1/core/submit-log/get-by-id"; "/v1/core/contest/list";
   "/v1/core/contest/ranking"; "/v1/core/statistic/heatmap"; "/v1/core/statistic/period";
   "/v1/core/statistic/platform-period"; "/v1/core/statistic/team-period"; "/v1/core/statistic/explanation";
   "/v1/core/statistic/platform-detail"; "/v1/core/achievement/global-snapshot"; "/v1/core/bulletin/get";
   "/v1/core/bulletin/list"].

Record jwt_options := Jwt_ { jo_Secret : string; jo_PublicPaths : list string }.

(** [options]: the configured ones; [None] is a message of another type. *)
Definition jwtOptions (options : option (option jwt_options)) : outcome jwt_options :=
  match options with
  | Some None => Exn (ErrorText "mismatched message type")
  | o =>
      let c := match o with Some (Some c) => c | _ => Jwt_ "" [] end in
      let secret := trim_space (jo_Secret c) in
      if decide (secret = "") then Exn (ErrorText "jwt middleware secret is required")
      else if decide (String.length secret < 32)%nat
      then Exn (ErrorText "jwt middleware secret must be at least 32 characters")
      else Val (Jwt_ secret (jo_PublicPaths c))
  end.

Definition isPublicPath (path : string) (publicPaths : list string) : bool :=
  existsb (fun p =>
    let p := trim_space p in
    if decide (p = "") then false
    else if has_suffix p "*" then has_prefix path (trim_suffix p "*")
    else bool_decide (path = p)) publicPaths.

(** What the gateway relies on of [golang-jwt]: the algorithm that the header of a
    well-formed token names, and whether the token verifies under an algorithm and a
    key, its claims included. *)
Class JwtVerifier := {
  token_alg : string -> option string;
  token_verifies : string -> string -> string -> bool
}.

(** ** [middleware/cors] *)

Record cors_options := Cors {
  co_AllowCredentials : bool; co_AllowOrigins : list string; co_AllowMethods : list string;
  co_AllowHeaders : list string; co_ExposeHeaders : list string; co_MaxAge : option Z;
  co_AllowPrivateNetwork : bool }.

Definition default_cors : cors_options :=
  Cors true [] ["GET"; "POST"; "PUT"; "DELETE"] ["Origin"; "Content-Length"; "Content-Type"] []
    (Some (10 * minute)) false.
(** [proto.UnmarshalOptions{Merge: true}]: lists are appended, a flag or number that is
    zero leaves the default; a duration has a number of seconds and one of nanoseconds. *)
Definition merge_duration (d c : Z) : Z :=
  let s := Z.quot c second in
  let n := Z.rem c second in
  (if s =? 0 then Z.quot d second else s) * second + (if n =? 0 then Z.rem d second else n).
Definition merge_cors (d c : cors_options) : cors_options :=
  Cors (co_AllowCredentials d || co_AllowCredentials c) (co_AllowOrigins d ++ co_AllowOrigins c)
    (co_AllowMethods d ++ co_AllowMethods c) (co_AllowHeaders d ++ co_AllowHeaders c)
    (co_ExposeHeaders d ++ co_ExposeHeaders c)
    (match co_MaxAge d, co_MaxAge c with
     | Some a, Some b => Some (merge_duration a b)
     | None, b => b
     | a, None => a
     end)
    (co_AllowPrivateNetwork d || co_AllowPrivateNetwork c).

(** [url.Parse(origin)] and [Hostname()]; [None] when it does not parse. *)
Class UrlParser := { url_hostname : string -> option string }.

(** The first host that decides; an empty host panics. *)
Fixpoint host_allowed (hostname : string) (hosts : list string) : option bool :=
  match hosts with
  | [] => Some false
  | host :: hosts =>
      let host := to_lower host in
      match bytes_of host with
      | [] => None
      | a :: _ =>
          if code a =? 42
          then if has_suffix hostname (trim_prefix host "*") then Some true else host_allowed hostname hosts
          else if decide (hostname = host) then Some true else host_allowed hostname hosts
      end
  end.
Definition isOriginAllowed `{UrlParser} (origin : string) (allowOriginHosts : list string) : option bool :=
  match url_hostname origin with
  | None => Some false
  | Some h => host_allowed (to_lower h) allowOriginHosts
  end.

Fixpoint normalize_from (seen : list string) (values : list string) : list string :=
  match values with
  | [] => []
  | v :: values =>
      let v := to_lower (trim_space v) in
      if decide (v ∈ seen) then normalize_from seen values else v :: normalize_from (v :: seen) values
  end.
Definition normalize (values : list string) : list string := normalize_from [] values.
Definition list_header (k : string) (values : list string) (h : Header) : Header :=
  match values with [] => h | _ => header_set k (join "," values) h end.

Definition generateNormalHeaders (c : cors_options) : Header :=
  let h := if co_AllowCredentials c then header_set "Access-Control-Allow-Credentials" "true" ∅ else ∅ in
  let h := list_header "Access-Control-Allow-Methods" (map to_upper (normalize (co_AllowMethods c))) h in
  let h := list_header "Access-Control-Expose-Headers" (map CanonicalHeaderKey (normalize (co_ExposeHeaders c))) h in
  header_add "Vary" "Origin" h.

Definition generatePreflightHeaders (c : cors_options) : Header :=
  let h := if co_AllowCredentials c then header_set "Access-Control-Allow-Credentials" "true" ∅ else ∅ in
  let h := list_header "Access-Control-Allow-Methods" (map to_upper (normalize (co_AllowMethods c))) h in
  let h := list_header "Access-Control-Allow-Headers" (map CanonicalHeaderKey (normalize (co_AllowHeaders c))) h in
  let h := match co_MaxAge c with
           | Some t => header_set "Access-Control-Max-Age" (pretty (Z.quot t second)) h
           | None => h
           end in
  header_add "Vary" "Access-Control-Request-Headers"
    (header_add "Vary" "Access-Control-Request-Method" (header_add "Vary" "Origin" h)).

(** ** [middleware/rewrite] *)

Record headers_rewrite := HeadersRewrite {
  hr_Set : list (string * string); hr_Add : list (string * string); hr_Remove : list string }.
Record rewrite_options := Rewrite {
  ro_PathRewrite : option string; ro_HostRewrite : option string; ro_StripPrefix : option string;
  ro_Request : option headers_rewrite; ro_Response : option headers_rewrite }.

Definition apply_rewrite (r : option headers_rewrite) (h : Header) : Header :=
  match r with
  | None => h
  | Some r =>
      let h := foldl (fun h kv => header_set kv.1 kv.2 h) h (hr_Set r) in
      let h := foldl (fun h kv => header_add kv.1 kv.2 h) h (hr_Add r) in
      foldl (fun h k => header_del k h) h (hr_Remove r)
  end.

(** [path.Clean] of a rooted path: the segments that remain. *)
Fixpoint clean_segments (done : list string) (segs : list string) : list string :=
  match segs with
  | [] => rev done
  | s :: segs =>
      if decide (s = "" \/ s = ".") then clean_segments done segs
      else if decide (s = "..") then clean_segments (tail done) segs
      else clean_segments (s :: done) segs
  end.
Definition slash : Ascii.ascii := byte_of 47.
Definition clean_rooted (p : string) : string := "/" +:+ join "/" (clean_segments [] (split_by slash p)).

(** The request path that the router matches ([router/mux/mux.go]). *)
Definition cleanPath (p : string) : string :=
  if decide (p = "") then "/"
  else
    let p := if has_prefix p "/" then p else "/" +:+ p in
    let np := clean_rooted p in
    if has_suffix p "/" && negb (bool_decide (np = "/")) then np +:+ "/" else np.

Definition stripPrefix (origin prefix : string) : string :=
  let out := trim_prefix origin prefix in
  if decide (out = "") then "/"
  else if has_prefix out "/" then out else clean_rooted out.

Definition rewrite_request (o : rewrite_options) (req : Request) : Request :=
  let req := match ro_PathRewrite o with Some p => set_path p req | None => req end in
  let req := match ro_HostRewrite o with Some h => set_host h req | None => req end in
  let req := match ro_StripPrefix o with Some p => set_path (stripPrefix (rq_Path req) p) req | None => req end in
  map_header (apply_rewrite (ro_Request o)) req.

(** ** Round trippers *)

Section middlewares.
Context `{JwtVerifier} `{UrlParser}.

(** [jwt.Parse] with the key function of the middleware. *)
Definition jwt_Parse (secret tokenStr : string) : bool :=
  match token_alg tokenStr with
  | None => false
  | Some alg => if decide (alg = "HS256") then token_verifies alg secret tokenStr else false
  end.

Definition jwt_middleware (o : jwt_options) : Middleware := fun next request =>
  let publicPaths := match jo_PublicPaths o with [] => defaultPublicPaths | ps => ps end in
  if isPublicPath (rq_Path request) publicPaths then next request
  else
    let authHeader := header_get (rq_Header request) "Authorization" in
    let tokenStr := trim_prefix authHeader "Bearer " in
    if decide (tokenStr = authHeader) then mret (static_response 401 None "JWT Token not found")
    else if jwt_Parse (jo_Secret o) tokenStr then next request
    else mret (static_response 401 None "JWT Token invalid").

Definition cors_middleware (o : cors_options) : Middleware := fun next req =>
  let origin := header_get (rq_Header req) "Origin" in
  if decide (origin = "") then next req
  else match isOriginAllowed origin (co_AllowOrigins o) with
  | None => g_panic "runtime error: index out of range [0] with length 0"
  | Some false => mret (static_response 403 (Some ∅) "")
  | Some true =>
      if decide (rq_Method req = "OPTIONS") then
        let h := if co_AllowPrivateNetwork o
                    && bool_decide (header_get (rq_Header req) "Access-Control-Request-Private-Network" = "true")
                 then header_set "Access-Control-Allow-Private-Network" "true" ∅ else ∅ in
        let h := generatePreflightHeaders o ∪ h in
        mret (static_response 200 (Some (header_set "Access-Control-Allow-Origin" origin h)) "")
      else
        resp ← next req;
        mret (set_reply_header (header_set "Access-Control-Allow-Origin" origin
                                  (generateNormalHeaders o ∪ reply_header resp)) resp)
  end.

Definition rewrite_middleware (o : rewrite_options) : Middleware := fun next req =>
  resp ← next (rewrite_request o req);
  match ro_Response o, rs_Header resp with
  | None, _ => mret resp
  | Some (HeadersRewrite [] [] _), None => mret resp
  | Some _, None => g_panic "assignment to entry in nil map"
  | r, Some h => mret (set_reply_header (apply_rewrite r h) resp)
  end.

(** ** The registry *)

(** [anypb.Any] by the message in it. *)
Inductive any :=
  | AnyJwt (o : jwt_options)
  | AnyCors (o : cors_options)
  | AnyRewrite (o : rewrite_options)
  | AnyOther (type_url : string).

Record middleware_cfg := MiddlewareCfg { mw_Name : string; mw_Options : option any; mw_Required : bool }.

Definition jwt_factory (c : option any) : outcome Middleware :=
  match jwtOptions (match c with
                    | None => None
                    | Some (AnyJwt o) => Some (Some o)
                    | Some _ => Some None
                    end) with
  | Val o => Val (jwt_middleware o)
  | Exn e => Exn e
  end.
Definition cors_factory (c : option any) : outcome Middleware :=
  match c with
  | None => Val (cors_middleware default_cors)
  | Some (AnyCors o) => Val (cors_middleware (merge_cors default_cors o))
  | Some _ => Exn (ErrorText "mismatched message type")
  end.
Definition rewrite_factory (c : option any) : outcome Middleware :=
  match c with
  | None => Val (rewrite_middleware (Rewrite None None None None None))
  | Some (AnyRewrite o) => Val (rewrite_middleware o)
  | Some _ => Exn (ErrorText "mismatched message type")
  end.

(** [others]: the factories registered under the remaining names. *)
Definition registry : Type := string -> option (option any -> outcome Middleware).
Definition get_factory (others : registry) (name : string) : option (option any -> outcome Middleware) :=
  let name := to_lower name in
  if decide (name = "jwt") then Some jwt_factory
  else if decide (name = "cors") then Some cors_factory
  else if decide (name = "rewrite") then Some rewrite_factory
  else others name.

Definition ErrMiddlewareNotFound : goerr := ErrorText "Middleware has not been registered".
Definition EmptyMiddleware : Middleware := fun next => next.

(** A middleware that is not required is left out when it can not be made. *)
Definition mw_Create (others : registry) (cfg : middleware_cfg) : outcome Middleware :=
  match get_factory others (mw_Name cfg) with
  | None => Exn ErrMiddlewareNotFound
  | Some method =>
      match method (mw_Options cfg) with
      | Val m => Val m
      | Exn e => if mw_Required cfg then Exn e else Val EmptyMiddleware
      end
  end.

(** From the last to the first, so that the first is the outermost; names that are not
    registered are skipped. *)
Fixpoint buildMiddleware (others : registry) (ms : list middleware_cfg) (next : RoundTripper)
    : outcome RoundTripper :=
  match ms with
  | [] => Val next
  | cfg :: ms =>
      match buildMiddleware others ms next with
      | Exn e => Exn e
      | Val next =>
          match mw_Create others cfg with
          | Val m => Val (m next)
          | Exn e => if error_is ErrMiddlewareNotFound e then Val next else Exn e
          end
      end
  end.
End middlewares.

Example paths_clean : map cleanPath ["/v1//user/../core/./x/"; ""; "a/.."; "/../b"] = ["/v1/core/x/"; "/"; "/"; "/b"].
Proof. vm_compute. reflexivity. Qed.
