(* ===== verification/Proxy.v ===== *)
(** Endpoints of the gateway: [proxy/proxy.go], [proxy/error_handler.go], and the
    configuration they are built from ([config/config.go]). *)
From S2P Require Export Gateway.

(** ** Configuration *)

Record Endpoint := EndpointCfg {
  ep_Path : string; ep_Method : string; ep_Host : string; ep_GRPC : bool; ep_Stream : bool;
  ep_Timeout : option Z; ep_Retry : option Retry; ep_Middlewares : list middleware_cfg }.
Record GatewayCfg := GatewayConfig { gc_Endpoints : list Endpoint; gc_Middlewares : list middleware_cfg }.

(** [MakeReplaceOrPrependEndpointFn]: the index of the endpoints of the main file is made
    once; a later endpoint with the same key counts. *)
Definition endpoint_key (e : Endpoint) : string := ep_Method e +:+ "-" +:+ ep_Path e.
Fixpoint index_from (i : nat) (l : list Endpoint) (index : gmap string nat) : gmap string nat :=
  match l with
  | [] => index
  | e :: l => index_from (S i) l (<[endpoint_key e := i]> index)
  end.
Definition replaceOrPrepend (index : gmap string nat) (dst : list Endpoint) (item : Endpoint) : list Endpoint :=
  match index !! endpoint_key item with
  | None => item :: dst
  | Some idx => <[idx := item]> dst
  end.
(** [files]: the endpoints of the priority files that could be read and parsed. *)
Definition mergePriorityConfig (files : list (list Endpoint)) (dst : GatewayCfg) : GatewayCfg :=
  let index := index_from 0 (gc_Endpoints dst) ∅ in
  GatewayConfig (foldl (replaceOrPrepend index) (gc_Endpoints dst) (concat files)) (gc_Middlewares dst).

(** ** Answers *)

Record Answer := HttpAnswer { an_Status : Z; an_Header : Header; an_Body : string }.

(** [status.ToGRPCCode] of the framework. *)
Class GrpcStatus := { ToGRPCCode : Z -> Z }.

Definition error_status (err : goerr) : Z :=
  if error_is Canceled err || bool_decide (error_text err = "client disconnected") then 499
  else if error_is DeadlineExceeded err then 504 else 502.
Definition writeError `{GrpcStatus} (grpc : bool) (err : goerr) : Answer :=
  let statusCode := error_status err in
  if grpc then
    HttpAnswer 200 (header_set "Grpc-Message" (error_text err)
      (header_set "Grpc-Status" (pretty (ToGRPCCode statusCode))
         (header_set "Content-Type" "application/grpc" ∅))) ""
  else HttpAnswer statusCode ∅ "".

(** What reaches the client of a body: nothing when it was closed before it was read. *)
Definition readable (r : Response) : string := if rs_Conn r && rs_Closed r then "" else rs_Body r.
Definition copy_response (r : Response) : Answer :=
  HttpAnswer (rs_Status r) (reply_header r) (readable r).

(** ** Serving an endpoint *)

Definition setXFFHeader (req : Request) : Request :=
  match rq_ClientIP req with
  | None => req
  | Some ip =>
      let clientIP := match rq_Header req !! "X-Forwarded-For" with
                      | Some ((_ :: _) as prior) => join ", " prior +:+ ", " +:+ ip
                      | _ => ip
                      end in
      map_header (header_set "X-Forwarded-For" clientIP) req
  end.

Section proxy.
Context `{Network} `{GrpcStatus} `{JwtVerifier} `{UrlParser}.

(** A call of a round tripper whose error is inspected; a panic goes on. *)
Definition round_trip (t : RoundTripper) (req : Request) : G (outcome Response) := fun w =>
  match t req w with
  | (Ok r, w') => (Ok (Val r), w')
  | (Failed e, w') => (Ok (Exn e), w')
  | (Panicked s, w') => (Panicked s, w')
  end.

(** The retry breaker hears of retries only. *)
Definition mark (i : nat) (ok : bool) : G () := fun w =>
  (Ok (), if decide (0 < i)%nat then GatewayState (gw_sent w) (ok :: gw_marks w) else w).

(** [retryBreaker.Allow()], and the switch of the feature, before a retry. *)
Definition may_try (i : nat) : G bool := fun w =>
  (Ok (if decide (i = 0)%nat then true else retry_enabled && retry_allowed (gw_marks w)), w).
Definition context_err : G (option goerr) := fun w => (Ok (ctx_err (length (gw_sent w))), w).

(** The loop over the attempts, with the response and the error it leaves. *)
Fixpoint attempts_loop (t : RoundTripper) (conditions : list Condition) (req : Request) (n i : nat)
    (resp : option Response) (err : option goerr) : G (option Response * option goerr) :=
  match n with
  | O => mret (resp, err)
  | S n =>
      ok ← may_try i;
      if negb ok then mret (resp, err)
      else
        expired ← context_err;
        match expired with
        | Some e => mark i false;; mret (resp, Some e)
        | None =>
            r ← round_trip t req;
            match r with
            | Exn e => mark i false;; attempts_loop t conditions req n (S i) None (Some e)
            | Val r =>
                if negb (judgeRetryRequired conditions r) then mark i true;; mret (Some r, None)
                else mark i false;; attempts_loop t conditions req n (S i) (Some (close_body r)) None
            end
        end
  end.

Definition serve_endpoint (t : RoundTripper) (st : retryStrategy) (grpc : bool) (req : Request) : G Answer :=
  let req := setXFFHeader req in
  r ← attempts_loop t (st_conditions st) req (Z.to_nat (st_attempts st)) 0 None None;
  match r with
  | (_, Some err) => mret (writeError grpc err)
  | (Some resp, None) => mret (copy_response resp)
  | (None, None) => g_panic "invalid memory address or nil pointer dereference"
  end.

(** [Proxy.ServeHTTP] recovers from a panic. *)
Definition recovered (m : G Answer) : G Answer := fun w =>
  match m w with
  | (Panicked _, w') => (Ok (HttpAnswer 502 ∅ ""), w')
  | r => r
  end.

(** An endpoint that was built; a stream is handed to the standard library's reverse
    proxy, with one trip. *)
Record built := Built { bt_Endpoint : Endpoint; bt_Tripper : RoundTripper; bt_Strategy : retryStrategy }.

Definition buildEndpoint (others : registry) (e : Endpoint) (ms : list middleware_cfg) : outcome built :=
  match buildMiddleware others (ep_Middlewares e) client_trip with
  | Exn err => Exn err
  | Val tripper =>
      match buildMiddleware others ms tripper with
      | Exn err => Exn err
      | Val tripper =>
          match prepareRetryStrategy (ep_Stream e) (ep_Timeout e) (ep_Retry e) with
          | Exn err => Exn err
          | Val st => Val (Built e tripper st)
          end
      end
  end.

Definition serve_built (b : built) (req : Request) : G Answer :=
  recovered (serve_endpoint (bt_Tripper b) (bt_Strategy b) (ep_GRPC (bt_Endpoint b)) req).

(** [Proxy.Update]: the routes are replaced when every endpoint of the configuration
    can be built, and stay as they are otherwise. *)
Definition Update (others : registry) (cfg : GatewayCfg) (routes : list built) : outcome () * list built :=
  match collect (fun e => buildEndpoint others e (gc_Middlewares cfg)) (gc_Endpoints cfg) with
  | Val new => (Val (), new)
  | Exn err => (Exn err, routes)
  end.
End proxy.
