(* ===== verification/GatewayTheory.v ===== *)
(** What the proofs about the gateway share: how many requests a computation sends to
    the backends, how the answer of an endpoint comes about, and what [Update] builds. *)
From S2P Require Export Proxy JsonTheory.

(** ** Requests sent *)

(** However it ends, [m] sends at most [n] requests; what was sent before stays. *)
Definition sends_at_most (n : nat) {A} (m : G A) : Prop :=
  forall w, exists l, gw_sent (m w).2 = gw_sent w ++ l /\ (length l <= n)%nat.
Definition quiet {A} (m : G A) : Prop := sends_at_most 0 m.

Lemma sends_weaken {A} (m : G A) n k : sends_at_most n m -> (n <= k)%nat -> sends_at_most k m.
Proof. intros Hm Hk w. destruct (Hm w) as (l & ? & ?). exists l. split; [done | lia]. Qed.

Lemma quiet_sent {A} (m : G A) w : quiet m -> gw_sent (m w).2 = gw_sent w.
Proof. intros Hm. destruct (Hm w) as ([|] & -> & ?); [by rewrite app_nil_r | simpl in *; lia]. Qed.

(** A computation that leaves the sent requests alone. *)
Lemma sends_same {A} (m : G A) n : (forall w, gw_sent (m w).2 = gw_sent w) -> sends_at_most n m.
Proof. intros Hm w. exists []. rewrite app_nil_r. split; [apply Hm | simpl; lia]. Qed.
Lemma sends_ret {A} (a : A) n : sends_at_most n (mret a : G A).
Proof. by apply sends_same. Qed.
Lemma sends_panic {A} s n : sends_at_most n (g_panic s : G A).
Proof. by apply sends_same. Qed.

Lemma sends_bind {A B} (m : G A) (f : A -> G B) n k :
  sends_at_most n m -> (forall a, sends_at_most k (f a)) -> sends_at_most (n + k) (m ≫= f).
Proof.
  intros Hm Hf w. destruct (Hm w) as (l & Hl & Hn). unfold mbind, G_bind.
  destruct (m w) as [[a|e|s] w1]; simpl in *; [|exists l; split; [done | lia]..].
  destruct (Hf a w1) as (l' & -> & Hk). exists (l ++ l'). rewrite Hl, app_assoc, length_app. split; [done | lia].
Qed.
(** The second part sends nothing, or the first. *)
Lemma sends_bind_l {A B} (m : G A) (f : A -> G B) n :
  sends_at_most n m -> (forall a, quiet (f a)) -> sends_at_most n (m ≫= f).
Proof. intros Hm Hf. eapply sends_weaken; [by apply sends_bind | lia]. Qed.
Lemma sends_bind_r {A B} (m : G A) (f : A -> G B) n :
  quiet m -> (forall a, sends_at_most n (f a)) -> sends_at_most n (m ≫= f).
Proof. intros Hm Hf. by apply (sends_bind m f 0 n). Qed.

#[export] Hint Resolve sends_ret sends_panic : golang.

(** A property of requests without which nothing is sent. *)
Definition guarded (P : Request -> Prop) (t : RoundTripper) : Prop := forall req, P req \/ quiet (t req).
(** One request at most for each that comes in. *)
Definition relays (t : RoundTripper) : Prop := forall req, sends_at_most 1 (t req).

Lemma collect_cons {A B} (f : A -> outcome B) x l :
  collect f (x :: l) = match f x with
                       | Exn e => Exn e
                       | Val y => match collect f l with Exn e => Exn e | Val ys => Val (y :: ys) end
                       end.
Proof. done. Qed.

Lemma collect_Forall2 {A B} (f : A -> outcome B) l ks :
  collect f l = Val ks -> Forall2 (fun x y => f x = Val y) l ks.
Proof.
  revert ks. induction l as [|x l IH]; intros ks Hc; [by simplify_eq/=; constructor|].
  rewrite collect_cons in Hc. destruct (f x) eqn:E; [|done].
  destruct (collect f l); [|done]. simplify_eq. constructor; [done | by apply IH].
Qed.

Section endpoints.
Context `{Network} `{GrpcStatus} `{JwtVerifier} `{UrlParser}.

(** ** Middlewares *)

Lemma client_relays : relays client_trip.
Proof. intros req w. exists [req]. done. Qed.

Lemma jwt_relays o t : relays t -> relays (jwt_middleware o t).
Proof. intros Ht req. unfold jwt_middleware. repeat case_match; auto with golang. Qed.
Lemma cors_relays o t : relays t -> relays (cors_middleware o t).
Proof.
  intros Ht req. unfold cors_middleware. repeat case_match; auto with golang.
  apply sends_bind_l; [done | intros; apply sends_ret].
Qed.
Lemma rewrite_relays o t : relays t -> relays (rewrite_middleware o t).
Proof.
  intros Ht req. apply sends_bind_l; [done|]. intros r. repeat case_match; unfold quiet; auto with golang.
Qed.

(** What the JWT middleware asks of a request. *)
Definition public_paths (o : jwt_options) : list string :=
  match jo_PublicPaths o with [] => defaultPublicPaths | ps => ps end.
Definition admitted (o : jwt_options) (req : Request) : Prop :=
  isPublicPath (rq_Path req) (public_paths o) = true
  \/ exists token, header_get (rq_Header req) "Authorization" = "Bearer " +:+ token
     /\ token_alg token = Some "HS256" /\ token_verifies "HS256" (jo_Secret o) token = true.

Lemma trim_prefix_changed s p : trim_prefix s p <> s -> s = p +:+ trim_prefix s p.
Proof.
  unfold trim_prefix. destruct (has_prefix s p) eqn:Hp; [|done]. intros _.
  apply has_prefix_spec in Hp as [r ->]. f_equal. rewrite app_bytes.
  replace (String.length p) with (length (bytes_of p)); [by rewrite drop_app_length, of_bytes_of|].
  unfold bytes_of. clear. induction p as [|a p IH]; simpl; congruence.
Qed.

Lemma jwt_guards o t : guarded (admitted o) (jwt_middleware o t).
Proof.
  intros req. unfold jwt_middleware. fold (public_paths o).
  destruct (isPublicPath _ _) eqn:Hp; [by left; left|].
  case_decide as Ht; [right; apply sends_ret|].
  destruct (jwt_Parse _ _) eqn:Hj; [|right; apply sends_ret].
  left. right. exists (trim_prefix (header_get (rq_Header req) "Authorization") "Bearer ").
  split; [by apply trim_prefix_changed|]. unfold jwt_Parse in Hj.
  destruct (token_alg _) as [alg|]; [|done]. case_decide; by simplify_eq.
Qed.

Lemma cors_guarded P o t : guarded P t -> guarded P (cors_middleware o t).
Proof.
  intros Ht req. destruct (Ht req) as [?|Hq]; [by left|]. right. unfold cors_middleware, quiet.
  repeat case_match; auto with golang. apply sends_bind_l; [done | intros; apply sends_ret].
Qed.

(** ** The attempts *)

Lemma round_trip_sends t req n : sends_at_most n (t req) -> sends_at_most n (round_trip t req).
Proof.
  intros Ht w. destruct (Ht w) as (l & Hl & Hn). exists l. unfold round_trip.
  by destruct (t req w) as [[?|?|?] w'].
Qed.
Lemma mark_quiet i b : quiet (mark i b).
Proof. apply sends_same. intros w. unfold mark. by case_decide. Qed.

Lemma attempts_sends t cs req k n : sends_at_most k (t req) ->
  forall i r e, sends_at_most (n * k) (attempts_loop t cs req n i r e).
Proof.
  intros Ht. induction n as [|n IH]; intros i r e; [apply sends_ret|]. cbn [attempts_loop].
  apply sends_bind_r; [by apply sends_same|]. intros ok. destruct (negb ok); [apply sends_ret|].
  apply sends_bind_r; [by apply sends_same|]. intros [x|].
  { apply sends_bind_r; [apply mark_quiet|]. intros _. apply sends_ret. }
  apply sends_bind; [by apply round_trip_sends|].
  intros [y|x]; [destruct (negb _)|]; (apply sends_bind_r; [apply mark_quiet|]; intros _);
    (apply sends_ret || apply IH).
Qed.

(** One round of the loop, with the state passed by hand. *)
Definition marked (i : nat) (ok : bool) (w : gateway) : gateway := (mark i ok w).2.
Lemma marked_sent i ok w : gw_sent (marked i ok w) = gw_sent w.
Proof. unfold marked, mark. by case_decide. Qed.
Definition allowed (i : nat) (w : gateway) : bool :=
  if decide (i = 0%nat) then true else retry_enabled && retry_allowed (gw_marks w).

Lemma attempts_step t cs req n i r e w :
  attempts_loop t cs req (S n) i r e w
  = if negb (allowed i w) then (Ok (r, e), w)
    else match ctx_err (length (gw_sent w)) with
         | Some x => (Ok (r, Some x), marked i false w)
         | None =>
             match t req w with
             | (Ok y, w1) =>
                 if negb (judgeRetryRequired cs y) then (Ok (Some y, None), marked i true w1)
                 else attempts_loop t cs req n (S i) (Some (close_body y)) None (marked i false w1)
             | (Failed x, w1) => attempts_loop t cs req n (S i) None (Some x) (marked i false w1)
             | (Panicked s, w1) => (Panicked s, w1)
             end
         end.
Proof.
  cbn [attempts_loop]. unfold mbind, G_bind, may_try at 1. fold (allowed i w).
  destruct (negb (allowed i w)); [done|]. unfold context_err at 1.
  destruct (ctx_err (length (gw_sent w))) as [x|]; [done|].
  unfold round_trip. destruct (t req w) as [[y|x|s] w1]; [|done..]. by destruct (negb (judgeRetryRequired cs y)).
Qed.

(** The reply to the client that ends with the last call of the round tripper. *)
Definition settled (cs : list Condition) (grpc : bool) (o : result Response) : Answer :=
  match o with
  | Ok r => copy_response (if judgeRetryRequired cs r then close_body r else r)
  | Failed e => writeError grpc e
  | Panicked _ => HttpAnswer 502 ∅ ""
  end.

(** What the loop leaves to answer, or a panic. *)
Definition loop_answer (grpc : bool) (o : result (option Response * option goerr)) : Answer :=
  match o with
  | Ok (_, Some e) | Failed e => writeError grpc e
  | Ok (Some r, None) => copy_response r
  | Ok (None, None) | Panicked _ => HttpAnswer 502 ∅ ""
  end.

(** [ans], with [sent] requests sent so far, is the outcome of the last call or of a context that had expired. *)
Definition explained (t : RoundTripper) (cs : list Condition) (grpc : bool) (req : Request)
    (ans : Answer) (sent : list Request) : Prop :=
  (exists e n, ctx_err n = Some e /\ ans = writeError grpc e)
  \/ exists w w' o, t req w = (o, w') /\ ans = settled cs grpc o /\ gw_sent w' = sent.

Lemma attempts_explained t cs grpc req n : forall i r e w,
  ((i = 0 /\ 0 < n)%nat \/ explained t cs grpc req (loop_answer grpc (Ok (r, e))) (gw_sent w)) ->
  let res := attempts_loop t cs req n i r e w in
  explained t cs grpc req (loop_answer grpc res.1) (gw_sent res.2).
Proof.
  induction n as [|n IH]; intros i r e w Hstart; [by destruct Hstart as [[_ ?]|?]; [lia|]|].
  rewrite attempts_step. destruct (negb (allowed i w)) eqn:Hok.
  { by destruct Hstart as [[-> _]|?]. }
  destruct (ctx_err (length (gw_sent w))) as [x|] eqn:Hx.
  { left. exists x, (length (gw_sent w)). by destruct r. }
  destruct (t req w) as [[y|x|s] w1] eqn:Ht.
  - destruct (negb (judgeRetryRequired cs y)) eqn:Hj; bool_cases.
    + right. exists w, w1, (Ok y). split_and!; [done | simpl; by rewrite Hj | exact (eq_sym (marked_sent _ _ _))].
    + apply IH. right. right. exists w, w1, (Ok y). split_and!; [done | simpl; by rewrite Hj | exact (eq_sym (marked_sent _ _ _))].
  - apply IH. right. right. exists w, w1, (Failed x). split_and!; [done | done | exact (eq_sym (marked_sent _ _ _))].
  - right. by exists w, w1, (Panicked s).
Qed.

Lemma attempts_no_failure t cs req n : forall i r e w x,
  (attempts_loop t cs req n i r e w).1 <> Failed x.
Proof.
  induction n as [|n IH]; intros i r e w x; [done|]. 
  rewrite attempts_step. destruct (negb (allowed i w)); [done|]. destruct (ctx_err _); [done|].
  destruct (t req w) as [[y|z|s] w1]; [destruct (negb _); [done | apply IH] | apply IH | done].
Qed.

(** The loop of a built endpoint on a request. *)
Definition attempts_of (b : built) (req : Request) : G (option Response * option goerr) :=
  attempts_loop (bt_Tripper b) (st_conditions (bt_Strategy b)) (setXFFHeader req)
    (Z.to_nat (st_attempts (bt_Strategy b))) 0 None None.

Lemma serve_built_run b req w :
  serve_built b req w
  = (Ok (loop_answer (ep_GRPC (bt_Endpoint b)) (attempts_of b req w).1), (attempts_of b req w).2).
Proof.
  unfold serve_built, recovered, serve_endpoint, mbind, G_bind. fold (attempts_of b req).
  pose proof (attempts_no_failure (bt_Tripper b) (st_conditions (bt_Strategy b)) (setXFFHeader req)
    (Z.to_nat (st_attempts (bt_Strategy b))) 0 None None w) as Hf. fold (attempts_of b req) in Hf.
  destruct (attempts_of b req w) as [[[[r|] [e|]]|x|s] w']; cbn in *; try done. by destruct (Hf x).
Qed.

(** The address of the client is added to a header of its own. *)
Lemma forwarded_header k req : CanonicalHeaderKey k <> "X-Forwarded-For" ->
  header_get (rq_Header (setXFFHeader req)) k = header_get (rq_Header req) k.
Proof.
  intros Hk. unfold setXFFHeader. destruct (rq_ClientIP req) as [ip|]; [|done]. cbn.
  unfold header_get, header_set. rewrite lookup_insert_ne; [done|]. intros He. by rewrite <- He in Hk.
Qed.
Lemma forwarded_path req : rq_Path (setXFFHeader req) = rq_Path req.
Proof. unfold setXFFHeader. by destruct (rq_ClientIP req). Qed.

Lemma admitted_forwarded o req : admitted o (setXFFHeader req) -> admitted o req.
Proof.
  unfold admitted. by rewrite forwarded_path, forwarded_header.
Qed.

Lemma serve_built_guarded o b req : guarded (admitted o) (bt_Tripper b) ->
  admitted o req \/ quiet (serve_built b req).
Proof.
  intros Hg. destruct (Hg (setXFFHeader req)) as [?|Hq]; [left; by apply admitted_forwarded|].
  right. apply sends_same. intros w. rewrite serve_built_run. cbn.
  apply quiet_sent. unfold attempts_of, quiet. rewrite <- (Nat.mul_0_r (Z.to_nat (st_attempts (bt_Strategy b)))).
  by apply attempts_sends.
Qed.

Lemma serve_built_sends b req : relays (bt_Tripper b) ->
  sends_at_most (Z.to_nat (st_attempts (bt_Strategy b))) (serve_built b req).
Proof.
  intros Hr w. rewrite serve_built_run. cbn.
  destruct (attempts_sends (bt_Tripper b) (st_conditions (bt_Strategy b)) (setXFFHeader req) 1
    (Z.to_nat (st_attempts (bt_Strategy b))) (Hr _) 0%nat None None w) as (l & Hl & Hn).
  exists l. split; [exact Hl | lia].
Qed.

Lemma serve_built_explained b req w : (0 < Z.to_nat (st_attempts (bt_Strategy b)))%nat ->
  exists ans, (serve_built b req w).1 = Ok ans
    /\ explained (bt_Tripper b) (st_conditions (bt_Strategy b)) (ep_GRPC (bt_Endpoint b)) (setXFFHeader req)
         ans (gw_sent (serve_built b req w).2).
Proof.
  intros Hn. rewrite serve_built_run. cbn. eexists. split; [done|].
  apply (attempts_explained _ _ _ _ _ 0%nat None None w). by left.
Qed.

(** A round tripper that answers a request by itself. *)
Lemma serve_built_static b req r : (0 < Z.to_nat (st_attempts (bt_Strategy b)))%nat ->
  bt_Tripper b (setXFFHeader req) = mret r -> rs_Conn r = false -> forall w,
  gw_sent (serve_built b req w).2 = gw_sent w
  /\ ((serve_built b req w).1 = Ok (copy_response r)
      \/ exists e n, ctx_err n = Some e /\ (serve_built b req w).1 = Ok (writeError (ep_GRPC (bt_Endpoint b)) e)).
Proof.
  intros Hn Ht Hr w. split.
  - rewrite serve_built_run. cbn [snd]. apply quiet_sent. unfold attempts_of, quiet. rewrite <- (Nat.mul_0_r (Z.to_nat (st_attempts (bt_Strategy b)))).
    apply attempts_sends. rewrite Ht. apply sends_ret.
  - destruct (serve_built_explained b req w Hn) as (ans & -> & [(e & n & He & ->)|(w1 & w2 & o & Ho & -> & _)]).
    + right. by exists e, n.
    + left. rewrite Ht in Ho. injection Ho as <- <-. unfold settled, copy_response, readable. destruct r.
      cbn in *. subst. by destruct (judgeRetryRequired _ _).
Qed.

(** ** What [Update] builds *)

(** Middlewares by the names that are modelled here. *)
Definition known (c : middleware_cfg) : Prop := to_lower (mw_Name c) ∈ ["jwt"; "cors"; "rewrite"].
Definition named (name : string) (c : middleware_cfg) : Prop := to_lower (mw_Name c) = name.

Lemma get_factory_known others name f :
  get_factory others name = Some f -> to_lower name ∈ ["jwt"; "cors"; "rewrite"] ->
  forall c m t, f c = Val m -> relays t -> relays (m t).
Proof.
  unfold get_factory. intros Hf Hn c m t Hm Ht.
  repeat case_decide; simplify_eq.
  - unfold jwt_factory in Hm. destruct (jwtOptions _); simplify_eq. by apply jwt_relays.
  - unfold cors_factory in Hm. repeat case_match; simplify_eq; by apply cors_relays.
  - unfold rewrite_factory in Hm. repeat case_match; simplify_eq; by apply rewrite_relays.
  - set_solver.
Qed.

Lemma not_found_is : error_is ErrMiddlewareNotFound ErrMiddlewareNotFound = true.
Proof. reflexivity. Qed.
Lemma buildMiddleware_cons others c ms t t' : buildMiddleware others (c :: ms) t = Val t' ->
  exists t1, buildMiddleware others ms t = Val t1
    /\ ((exists m, mw_Create others c = Val m /\ t' = m t1)
        \/ (exists e, mw_Create others c = Exn e /\ error_is ErrMiddlewareNotFound e = true /\ t' = t1)).
Proof.
  cbn [buildMiddleware]. destruct (buildMiddleware others ms t) as [t1|]; [|done].
  destruct (mw_Create others c) as [m|e]; [intros [= <-]; eauto 6|].
  destruct (error_is ErrMiddlewareNotFound e) eqn:He; [intros [= <-]; eauto 7 | done].
Qed.

Lemma buildMiddleware_relays others ms t t' : Forall known ms ->
  buildMiddleware others ms t = Val t' -> relays t -> relays t'.
Proof.
  intros Hk. revert t'. induction Hk as [|c ms Hc _ IH]; intros t' Hb Ht; [by simplify_eq/=|].
  apply buildMiddleware_cons in Hb as (t1 & Hb & Hm). specialize (IH _ Hb Ht).
  destruct Hm as [(m & Hm & ->)|(e & _ & _ & ->)]; [|done].
  unfold mw_Create in Hm. destruct (get_factory others (mw_Name c)) as [f|] eqn:Hf; [|done].
  destruct (f (mw_Options c)) as [m'|e] eqn:Hm'; simplify_eq; [by eapply get_factory_known|].
  destruct (mw_Required c); by simplify_eq.
Qed.

(** A required JWT middleware guards whatever is inside it; CORS middlewares outside do no harm. *)
Lemma buildMiddleware_app others l1 l2 t :
  buildMiddleware others (l1 ++ l2) t
  = match buildMiddleware others l2 t with Val t' => buildMiddleware others l1 t' | Exn e => Exn e end.
Proof.
  induction l1 as [|c l1 IH]; simpl; [by case_match|]. rewrite IH. by destruct (buildMiddleware others l2 t).
Qed.

Lemma mw_Create_required others c m : mw_Create others c = Val m -> mw_Required c = true ->
  exists f, get_factory others (mw_Name c) = Some f /\ f (mw_Options c) = Val m.
Proof.
  unfold mw_Create. intros Hm Hr. destruct (get_factory _ _) as [f|]; [|done]. exists f. split; [done|].
  destruct (f (mw_Options c)); [done|]. by rewrite Hr in Hm.
Qed.

Lemma mw_Create_cors others c m : named "cors" c -> mw_Create others c = Val m ->
  m = EmptyMiddleware \/ exists o, m = cors_middleware o.
Proof.
  unfold named, mw_Create, get_factory. intros Hn Hm. rewrite Hn in Hm. simpl in Hm.
  unfold cors_factory in Hm. repeat case_match; simplify_eq; eauto.
Qed.

Lemma buildMiddleware_cors others P ms t t' : Forall (named "cors") ms -> guarded P t ->
  buildMiddleware others ms t = Val t' -> guarded P t'.
Proof.
  intros Hk Ht. revert t'. induction Hk as [|c ms Hc _ IH]; intros t' Hb; [by simplify_eq/=|].
  apply buildMiddleware_cons in Hb as (t1 & Hb & Hm). specialize (IH _ Hb).
  destruct Hm as [(m & Hm & ->)|(e & _ & _ & ->)]; [|done].
  destruct (mw_Create_cors _ _ _ Hc Hm) as [->|[o ->]]; [done | by apply cors_guarded].
Qed.

(** The options with which a JWT middleware runs. *)
Definition jwt_setting (c : middleware_cfg) : outcome jwt_options :=
  jwtOptions (match mw_Options c with
              | None => None
              | Some (AnyJwt o) => Some (Some o)
              | Some _ => Some None
              end).

Lemma jwt_setting_secret c o : jwt_setting c = Val o -> (32 <= String.length (jo_Secret o))%nat.
Proof. unfold jwt_setting, jwtOptions. intros Ho. repeat case_match; simplify_eq; simpl; lia. Qed.

Lemma jwt_outermost others ms pre c post t t' : ms = pre ++ c :: post ->
  Forall (named "cors") pre -> named "jwt" c -> mw_Required c = true ->
  buildMiddleware others ms t = Val t' ->
  exists o, jwt_setting c = Val o /\ guarded (admitted o) t'.
Proof.
  intros -> Hpre Hc Hr. rewrite buildMiddleware_app.
  destruct (buildMiddleware others (c :: post) t) as [t1|] eqn:E; [|done]. intros Hb.
  apply buildMiddleware_cons in E as (t2 & _ & E).
  destruct E as [(m & Hm & ->)|(e & Hm & He & _)].
  - apply mw_Create_required in Hm as (f & Hf & Hm); [|done].
    unfold get_factory in Hf. rewrite Hc in Hf. simpl in Hf. simplify_eq.
    unfold jwt_factory in Hm. fold (jwt_setting c) in Hm. destruct (jwt_setting c) as [o|]; [|done].
    exists o. split; [done|]. simplify_eq. eapply buildMiddleware_cors; [done | apply jwt_guards | done].
  - unfold mw_Create, get_factory in Hm. rewrite Hc, Hr in Hm. simpl in Hm.
    unfold jwt_factory in Hm. fold (jwt_setting c) in Hm.
    destruct (jwt_setting c) as [|x] eqn:Hs; [done|]. injection Hm as ->.
    unfold jwt_setting, jwtOptions in Hs. by repeat case_match; simplify_eq.
Qed.

Lemma Update_built others cfg old new : Update others cfg old = (Val (), new) ->
  Forall2 (fun e b => buildEndpoint others e (gc_Middlewares cfg) = Val b) (gc_Endpoints cfg) new.
Proof.
  unfold Update. destruct (collect _ _) eqn:Hc; intros Hu; simplify_eq. by apply collect_Forall2.
Qed.

Lemma buildEndpoint_parts others e ms b : buildEndpoint others e ms = Val b ->
  exists t st, buildMiddleware others (ep_Middlewares e) client_trip = Val t
    /\ buildMiddleware others ms t = Val (bt_Tripper b)
    /\ prepareRetryStrategy (ep_Stream e) (ep_Timeout e) (ep_Retry e) = Val st
    /\ bt_Strategy b = st /\ bt_Endpoint b = e.
Proof.
  unfold buildEndpoint. intros Hb. destruct (buildMiddleware others (ep_Middlewares e) client_trip) as [t|]; [|done].
  destruct (buildMiddleware others ms t) as [t'|] eqn:Ht; [|done].
  destruct (prepareRetryStrategy _ _ _) as [st|]; [|done]. simplify_eq. by exists t, st.
Qed.

Lemma cors_outermost others c o post t t' : named "cors" c -> mw_Options c = Some (AnyCors o) ->
  buildMiddleware others (c :: post) t = Val t' ->
  exists t1, t' = cors_middleware (merge_cors default_cors o) t1.
Proof.
  intros Hn Ho Hb. apply buildMiddleware_cons in Hb as (t1 & _ & Hm). exists t1.
  assert (mw_Create others c = Val (cors_middleware (merge_cors default_cors o))) as Hc.
  { unfold mw_Create, get_factory. by rewrite Hn, Ho. }
  destruct Hm as [(m & Hm & ->)|(e & Hm & _)]; rewrite Hc in Hm; by simplify_eq.
Qed.

Lemma attempts_positive e st : prepareRetryStrategy (ep_Stream e) (ep_Timeout e) (ep_Retry e) = Val st ->
  1 <= st_attempts st.
Proof.
  unfold prepareRetryStrategy, calcAttempts. intros Hs. repeat case_match; simplify_eq; cbn in *; lia.
Qed.
End endpoints.
