(* ===== verification/GatewayProps.v ===== *)
(** The properties of the gateway, each with an instance on a small configuration. *)
From S2P Require Export GatewayTheory.

(** ** Strings of the configuration *)

Lemma has_suffix_spec s suf : has_suffix s suf = true <-> exists r, s = r +:+ suf.
Proof.
  unfold has_suffix. rewrite has_prefix_spec. split; intros [r Hr].
  - exists (of_bytes (rev (bytes_of r))). apply (f_equal bytes_of) in Hr. rewrite !app_bytes, !bytes_of_of in Hr.
    apply (f_equal (@rev _)) in Hr. rewrite rev_involutive, rev_app_distr, rev_involutive in Hr.
    rewrite <- (of_bytes_of s), Hr, <- (of_bytes_of (of_bytes (rev (bytes_of r)) +:+ suf)), app_bytes, bytes_of_of.
    done.
  - exists (of_bytes (rev (bytes_of r))). subst s.
    rewrite app_bytes, rev_app_distr.
    rewrite <- (of_bytes_of (of_bytes (rev (bytes_of suf)) +:+ _)), app_bytes, !bytes_of_of. done.
Qed.

(** The origins that an entry of the list allows: its own name, or the names that end
    in what follows a star. *)
Definition host_matches (hostname host : string) : Prop :=
  hostname = to_lower host \/ exists r suf, to_lower host = "*" +:+ suf /\ hostname = r +:+ suf.

Lemma to_lower_empty s : to_lower s = "" -> s = "".
Proof.
  unfold to_lower. rewrite <- (of_bytes_of s) at 2. destruct (bytes_of s) as [|a l]; [done | discriminate].
Qed.

Lemma star_byte a : code a =? 42 = true -> a = byte_of 42.
Proof.
  rewrite Z.eqb_eq. unfold code, byte_of. intros Ha. rewrite <- Ha, N2Z.id. symmetry. apply Ascii.ascii_N_embedding.
Qed.

Lemma trim_star suf : trim_prefix ("*" +:+ suf) "*" = suf.
Proof. unfold trim_prefix. rewrite (proj2 (has_prefix_spec _ _)) by eauto. exact (of_bytes_of suf). Qed.

Lemma host_allowed_spec h hosts : Forall (fun host => host <> "") hosts ->
  exists b, host_allowed h hosts = Some b /\ (b = true <-> Exists (host_matches h) hosts).
Proof.
  induction 1 as [|host hosts Hne _ (b & IH & Hb)]; [exists false; split; [done|]; split; [done | by inversion 1]|].
  cbn [host_allowed]. pose proof (List.Exists_cons (host_matches h) host hosts) as Hcons.
  destruct (bytes_of (to_lower host)) as [|a l] eqn:Hl.
  { destruct Hne. apply to_lower_empty. by rewrite <- (of_bytes_of (to_lower host)), Hl. }
  destruct (code a =? 42) eqn:Ha.
  - apply star_byte in Ha as ->.
    assert (to_lower host = "*" +:+ of_bytes l) as Hh by by rewrite <- (of_bytes_of (to_lower host)), Hl.
    rewrite Hh, trim_star. destruct (has_suffix h (of_bytes l)) eqn:Hs.
    + exists true. split; [done|]. split; [|done]. intros _. apply Hcons. left. right.
      apply has_suffix_spec in Hs as [r ->]. by exists r, (of_bytes l).
    + exists b. split; [done|]. rewrite Hb. split; [intros; apply Hcons; by right|].
      intros [Hm|?]%Hcons; [|done]. exfalso.
      assert (has_suffix h (of_bytes l) = true); [|congruence]. apply has_suffix_spec.
      destruct Hm as [->|(r & suf & Hsuf & ->)]; [by exists "*"|]. exists r. f_equal.
      rewrite Hh in Hsuf. apply (f_equal (fun s => trim_prefix s "*")) in Hsuf. by rewrite !trim_star in Hsuf.
  - case_decide as Hd.
    + exists true. split; [done|]. split; [|done]. intros _. apply Hcons. left. by left.
    + exists b. split; [done|]. rewrite Hb. split; [intros; apply Hcons; by right|].
      intros [Hm|?]%Hcons; [|done]. exfalso.
      destruct Hm as [|(r & suf & Hsuf & _)]; [done|].
      rewrite Hsuf, app_bytes in Hl. injection Hl as <- _. done.
Qed.

(** ** Numbers of the configuration *)

Lemma parse_int16_pretty z : 0 <= z < 2 ^ 15 -> parse_int16 (pretty z) = Val z.
Proof.
  intros Hz. unfold parse_int16. rewrite signed_digits_pretty, (proj2 (Z.leb_le _ _)), (proj2 (Z.ltb_lt _ _)) by lia. done.
Qed.

Lemma digits_no_dash d : all_digits d -> byte_of 45 ∉ d.
Proof. intros Hd Hin. eapply Forall_forall in Hd; [|exact Hin]. done. Qed.

(** The text of a range of status codes, and whether a status is in one. *)
Definition range_text (r : Z * Z) : condition_cfg :=
  Condition_ByStatusCode (pretty r.1 +:+ "-" +:+ pretty r.2).
Definition short_range (r : Z * Z) : Prop := 0 <= r.1 < 2 ^ 15 /\ 0 <= r.2 < 2 ^ 15.

Lemma Prepare_range r : short_range r -> Prepare (range_text r) = Val (byStatusCode [r.1; r.2]).
Proof.
  intros [H1 H2]. unfold range_text. cbn [Prepare]. unfold split_by. rewrite !app_bytes.
  destruct (pretty_digits r.1) as (d1 & Hd1 & Ha1 & _); [lia|].
  destruct (pretty_digits r.2) as (d2 & Hd2 & Ha2 & _); [lia|].
  rewrite Hd1, Hd2. change (bytes_of "-" ++ d2) with (byte_of 45 :: d2).
  rewrite split_on_app, split_on_none by by apply digits_no_dash.
  cbn [map length]. rewrite <- Hd1, <- Hd2, !of_bytes_of. rewrite decide_False by lia.
  cbn [collect]. by rewrite !parse_int16_pretty.
Qed.

(** ** Files that take priority *)

Lemma index_from_other i l index k : Forall (fun e => endpoint_key e <> k) l ->
  index_from i l index !! k = index !! k.
Proof.
  intros Hl. revert i index. induction Hl as [|e l He _ IH]; intros i index; [done|]. simpl.
  rewrite IH. by rewrite lookup_insert_ne.
Qed.
Lemma index_from_own l1 e l2 i index : Forall (fun x => endpoint_key x <> endpoint_key e) l2 ->
  index_from i (l1 ++ e :: l2) index !! endpoint_key e = Some (i + length l1)%nat.
Proof.
  intros Hl. revert i index. induction l1 as [|x l1 IH]; intros i index; simpl.
  - rewrite index_from_other by done. rewrite lookup_insert_eq. f_equal. lia.
  - rewrite IH. f_equal. lia.
Qed.

(** An endpoint of a priority file replaces the one with its method and path. *)
Lemma priority_replaces l1 e l2 ms x :
  Forall (fun y => endpoint_key y <> endpoint_key e) l2 -> endpoint_key x = endpoint_key e ->
  mergePriorityConfig [[x]] (GatewayConfig (l1 ++ e :: l2) ms) = GatewayConfig (l1 ++ x :: l2) ms.
Proof.
  intros Hl Hx. unfold mergePriorityConfig, replaceOrPrepend. simpl. rewrite Hx, index_from_own by done. f_equal.
  replace (0 + length l1)%nat with (length l1 + 0)%nat by lia. by rewrite insert_app_r.
Qed.

(** After an endpoint that is new it does not: the positions have moved by one, so that
    the one before is lost and the one it is to replace stays. *)
Theorem priority_shifted new l1 d e l2 ms x :
  Forall (fun y => endpoint_key y <> endpoint_key new) (l1 ++ d :: e :: l2) ->
  Forall (fun y => endpoint_key y <> endpoint_key e) l2 -> endpoint_key x = endpoint_key e ->
  mergePriorityConfig [[new; x]] (GatewayConfig (l1 ++ d :: e :: l2) ms)
  = GatewayConfig (new :: l1 ++ x :: e :: l2) ms.
Proof.
  intros Hnew Hl Hx. unfold mergePriorityConfig, replaceOrPrepend. simpl.
  rewrite (index_from_other _ _ _ _ Hnew), lookup_empty.
  replace (l1 ++ d :: e :: l2) with ((l1 ++ [d]) ++ e :: l2) at 1 by by rewrite <- app_assoc.
  rewrite Hx, index_from_own, length_app by done. simpl. f_equal.
  replace (length l1 + 1)%nat with (S (length l1)) by lia. simpl. f_equal.
  replace (length l1) with (length l1 + 0)%nat by lia. by rewrite insert_app_r.
Qed.

(** ** Properties *)

Section properties.
Context `{Network} `{GrpcStatus} `{JwtVerifier} `{UrlParser}.

(** C37: once a configuration is in force in which a required JWT middleware comes first
    of all, or after CORS middlewares only, no endpoint sends anything to a backend for
    a request whose path is not public and that carries no bearer token signed under
    HS256 with the configured secret of at least 32 bytes.  It holds for whatever
    middlewares follow, whatever the endpoints are, and for streams, which call the
    same round tripper. *)
Theorem jwt_guards_backends others cfg old new pre c post :
  Update others cfg old = (Val (), new) ->
  gc_Middlewares cfg = pre ++ c :: post ->
  Forall (named "cors") pre -> named "jwt" c -> mw_Required c = true ->
  Forall (fun b => exists o, jwt_setting c = Val o /\ (32 <= String.length (jo_Secret o))%nat
    /\ forall req w,
         (gw_sent (bt_Tripper b req w).2 <> gw_sent w -> admitted o req)
         /\ (gw_sent (serve_built b req w).2 <> gw_sent w -> admitted o req)) new.
Proof.
  intros Hu Hms Hpre Hc Hr. apply Update_built in Hu. apply Forall_forall. intros b Hb.
  apply list_elem_of_lookup in Hb as [i Hi]. destruct (Forall2_lookup_r _ _ _ _ _ Hu Hi) as (e & _ & He).
  apply buildEndpoint_parts in He as (t & st & _ & Ht & _).
  destruct (jwt_outermost _ _ _ _ _ _ _ Hms Hpre Hc Hr Ht) as (o & Ho & Hg).
  exists o. split_and!; [done | by eapply jwt_setting_secret |]. intros req w. split; intros Hs.
  - destruct (Hg req) as [?|Hq]; [done|]. by destruct Hs; apply quiet_sent.
  - destruct (serve_built_guarded o b req Hg) as [?|Hq]; [done|]. by destruct Hs; apply quiet_sent.
Qed.


(** Behind a CORS middleware a request that names an origin reaches a backend only
    when the host of the origin is an entry of the configured list or ends in what
    follows the star of one; any other is refused with 403 (unless its time is up).  A
    response that is let through names the origin. *)
Theorem cors_origin_rule others cfg old new c o post :
  Update others cfg old = (Val (), new) ->
  gc_Middlewares cfg = c :: post -> named "cors" c -> mw_Options c = Some (AnyCors o) ->
  Forall (fun host => host <> "") (co_AllowOrigins o) ->
  Forall (fun b => forall req w, let origin := header_get (rq_Header req) "Origin" in origin <> "" ->
    let fits := exists h, url_hostname origin = Some h
                  /\ Exists (host_matches (to_lower h)) (co_AllowOrigins o) in
    (~ fits -> gw_sent (serve_built b req w).2 = gw_sent w
      /\ ((serve_built b req w).1 = Ok (HttpAnswer 403 ∅ "")
          \/ exists e n, ctx_err n = Some e /\ (serve_built b req w).1 = Ok (writeError (ep_GRPC (bt_Endpoint b)) e)))
    /\ (fits -> forall resp, (bt_Tripper b req w).1 = Ok resp ->
          header_get (reply_header resp) "Access-Control-Allow-Origin" = origin)) new.
Proof.
  intros Hu Hms Hn Ho Hne. apply Update_built in Hu. rewrite Hms in Hu. apply Forall_forall. intros b Hb.
  apply list_elem_of_lookup in Hb as [i Hi]. destruct (Forall2_lookup_r _ _ _ _ _ Hu Hi) as (e & _ & He).
  apply buildEndpoint_parts in He as (t & st & _ & Ht & Hst & Hb & _).
  destruct (cors_outermost _ _ _ _ _ _ Hn Ho Ht) as [t1 Hb1].
  pose proof (attempts_positive _ _ Hst) as Hpos. rewrite <- Hb in Hpos. intros req w origin Horigin.
  assert (exists a, isOriginAllowed origin (co_AllowOrigins (merge_cors default_cors o)) = Some a
    /\ (a = true <-> exists h, url_hostname origin = Some h
          /\ Exists (host_matches (to_lower h)) (co_AllowOrigins o))) as (a & Ha & Hfits).
  { unfold isOriginAllowed. destruct (url_hostname origin) as [h|].
    - destruct (host_allowed_spec (to_lower h) _ Hne) as (a & Ha & Hiff). exists a. split; [exact Ha|].
      rewrite Hiff. split; [by exists h|]. by intros (h' & [= <-] & ?).
    - exists false. split; [done|]. split; [done|]. by intros (h & ? & _). }
  intros fits. split.
  - intros Hno. destruct a; [by destruct Hno; apply Hfits|].
    apply (serve_built_static b req (static_response 403 (Some ∅) "")); [lia| |done].
    rewrite Hb1. unfold cors_middleware. rewrite forwarded_header by by vm_compute.
    fold origin. by rewrite decide_False, Ha by done.
  - intros Hf%Hfits resp. subst a. rewrite Hb1. unfold cors_middleware. fold origin. rewrite decide_False, Ha by done.
    case_decide; unfold mbind, G_bind; [intros [= <-] | destruct (t1 req w) as [[r|?|?] w']; try done; intros [= <-]];
      cbn; unfold header_get, header_set; by rewrite lookup_insert_eq.
Qed.
(** The ranges of status codes that are configured for retries are those that are
    meant: a response is asked for again exactly when its status lies in one of them. *)
Theorem retry_ranges rs : Forall short_range rs ->
  exists cs, ParseConditon (map range_text rs) = Val cs
    /\ forall resp, judgeRetryRequired cs resp = true
         <-> exists r, r ∈ rs /\ r.1 <= rs_Status resp <= r.2.
Proof.
  intros Hrs. exists (map (fun r => byStatusCode [r.1; r.2]) rs). split.
  - unfold ParseConditon. induction Hrs as [|r rs Hr _ IH]; [done|]. cbn [map].
    by rewrite collect_cons, Prepare_range, IH.
  - intros resp. unfold judgeRetryRequired, JudgeConditons.
    assert (existsb (fun c => Judge c resp) (map (fun r => byStatusCode [r.1; r.2]) rs) = true
            <-> exists r, r ∈ rs /\ r.1 <= rs_Status resp <= r.2) as He.
    { rewrite existsb_exists. split.
      - intros (c & Hc & Hj). apply in_map_iff in Hc as (r & <- & Hr). exists r.
        cbn [Judge] in Hj. bool_cases. rewrite Z.leb_le in *. by rewrite list_elem_of_In.
      - intros (r & Hr & Hb). exists (byStatusCode [r.1; r.2]). split.
        + apply in_map_iff. exists r. by rewrite <- list_elem_of_In.
        + cbn [Judge]. by rewrite andb_true_iff, !Z.leb_le. }
    destruct rs as [|r rs]; [|exact He]. split; [done|]. intros (r & Hr & _). by apply not_elem_of_nil in Hr.
Qed.
End properties.

(** ** Instances *)

(** Backends that answer 503 with a text, one token that verifies, origins by their scheme. *)
Definition busy : Response :=
  HttpResponse 503 (Some {[ "Content-Type" := ["text/plain"] ]}) "busy" true false.
#[local] Instance busy_backends : Network :=
  {| backend := fun _ _ => Val busy; ctx_err := fun _ => None; retry_allowed := fun _ => true; retry_enabled := true |}.
#[local] Instance one_token : JwtVerifier :=
  {| token_alg := fun _ => Some "HS256"; token_verifies := fun _ _ token => bool_decide (token = "signed") |}.
#[local] Instance https_origins : UrlParser :=
  {| url_hostname := fun s => if has_prefix s "https://" then Some (trim_prefix s "https://") else None |}.
#[local] Instance unknown_code : GrpcStatus := {| ToGRPCCode := fun _ => 2 |}.

Definition sample_others : registry := fun _ => None.
Definition sample_cors : cors_options := Cors true ["*.wust.edu.cn"] [] [] [] None false.
Definition cors_cfg : middleware_cfg := MiddlewareCfg "cors" (Some (AnyCors sample_cors)) false.
Definition sample_secret : string := "0123456789abcdef0123456789abcdef".
Definition jwt_cfg : middleware_cfg := MiddlewareCfg "jwt" (Some (AnyJwt (Jwt_ sample_secret []))) true.
Definition core_endpoint : Endpoint :=
  EndpointCfg "/v1/core/*" "*" "" false false None (Some (RetryCfg 3 None [range_text (500, 599)])) [].
Definition sample_gateway : GatewayCfg := GatewayConfig [core_endpoint] [cors_cfg; jwt_cfg].
Definition get_request (path : string) (h : Header) : Request := HttpRequest "GET" path "" h "" None.
Definition idle : gateway := GatewayState [] [].

(** The answer of the only endpoint of a configuration, and how many requests it sent. *)
Definition answer_of (cfg : GatewayCfg) (req : Request) : option (result Answer * nat) :=
  match Update sample_others cfg [] with
  | (Val (), [b]) => let r := serve_built b req idle in Some (r.1, length (gw_sent r.2))
  | _ => None
  end.

(** The last response that asked for a retry reaches the client without its body. *)
Example last_retry_loses_body :
  answer_of sample_gateway (get_request "/v1/core/bulletin/list" ∅)
  = Some (Ok (HttpAnswer 503 {[ "Content-Type" := ["text/plain"] ]} ""), 3%nat).
Proof. vm_compute. reflexivity. Qed.

Example no_token_no_request :
  answer_of sample_gateway (get_request "/v1/core/spider/retry" ∅)
  = Some (Ok (HttpAnswer 401 ∅ "JWT Token not found"), 0%nat).
Proof. vm_compute. reflexivity. Qed.

(** A JWT middleware that is not required and whose secret is too short is left out. *)
Example short_secret_opens :
  answer_of (GatewayConfig [core_endpoint] [MiddlewareCfg "jwt" (Some (AnyJwt (Jwt_ "short" []))) false])
    (get_request "/v1/core/spider/retry" ∅)
  = Some (Ok (HttpAnswer 503 {[ "Content-Type" := ["text/plain"] ]} ""), 3%nat).
Proof. vm_compute. reflexivity. Qed.

Definition sample_routes : list built := (Update sample_others sample_gateway []).2.
Lemma sample_routes_built : Update sample_others sample_gateway [] = (Val (), sample_routes).
Proof.
  rewrite (surjective_pairing (Update sample_others sample_gateway [])). by f_equal.
Qed.

Lemma jwt_guards_backends_witness : length sample_routes = 1%nat /\
  Forall (fun b => exists o, jwt_setting jwt_cfg = Val o /\ (32 <= String.length (jo_Secret o))%nat
    /\ forall req w,
         (gw_sent (bt_Tripper b req w).2 <> gw_sent w -> admitted o req)
         /\ (gw_sent (serve_built b req w).2 <> gw_sent w -> admitted o req)) sample_routes.
Proof.
  split; [vm_compute; reflexivity|].
  apply (jwt_guards_backends sample_others sample_gateway [] sample_routes [cors_cfg] jwt_cfg []).
  - exact sample_routes_built.
  - reflexivity.
  - repeat constructor.
  - reflexivity.
  - reflexivity.
Defined.


Lemma cors_origin_rule_witness : length sample_routes = 1%nat /\
  Forall (fun b => forall req w, let origin := header_get (rq_Header req) "Origin" in origin <> "" ->
    let fits := exists h, url_hostname origin = Some h
                  /\ Exists (host_matches (to_lower h)) ["*.wust.edu.cn"] in
    (~ fits -> gw_sent (serve_built b req w).2 = gw_sent w
      /\ ((serve_built b req w).1 = Ok (HttpAnswer 403 ∅ "")
          \/ exists e n, ctx_err n = Some e /\ (serve_built b req w).1 = Ok (writeError (ep_GRPC (bt_Endpoint b)) e)))
    /\ (fits -> forall resp, (bt_Tripper b req w).1 = Ok resp ->
          header_get (reply_header resp) "Access-Control-Allow-Origin" = origin)) sample_routes.
Proof.
  split; [vm_compute; reflexivity|].
  apply (cors_origin_rule sample_others sample_gateway [] sample_routes cors_cfg sample_cors [jwt_cfg]).
  - exact sample_routes_built.
  - reflexivity.
  - reflexivity.
  - reflexivity.
  - repeat constructor. discriminate.
Defined.

Lemma retry_ranges_witness : Forall short_range [(502, 504); (429, 429)] /\
  exists cs, ParseConditon (map range_text [(502, 504); (429, 429)]) = Val cs
    /\ forall resp, judgeRetryRequired cs resp = true
         <-> exists r, r ∈ [(502, 504); (429, 429)] /\ r.1 <= rs_Status resp <= r.2.
Proof.
  split; [|apply (retry_ranges [(502, 504); (429, 429)])]; repeat constructor; simpl; lia.
Defined.
