(* ===== verification/UserData.v ===== *)
(** The tables of the user service ([app/user/internal/data/model], migrated in
    [data/data.go]) and what its handlers share: the profile cache key, the
    cache-invalidating update of [app/common/data/dal.go], the operation log. *)
From S2P Require Export Effects Permission Json.

(** ** Rows *)

(** [model.User]; [u_deleted] says that [deleted_at] is set. *)
Record user := User {
  u_ID : Z; u_Username : string; u_Password : string; u_Avatar : string; u_Name : string;
  u_Email : string; u_GroupId : Z; u_RoleID : Z; u_EmailEnabled : bool; u_deleted : bool }.

(** [model.Group]; the name column may be null. *)
Record group := Group {
  g_ID : Z; g_Name : option string; g_Describe : string; g_Avatar : string;
  g_OwnerId : Z; g_deleted : bool }.

Record group_invite := GroupInvite {
  gi_ID : Z; gi_GroupId : Z; gi_InviterId : Z; gi_InviteeId : Z; gi_Status : string;
  gi_CreatedAt : Z; gi_deleted : bool }.

Record dm_thread := DirectMessageThread {
  t_ID : Z; t_PairKey : string; t_UserAId : Z; t_UserBId : Z; t_LastMessageId : Z;
  t_LastMessagePreview : string; t_LastSenderId : Z; t_LastSentAt : Z;
  t_UnreadA : Z; t_UnreadB : Z; t_deleted : bool }.

Record dm_message := DirectMessage {
  m_ID : Z; m_ThreadId : Z; m_SenderId : Z; m_ReceiverId : Z; m_Content : string;
  m_IsRead : bool; m_ReadAt : option Z; m_CreatedAt : Z; m_deleted : bool }.

Record system_config := SystemConfig {
  sc_ID : Z; sc_Key : string; sc_Value : string; sc_deleted : bool }.

Record operation_log := OperationLog {
  ol_ID : Z; ol_OperatorID : Z; ol_OperatorRole : Z; ol_Action : string;
  ol_TargetType : string; ol_TargetID : Z; ol_Detail : string; ol_CreatedAt : Z }.

(** *** Columns that statements write *)

Definition user_set_group (gid : Z) (u : user) : user :=
  User (u_ID u) (u_Username u) (u_Password u) (u_Avatar u) (u_Name u) (u_Email u) gid
       (u_RoleID u) (u_EmailEnabled u) (u_deleted u).
Definition user_set_password (p : string) (u : user) : user :=
  User (u_ID u) (u_Username u) p (u_Avatar u) (u_Name u) (u_Email u) (u_GroupId u)
       (u_RoleID u) (u_EmailEnabled u) (u_deleted u).
Definition user_set_profile (avatar email name : string) (u : user) : user :=
  User (u_ID u) (u_Username u) (u_Password u) avatar name email (u_GroupId u)
       (u_RoleID u) (u_EmailEnabled u) (u_deleted u).
Definition user_set_role (r : Z) (u : user) : user :=
  User (u_ID u) (u_Username u) (u_Password u) (u_Avatar u) (u_Name u) (u_Email u) (u_GroupId u)
       r (u_EmailEnabled u) (u_deleted u).
Definition user_set_email_enabled (b : bool) (u : user) : user :=
  User (u_ID u) (u_Username u) (u_Password u) (u_Avatar u) (u_Name u) (u_Email u) (u_GroupId u)
       (u_RoleID u) b (u_deleted u).
Definition user_kill (u : user) : user :=
  User (u_ID u) (u_Username u) (u_Password u) (u_Avatar u) (u_Name u) (u_Email u) (u_GroupId u)
       (u_RoleID u) (u_EmailEnabled u) true.

Definition group_set_owner (o : Z) (g : group) : group :=
  Group (g_ID g) (g_Name g) (g_Describe g) (g_Avatar g) o (g_deleted g).
Definition group_set_profile (name avatar describe : string) (g : group) : group :=
  Group (g_ID g) (Some name) describe avatar (g_OwnerId g) (g_deleted g).
Definition group_kill (g : group) : group :=
  Group (g_ID g) (g_Name g) (g_Describe g) (g_Avatar g) (g_OwnerId g) true.

Definition invite_set_status (s : string) (i : group_invite) : group_invite :=
  GroupInvite (gi_ID i) (gi_GroupId i) (gi_InviterId i) (gi_InviteeId i) s (gi_CreatedAt i)
              (gi_deleted i).
Definition invite_kill (i : group_invite) : group_invite :=
  GroupInvite (gi_ID i) (gi_GroupId i) (gi_InviterId i) (gi_InviteeId i) (gi_Status i)
              (gi_CreatedAt i) true.

Definition thread_kill (t : dm_thread) : dm_thread :=
  DirectMessageThread (t_ID t) (t_PairKey t) (t_UserAId t) (t_UserBId t) (t_LastMessageId t)
    (t_LastMessagePreview t) (t_LastSenderId t) (t_LastSentAt t) (t_UnreadA t) (t_UnreadB t) true.
Definition message_kill (m : dm_message) : dm_message :=
  DirectMessage (m_ID m) (m_ThreadId m) (m_SenderId m) (m_ReceiverId m) (m_Content m)
    (m_IsRead m) (m_ReadAt m) (m_CreatedAt m) true.
Definition config_set_value (v : string) (c : system_config) : system_config :=
  SystemConfig (sc_ID c) (sc_Key c) v (sc_deleted c).
Definition config_kill (c : system_config) : system_config :=
  SystemConfig (sc_ID c) (sc_Key c) (sc_Value c) true.

#[export] Instance user_entity : Entity user :=
  {| row_id := u_ID; row_live u := negb (u_deleted u) |}.
#[export, refine] Instance user_soft : SoftDelete user := {| row_kill := user_kill |}.
Proof. all: done. Defined.
#[export] Instance group_entity : Entity group :=
  {| row_id := g_ID; row_live g := negb (g_deleted g) |}.
#[export, refine] Instance group_soft : SoftDelete group := {| row_kill := group_kill |}.
Proof. all: done. Defined.
#[export] Instance invite_entity : Entity group_invite :=
  {| row_id := gi_ID; row_live i := negb (gi_deleted i) |}.
#[export, refine] Instance invite_soft : SoftDelete group_invite := {| row_kill := invite_kill |}.
Proof. all: done. Defined.
#[export] Instance thread_entity : Entity dm_thread :=
  {| row_id := t_ID; row_live t := negb (t_deleted t) |}.
#[export, refine] Instance thread_soft : SoftDelete dm_thread := {| row_kill := thread_kill |}.
Proof. all: done. Defined.
#[export] Instance message_entity : Entity dm_message :=
  {| row_id := m_ID; row_live m := negb (m_deleted m) |}.
#[export, refine] Instance message_soft : SoftDelete dm_message := {| row_kill := message_kill |}.
Proof. all: done. Defined.
#[export] Instance config_entity : Entity system_config :=
  {| row_id := sc_ID; row_live c := negb (sc_deleted c) |}.
#[export, refine] Instance config_soft : SoftDelete system_config := {| row_kill := config_kill |}.
Proof. all: done. Defined.

#[export] Instance log_entity : Entity operation_log :=
  {| row_id := ol_ID; row_live _ := true |}.

(** ** The database of the user service *)

(** The operation log has no [deleted_at] and is only ever appended to. *)
Record user_db := UserDb {
  users : table user;
  groups : table group;
  group_invites : table group_invite;
  threads : table dm_thread;
  messages : table dm_message;
  system_configs : table system_config;
  operation_logs : table operation_log
}.

#[export, refine] Instance holds_users : Holds user_db user :=
  {| table_of := users;
     set_table t d := UserDb t (groups d) (group_invites d) (threads d) (messages d)
                             (system_configs d) (operation_logs d) |}.
Proof. done. Defined.
#[export, refine] Instance holds_groups : Holds user_db group :=
  {| table_of := groups;
     set_table t d := UserDb (users d) t (group_invites d) (threads d) (messages d)
                             (system_configs d) (operation_logs d) |}.
Proof. done. Defined.
#[export, refine] Instance holds_invites : Holds user_db group_invite :=
  {| table_of := group_invites;
     set_table t d := UserDb (users d) (groups d) t (threads d) (messages d)
                             (system_configs d) (operation_logs d) |}.
Proof. done. Defined.
#[export, refine] Instance holds_threads : Holds user_db dm_thread :=
  {| table_of := threads;
     set_table t d := UserDb (users d) (groups d) (group_invites d) t (messages d)
                             (system_configs d) (operation_logs d) |}.
Proof. done. Defined.
#[export, refine] Instance holds_messages : Holds user_db dm_message :=
  {| table_of := messages;
     set_table t d := UserDb (users d) (groups d) (group_invites d) (threads d) t
                             (system_configs d) (operation_logs d) |}.
Proof. done. Defined.
#[export, refine] Instance holds_configs : Holds user_db system_config :=
  {| table_of := system_configs;
     set_table t d := UserDb (users d) (groups d) (group_invites d) (threads d) (messages d)
                             t (operation_logs d) |}.
Proof. done. Defined.
#[export, refine] Instance holds_logs : Holds user_db operation_log :=
  {| table_of := operation_logs;
     set_table t d := UserDb (users d) (groups d) (group_invites d) (threads d) (messages d)
                             (system_configs d) t |}.
Proof. done. Defined.

#[export] Instance user_db_transactional : Transactional user_db :=
  {| rollback old new :=
       UserDb (rollback_table (users old) (users new))
              (rollback_table (groups old) (groups new))
              (rollback_table (group_invites old) (group_invites new))
              (rollback_table (threads old) (threads new))
              (rollback_table (messages old) (messages new))
              (rollback_table (system_configs old) (system_configs new))
              (rollback_table (operation_logs old) (operation_logs new)) |}.

(** ** Shared by the handlers *)

Abbreviation UM := (M user_db).

Definition user_profile_key (userId : Z) : string := "user:" +:+ pretty userId +:+ ":profile".

(** [data.UpdateCacheDal]: update, then drop the cached value. *)
Definition UpdateCacheDal {D A} (cacheKey : string) (dbFunc : M D A) : M D A :=
  a ← dbFunc;
  ignore_err (redis_del [cacheKey]);;
  mret a.

(** [data.GetCacheDalWithTTL]: read the cache, fall back to the database and fill
    the cache.  [enc] and [dec] are gob's encoding and decoding of the value. *)
Definition GetCacheDal {D A} (enc : A -> option string) (dec : string -> outcome A)
    (cacheKey : string) (dbFunc : M D A) : M D (A * bool) :=
  r ← attempt (redis_get cacheKey);
  match r with
  | Exn _ =>
      data ← dbFunc;
      match enc data with
      | None => throw (ErrorText "gob编码失败")
      | Some b => ignore_err (redis_set cacheKey b);; mret (data, false)
      end
  | Val v =>
      match dec v with
      | Exn e => throw (ErrorText ("缓存解析出错 " +:+ error_text e))
      | Val data => mret (data, true)
      end
  end.

(** [recordUserOperation]: an audit row; a failure to write it is only logged. *)
Definition recordUserOperation (c : ctx) (action targetType : string) (targetID : Z)
    (detail : list (string * json)) : UM () :=
  let operatorID := match c with Some pd => wrap_int64 (jwt_UserID pd) | None => 0 end in
  let operatorRole := match c with Some pd => jwt_RoleID pd | None => 0 end in
  let detailJSON := match detail with [] => "{}" | _ => json_object detail end in
  t ← now;
  ignore_err (create (fun id =>
    OperationLog id operatorID operatorRole action targetType targetID detailJSON t)).

(** [current := auth.GetCurrentUser(ctx)] and the check that follows it. *)
Definition require_login {D} (c : ctx) : M D JwtPayload :=
  match c with
  | Some pd => if decide (jwt_UserID pd = 0) then throw (Unauthorized "未登录" "请先登录")
               else mret pd
  | None => throw (Unauthorized "未登录" "请先登录")
  end.

(** Everything but the audit log, the part that invariants speak about. *)
Definition same_but_logs (d d' : user_db) : Prop :=
  users d' = users d /\ groups d' = groups d /\ group_invites d' = group_invites d /\
  threads d' = threads d /\ messages d' = messages d /\ system_configs d' = system_configs d.

Lemma recordUserOperation_same c a ty tid det w :
  same_but_logs (w_db w) (w_db (recordUserOperation c a ty tid det w).2).
Proof.
  unfold recordUserOperation, mbind, M_bind, now, ignore_err, create, exec. simpl.
  by case_match.
Qed.

(** [UpdateCacheDal] fails exactly when the update does. *)
Lemma wpd_UpdateCacheDal {D A} key (m : M D A) (Q : outcome A -> D -> Prop) w :
  wpd m Q w -> wpd (UpdateCacheDal key m) Q w.
Proof.
  unfold wpd, UpdateCacheDal, mbind, M_bind, ignore_err, redis_del.
  destruct (m w) as [[a|e] w']; simpl; [|done]. by case_match.
Qed.
