(* ===== verification/GroupDal.v ===== *)
(** Teams: [app/user/internal/data/dal/group.go] and [team_rules.go].  Every
    operation is one transaction; [ensureGroupOwner] repairs teams that have no
    owner recorded before an operation relies on it. *)
From S2P Require Export UserData.

(** ** Groups as the administrators manage them *)

Definition group_Create (name describe : string) : UM Z :=
  g ← wrap "创建组失败" (create (fun id => Group id (Some name) describe "" 0 false));
  mret (g_ID g).

(** The two statements are not in one transaction. *)
Definition group_Delete (id : Z) : UM () :=
  affected ← wrap "删除组失败" (delete_where (R := group) (by_id id));
  refuse_if (bool_decide (affected = 0)) (ErrorText "组不存在");;
  wrap "重置用户组ID失败"
    (update_where (fun u => bool_decide (u_GroupId u = id)) (user_set_group 0));;
  mret ().

Definition not_found_or (text prefix : string) (e : goerr) : goerr :=
  if is_not_found e then ErrorText text else Wrapped prefix e.

Definition group_Get (id : Z) : UM group :=
  map_err (not_found_or "组不存在" "查询组失败") (first_by (by_id id)).

(** [Model(&User{}).Where("group_id = ?").Order("id ASC")] *)
Definition members_of (gid : Z) (d : user_db) : list user :=
  select (fun u => bool_decide (u_GroupId u = gid)) (users d).

Definition ensureGroupOwner (g : group) : UM group :=
  if decide (g_ID g = 0 \/ g_OwnerId g <> 0) then mret g
  else
    ownerIds ← wrap "查询团队队长失败"
      (query (fun d => take 1 (map u_ID (members_of (g_ID g) d))));
    match ownerIds with
    | [] => mret g
    | owner :: _ =>
        wrap "补全团队队长失败" (update_where (by_id (g_ID g)) (group_set_owner owner));;
        mret (group_set_owner owner g)
    end.

Definition GetWithUsers (id : Z) : UM (group * list user) :=
  transaction (
    p ← map_err (not_found_or "组不存在" "查询组失败")
      (g ← first_by (by_id id);
       us ← query (members_of (g_ID g));
       mret (g, us));
    g ← ensureGroupOwner p.1;
    mret (g, p.2)).

Definition group_List (page size : Z) : UM (list (group * list user) * Z) :=
  total ← wrap "查询组总数失败" (count_rows (R := group) (fun _ => true));
  let offset := wrap_int64 ((page - 1) * size) in
  list ← wrap "查询组列表失败"
    (gs ← find_page (R := group) (fun _ => true) (desc_by g_ID) size offset;
     match gs with
     | [] => mret []
     | _ => query (fun d => map (fun g => (g, members_of (g_ID g) d)) gs)
     end);
  mret (list, total).

Definition group_Update (id : Z) (name describe : string) : UM () :=
  affected ← wrap "更新组失败" (update_where (by_id id) (fun g =>
    Group (g_ID g) (if decide (name <> "") then Some name else g_Name g)
          (if decide (describe <> "") then describe else g_Describe g)
          (g_Avatar g) (g_OwnerId g) (g_deleted g)));
  refuse_if (bool_decide (affected = 0)) (ErrorText "组不存在").

Definition clearUserCache (userId : Z) : UM () :=
  if decide (userId = 0) then mret () else ignore_err (redis_del [user_profile_key userId]).

(** ** Teams as their members manage them *)

Definition set_member_group (uid gid : Z) : UM Z :=
  update_where (by_id uid) (user_set_group gid).

Definition CreateTeamForUser (userId : Z) (name avatar describe : string) : UM group :=
  UpdateCacheDal (user_profile_key userId) (transaction (
    user ← or_fail (first_by (by_id userId)) (ErrorText "用户不存在");
    refuse_if (bool_decide (u_GroupId user <> 0))
      (ErrorText "你已经加入了团队，不能重复创建或加入团队");;
    created ← wrap "创建团队失败"
      (create (fun id => Group id (Some name) describe avatar userId false));
    wrap "加入团队失败" (set_member_group userId (g_ID created));;
    mret created)).

Definition UpdateTeam (userId groupId : Z) (name avatar describe : string) : UM () :=
  transaction (
    g ← map_err (not_found_or "团队不存在" "查询团队失败") (first_by (by_id groupId));
    user ← or_fail (first_by (by_id userId)) (ErrorText "用户不存在");
    refuse_if (bool_decide (u_GroupId user <> groupId)) (ErrorText "只能编辑自己的团队");;
    g ← ensureGroupOwner g;
    refuse_if (negb (CanManageTeam userId (g_OwnerId g))) (ErrorText "只有队长可以编辑团队");;
    wrap "更新团队失败"
      (update_where (by_id groupId) (group_set_profile name avatar describe));;
    mret ()).

Definition pending_for (gid invitee : Z) (i : group_invite) : bool :=
  bool_decide (gi_GroupId i = gid) && bool_decide (gi_InviteeId i = invitee)
  && bool_decide (gi_Status i = "pending").

Definition InviteUser (inviterId inviteeId : Z) : UM group_invite :=
  refuse_if (bool_decide (inviterId = inviteeId)) (ErrorText "不能邀请自己");;
  transaction (
    inviter ← or_fail (first_by (by_id inviterId)) (ErrorText "邀请人不存在");
    refuse_if (bool_decide (u_GroupId inviter = 0)) (ErrorText "请先创建或加入团队");;
    g ← or_fail (first_by (by_id (u_GroupId inviter))) (ErrorText "团队不存在");
    g ← ensureGroupOwner g;
    refuse_if (negb (CanManageTeam inviterId (g_OwnerId g))) (ErrorText "只有队长可以邀请成员");;
    invitee ← or_fail (first_by (by_id inviteeId)) (ErrorText "被邀请用户不存在");
    refuse_if (bool_decide (u_GroupId invitee <> 0)) (ErrorText "该用户已经加入了团队");;
    existing ← attempt (first_by (pending_for (u_GroupId inviter) inviteeId));
    match existing with
    | Val i => mret i
    | Exn e =>
        refuse_if (negb (is_not_found e)) (Wrapped "查询邀请失败" e);;
        t ← now;
        wrap "创建邀请失败" (create (fun id =>
          GroupInvite id (u_GroupId inviter) inviterId inviteeId "pending" t false))
    end).

Definition pending_invitee (uid : Z) (i : group_invite) : bool :=
  bool_decide (gi_InviteeId i = uid) && bool_decide (gi_Status i = "pending").

(** The cache is cleared inside the transaction and again after it. *)
Definition RemoveTeamMember (operatorId memberId : Z) : UM () :=
  refuse_if (bool_decide (operatorId = memberId)) (ErrorText "队长不能通过移除成员退出团队");;
  UpdateCacheDal (user_profile_key memberId) (transaction (
    operator ← or_fail (first_by (by_id operatorId)) (ErrorText "操作用户不存在");
    refuse_if (bool_decide (u_GroupId operator = 0)) (ErrorText "请先创建或加入团队");;
    g ← or_fail (first_by (by_id (u_GroupId operator))) (ErrorText "团队不存在");
    g ← ensureGroupOwner g;
    refuse_if (negb (CanManageTeam operatorId (g_OwnerId g))) (ErrorText "只有队长可以编辑成员");;
    member ← or_fail (first_by (by_id memberId)) (ErrorText "成员不存在");
    refuse_if (bool_decide (u_GroupId member <> u_GroupId operator))
      (ErrorText "该用户不在你的团队中");;
    refuse_if (bool_decide (u_ID member = g_OwnerId g)) (ErrorText "不能移除队长");;
    wrap "移除成员失败" (set_member_group memberId 0);;
    clearUserCache memberId;;
    wrap "关闭成员待处理邀请失败"
      (update_where (pending_invitee memberId) (invite_set_status "rejected"));;
    mret ())).

Definition TransferTeamOwner (operatorId newOwnerId : Z) : UM () :=
  refuse_if (bool_decide (operatorId = newOwnerId)) (ErrorText "新队长不能是自己");;
  transaction (
    operator ← or_fail (first_by (by_id operatorId)) (ErrorText "操作用户不存在");
    refuse_if (bool_decide (u_GroupId operator = 0)) (ErrorText "请先创建或加入团队");;
    g ← or_fail (first_by (by_id (u_GroupId operator))) (ErrorText "团队不存在");
    g ← ensureGroupOwner g;
    refuse_if (negb (CanManageTeam operatorId (g_OwnerId g))) (ErrorText "只有队长可以转移队长");;
    newOwner ← or_fail (first_by (by_id newOwnerId)) (ErrorText "新队长不存在");
    refuse_if (bool_decide (u_GroupId newOwner <> u_GroupId operator))
      (ErrorText "只能转移给当前团队成员");;
    wrap "转移队长失败"
      (update_where (by_id (u_GroupId operator)) (group_set_owner newOwnerId));;
    mret ()).

Definition LeaveTeam (userId : Z) : UM () :=
  UpdateCacheDal (user_profile_key userId) (transaction (
    user ← or_fail (first_by (by_id userId)) (ErrorText "用户不存在");
    refuse_if (bool_decide (u_GroupId user = 0)) (ErrorText "你当前没有团队");;
    g ← or_fail (first_by (by_id (u_GroupId user))) (ErrorText "团队不存在");
    g ← ensureGroupOwner g;
    refuse_if (bool_decide (g_OwnerId g = userId))
      (ErrorText "队长不能直接退出团队，请先解散团队");;
    wrap "退出团队失败" (set_member_group userId 0);;
    wrap "关闭待处理邀请失败"
      (update_where (pending_invitee userId) (invite_set_status "rejected"));;
    mret ()));;
  clearUserCache userId.

Definition pending_group (gid : Z) (i : group_invite) : bool :=
  bool_decide (gi_GroupId i = gid) && bool_decide (gi_Status i = "pending").

Definition DisbandTeam (ownerId : Z) : UM () :=
  memberIds ← transaction (
    owner ← or_fail (first_by (by_id ownerId)) (ErrorText "操作用户不存在");
    refuse_if (bool_decide (u_GroupId owner = 0)) (ErrorText "你当前没有团队");;
    g ← or_fail (first_by (by_id (u_GroupId owner))) (ErrorText "团队不存在");
    g ← ensureGroupOwner g;
    refuse_if (negb (CanManageTeam ownerId (g_OwnerId g))) (ErrorText "只有队长可以解散团队");;
    memberIds ← wrap "查询团队成员失败"
      (query (fun d => map u_ID (members_of (u_GroupId owner) d)));
    wrap "重置团队成员失败"
      (update_where (fun u => bool_decide (u_GroupId u = u_GroupId owner)) (user_set_group 0));;
    wrap "关闭团队邀请失败"
      (update_where (pending_group (u_GroupId owner)) (invite_set_status "rejected"));;
    wrap "删除团队失败" (delete_where (R := group) (by_id (u_GroupId owner)));;
    mret memberIds);
  for_each memberIds clearUserCache.

Record TeamInviteView := InviteView {
  iv_ID : Z; iv_GroupId : Z; iv_GroupName : string; iv_GroupAvatar : string;
  iv_InviterId : Z; iv_InviterName : string; iv_Status : string; iv_CreatedAt : Z }.

(** The joins are on the bare tables: a deleted team or inviter still shows. *)
Definition invite_view (d : user_db) (i : group_invite) : TeamInviteView :=
  let g := head (where_ (fun g => bool_decide (g_ID g = gi_GroupId i)) (rows (groups d))) in
  let u := head (where_ (fun u => bool_decide (u_ID u = gi_InviterId i)) (rows (users d))) in
  InviteView (gi_ID i) (gi_GroupId i)
    (match g with Some g => default "" (g_Name g) | None => "" end)
    (match g with Some g => g_Avatar g | None => "" end)
    (gi_InviterId i)
    (match u with Some u => u_Name u | None => "" end)
    (gi_Status i) (time_unix (gi_CreatedAt i)).

Definition ListPendingInvites (inviteeId : Z) : UM (list TeamInviteView) :=
  wrap "查询邀请失败" (query (fun d =>
    map (invite_view d)
        (merge_sort (desc_by gi_ID)
                    (select (pending_invitee inviteeId) (group_invites d))))).

Definition invite_to_answer (inviteId userId : Z) (i : group_invite) : bool :=
  bool_decide (gi_ID i = inviteId) && bool_decide (gi_InviteeId i = userId)
  && bool_decide (gi_Status i = "pending").

Definition RespondInvite (userId inviteId : Z) (accept : bool) : UM () :=
  UpdateCacheDal (user_profile_key userId) (transaction (
    invite ← map_err (not_found_or "邀请不存在或已处理" "查询邀请失败")
      (first_by (invite_to_answer inviteId userId));
    if negb accept then
      update_where (by_id inviteId) (invite_set_status "rejected");; mret ()
    else
      user ← or_fail (first_by (by_id userId)) (ErrorText "用户不存在");
      refuse_if (bool_decide (u_GroupId user <> 0))
        (ErrorText "你已经加入了团队，不能再接受邀请");;
      or_fail (first_by (R := group) (by_id (gi_GroupId invite))) (ErrorText "团队不存在");;
      wrap "加入团队失败" (set_member_group userId (gi_GroupId invite));;
      wrap "更新邀请状态失败"
        (update_where (by_id inviteId) (invite_set_status "accepted"));;
      wrap "关闭其他邀请失败"
        (update_where (fun i => pending_invitee userId i && bool_decide (gi_ID i <> inviteId))
                      (invite_set_status "rejected"));;
      mret ())).
