(* ===== verification/ProfileDal.v ===== *)
(** Profiles: [app/user/internal/data/dal/profile.go], the audit rows of
    [dal/operation_log.go] and the use cases of [internal/biz] that forward to
    them. *)
From S2P Require Export UserData.

(** SQL [LIKE] on the runes of pattern and subject: [%], [_] and the escape [\]. *)
Fixpoint like_runes (p : list Z) : list Z -> bool :=
  match p with
  | [] => fun s => match s with [] => true | _ => false end
  | 37 :: p' => fix any (s : list Z) : bool :=
      like_runes p' s || match s with [] => false | _ :: s' => any s' end
  | 95 :: p' => fun s => match s with [] => false | _ :: s' => like_runes p' s' end
  | 92 :: c :: p' => fun s =>
      match s with [] => false | x :: s' => (x =? c) && like_runes p' s' end
  | c :: p' => fun s =>
      match s with [] => false | x :: s' => (x =? c) && like_runes p' s' end
  end.
Definition sql_like (s pattern : string) : bool := like_runes (runes pattern) (runes s).

Definition profile_missing (e : goerr) : goerr :=
  if is_not_found e then ErrorText "没有找到相关用户信息"
  else ErrorText ("未知错误 " +:+ error_text e).

Definition profile_GetById (userId : Z) : UM user :=
  map_err profile_missing (first_by (by_id userId)).

(** [Select("id, name")]: the other columns are not read. *)
Definition profile_GetByName (name : string) : UM (list (Z * string)) :=
  query (fun d => map (fun u => (u_ID u, u_Name u))
    (limit_rows 5 (select (fun u => sql_like (u_Name u) ("%" +:+ name +:+ "%")) (users d)))).

(** The error of the [UPDATE] is not looked at. *)
Definition profile_Update (id : Z) (avatar email name : string) : UM () :=
  UpdateCacheDal (user_profile_key id)
    (ignore_err (update_where (by_id id) (user_set_profile avatar email name))).

Definition profile_ChangePassword (userId : Z) (newPassword : string) : UM () :=
  UpdateCacheDal (user_profile_key userId) (
    affected ← update_where (by_id userId) (user_set_password newPassword);
    refuse_if (bool_decide (affected = 0)) (ErrorText "用户不存在")).

(** The oldest other member of [gid]. *)
Definition replacement_of (gid userId : Z) (u : user) : bool :=
  bool_decide (u_GroupId u = gid) && bool_decide (u_ID u <> userId).

(** What [DeleteUser] does with the team the user owns. *)
Definition hand_over (userId gid : Z) : UM () :=
  g ← attempt (first_by (R := group) (fun g =>
        bool_decide (g_ID g = gid) && bool_decide (g_OwnerId g = userId)));
  match g with
  | Exn e => if is_not_found e then mret () else throw e
  | Val _ =>
      replacement ← attempt (first_by (replacement_of gid userId));
      newOwnerId ←
        match replacement with
        | Val r => mret (u_ID r)
        | Exn e => if is_not_found e then mret 0 else throw e
        end;
      update_where (by_id gid) (group_set_owner newOwnerId);;
      mret ()
  end.

Definition profile_DeleteUser (userId : Z) : UM () :=
  UpdateCacheDal (user_profile_key userId) (transaction (
    u ← map_err (fun e => if is_not_found e then ErrorText "用户不存在" else e)
      (first_by (by_id userId));
    (if decide (u_GroupId u <> 0) then hand_over userId (u_GroupId u) else mret ());;
    delete_where (fun i => bool_decide (gi_InviterId i = userId)
                           || bool_decide (gi_InviteeId i = userId));;
    affected ← delete_where (R := user) (by_id userId);
    refuse_if (bool_decide (affected = 0)) (ErrorText "用户不存在"))).

(** The columns that [GetList] selects; the others keep Go's zero values. *)
Definition list_columns (u : user) : user :=
  User (u_ID u) (u_Username u) "" (u_Avatar u) (u_Name u) "" (u_GroupId u) (u_RoleID u) false
       false.

(** The error of [Find] is overwritten by that of [Count]; the list is then empty. *)
Definition profile_GetList (pageSize pageNum : Z) : UM (list user * Z) :=
  list ← attempt (find_page (R := user) (fun _ => true) (asc_by u_ID) pageSize
                            (wrap_int64 (wrap_int64 (pageNum - 1) * pageSize)));
  total ← count_rows (R := user) (fun _ => true);
  mret (match list with Val l => map list_columns l | Exn _ => [] end, total).

Definition profile_MoveGroup (userId groupId : Z) : UM () :=
  affected ← wrap "移动用户组失败" (update_where (by_id userId) (user_set_group groupId));
  refuse_if (bool_decide (affected = 0)) (ErrorText "用户不存在").

Definition profile_SetEmailEnabled (userId : Z) (enabled : bool) : UM () :=
  UpdateCacheDal (user_profile_key userId)
    (update_where (by_id userId) (user_set_email_enabled enabled);; mret ()).

(** The value comes with the error: it is true when the lookup fails. *)
Definition profile_GetEmailEnabled (userId : Z) : UM (bool * option goerr) :=
  u ← attempt (first_by (by_id userId));
  mret (match u with Val u => (u_EmailEnabled u, None) | Exn e => (true, Some e) end).

Definition profile_GetUserIdsByGroup (groupId : Z) : UM (list Z) :=
  query (fun d => map u_ID (select (fun u => bool_decide (u_GroupId u = groupId)) (users d))).

Record UserProfile := Profile {
  up_ID : Z; up_Username : string; up_Name : string; up_Avatar : string; up_GroupId : Z }.

Definition profile_GetByIds (userIds : list Z) : UM (list UserProfile) :=
  query (fun d => map (fun u => Profile (u_ID u) (u_Username u) (u_Name u) (u_Avatar u) (u_GroupId u))
    (select (fun u => bool_decide (u_ID u ∈ userIds)) (users d))).

Definition profile_SetRoleId (userId roleId : Z) : UM () :=
  UpdateCacheDal (user_profile_key userId)
    (update_where (by_id userId) (user_set_role roleId);; mret ()).
