(* ===== verification/TeamSpec.v ===== *)
(** What the team operations promise: an abstract machine over who belongs to
    which team and who owns it, with its invariant.  [TeamRefine] proves that the
    transactions of [GroupDal] and [ProfileDal] are steps of this machine. *)
From S2P Require Export Prelude.

(** [v_mem v u] is the team of user [u] ([None]: no such user, [Some 0]: no team);
    [v_own v g] is the owner of team [g] ([Some 0]: none recorded). *)
Record team_view := View { v_mem : Z -> option Z; v_own : Z -> option Z }.

#[export] Instance team_view_equiv : Equiv team_view := fun v w =>
  (forall u, v_mem v u = v_mem w u) /\ (forall g, v_own v g = v_own w g).

#[export] Instance team_view_equivalence : Equivalence (≡@{team_view}).
Proof.
  split.
  - by intros v.
  - intros v w [H1 H2]. split; intros; by rewrite ?H1, ?H2.
  - intros v w x [H1 H2] [H3 H4]. split; intros; by rewrite ?H1, ?H2.
Qed.

(** [UPDATE .. WHERE id = k]: nothing happens when there is no such row. *)
Definition upd (f : Z -> option Z) (k x : Z) : Z -> option Z :=
  fun i => if decide (i = k) then const x <$> f i else f i.

Definition set_mem (u g : Z) (v : team_view) : team_view := View (upd (v_mem v) u g) (v_own v).
Definition set_own (g o : Z) (v : team_view) : team_view := View (v_mem v) (upd (v_own v) g o).
Definition add_team (g o : Z) (v : team_view) : team_view :=
  View (v_mem v) (fun i => if decide (i = g) then Some o else v_own v i).
Definition drop_team (g : Z) (v : team_view) : team_view :=
  View (v_mem v) (fun i => if decide (i = g) then None else v_own v i).
Definition reset_team (g : Z) (v : team_view) : team_view :=
  View (fun u => (fun x => if decide (x = g) then 0 else x) <$> v_mem v u) (v_own v).
Definition add_user (u : Z) (v : team_view) : team_view :=
  View (fun i => if decide (i = u) then Some 0 else v_mem v i) (v_own v).
Definition drop_user (u : Z) (v : team_view) : team_view :=
  View (fun i => if decide (i = u) then None else v_mem v i) (v_own v).

#[export] Instance set_mem_proper u g : Proper ((≡) ==> (≡)) (set_mem u g).
Proof. intros v w [H1 H2]. split; intros i; simpl; unfold upd; by rewrite ?H1, ?H2. Qed.
#[export] Instance set_own_proper g o : Proper ((≡) ==> (≡)) (set_own g o).
Proof. intros v w [H1 H2]. split; intros i; simpl; unfold upd; by rewrite ?H1, ?H2. Qed.
#[export] Instance drop_team_proper g : Proper ((≡) ==> (≡)) (drop_team g).
Proof. intros v w [H1 H2]. split; intros i; simpl; by rewrite ?H1, ?H2. Qed.
#[export] Instance reset_team_proper g : Proper ((≡) ==> (≡)) (reset_team g).
Proof. intros v w [H1 H2]. split; intros i; simpl; by rewrite ?H1, ?H2. Qed.
#[export] Instance drop_user_proper u : Proper ((≡) ==> (≡)) (drop_user u).
Proof. intros v w [H1 H2]. split; intros i; simpl; by rewrite ?H1, ?H2. Qed.

(** Members belong to teams that exist, a recorded owner is a member of the team,
    and 0 names neither a user nor a team. *)
Definition view_ok (v : team_view) : Prop :=
  (forall u g, v_mem v u = Some g -> g <> 0 -> is_Some (v_own v g)) /\
  (forall g o, v_own v g = Some o -> o <> 0 -> v_mem v o = Some g) /\
  v_mem v 0 = None /\ v_own v 0 = None.

#[export] Instance view_ok_proper : Proper ((≡) ==> iff) view_ok.
Proof.
  intros v w [H1 H2]. unfold view_ok. setoid_rewrite H1. by setoid_rewrite H2.
Qed.

(** A team without a recorded owner is given its oldest member, if it has one. *)
Inductive repaired (v : team_view) (g : Z) (v' : team_view) : Prop :=
  | repaired_keep :
      v' ≡ v -> (v_own v g = Some 0 -> forall u, v_mem v u <> Some g) -> repaired v g v'
  | repaired_owner o :
      v_own v g = Some 0 -> v_mem v o = Some g -> (forall u, v_mem v u = Some g -> o <= u) ->
      v' ≡ set_own g o v -> repaired v g v'.

Lemma repaired_mem v g v' u : repaired v g v' -> v_mem v' u = v_mem v u.
Proof. by intros [[H1 _] _|o _ _ _ [H1 _]]. Qed.

Lemma repaired_ok v g v' : view_ok v -> repaired v g v' -> view_ok v'.
Proof.
  intros (H1 & H2 & H3 & H4) [-> _|o Ho Hm _ ->]; [done|].
  unfold view_ok, set_own, upd; simpl. split_and!; [| |done|].
  - intros u g' Hu Hg. destruct (H1 u g' Hu Hg) as [o' Ho']. case_decide; rewrite Ho'; by eexists.
  - intros g' o'. case_decide; subst; [|apply H2]. rewrite Ho. simpl. by intros [= <-].
  - case_decide; subst; by rewrite H4.
Qed.

(** ** The operations *)

Inductive team_op :=
  | OpCreateTeam (userId : Z) (name avatar describe : string)
  | OpUpdateTeam (userId groupId : Z) (name avatar describe : string)
  | OpInvite (inviterId inviteeId : Z)
  | OpRemoveMember (operatorId memberId : Z)
  | OpTransfer (operatorId newOwnerId : Z)
  | OpLeave (userId : Z)
  | OpDisband (ownerId : Z)
  | OpRespond (userId inviteId : Z) (accept : bool)
  | OpDeleteUser (userId : Z).

(** The caller [u] owns team [g], after the repair of [g]. *)
Definition owns_after (v : team_view) (u g : Z) (v1 : team_view) : Prop :=
  v_mem v u = Some g /\ g <> 0 /\ repaired v g v1 /\ v_own v1 g = Some u /\ 0 < u.

Inductive team_step (v : team_view) : team_op -> team_view -> Prop :=
  | step_create u n a d g v' :
      v_mem v u = Some 0 -> g <> 0 -> v_own v g = None ->
      v' ≡ set_mem u g (add_team g u v) -> team_step v (OpCreateTeam u n a d) v'
  | step_update u g n a d v1 v' :
      owns_after v u g v1 -> v' ≡ v1 -> team_step v (OpUpdateTeam u g n a d) v'
  | step_invite u x g v1 v' :
      u <> x -> owns_after v u g v1 -> v_mem v x = Some 0 -> v' ≡ v1 ->
      team_step v (OpInvite u x) v'
  | step_remove u x g v1 v' :
      u <> x -> owns_after v u g v1 -> v_mem v x = Some g -> v' ≡ set_mem x 0 v1 ->
      team_step v (OpRemoveMember u x) v'
  | step_transfer u x g v1 v' :
      u <> x -> owns_after v u g v1 -> v_mem v x = Some g -> v' ≡ set_own g x v1 ->
      team_step v (OpTransfer u x) v'
  | step_leave u g v1 v' :
      v_mem v u = Some g -> g <> 0 -> repaired v g v1 -> v_own v1 g <> Some u ->
      is_Some (v_own v1 g) -> v' ≡ set_mem u 0 v1 -> team_step v (OpLeave u) v'
  | step_disband u g v1 v' :
      owns_after v u g v1 -> v' ≡ drop_team g (reset_team g v1) -> team_step v (OpDisband u) v'
  | step_accept u i g v' :
      v_mem v u = Some 0 -> is_Some (v_own v g) -> v' ≡ set_mem u g v ->
      team_step v (OpRespond u i true) v'
  | step_reject u i v' : v' ≡ v -> team_step v (OpRespond u i false) v'
  | step_delete u g v' :
      v_mem v u = Some g -> (g = 0 \/ v_own v g <> Some u) -> v' ≡ drop_user u v ->
      team_step v (OpDeleteUser u) v'
  | step_delete_owner u g r v' :
      v_mem v u = Some g -> g <> 0 -> v_own v g = Some u -> r <> u -> v_mem v r = Some g ->
      v' ≡ drop_user u (set_own g r v) -> team_step v (OpDeleteUser u) v'
  | step_delete_last u g v' :
      v_mem v u = Some g -> g <> 0 -> v_own v g = Some u ->
      (forall r, r <> u -> v_mem v r <> Some g) ->
      v' ≡ drop_user u (set_own g 0 v) -> team_step v (OpDeleteUser u) v'.

(** ** The invariant *)

Ltac view_cases :=
  unfold set_mem, set_own, add_team, drop_team, reset_team, add_user, drop_user, upd in *;
  simpl in *; repeat case_decide; subst; simpl in *.

Lemma set_mem_zero_ok v u g :
  view_ok v -> v_mem v u = Some g -> v_own v g <> Some u -> view_ok (set_mem u 0 v).
Proof.
  intros (H1 & H2 & H3 & H4) Hu Ho. split_and!; view_cases; try done; try by rewrite H3.
  - intros x y. view_cases; [rewrite Hu; by intros [= <-] | apply H1].
  - intros x o Hx Hne. view_cases; [|by apply H2].
    rewrite (H2 _ _ Hx Hne) in Hu. by simplify_eq.
Qed.

Lemma set_mem_join_ok v u g :
  view_ok v -> v_mem v u = Some 0 -> is_Some (v_own v g) -> view_ok (set_mem u g v).
Proof.
  intros (H1 & H2 & H3 & H4) Hu Hg. split_and!; view_cases; try done; try by rewrite H3.
  - intros x y. view_cases; [rewrite Hu; by intros [= <-] | apply H1].
  - intros x o Hx Hne. view_cases; [|by apply H2].
    rewrite (H2 _ _ Hx Hne) in Hu. simplify_eq.
Qed.

Lemma set_own_ok v g x :
  view_ok v -> x = 0 \/ v_mem v x = Some g -> view_ok (set_own g x v).
Proof.
  intros (H1 & H2 & H3 & H4) Hx. split_and!; view_cases; try done; try by rewrite H4.
  - intros u y Hu Hy. destruct (H1 _ _ Hu Hy) as [o Ho]. view_cases; rewrite Ho; by eexists.
  - intros y o. view_cases; [|apply H2].
    destruct (v_own v g); [|done]. simpl. intros [= <-] ?. by destruct Hx.
Qed.

Lemma drop_user_ok v u :
  view_ok v -> (forall g, g <> 0 -> v_own v g <> Some u) -> view_ok (drop_user u v).
Proof.
  intros (H1 & H2 & H3 & H4) Hu. split_and!; view_cases; try done.
  - intros x y. view_cases; [done | apply H1].
  - intros x o Hx Hne. view_cases; [|by apply H2].
    exfalso. apply (Hu x); [|done]. intros ->. by rewrite H4 in Hx.
Qed.

Lemma create_ok v u g :
  view_ok v -> v_mem v u = Some 0 -> g <> 0 -> v_own v g = None ->
  view_ok (set_mem u g (add_team g u v)).
Proof.
  intros (H1 & H2 & H3 & H4) Hu Hg Ho. split_and!; view_cases; try done; try by rewrite H3.
  - intros x y Hx Hy. view_cases; rewrite ?Hu in Hx; simplify_eq/=; eauto.
  - intros x o Hx Hne. view_cases; rewrite ?Hu; simplify_eq/=; eauto.
    rewrite (H2 _ _ Hx Hne) in Hu. simplify_eq.
Qed.

Lemma disband_ok v g : view_ok v -> g <> 0 -> view_ok (drop_team g (reset_team g v)).
Proof.
  intros (H1 & H2 & H3 & H4) Hg. split_and!; view_cases; try done; try by rewrite H3.
  - intros u y. destruct (v_mem v u) eqn:E; [|done]. view_cases; intros [= <-] ?; try done.
    by apply (H1 u).
  - intros x o. view_cases; [done|]. intros Hx Hne. rewrite (H2 _ _ Hx Hne). simpl.
    by rewrite decide_False.
Qed.

Lemma owner_not_elsewhere v u g g' :
  view_ok v -> v_mem v u = Some g -> v_own v g' = Some u -> g' = g.
Proof.
  intros (H1 & H2 & H3 & H4) Hu Ho. destruct (decide (u = 0)) as [->|Hne]; [congruence|].
  rewrite (H2 _ _ Ho Hne) in Hu. by simplify_eq.
Qed.

(** Every step of the abstract machine preserves the invariant. *)
Lemma team_step_ok v op v' : view_ok v -> team_step v op v' -> view_ok v'.
Proof.
  intros Hok. destruct 1 as
    [ u n a d g v' Hu Hg Ho -> | u g n a d v1 v' (Hu & Hg & Hr & Ho & _) ->
    | u x g v1 v' Hne (Hu & Hg & Hr & Ho & _) Hx -> | u x g v1 v' Hne (Hu & Hg & Hr & Ho & _) Hx ->
    | u x g v1 v' Hne (Hu & Hg & Hr & Ho & _) Hx -> | u g v1 v' Hu Hg Hr Ho Hs ->
    | u g v1 v' (Hu & Hg & Hr & Ho & _) -> | u i g v' Hu Hg -> | u i v' ->
    | u g v' Hu Ho -> | u g r v' Hu Hg Ho Hne Hr -> | u g v' Hu Hg Ho Hr -> ];
    try assumption; try (pose proof (repaired_ok _ _ _ Hok Hr) as Hok1).
  - by apply create_ok.
  - done.
  - done.
  - apply (set_mem_zero_ok _ _ g); [done| |congruence]. by rewrite (repaired_mem _ _ _ _ Hr).
  - apply set_own_ok; [done|]. right. by rewrite (repaired_mem _ _ _ _ Hr).
  - apply (set_mem_zero_ok _ _ g); [done| |done]. by rewrite (repaired_mem _ _ _ _ Hr).
  - by apply disband_ok.
  - by apply set_mem_join_ok.
  - apply drop_user_ok; [done|]. intros g' Hg' Ho'.
    pose proof (owner_not_elsewhere _ _ _ _ Hok Hu Ho') as ->. naive_solver.
  - apply drop_user_ok; [apply set_own_ok; auto|]. intros g' Hg'. view_cases.
    + rewrite Ho. simpl. congruence.
    + intros Ho'. by pose proof (owner_not_elsewhere _ _ _ _ Hok Hu Ho').
  - apply drop_user_ok; [apply set_own_ok; auto|]. intros g' Hg'. view_cases.
    + rewrite Ho. simpl. intros [= <-]. destruct Hok as (_ & _ & H0 & _). congruence.
    + intros Ho'. by pose proof (owner_not_elsewhere _ _ _ _ Hok Hu Ho').
Qed.
