(* ===== verification/TeamRefine.v ===== *)
(** The team transactions implement the abstract machine of [TeamSpec]. *)
From S2P Require Export GroupDal ProfileDal TeamSpec.

(** What a database says about teams. *)
Definition view (d : user_db) : team_view :=
  View (fun u => u_GroupId <$> first_match (by_id u) (users d))
       (fun g => g_OwnerId <$> first_match (by_id g) (groups d)).

(** Two pending invitations never invite the same user to the same team. *)
Definition pending_unique (t : table group_invite) : Prop :=
  forall i j, i ∈ rows t -> j ∈ rows t -> row_live i = true -> row_live j = true ->
    gi_Status i = "pending" -> gi_Status j = "pending" ->
    gi_GroupId i = gi_GroupId j -> gi_InviteeId i = gi_InviteeId j -> i = j.

Definition wf (d : user_db) : Prop :=
  table_wf (users d) /\ table_wf (groups d) /\ table_wf (group_invites d) /\
  pending_unique (group_invites d).

Definition run_op (op : team_op) : UM () :=
  match op with
  | OpCreateTeam u n a d => CreateTeamForUser u n a d;; mret ()
  | OpUpdateTeam u g n a d => UpdateTeam u g n a d
  | OpInvite i j => InviteUser i j;; mret ()
  | OpRemoveMember o m => RemoveTeamMember o m
  | OpTransfer o n => TransferTeamOwner o n
  | OpLeave u => LeaveTeam u
  | OpDisband o => DisbandTeam o
  | OpRespond u i a => RespondInvite u i a
  | OpDeleteUser u => profile_DeleteUser u
  end.

(** ** Statements and the view *)

Section statement_views.
Context {R : Type} `{Entity R}.

Lemma by_id_of (t : table R) i k r :
  first_match (by_id i) t = Some r -> by_id k r = bool_decide (i = k).
Proof. intros Hr%has_row_id. unfold by_id. by rewrite Hr. Qed.

Lemma fmap_update_by_id {B} (f : R -> R) (proj : R -> B) (x : B) k (t : table R) i :
  (forall r, row_id (f r) = row_id r) -> (forall r, row_live (f r) = row_live r) ->
  (forall r, proj (f r) = x) ->
  proj <$> first_match (by_id i) (update_match (by_id k) f t) =
  if decide (i = k) then const x <$> (proj <$> first_match (by_id i) t)
  else proj <$> first_match (by_id i) t.
Proof.
  intros Hid Hl Hx. rewrite first_match_update by done.
  destruct (first_match (by_id i) t) as [r|] eqn:E; simpl; [|by case_decide].
  rewrite (by_id_of _ _ k _ E). case_decide; [by rewrite bool_decide_true, Hx|].
  by rewrite bool_decide_false.
Qed.

Lemma fmap_update_same {B} (p : R -> bool) (f : R -> R) (proj : R -> B) (t : table R) i :
  (forall r, row_id (f r) = row_id r) -> (forall r, row_live (f r) = row_live r) ->
  (forall r, proj (f r) = proj r) ->
  proj <$> first_match (by_id i) (update_match p f t) = proj <$> first_match (by_id i) t.
Proof.
  intros Hid Hl Hx. rewrite first_match_update by done.
  destruct (first_match (by_id i) t) as [r|]; simpl; [|done]. by destruct (p r); rewrite ?Hx.
Qed.
End statement_views.

Lemma view_set_group u g d :
  view (set_table (update_match (by_id u) (user_set_group g) (users d)) d) ≡ set_mem u g (view d).
Proof.
  split; intros i; simpl; [|done]. unfold upd.
  by rewrite (fmap_update_by_id _ _ g).
Qed.

Lemma view_set_owner g o d :
  view (set_table (update_match (by_id g) (group_set_owner o) (groups d)) d) ≡ set_own g o (view d).
Proof.
  split; intros i; simpl; [done|]. unfold upd.
  by rewrite (fmap_update_by_id _ _ o).
Qed.

Lemma view_reset_team g d :
  view (set_table (update_match (fun u => bool_decide (u_GroupId u = g)) (user_set_group 0)
                                (users d)) d) ≡ reset_team g (view d).
Proof.
  split; intros i; simpl; [|done]. rewrite first_match_update by done.
  destruct (first_match (by_id i) (users d)) as [r|]; simpl; [|done].
  case_bool_decide; case_decide; done.
Qed.

Lemma view_add_team mk o d :
  table_wf (groups d) -> (forall i, g_ID (mk i) = i) -> (forall i, g_deleted (mk i) = false) ->
  (forall i, g_OwnerId (mk i) = o) ->
  view (set_table (insert_row mk (groups d)) d) ≡ add_team (next_id (groups d)) o (view d).
Proof.
  intros Hwf Hid Hl Ho. split; intros i; simpl; [done|].
  rewrite first_match_insert by (intros; simpl; rewrite ?Hid, ?Hl; done).
  case_decide; subst; [rewrite first_match_fresh by (done || lia); simpl; by rewrite Ho|].
  by destruct (first_match (by_id i) (groups d)).
Qed.

Lemma view_drop_team g d :
  table_wf (groups d) ->
  view (set_table (delete_match (by_id g) (groups d)) d) ≡ drop_team g (view d).
Proof.
  intros Hwf. split; intros i; simpl; [done|]. rewrite first_match_delete by done.
  destruct (first_match (by_id i) (groups d)) as [r|] eqn:E; simpl; [|by case_decide].
  rewrite (by_id_of _ _ g _ E). case_decide; by case_bool_decide.
Qed.

Lemma view_drop_user u d :
  table_wf (users d) ->
  view (set_table (delete_match (by_id u) (users d)) d) ≡ drop_user u (view d).
Proof.
  intros Hwf. split; intros i; simpl; [|done]. rewrite first_match_delete by done.
  destruct (first_match (by_id i) (users d)) as [r|] eqn:E; simpl; [|by case_decide].
  rewrite (by_id_of _ _ u _ E). case_decide; by case_bool_decide.
Qed.

(** *** Pending invitations *)

Lemma pending_unique_update p f t :
  (forall i, gi_Status (f i) <> "pending") -> pending_unique t ->
  pending_unique (update_match p f t).
Proof.
  intros Hf Hu i j Hi Hj Hli Hlj Hsi Hsj. apply elem_of_update in Hi as (i0 & Hi & ->).
  apply elem_of_update in Hj as (j0 & Hj & ->).
  destruct (visible p i0); [by destruct (Hf i0)|].
  destruct (visible p j0); [by destruct (Hf j0)|]. by apply Hu.
Qed.

Lemma pending_unique_delete p t : pending_unique t -> pending_unique (delete_match p t).
Proof.
  intros Hu i j Hi Hj Hli Hlj. apply elem_of_update in Hi as (i0 & Hi & ->).
  apply elem_of_update in Hj as (j0 & Hj & ->).
  destruct (visible p i0); [done|]. destruct (visible p j0); [done|]. by apply Hu.
Qed.

Lemma pending_unique_insert mk t g x :
  (forall i, gi_GroupId (mk i) = g) -> (forall i, gi_InviteeId (mk i) = x) ->
  first_match (pending_for g x) t = None -> pending_unique t -> pending_unique (insert_row mk t).
Proof.
  intros Hg Hx Hnone Hu.
  assert (forall i, i ∈ rows t -> row_live i = true -> gi_Status i = "pending" ->
            gi_GroupId i = g -> gi_InviteeId i = x -> False) as Hno.
  { intros i Hi Hl Hs <- <-. pose proof (first_match_none _ _ i Hnone Hi Hl) as Hp.
    unfold pending_for in Hp. by rewrite !bool_decide_true in Hp. }
  intros i j [Hi| ->]%elem_of_insert [Hj| ->]%elem_of_insert Hli Hlj Hsi Hsj HG HX; auto.
  - exfalso. apply (Hno i); auto; by rewrite ?HG, ?HX.
  - exfalso. apply (Hno j); auto; by rewrite <- ?HG, <- ?HX.
Qed.

(** ** Well-formedness *)

Create HintDb team.

Lemma wf_rollback d d' : wf d -> wf (rollback d d').
Proof. intros (? & ? & ? & ?). split_and!; by try apply table_wf_rollback. Qed.

Lemma wf_users p f d :
  (forall r, u_ID (f r) = u_ID r) -> wf d -> wf (set_table (update_match p f (users d)) d).
Proof. intros Hf (? & ? & ? & ?). split_and!; try done. by apply table_wf_update. Qed.

Lemma wf_groups p f d :
  (forall r, g_ID (f r) = g_ID r) -> wf d -> wf (set_table (update_match p f (groups d)) d).
Proof. intros Hf (? & ? & ? & ?). split_and!; try done. by apply table_wf_update. Qed.

Lemma wf_insert_group mk d :
  (forall i, g_ID (mk i) = i) -> wf d -> wf (set_table (insert_row mk (groups d)) d).
Proof. intros Hf (? & ? & ? & ?). split_and!; try done. by apply table_wf_insert. Qed.

Lemma wf_close_invites p s d :
  s <> "pending" -> wf d ->
  wf (set_table (update_match p (invite_set_status s) (group_invites d)) d).
Proof.
  intros Hs (? & ? & ? & ?). split_and!; try done; [by apply table_wf_update|].
  by apply pending_unique_update.
Qed.

Lemma wf_insert_invite mk g x d :
  (forall i, gi_ID (mk i) = i) -> (forall i, gi_GroupId (mk i) = g) ->
  (forall i, gi_InviteeId (mk i) = x) ->
  first_match (pending_for g x) (group_invites d) = None -> wf d ->
  wf (set_table (insert_row mk (group_invites d)) d).
Proof.
  intros Hid Hg Hx Hn (? & ? & ? & ?). split_and!; try done; [by apply table_wf_insert|].
  by apply (pending_unique_insert mk _ g x).
Qed.

Lemma wf_delete_invites p d : wf d -> wf (set_table (delete_match p (group_invites d)) d).
Proof.
  intros (? & ? & ? & ?). split_and!; try done; [by apply table_wf_delete|].
  by apply pending_unique_delete.
Qed.

Lemma wf_delete_groups p d : wf d -> wf (set_table (delete_match p (groups d)) d).
Proof. intros (? & ? & ? & ?). split_and!; try done. by apply table_wf_delete. Qed.

Lemma wf_delete_users p d : wf d -> wf (set_table (delete_match p (users d)) d).
Proof. intros (? & ? & ? & ?). split_and!; try done. by apply table_wf_delete. Qed.

Lemma view_rollback d d' : view (rollback d d') ≡ view d.
Proof. done. Qed.

Lemma wf_groups_table d : wf d -> table_wf (groups d).
Proof. by intros (_ & ? & _). Qed.
Lemma wf_users_table d : wf d -> table_wf (users d).
Proof. by intros (? & _). Qed.

#[export] Hint Resolve wf_rollback wf_users wf_groups wf_insert_group wf_close_invites
  wf_delete_invites wf_delete_groups wf_delete_users wf_groups_table wf_users_table : team.
#[export] Hint Extern 4 (_ <> _) => discriminate : team.

(** What the theorems say of one operation: the tables stay well formed; a success
    is a step of the abstract machine, a failure changes no row. *)
Definition refines (op : team_op) (d : user_db) (o : outcome ()) (d' : user_db) : Prop :=
  wf d' /\
  match o with
  | Val _ => team_step (view d) op (view d')
  | Exn _ => view d' ≡ view d
  end.

Lemma refines_rollback op d d' e : wf d -> refines op d (Exn e) (rollback d d').
Proof. intros Hwf. split; [by apply wf_rollback | done]. Qed.

Lemma refines_same op d e : wf d -> refines op d (Exn e) d.
Proof. intros Hwf. split; done. Qed.

#[export] Hint Resolve refines_rollback refines_same : team.

(** ** [ensureGroupOwner] *)

Lemma own_lookup d g r :
  first_match (by_id g) (groups d) = Some r -> v_own (view d) g = Some (g_OwnerId r).
Proof. intros Hr. simpl. by rewrite Hr. Qed.

Lemma mem_lookup d u r :
  first_match (by_id u) (users d) = Some r -> v_mem (view d) u = Some (u_GroupId r).
Proof. intros Hr. simpl. by rewrite Hr. Qed.

(** The first row of a selection on a well-formed table has the least key. *)
Lemma select_head_least {R} `{Entity R} (p : R -> bool) (t : table R) r l r' :
  table_wf t -> select p t = r :: l -> r' ∈ rows t -> row_live r' = true -> p r' = true ->
  row_id r <= row_id r'.
Proof.
  intros (Hs & _) Hsel Hin Hl Hp.
  assert (r' ∈ select p t) as Hr' by by apply elem_of_select.
  assert (StronglySorted Z.lt (map row_id (select p t))) as Hss by by apply sorted_where.
  rewrite Hsel in *. simpl in Hss. inversion Hss as [|? ? _ Hall]; subst.
  apply elem_of_cons in Hr' as [->|Hr']; [lia|].
  rewrite Forall_map, Forall_forall in Hall. specialize (Hall _ Hr'). simpl in Hall. lia.
Qed.

Lemma members_of_mem d g u :
  table_wf (users d) -> u ∈ members_of g d -> v_mem (view d) (u_ID u) = Some g.
Proof.
  intros Hwf (Hin & Hl & Hp)%elem_of_select. bool_cases.
  assert (has_row (users d) (u_ID u) u) as Hr by (apply has_row_iff; done).
  rewrite (mem_lookup d _ u) by done. by f_equal.
Qed.

Lemma mem_members_of d g x :
  v_mem (view d) x = Some g -> exists u, u ∈ members_of g d /\ u_ID u = x.
Proof.
  simpl. destruct (first_match (by_id x) (users d)) as [u|] eqn:E; [|done]. simpl.
  intros [= <-]. exists u. split; [|by apply has_row_id in E].
  apply has_row_in in E as [? ?]. apply elem_of_select. split_and!; try done. by bool_cases.
Qed.

Lemma wpv_ensureGroupOwner g (Q : group -> world user_db -> Prop) w :
  wf (w_db w) -> first_match (by_id (g_ID g)) (groups (w_db w)) = Some g ->
  (forall g' w', wf (w_db w') -> users (w_db w') = users (w_db w) ->
     group_invites (w_db w') = group_invites (w_db w) ->
     repaired (view (w_db w)) (g_ID g) (view (w_db w')) ->
     v_own (view (w_db w')) (g_ID g) = Some (g_OwnerId g') -> Q g' w') ->
  wpv (ensureGroupOwner g) Q w.
Proof.
  intros Hwf Hg HQ. pose proof (own_lookup _ _ _ Hg) as Hown.
  unfold ensureGroupOwner. case_decide as Hd.
  - apply wpv_ret. apply HQ; try done. apply repaired_keep; [done|].
    rewrite Hown. intros [= H0]. destruct Hd as [H1|]; [|done].
    exfalso. destruct Hwf as (_ & (_ & Hall & _) & _). pose proof (has_row_in _ _ _ Hg) as [Hin _].
    rewrite Forall_forall in Hall. specialize (Hall _ Hin). simpl in Hall. lia.
  - do 3 wpv_step. set (ms := members_of (g_ID g) (w_db w)).
    destruct ms as [|u ms'] eqn:Ems; simpl.
    + apply wpv_ret. apply HQ; try done. apply repaired_keep; [done|]. intros _ x Hx.
      apply mem_members_of in Hx as (u & Hu & _). unfold ms in Ems. rewrite Ems in Hu. set_solver.
    + do 4 wpv_step. apply HQ; simpl; try done.
      * by apply (wf_groups _ (group_set_owner (u_ID u))).
      * assert (u ∈ members_of (g_ID g) (w_db w)) as Hu by (unfold ms in Ems; rewrite Ems; set_solver).
        apply repaired_owner with (u_ID u).
        -- rewrite Hown. f_equal. lia.
        -- apply members_of_mem; [by destruct Hwf | done].
        -- intros x Hx. apply mem_members_of in Hx as (y & Hy & <-).
           apply elem_of_select in Hy as (? & ? & ?).
           change (row_id u <= row_id y).
           eapply (select_head_least (fun u => bool_decide (u_GroupId u = g_ID g)));
             [by destruct Hwf | exact Ems | done..].
        -- apply view_set_owner.
      * rewrite (fmap_update_by_id _ _ (u_ID u)) by done. rewrite decide_True by done.
        by rewrite Hg.
Qed.
