(* ===== verification/TeamTheory.v ===== *)
(** Each team operation is a step of the abstract machine, and what follows for
    every reachable state. *)
From S2P Require Export TeamRefine.

Lemma silent_clearUserCache u : silent (clearUserCache u).
Proof.
  unfold clearUserCache. case_decide; [done|]. apply silent_ignore_err, reads_redis_del.
Qed.

#[export] Hint Resolve silent_clearUserCache silent_ret silent_for_each : team.

Lemma wpv_clearUserCache u (Q : () -> world user_db -> Prop) w :
  (forall w', w_db w' = w_db w -> Q () w') -> wpv (clearUserCache u) Q w.
Proof.
  intros HQ a w' Hc. destruct (silent_clearUserCache u w) as [_ Hd]. rewrite Hc in Hd.
  destruct a. by apply HQ.
Qed.

(** The body of the team transaction of an operation, on its successful path. *)
Ltac team_steps :=
  repeat first
    [ apply wpv_ensureGroupOwner; [by eauto with team | |]
    | apply wpv_clearUserCache; intros ? ?
    | wpv_step ].
Ltac team_tx := apply wpd_transaction; [by auto with team|]; team_steps.

Lemma own_id d g r : first_match (by_id g) (groups d) = Some r -> g_ID r = g.
Proof. intros Hr. by apply has_row_id in Hr. Qed.

Ltac team_state := cbn [w_db set_db tick fst snd] in *.

Lemma create_refines u n a de w :
  wf (w_db w) ->
  wpd (run_op (OpCreateTeam u n a de)) (refines (OpCreateTeam u n a de) (w_db w)) w.
Proof.
  intros Hwf. simpl. apply wpd_then_silent; [auto with team|].
  apply wpd_UpdateCacheDal. team_tx. team_state. bool_cases. split.
  - apply wf_users; [done|]. by apply wf_insert_group.
  - pose proof (wf_groups_table _ Hwf) as Hg. apply step_create with (next_id (groups (w_db w))).
    + rewrite (mem_lookup _ _ _ H). f_equal. lia.
    + destruct Hg as (_ & _ & ?). lia.
    + simpl. by rewrite first_match_fresh by (done || lia).
    + etrans; [apply view_set_group|]. apply set_mem_proper. by apply view_add_team.
Qed.

(** What the guards of an owner's operation establish. *)
Lemma owns_after_intro d d' u g r r0 g' :
  wf d -> first_match (by_id g) (groups d) = Some r ->
  first_match (by_id u) (users d) = Some r0 -> u_GroupId r0 = g ->
  repaired (view d) (g_ID r) (view d') ->
  v_own (view d') (g_ID r) = Some (g_OwnerId g') -> CanManageTeam u (g_OwnerId g') = true ->
  owns_after (view d) u g (view d').
Proof.
  intros Hwf Hg Hu Hmem Hr Ho [-> Hpos]%Rules.CanManageTeam_iff.
  rewrite (own_id _ _ _ Hg) in Hr, Ho. split_and!; try done.
  - rewrite (mem_lookup _ _ _ Hu). by f_equal.
  - destruct Hwf as (_ & (_ & Hall & _) & _). rewrite Forall_forall in Hall.
    pose proof (has_row_in _ _ _ Hg) as [Hin _]. specialize (Hall _ Hin).
    rewrite (has_row_id _ _ _ Hg) in Hall. lia.
Qed.

(** A user looked up after the repair is the user before it. *)
Lemma mem_after d d' g x r :
  repaired (view d) g (view d') -> first_match (by_id x) (users d') = Some r ->
  v_mem (view d) x = Some (u_GroupId r).
Proof. intros Hr Hx. rewrite <- (repaired_mem _ _ _ x Hr). by apply mem_lookup. Qed.

Lemma view_set_profile g n a de d :
  view (set_table (update_match (by_id g) (group_set_profile n a de) (groups d)) d) ≡ view d.
Proof. split; intros i; simpl; [done|]. by apply fmap_update_same. Qed.

Lemma update_refines u g n a de w :
  wf (w_db w) ->
  wpd (run_op (OpUpdateTeam u g n a de)) (refines (OpUpdateTeam u g n a de) (w_db w)) w.
Proof.
  intros Hwf. simpl. team_tx; [by rewrite (own_id _ _ _ H)|].
  intros g' w' Hwf' Hu Hi Hr Ho. team_steps. team_state. bool_cases. split.
  - by apply wf_groups.
  - eapply step_update; [|apply view_set_profile].
    eapply owns_after_intro; eauto. lia.
Qed.

Lemma view_set_invites (t : table group_invite) d : view (set_table t d) = view d.
Proof. done. Qed.

Lemma remove_refines o m w :
  wf (w_db w) -> wpd (run_op (OpRemoveMember o m)) (refines (OpRemoveMember o m) (w_db w)) w.
Proof.
  intros Hwf. simpl. apply wpd_refuse_if; [by auto with team|]. intros Hne. bool_cases.
  apply wpd_UpdateCacheDal. team_tx; [by rewrite (own_id _ _ _ H1)|].
  intros g' w' Hwf' Hu Hi Hr Ho. team_steps. team_state. bool_cases.
  pose proof (owns_after_intro _ _ _ _ _ _ _ Hwf H1 H eq_refl Hr Ho H2) as Hown.
  pose proof (mem_after _ _ _ _ _ Hr H3) as Hm. rewrite H6. split.
  - apply wf_close_invites; [done|]. by apply wf_users.
  - eapply step_remove; [done|exact Hown| |].
    + rewrite Hm. f_equal. lia.
    + rewrite view_set_invites. apply view_set_group.
Qed.

Lemma transfer_refines o n w :
  wf (w_db w) -> wpd (run_op (OpTransfer o n)) (refines (OpTransfer o n) (w_db w)) w.
Proof.
  intros Hwf. simpl. apply wpd_refuse_if; [by auto with team|]. intros Hne. bool_cases.
  team_tx; [by rewrite (own_id _ _ _ H1)|].
  intros g' w' Hwf' Hu Hi Hr Ho. team_steps. team_state. bool_cases.
  pose proof (owns_after_intro _ _ _ _ _ _ _ Hwf H1 H eq_refl Hr Ho H2) as Hown.
  pose proof (mem_after _ _ _ _ _ Hr H3) as Hm. split.
  - by apply wf_groups.
  - eapply step_transfer; [done|exact Hown| |apply view_set_owner]. rewrite Hm. f_equal. lia.
Qed.

Lemma leave_refines u w :
  wf (w_db w) -> wpd (run_op (OpLeave u)) (refines (OpLeave u) (w_db w)) w.
Proof.
  intros Hwf. simpl. apply wpd_then_silent; [auto with team|]. apply wpd_UpdateCacheDal.
  team_tx; [by rewrite (own_id _ _ _ H1)|].
  intros g' w' Hwf' Hu Hi Hr Ho. team_steps. team_state. bool_cases.
  rewrite (own_id _ _ _ H1) in Hr, Ho. split.
  - apply wf_close_invites; [done|]. by apply wf_users.
  - apply step_leave with (u_GroupId r) (view (w_db w')); try done.
    + by apply mem_lookup.
    + rewrite Ho. congruence.
    + rewrite view_set_invites. apply view_set_group.
Qed.

Lemma disband_refines o w :
  wf (w_db w) -> wpd (run_op (OpDisband o)) (refines (OpDisband o) (w_db w)) w.
Proof.
  intros Hwf. simpl. apply wpd_then_silent; [auto with team|].
  team_tx; [by rewrite (own_id _ _ _ H1)|].
  intros g' w' Hwf' Hu Hi Hr Ho. team_steps. team_state. bool_cases.
  pose proof (owns_after_intro _ _ _ _ _ _ _ Hwf H1 H eq_refl Hr Ho H2) as Hown.
  assert (wf (set_table (update_match (fun u => bool_decide (u_GroupId u = u_GroupId r))
            (user_set_group 0) (users (w_db w'))) (w_db w'))) as Hwf2 by by apply wf_users.
  split.
  - apply wf_delete_groups. by apply wf_close_invites.
  - eapply step_disband; [exact Hown|].
    etrans; [apply view_drop_team; by destruct Hwf2 as (_ & ? & _)|]. apply drop_team_proper.
    rewrite view_set_invites. apply view_reset_team.
Qed.

Lemma respond_refines u i a w :
  wf (w_db w) -> wpd (run_op (OpRespond u i a)) (refines (OpRespond u i a) (w_db w)) w.
Proof.
  intros Hwf. simpl. apply wpd_UpdateCacheDal. destruct a; simpl; team_tx; team_state; bool_cases.
  - split.
    + apply wf_close_invites; [done|]. apply wf_close_invites; [done|]. by apply wf_users.
    + apply step_accept with (gi_GroupId r).
      * rewrite (mem_lookup _ _ _ H0). f_equal. lia.
      * rewrite (own_lookup _ _ _ H2). by eexists.
      * rewrite !view_set_invites. apply view_set_group.
  - split; [by apply wf_close_invites|]. apply step_reject. by rewrite view_set_invites.
Qed.

Lemma invite_refines i j w :
  wf (w_db w) -> wpd (run_op (OpInvite i j)) (refines (OpInvite i j) (w_db w)) w.
Proof.
  intros Hwf. simpl. apply wpd_then_silent; [auto with team|].
  apply wpd_refuse_if; [by auto with team|]. intros Hne. bool_cases.
  team_tx; [by rewrite (own_id _ _ _ H1)|].
  intros g' w' Hwf' Hu Hi Hr Ho. team_steps; team_state; bool_cases.
  all: pose proof (owns_after_intro _ _ _ _ _ _ _ Hwf H1 H eq_refl Hr Ho H2) as Hown.
  all: pose proof (mem_after _ _ _ _ _ Hr H3) as Hm.
  all: assert (forall d', view d' = view (w_db w') ->
                 team_step (view (w_db w)) (OpInvite i j) (view d')) as Hstep
    by (intros d' ->; eapply step_invite; [done|exact Hown| |done]; rewrite Hm; f_equal; lia).
  - intros r2 Hr2. apply wpv_ret. team_state. split; [done | by apply Hstep].
  - intros Hnone. team_steps. team_state. split; [|by apply Hstep].
    apply (wf_insert_invite _ (u_GroupId r) j); done.
  - intros e. team_steps. done.
Qed.

(** ** Deleting an account *)

Definition owned_by (g u : Z) (r : group) : bool :=
  bool_decide (g_ID r = g) && bool_decide (g_OwnerId r = u).

Lemma owned_by_some d g u r :
  wf d -> first_match (owned_by g u) (groups d) = Some r -> v_own (view d) g = Some u.
Proof.
  intros Hwf (Hin & Hl & Hp)%first_match_some. unfold owned_by in Hp. bool_cases.
  rewrite (own_lookup d g r) by (apply has_row_iff; auto with team). by f_equal.
Qed.

Lemma owned_by_none d g u :
  first_match (owned_by g u) (groups d) = None -> v_own (view d) g <> Some u.
Proof.
  intros Hn. simpl. destruct (first_match (by_id g) (groups d)) as [r|] eqn:E; [|done].
  simpl. intros [= <-]. pose proof (has_row_id _ _ _ E). apply has_row_in in E as [Hin Hl].
  pose proof (first_match_none _ _ _ Hn Hin Hl) as Hp. unfold owned_by in Hp.
  by rewrite !bool_decide_true in Hp.
Qed.

Lemma replacement_some d g u r :
  wf d -> first_match (replacement_of g u) (users d) = Some r ->
  u_ID r <> u /\ v_mem (view d) (u_ID r) = Some g.
Proof.
  intros Hwf (Hin & Hl & Hp)%first_match_some. unfold replacement_of in Hp. bool_cases.
  split; [done|].
  rewrite (mem_lookup d _ r) by (apply has_row_iff; auto with team). by f_equal.
Qed.

Lemma replacement_none d g u x :
  first_match (replacement_of g u) (users d) = None -> x <> u -> v_mem (view d) x <> Some g.
Proof.
  intros Hn Hx Hm. apply mem_members_of in Hm as (r & (Hin & Hl & Hp)%elem_of_select & <-).
  pose proof (first_match_none _ _ _ Hn Hin Hl) as Hq. unfold replacement_of in Hq. bool_cases.
  by rewrite !bool_decide_true in Hq.
Qed.

(** The three ways [hand_over] succeeds. *)
Lemma wpv_hand_over u g (Q : () -> world user_db -> Prop) w :
  wf (w_db w) ->
  (forall w', wf (w_db w') -> users (w_db w') = users (w_db w) ->
     (v_own (view (w_db w)) g <> Some u /\ view (w_db w') ≡ view (w_db w)) \/
     (v_own (view (w_db w)) g = Some u /\ exists r,
        ((r <> u /\ v_mem (view (w_db w)) r = Some g) \/
         (r = 0 /\ forall x, x <> u -> v_mem (view (w_db w)) x <> Some g)) /\
        view (w_db w') ≡ set_own g r (view (w_db w))) -> Q () w') ->
  wpv (hand_over u g) Q w.
Proof.
  intros Hwf HQ. unfold hand_over. repeat wpv_step.
  - intros r Hr%owned_by_some; [|done]. repeat wpv_step.
    + intros x Hx%replacement_some; [|done]. repeat wpv_step. apply HQ; team_state; [by apply wf_groups|done|].
      right. split; [done|]. exists (u_ID x). split; [by left | apply view_set_owner].
    + intros Hx. simpl. repeat wpv_step. apply HQ; team_state; [by apply wf_groups|done|].
      right. split; [done|]. exists 0. split; [|apply view_set_owner].
      right. split; [done|]. intros y. by apply replacement_none.
    + intros e. simpl. repeat wpv_step.
  - intros Hn%owned_by_none. simpl. repeat wpv_step. apply HQ; [done..|]. by left.
  - intros e. simpl. repeat wpv_step.
Qed.

(** The rows that go with an account. *)
Lemma wpv_drop_account u (Q : () -> world user_db -> Prop) w :
  wf (w_db w) ->
  (forall w', wf (w_db w') -> view (w_db w') ≡ drop_user u (view (w_db w)) -> Q () w') ->
  wpv (delete_where (fun i => bool_decide (gi_InviterId i = u)
                              || bool_decide (gi_InviteeId i = u));;
       affected ← delete_where (R := user) (by_id u);
       refuse_if (bool_decide (affected = 0)) (ErrorText "用户不存在")) Q w.
Proof.
  intros Hwf HQ. repeat wpv_step. apply HQ; team_state.
  - apply (wf_delete_users (by_id u)). by apply wf_delete_invites.
  - etrans; [|by apply view_drop_user, wf_users_table]. done.
Qed.

Lemma delete_refines u w :
  wf (w_db w) -> wpd (run_op (OpDeleteUser u)) (refines (OpDeleteUser u) (w_db w)) w.
Proof.
  intros Hwf. simpl. apply wpd_UpdateCacheDal. team_tx. team_state.
  pose proof (mem_lookup _ _ _ H) as Hu. case_decide as Hg.
  - apply wpv_hand_over; [done|]. intros w' Hwf' _ Hcase.
    apply wpv_drop_account; [done|]. intros w2 Hwf2 Hv. split; [done|].
    destruct Hcase as [[Ho Hv']|[Ho (r' & [[Hne Hm]|[-> Hm]] & Hv')]]; rewrite Hv' in Hv.
    + eapply step_delete; [exact Hu| by right |done].
    + eapply step_delete_owner; [exact Hu|done..].
    + eapply step_delete_last; [exact Hu|done..].
  - apply wpv_ret, wpv_drop_account; [done|]. intros w2 Hwf2 Hv. split; [done|].
    eapply step_delete; [exact Hu | left; lia | done].
Qed.

(** Every operation implements its abstract counterpart. *)
Lemma op_refines op w : wf (w_db w) -> wpd (run_op op) (refines op (w_db w)) w.
Proof.
  destruct op; [apply create_refines | apply update_refines | apply invite_refines
    | apply remove_refines | apply transfer_refines | apply leave_refines
    | apply disband_refines | apply respond_refines | apply delete_refines].
Qed.

(** ** Who may change a membership *)

(** On whose behalf an operation runs. *)
Definition actor (op : team_op) : Z :=
  match op with
  | OpCreateTeam u _ _ _ | OpUpdateTeam u _ _ _ _ | OpInvite u _ | OpRemoveMember u _
  | OpTransfer u _ | OpLeave u | OpDisband u | OpRespond u _ _ | OpDeleteUser u => u
  end.

(** The owner of [g], recorded or, when none is, its oldest member. *)
Definition rightful_owner (v : team_view) (g u : Z) : Prop :=
  v_own v g = Some u \/
  (v_own v g = Some 0 /\ v_mem v u = Some g /\ forall y, v_mem v y = Some g -> u <= y).

Lemma owns_after_rightful v u g v1 : owns_after v u g v1 -> rightful_owner v g u.
Proof.
  intros (Hu & Hg & Hr & Ho & Hpos). destruct Hr as [[_ Heq] _|o Hown Hm Hmin [_ Heq]];
    rewrite Heq in Ho; [by left|].
  right. simpl in Ho. unfold upd in Ho. rewrite decide_True, Hown in Ho by done.
  simpl in Ho. by simplify_eq.
Qed.

(** The membership of [x] in [g] ends by the act of [x] or of the owner. *)
Lemma team_step_leaves v op v' x g :
  team_step v op v' -> v_mem v x = Some g -> g <> 0 -> v_mem v' x <> Some g ->
  actor op = x \/ rightful_owner v g (actor op).
Proof.
  intros Hs Hx Hg Hx'. destruct Hs as
    [ u n a d g' v' Hu Hg' Ho Hv | u g' n a d v1 v' Hown Hv
    | u y g' v1 v' Hne Hown Hy Hv | u y g' v1 v' Hne Hown Hy Hv
    | u y g' v1 v' Hne Hown Hy Hv | u g' v1 v' Hu Hg' Hr Ho Hso Hv
    | u g' v1 v' Hown Hv | u i g' v' Hu Hg' Hv | u i v' Hv
    | u g' v' Hu Ho Hv | u g' r v' Hu Hg' Ho Hne Hr Hv | u g' v' Hu Hg' Ho Hr Hv ]; simpl;
    destruct Hv as [Hm _]; rewrite Hm in Hx'; clear Hm;
    try pose proof (owns_after_rightful _ _ _ _ Hown) as Hright;
    try (destruct Hown as (_ & _ & Hr & _ & _));
    try pose proof (repaired_mem _ _ _ x Hr) as Hrx;
    unfold set_mem, set_own, drop_user, drop_team, reset_team, add_team, upd in Hx'; simpl in *.
  all: try (rewrite Hrx in Hx'); try (rewrite Hx in Hx'); simpl in Hx';
    repeat case_decide; subst; simplify_eq/=; auto; try congruence.
Qed.

(** Nobody is put into a team but by an act of their own. *)
Lemma team_step_joins v op v' x g :
  team_step v op v' -> v_mem v' x = Some g -> g <> 0 -> v_mem v x <> Some g -> actor op = x.
Proof.
  intros Hs Hx' Hg Hx. destruct Hs as
    [ u n a d g' v' Hu Hg' Ho Hv | u g' n a d v1 v' Hown Hv
    | u y g' v1 v' Hne Hown Hy Hv | u y g' v1 v' Hne Hown Hy Hv
    | u y g' v1 v' Hne Hown Hy Hv | u g' v1 v' Hu Hg' Hr Ho Hso Hv
    | u g' v1 v' Hown Hv | u i g' v' Hu Hg' Hv | u i v' Hv
    | u g' v' Hu Ho Hv | u g' r v' Hu Hg' Ho Hne Hr Hv | u g' v' Hu Hg' Ho Hr Hv ]; simpl;
    destruct Hv as [Hm _]; rewrite Hm in Hx'; clear Hm;
    try (destruct Hown as (_ & _ & Hr & _ & _));
    try pose proof (repaired_mem _ _ _ x Hr) as Hrx;
    unfold set_mem, set_own, drop_user, drop_team, reset_team, add_team, upd in Hx'; simpl in *.
  all: try (rewrite Hrx in Hx'); try clear Hrx; repeat case_decide; subst; auto; try congruence.
  all: match type of Hx' with context [v_mem ?w ?y] => destruct (v_mem w y) end;
    simplify_eq/=; repeat case_decide; simplify_eq/=; congruence.
Qed.

(** The same of the database, whatever fails. *)
Lemma op_leaves op w x g :
  wf (w_db w) -> v_mem (view (w_db w)) x = Some g -> g <> 0 ->
  v_mem (view (w_db (run_op op w).2)) x <> Some g ->
  actor op = x \/ rightful_owner (view (w_db w)) g (actor op).
Proof.
  intros Hwf Hx Hg Hx'. destruct (op_refines op w Hwf) as [_ Hr]. destruct ((run_op op w).1).
  - by eapply team_step_leaves.
  - destruct Hr as [Hm _]. rewrite Hm in Hx'. congruence.
Qed.

Lemma op_joins op w x g :
  wf (w_db w) -> v_mem (view (w_db (run_op op w).2)) x = Some g -> g <> 0 ->
  v_mem (view (w_db w)) x <> Some g -> actor op = x.
Proof.
  intros Hwf Hx' Hg Hx. destruct (op_refines op w Hwf) as [_ Hr]. destruct ((run_op op w).1).
  - by eapply team_step_joins.
  - destruct Hr as [Hm _]. rewrite Hm in Hx'. congruence.
Qed.
