(* ===== verification/TeamService.v ===== *)
(** The team and group handlers of the user service: [service/team.go],
    [service/group.go] and the use cases of [biz/group.go] they go through. *)
From S2P Require Export GroupDal.

(** ** Replies *)

Record UserItem := UserReply {
  ui_UserId : Z; ui_Username : string; ui_Name : string; ui_GroupId : Z; ui_Avatar : string;
  ui_LastSubmit : string }.
Record TeamSuccessReply := TeamSuccess { ts_Success : bool; ts_Message : string }.
Record TeamCreateReply := TeamCreated {
  tc_Success : bool; tc_Message : string; tc_Id : Z; tc_Name : string; tc_Avatar : string;
  tc_Describe : string; tc_OwnerId : Z }.
Record TeamDetailReply := TeamDetails {
  td_Success : bool; td_Id : Z; td_Name : string; td_Avatar : string; td_Describe : string;
  td_OwnerId : Z; td_Users : list UserItem }.
Record TeamInviteReply := TeamInvited { tir_Success : bool; tir_Message : string; tir_InviteId : Z }.
Record TeamInviteListReply := TeamInvites { til_Success : bool; til_List : list TeamInviteView }.
Record GroupReply := GetReply {
  gr_Id : Z; gr_Name : string; gr_Describe : string; gr_Users : list UserItem }.

(** [*m.Name], empty when the column is null. *)
Definition groupName (g : group) : string := default "" (g_Name g).

Definition team_user (u : user) : UserItem :=
  UserReply (u_ID u) (u_Username u) (u_Name u) (u_GroupId u) (u_Avatar u) "".

(** How the handlers answer with an error of the layer below. *)
Definition bad_request (reason : string) (e : goerr) : goerr := BadRequest reason (error_text e).
Definition internal (reason : string) (e : goerr) : goerr := InternalServer reason (error_text e).

(** ** [service/team.go] *)

Definition caller_id (pd : JwtPayload) : Z := wrap_int64 (jwt_UserID pd).

Definition svc_TeamDetail (c : ctx) (groupId : Z) : UM TeamDetailReply :=
  if decide (groupId = 0)
  then mret (TeamDetails true 0 "无团队" "" "当前用户暂未加入团队" 0 [])
  else
    p ← map_err (internal "查询失败") (GetWithUsers groupId);
    mret (TeamDetails true (g_ID p.1) (groupName p.1) (g_Avatar p.1) (g_Describe p.1)
                      (g_OwnerId p.1) (map team_user p.2)).

Definition name_detail (name avatar : string) : list (string * json) :=
  [("name", JString name); ("hasAvatar", JBool (bool_decide (avatar <> "")))].

Definition svc_CreateTeam (c : ctx) (name avatar describe : string) : UM TeamCreateReply :=
  current ← require_login c;
  refuse_if (bool_decide (name = "")) (BadRequest "参数错误" "团队名称不能为空");;
  created ← map_err (bad_request "创建失败")
    (CreateTeamForUser (caller_id current) name avatar describe);
  recordUserOperation c "team.create" "team" (g_ID created) (name_detail name avatar);;
  mret (TeamCreated true "团队创建成功" (g_ID created) (groupName created) (g_Avatar created)
                    (g_Describe created) (g_OwnerId created)).

Definition svc_UpdateTeam (c : ctx) (id : Z) (name avatar describe : string)
    : UM TeamSuccessReply :=
  current ← require_login c;
  refuse_if (bool_decide (id = 0)) (BadRequest "参数错误" "团队ID不能为空");;
  refuse_if (bool_decide (name = "")) (BadRequest "参数错误" "团队名称不能为空");;
  map_err (bad_request "更新失败") (UpdateTeam (caller_id current) id name avatar describe);;
  recordUserOperation c "team.update" "team" id (name_detail name avatar);;
  mret (TeamSuccess true "团队资料已更新").

Definition svc_InviteTeamMember (c : ctx) (inviteeId : Z) : UM TeamInviteReply :=
  current ← require_login c;
  refuse_if (bool_decide (inviteeId = 0)) (BadRequest "参数错误" "请选择邀请用户");;
  invite ← map_err (bad_request "邀请失败") (InviteUser (caller_id current) inviteeId);
  recordUserOperation c "team.invite" "user" inviteeId [("inviteId", JInt (gi_ID invite))];;
  mret (TeamInvited true "邀请已发送" (gi_ID invite)).

Definition svc_RemoveTeamMember (c : ctx) (userId : Z) : UM TeamSuccessReply :=
  current ← require_login c;
  refuse_if (bool_decide (userId = 0)) (BadRequest "参数错误" "成员ID不能为空");;
  map_err (bad_request "移除失败") (RemoveTeamMember (caller_id current) userId);;
  recordUserOperation c "team.remove_member" "user" userId [];;
  mret (TeamSuccess true "成员已移出团队").

Definition svc_TransferTeamOwner (c : ctx) (userId : Z) : UM TeamSuccessReply :=
  current ← require_login c;
  refuse_if (bool_decide (userId = 0)) (BadRequest "参数错误" "新队长ID不能为空");;
  map_err (bad_request "转移失败") (TransferTeamOwner (caller_id current) userId);;
  recordUserOperation c "team.transfer_owner" "user" userId [];;
  mret (TeamSuccess true "队长已转移").

Definition svc_LeaveTeam (c : ctx) : UM TeamSuccessReply :=
  current ← require_login c;
  map_err (bad_request "退出失败") (LeaveTeam (caller_id current));;
  recordUserOperation c "team.leave" "user" (caller_id current) [];;
  mret (TeamSuccess true "已退出团队").

Definition svc_DisbandTeam (c : ctx) : UM TeamSuccessReply :=
  current ← require_login c;
  map_err (bad_request "解散失败") (DisbandTeam (caller_id current));;
  recordUserOperation c "team.disband" "user" (caller_id current) [];;
  mret (TeamSuccess true "团队已解散").

Definition svc_ListTeamInvites (c : ctx) : UM TeamInviteListReply :=
  current ← require_login c;
  rows ← map_err (internal "查询失败") (ListPendingInvites (caller_id current));
  mret (TeamInvites true rows).

(** [inviteId] is a [uint]. *)
Definition svc_RespondTeamInvite (c : ctx) (inviteId : Z) (accept : bool)
    : UM TeamSuccessReply :=
  current ← require_login c;
  refuse_if (bool_decide (inviteId = 0)) (BadRequest "参数错误" "邀请ID不能为空");;
  map_err (bad_request "处理失败") (RespondInvite (caller_id current) inviteId accept);;
  mret (TeamSuccess true (if accept then "已加入团队" else "已拒绝邀请")).

(** ** [service/group.go] *)

(** What the user service asks of the core-data service over gRPC: a connection,
    the last submission times of some users as a gob-encoded map, and the
    platform accounts of a user. *)
Class CoreDataRPC := {
  coreDataRPC : outcome ();
  LastSubmitTime : list Z -> outcome string;
  decode_times : string -> outcome (gmap Z Z);
  GetSpiderRPC : Z -> outcome (list (string * string))
}.

Definition group_forbidden : goerr := Forbidden "权限不足" "需要教练或管理员权限操作".

Definition svc_GroupCreate (c : ctx) (name describe : string) : UM (Z * string) :=
  refuse_if (negb (VerifyMinRole c RoleAdmin)) group_forbidden;;
  refuse_if (bool_decide (name = "")) (BadRequest "参数错误" "组名称不能为空");;
  id ← map_err (internal "创建失败") (group_Create name describe);
  recordUserOperation c "group.create" "group" id [("name", JString name)];;
  mret (id, "创建成功").

Definition svc_GroupDelete (c : ctx) (id : Z) : UM bool :=
  refuse_if (negb (VerifyMinRole c RoleAdmin)) group_forbidden;;
  refuse_if (bool_decide (id = 0)) (BadRequest "参数错误" "组ID不能为空");;
  map_err (internal "删除失败") (group_Delete id);;
  recordUserOperation c "group.delete" "group" id [];;
  mret true.

(** [strconv.Itoa] of the time, empty when the map has none. *)
Definition last_submit (m : gmap Z Z) (id : Z) : string :=
  match m !! id with Some t => pretty t | None => "" end.

Section with_core_data.
Context `{CoreDataRPC}.

(** Any failure on the way to the times leaves the member list empty. *)
Definition members_with_times (us : list user) : list UserItem :=
  match us with
  | [] => []
  | _ =>
      match coreDataRPC with
      | Exn _ => []
      | Val _ =>
          match LastSubmitTime (map u_ID us) with
          | Exn _ => []
          | Val b =>
              match decode_times b with
              | Exn _ => []
              | Val m =>
                  map (fun u => UserReply (u_ID u) (u_Username u) (u_Name u) (u_GroupId u)
                                          (u_Avatar u) (last_submit m (u_ID u))) us
              end
          end
      end
  end.

Definition svc_GroupGet (c : ctx) (id : Z) : UM GroupReply :=
  p ← map_err (internal "查询失败") (GetWithUsers id);
  mret (GetReply (g_ID p.1) (groupName p.1) (g_Describe p.1) (members_with_times p.2)).
End with_core_data.

Definition groupUsers (us : list user) : list UserItem := map team_user us.

Definition svc_GroupList (c : ctx) (page size : Z) : UM (list GroupReply * Z) :=
  let page := if decide (page < 1) then 1 else page in
  let size := if decide (size < 1) then 10 else size in
  r ← map_err (internal "查询失败") (group_List page size);
  mret (map (fun p => GetReply (g_ID p.1) (groupName p.1) (g_Describe p.1) (groupUsers p.2)) r.1,
        r.2).

Definition svc_GroupUpdate (c : ctx) (id : Z) (name describe : string) : UM bool :=
  refuse_if (negb (VerifyMinRole c RoleAdmin)) group_forbidden;;
  refuse_if (bool_decide (id = 0)) (BadRequest "参数错误" "组ID不能为空");;
  refuse_if (bool_decide (name = "") && bool_decide (describe = ""))
    (BadRequest "参数错误" "至少更新一个字段");;
  map_err (internal "更新失败") (group_Update id name describe);;
  recordUserOperation c "group.update" "group" id [("name", JString name)];;
  mret true.
