(* ===== verification/ProfileService.v ===== *)
(** Profiles and roles: [service/profile.go], [service/role.go] and the use cases
    of [biz/profile.go]. *)
From S2P Require Export ProfileDal TeamService.

Definition UpdateForbidden : goerr := Forbidden "禁止访问" "您无权更新该用户资料".
Definition InternalError : goerr := InternalServer "内部错误" "内部错误".

Record CodeReply := CodeMessage { cr_Code : Z; cr_Message : string }.
Record FlagReply := FlagMessage { fr_Success : bool; fr_Message : string }.

Record ListedProfile := Listed {
  lp_UserId : Z; lp_Username : string; lp_Name : string; lp_Avatar : string; lp_GroupId : Z;
  lp_RoleId : Z; lp_LastSubmit : string }.

Record ProfileReply := FullProfile {
  pr_UserId : Z; pr_Username : string; pr_Name : string; pr_Email : string; pr_Avatar : string;
  pr_GroupId : Z; pr_Spiders : list (string * string); pr_EmailEnabled : bool; pr_RoleId : Z }.

(** ** [service/profile.go] *)

Definition svc_GetByName (c : ctx) (name : string) : UM (list (Z * string)) :=
  or_fail (profile_GetByName name) (InternalServer "内部错误" "查询时出错").

Definition svc_MoveGroup (c : ctx) (userId groupId : Z) : UM CodeReply :=
  refuse_if (negb (VerifyMinRole c RoleAdmin)) group_forbidden;;
  map_err (internal "内部错误") (profile_MoveGroup userId groupId);;
  mret (CodeMessage 0 "移动成功").

(** [uint(req.UserId)] of an [int64] or [uint64] field. *)
Definition svc_Update (c : ctx) (userId : Z) (avatar name email : string) : UM CodeReply :=
  refuse_if (negb (VerifySelfOrAbove c (wrap_uint64 userId))) UpdateForbidden;;
  map_err (internal "内部错误") (profile_Update (wrap_uint64 userId) avatar email name);;
  mret (CodeMessage 0 "更新成功").

Definition svc_GetUserIdsByGroup (groupId : Z) : UM (list Z) :=
  map_err (internal "内部错误") (profile_GetUserIdsByGroup groupId).

Definition svc_GetByIds (userIds : list Z) : UM (list UserProfile) :=
  map_err (internal "内部错误") (profile_GetByIds userIds).

Definition svc_SetEmailEnabled (c : ctx) (userId : Z) (enabled : bool) : UM CodeReply :=
  refuse_if (negb (VerifySelfOrAbove c (wrap_uint64 userId))) UpdateForbidden;;
  map_err (internal "内部错误") (profile_SetEmailEnabled userId enabled);;
  mret (CodeMessage 0 "设置成功").

Definition svc_DeleteUser (c : ctx) (userId : Z) : UM FlagReply :=
  current ← require_login c;
  refuse_if (bool_decide (userId = 0)) (BadRequest "参数错误" "用户ID不能为空");;
  target ← or_fail (profile_GetById userId) (BadRequest "用户不存在" "用户不存在");
  refuse_if (negb (canDeleteUser (caller_id current) (jwt_RoleID current) userId (u_RoleID target)))
    (Forbidden "权限不足" "仅管理员可删除非管理员用户，且不能删除当前登录账号");;
  map_err (internal "内部错误") (profile_DeleteUser userId);;
  recordUserOperation c "profile.delete_user" "user" userId
    [("username", JString (u_Username target)); ("roleId", JInt (u_RoleID target))];;
  mret (FlagMessage true "用户已删除").

Section passwords.
Context `{Bcrypt}.

Definition svc_ChangePassword (c : ctx) (userId : Z) (oldPassword newPassword : string)
    : UM FlagReply :=
  current ← require_login c;
  refuse_if (bool_decide (userId = 0) || bool_decide (newPassword = ""))
    (BadRequest "参数错误" "用户ID和新密码不能为空");;
  let isAdmin := bool_decide (jwt_RoleID current = RoleAdmin) in
  let isSelf := bool_decide (caller_id current = userId) in
  refuse_if (negb isAdmin && negb isSelf) (Forbidden "权限不足" "只能修改自己的密码");;
  target ← or_fail (profile_GetById userId) (BadRequest "用户不存在" "用户不存在");
  refuse_if (bool_decide (u_RoleID target = RoleAdmin) && negb isSelf)
    (Forbidden "权限不足" "不能重置其他管理员密码");;
  refuse_if (isSelf && bool_decide (oldPassword = "")) (BadRequest "参数错误" "请输入旧密码");;
  if isSelf && negb (verifyPassword (u_Password target) oldPassword).1
  then mret (FlagMessage false "旧密码错误")
  else
    match hashPassword newPassword with
    | None => throw (InternalServer "内部错误" "密码加密失败")
    | Some newPasswordHash =>
        map_err (internal "内部错误") (profile_ChangePassword userId newPasswordHash);;
        recordUserOperation c "profile.change_password" "user" userId
          [("isSelf", JBool isSelf); ("isAdmin", JBool isAdmin)];;
        mret (FlagMessage true "密码已更新")
    end.
End passwords.

Section with_core_data.
Context `{CoreDataRPC}.

(** The result of an external call, as the handler goes on with it. *)
Definition of_outcome {A} (o : outcome A) : UM A :=
  match o with Val a => mret a | Exn e => throw e end.

Definition svc_GetList (c : ctx) (pageSize pageNum : Z) : UM (list ListedProfile * Z) :=
  r ← or_fail (profile_GetList pageSize pageNum) InternalError;
  or_fail (of_outcome coreDataRPC) InternalError;;
  b ← or_fail (of_outcome (LastSubmitTime (map u_ID r.1))) InternalError;
  m ← or_fail (of_outcome (decode_times b)) InternalError;
  mret (map (fun u => Listed (u_ID u) (u_Username u) (u_Name u) (u_Avatar u) (u_GroupId u)
                             (wrap_int32 (u_RoleID u)) (last_submit m (u_ID u))) r.1, r.2).

Definition svc_GetById (c : ctx) (userId : Z) : UM ProfileReply :=
  pf ← map_err (internal "内部错误") (profile_GetById userId);
  map_err (internal "内部错误") (of_outcome coreDataRPC);;
  sp ← map_err (internal "内部错误") (of_outcome (GetSpiderRPC userId));
  mret (FullProfile (u_ID pf) (u_Username pf) (u_Name pf) (u_Email pf) (u_Avatar pf)
                    (u_GroupId pf) sp (u_EmailEnabled pf) (wrap_int32 (u_RoleID pf))).
End with_core_data.

(** ** [service/role.go] *)

Definition svc_RoleList : list (Z * string) :=
  map (fun r => (r, default "" (RoleName r))) [RoleUser; RoleAdmin; RoleCoach].

(** The caller's role is read from the database, not from the token. *)
Definition svc_SetUserRole (c : ctx) (userId roleId : Z) : UM CodeReply :=
  let denied := Forbidden "权限不足" "仅管理员可设置用户角色" in
  caller ← or_fail (profile_GetById (wrap_int64 (GetCurrentUserId c))) denied;
  refuse_if (bool_decide (u_RoleID caller <> RoleAdmin)) denied;;
  refuse_if (negb (IsValid roleId)) (BadRequest "参数错误" "无效的角色ID");;
  targetUser ← or_fail (profile_GetById userId) (InternalServer "内部错误" "用户不存在");
  refuse_if (negb (canSetUserRole (wrap_int64 (GetCurrentUserId c)) (u_RoleID caller) userId
                                  (u_RoleID targetUser) roleId))
    (Forbidden "权限不足" "不能修改自己、管理员账号，或通过后台直接授予管理员角色");;
  or_fail (profile_SetRoleId userId roleId) (InternalServer "内部错误" "更新角色失败");;
  recordUserOperation c "role.set_user_role" "user" userId
    [("oldRoleId", JInt (u_RoleID targetUser)); ("newRoleId", JInt roleId)];;
  mret (CodeMessage 0 "设置成功").
