(* ===== verification/MessageService.v ===== *)
(** Direct messages: [app/user/internal/data/dal/message.go] and the handlers of
    [service/message.go].  A thread carries one unread counter per participant, kept by
    [Send] and [MarkThreadRead]. *)
From S2P Require Export ProfileDal.


Record MessageUserView := UserView {
  uv_ID : Z; uv_Username : string; uv_Name : string; uv_Avatar : string; uv_Deleted : bool }.

Record ConversationView := Conversation {
  cv_ThreadId : Z; cv_OtherUser : MessageUserView; cv_LastMessagePreview : string;
  cv_LastSenderId : Z; cv_LastSentAt : Z; cv_UnreadCount : Z }.

Record DirectMessageView := MessageView {
  mv_ID : Z; mv_ThreadId : Z; mv_SenderId : Z; mv_ReceiverId : Z; mv_Content : string;
  mv_IsRead : bool; mv_CreatedAt : Z }.

(** ** Columns that statements write *)

Definition thread_after_send (mid sender : Z) (preview : string) (t : Z) (to_a : bool)
    (r : dm_thread) : dm_thread :=
  DirectMessageThread (t_ID r) (t_PairKey r) (t_UserAId r) (t_UserBId r) mid preview sender t
    (t_UnreadA r + if to_a then 1 else 0) (t_UnreadB r + if to_a then 0 else 1) (t_deleted r).
Definition thread_clear_unread (of_a : bool) (r : dm_thread) : dm_thread :=
  DirectMessageThread (t_ID r) (t_PairKey r) (t_UserAId r) (t_UserBId r) (t_LastMessageId r)
    (t_LastMessagePreview r) (t_LastSenderId r) (t_LastSentAt r)
    (if of_a then 0 else t_UnreadA r) (if of_a then t_UnreadB r else 0) (t_deleted r).
Definition message_set_read (t : Z) (m : dm_message) : dm_message :=
  DirectMessage (m_ID m) (m_ThreadId m) (m_SenderId m) (m_ReceiverId m) (m_Content m)
    true (Some t) (m_CreatedAt m) (m_deleted m).

(** ** Pairs and previews *)

Definition messagePair (userId otherId : Z) : Z * Z * string :=
  if decide (userId < otherId)
  then (userId, otherId, pretty userId +:+ ":" +:+ pretty otherId)
  else (otherId, userId, pretty otherId +:+ ":" +:+ pretty userId).

Definition pair_key (userId otherId : Z) : string := (messagePair userId otherId).2.

Definition messagePreview (content : string) : string :=
  let content := trim_space content in
  if decide (rune_count content <= 80) then content
  else string_of_runes (take 80 (runes content)) +:+ "...".

(** ** Operations *)

Definition user_view (u : user) : MessageUserView :=
  UserView (u_ID u) (u_Username u) (u_Name u) (u_Avatar u) (u_deleted u).

(** [Unscoped()] looks at deleted rows as well. *)
Definition unscoped {R} (p : R -> bool) (t : table R) : list R := where_ p (rows t).

Definition GetUserView (userId : Z) (includeDeleted : bool) : UM MessageUserView :=
  o ← query (fun d =>
    if includeDeleted then head (unscoped (by_id userId) (users d))
    else first_match (by_id userId) (users d));
  match o with
  | Some u => mret (user_view u)
  | None => throw (ErrorText "用户不存在")
  end.

Definition messageView (m : dm_message) : DirectMessageView :=
  MessageView (m_ID m) (m_ThreadId m) (m_SenderId m) (m_ReceiverId m) (m_Content m) (m_IsRead m)
              (time_unix (m_CreatedAt m)).

Definition keyed (key : string) (t : dm_thread) : bool := bool_decide (t_PairKey t = key).
Definition takes_part (userId : Z) (t : dm_thread) : bool :=
  bool_decide (t_UserAId t = userId) || bool_decide (t_UserBId t = userId).
Definition in_thread (tid : Z) (m : dm_message) : bool := bool_decide (m_ThreadId m = tid).

(** The thread of a pair, created when there is none. *)
Definition find_or_create_thread (senderId receiverId : Z) : UM dm_thread :=
  let '(userA, userB, pairKey) := messagePair senderId receiverId in
  r ← attempt (first_by (keyed pairKey));
  match r with
  | Val t => mret t
  | Exn e =>
      refuse_if (negb (is_not_found e)) (Wrapped "查询会话失败" e);;
      t ← now;
      wrap "创建会话失败" (create (fun id =>
        DirectMessageThread id pairKey userA userB 0 "" 0 t 0 0 false))
  end.

Definition send_message (senderId receiverId : Z) (content : string) (thread : dm_thread)
    : UM dm_message :=
  t ← now;
  created ← wrap "发送消息失败" (create (fun id =>
    DirectMessage id (t_ID thread) senderId receiverId content false None t false));
  wrap "更新会话失败" (update_where (by_id (t_ID thread))
    (thread_after_send (m_ID created) senderId (messagePreview content) (m_CreatedAt created)
                       (bool_decide (receiverId = t_UserAId thread))));;
  mret created.

Definition msg_Send (senderId receiverId : Z) (content : string) : UM DirectMessageView :=
  GetUserView receiverId false;;
  created ← transaction (
    thread ← find_or_create_thread senderId receiverId;
    send_message senderId receiverId content thread);
  mret (messageView created).

Definition other_of (userId : Z) (t : dm_thread) : Z :=
  if decide (t_UserAId t = userId) then t_UserBId t else t_UserAId t.
Definition unread_of (userId : Z) (t : dm_thread) : Z :=
  if decide (t_UserAId t = userId) then t_UnreadA t else t_UnreadB t.

Definition fallbackUserView (userId : Z) : MessageUserView :=
  UserView (wrap_uint64 userId) "" "已注销用户" "" true.

Definition userViewMap (ids : list Z) : UM (gmap Z MessageUserView) :=
  match ids with
  | [] => mret ∅
  | _ => query (fun d =>
      list_to_map (map (fun u => (u_ID u, user_view u))
                       (unscoped (fun u => bool_decide (u_ID u ∈ ids)) (users d))))
  end.

Definition page_offset (page pageSize : Z) : Z := wrap_int64 (wrap_int64 (page - 1) * pageSize).

Definition conversation (userId : Z) (m : gmap Z MessageUserView) (t : dm_thread)
    : ConversationView :=
  let otherId := other_of userId t in
  Conversation (t_ID t) (default (fallbackUserView otherId) (m !! otherId))
    (t_LastMessagePreview t) (t_LastSenderId t) (time_unix (t_LastSentAt t))
    (unread_of userId t).

Definition ListConversations (userId page pageSize : Z) : UM (list ConversationView * Z) :=
  total ← count_rows (takes_part userId);
  threads ← find_page (takes_part userId) (desc_by2 t_LastSentAt t_ID) pageSize
                      (page_offset page pageSize);
  users ← userViewMap (map (other_of userId) threads);
  mret (map (conversation userId users) threads, total).

Definition own_thread (userId : Z) (key : string) (t : dm_thread) : bool :=
  keyed key t && takes_part userId t.

Definition ListThreadMessages (userId otherId page pageSize : Z)
    : UM (list DirectMessageView * Z * MessageUserView) :=
  r ← attempt (first_by (own_thread userId (pair_key userId otherId)));
  match r with
  | Exn e =>
      if is_not_found e then
        other ← GetUserView otherId true;
        mret ([], 0, other)
      else throw e
  | Val thread =>
      total ← count_rows (in_thread (t_ID thread));
      messages ← find_page (in_thread (t_ID thread)) (desc_by m_ID) pageSize
                           (page_offset page pageSize);
      let messages := merge_sort (asc_by m_ID) messages in
      o ← attempt (GetUserView otherId true);
      let other := match o with
                   | Val v => v
                   | Exn _ => UserView (wrap_uint64 otherId) "" "已注销用户" "" true
                   end in
      mret (map messageView messages, total, other)
  end.

Definition unread_by (userId tid : Z) (m : dm_message) : bool :=
  bool_decide (m_ThreadId m = tid) && bool_decide (m_ReceiverId m = userId) && negb (m_IsRead m).

Definition MarkThreadRead (userId otherId : Z) : UM () :=
  transaction (
    r ← attempt (first_by (own_thread userId (pair_key userId otherId)));
    match r with
    | Exn e => if is_not_found e then mret () else throw e
    | Val thread =>
        t ← now;
        update_where (unread_by userId (t_ID thread)) (message_set_read t);;
        update_where (by_id (t_ID thread))
          (thread_clear_unread (bool_decide (t_UserAId thread = userId)));;
        mret ()
    end).

Definition msg_UnreadCount (userId : Z) : UM Z :=
  sumA ← query (fun d => sum_list_Z (map t_UnreadA
           (select (fun t => bool_decide (t_UserAId t = userId)) (threads d))));
  sumB ← query (fun d => sum_list_Z (map t_UnreadB
           (select (fun t => bool_decide (t_UserBId t = userId)) (threads d))));
  mret (sumA + sumB).

Definition ListActiveUserIds : UM (list Z) :=
  query (fun d => map u_ID (merge_sort (asc_by u_ID) (select (fun _ => true) (users d)))).

(** ** Handlers *)

Record MessageUserReply := MessageUser {
  mu_UserId : Z; mu_Username : string; mu_Name : string; mu_Avatar : string; mu_Deleted : bool }.

Record ConversationItem := ConversationRow {
  ci_ThreadId : Z; ci_OtherUser : MessageUserReply; ci_LastMessagePreview : string;
  ci_LastSenderId : Z; ci_LastSentAt : Z; ci_UnreadCount : Z }.

Record ConversationListReply := Conversations {
  cl_List : list ConversationItem; cl_Total : Z; cl_Page : Z; cl_PageSize : Z;
  cl_UnreadCount : Z }.

Record ThreadMessagesReply := ThreadMessages {
  tm_OtherUser : MessageUserReply; tm_List : list DirectMessageView; tm_Total : Z; tm_Page : Z;
  tm_PageSize : Z }.

Definition currentUserId (c : ctx) : UM Z :=
  current ← require_login c;
  mret (wrap_int64 (jwt_UserID current)).

Definition normalizePage (page pageSize : Z) : Z * Z :=
  let page := if decide (page <= 0) then 1 else page in
  let pageSize := if decide (pageSize <= 0) then 20 else pageSize in
  let pageSize := if decide (50 < pageSize) then 50 else pageSize in
  (page, pageSize).

Definition normalizeMessageContent (content : string) : outcome string :=
  let content := trim_space content in
  if decide (content = "") then Exn (BadRequest "参数错误" "消息不能为空")
  else if decide (1000 < rune_count content) then Exn (BadRequest "参数错误" "消息不能超过1000字")
  else Val content.

Definition replyUser (v : MessageUserView) : MessageUserReply :=
  let name := if uv_Deleted v || bool_decide (uv_Name v = "") then "已注销用户" else uv_Name v in
  MessageUser (uv_ID v) (uv_Username v) name (uv_Avatar v) (uv_Deleted v).

Definition replyConversation (r : ConversationView) : ConversationItem :=
  ConversationRow (cv_ThreadId r) (replyUser (cv_OtherUser r)) (cv_LastMessagePreview r)
    (cv_LastSenderId r) (cv_LastSentAt r) (cv_UnreadCount r).

(** [replyMessage] copies the view field by field. *)
Definition replyMessage (v : DirectMessageView) : DirectMessageView :=
  MessageView (mv_ID v) (mv_ThreadId v) (mv_SenderId v) (mv_ReceiverId v) (mv_Content v)
              (mv_IsRead v) (mv_CreatedAt v).

Definition failed (reason : string) (e : goerr) : goerr := InternalServer reason (error_text e).

Definition svc_Conversations (c : ctx) (page pageSize : Z) : UM ConversationListReply :=
  userId ← currentUserId c;
  let '(page, pageSize) := normalizePage page pageSize in
  r ← map_err (failed "查询失败") (ListConversations userId page pageSize);
  unread ← map_err (failed "查询失败") (msg_UnreadCount userId);
  mret (Conversations (map replyConversation r.1) r.2 page pageSize unread).

Definition svc_Thread (c : ctx) (other page pageSize : Z) : UM ThreadMessagesReply :=
  userId ← currentUserId c;
  refuse_if (bool_decide (other = 0)) (BadRequest "参数错误" "请选择用户");;
  refuse_if (bool_decide (other = userId)) (BadRequest "参数错误" "不能和自己私信");;
  let '(page, pageSize) := normalizePage page pageSize in
  r ← map_err (fun e => BadRequest "查询失败" (error_text e))
        (ListThreadMessages userId other page pageSize);
  mret (ThreadMessages (replyUser r.2) (map replyMessage r.1.1) r.1.2 page pageSize).

Definition content_or_fail (content : string) : UM string :=
  match normalizeMessageContent content with Val s => mret s | Exn e => throw e end.

Definition svc_Send (c : ctx) (receiverId : Z) (content : string) : UM DirectMessageView :=
  userId ← currentUserId c;
  refuse_if (bool_decide (receiverId = 0)) (BadRequest "参数错误" "请选择接收用户");;
  refuse_if (bool_decide (receiverId = userId)) (BadRequest "参数错误" "不能给自己发私信");;
  content ← content_or_fail content;
  created ← map_err (fun e => BadRequest "发送失败" (error_text e))
              (msg_Send userId receiverId content);
  mret (replyMessage created).

Definition svc_MarkRead (c : ctx) (other : Z) : UM (bool * string) :=
  userId ← currentUserId c;
  refuse_if (bool_decide (other = 0)) (BadRequest "参数错误" "请选择用户");;
  refuse_if (bool_decide (other = userId)) (BadRequest "参数错误" "不能和自己私信");;
  map_err (failed "标记失败") (MarkThreadRead userId other);;
  mret (true, "已读").

Definition svc_UnreadCount (c : ctx) : UM Z :=
  userId ← currentUserId c;
  map_err (failed "查询失败") (msg_UnreadCount userId).

(** [for _, receiverId := range ids]: the loop returns at the first failure, and
    counts what it sent. *)
Fixpoint broadcast_loop (senderId : Z) (content : string) (ids : list Z) (sent : Z) : UM Z :=
  match ids with
  | [] => mret sent
  | receiverId :: ids =>
      if decide (receiverId = senderId) then broadcast_loop senderId content ids sent
      else
        map_err (failed "群发失败") (msg_Send senderId receiverId content);;
        broadcast_loop senderId content ids (sent + 1)
  end.

Definition svc_Broadcast (c : ctx) (content : string) : UM (string * Z) :=
  current ← require_login c;
  sender ← or_fail (profile_GetById (wrap_int64 (jwt_UserID current)))
             (Forbidden "权限不足" "用户不存在或已被禁用");
  refuse_if (negb (canBroadcastMessage (u_RoleID sender)))
    (Forbidden "权限不足" "仅管理员或教练可以群发消息");;
  content ← content_or_fail content;
  ids ← map_err (failed "查询失败") ListActiveUserIds;
  sent ← broadcast_loop (wrap_int64 (jwt_UserID current)) content ids 0;
  recordUserOperation c "message.broadcast" "message" 0 [("sent", JInt sent)];;
  mret ("群发成功", sent).
