(* ===== verification/MessageTheory.v ===== *)
(** The unread counters of the threads agree with the messages, whatever the
    handlers do and whichever calls fail. *)
From S2P Require Export MessageService.
From Stdlib Require Import Ascii.

Definition unread_in (d : user_db) (x tid : Z) : Z := count_match (unread_by x tid) (messages d).

(** A thread of a database: its participants in order, its key, its counters. *)
Definition thread_ok (d : user_db) (t : dm_thread) : Prop :=
  t_deleted t = false /\ t_UserAId t < t_UserBId t /\
  t_PairKey t = pair_key (t_UserAId t) (t_UserBId t) /\
  t_UnreadA t = unread_in d (t_UserAId t) (t_ID t) /\
  t_UnreadB t = unread_in d (t_UserBId t) (t_ID t).

(** A message goes from one participant of its thread to the other. *)
Definition message_ok (d : user_db) (m : dm_message) : Prop :=
  m_deleted m = false /\
  exists t, t ∈ rows (threads d) /\ t_ID t = m_ThreadId m /\
    ((m_SenderId m = t_UserAId t /\ m_ReceiverId m = t_UserBId t) \/
     (m_SenderId m = t_UserBId t /\ m_ReceiverId m = t_UserAId t)).

Record messages_ok (d : user_db) : Prop := {
  mo_threads : table_wf (threads d);
  mo_messages : table_wf (messages d);
  mo_thread t : t ∈ rows (threads d) -> thread_ok d t;
  mo_message m : m ∈ rows (messages d) -> message_ok d m;
  mo_keys t t' : t ∈ rows (threads d) -> t' ∈ rows (threads d) ->
    t_PairKey t = t_PairKey t' -> t = t'
}.

(** ** Keys *)

Lemma pair_key_sym a b : pair_key a b = pair_key b a.
Proof.
  unfold pair_key, messagePair. repeat case_decide; simpl; try done; try lia.
  by replace b with a by lia.
Qed.

(** The key names the two users and nothing else. *)
Lemma pair_key_inj a b x y : pair_key a b = pair_key x y -> a = x /\ b = y \/ a = y /\ b = x.
Proof.
  unfold pair_key, messagePair. repeat case_decide; simpl;
    intros He; apply (number_pair_inj ":"%char) in He as [-> ->]; auto.
Qed.

Lemma messagePair_fst a b :
  a <> b -> let '(x, y, k) := messagePair a b in x < y /\ k = pair_key x y /\
    (x = a /\ y = b \/ x = b /\ y = a).
Proof.
  intros Hne. unfold messagePair. case_decide; simpl; split_and!; try lia;
    unfold pair_key, messagePair; rewrite decide_True by lia; done.
Qed.

(** ** Sending *)

Lemma messages_ok_rollback d d' : messages_ok d -> messages_ok (rollback d d').
Proof. intros []. split; try done; by apply table_wf_rollback. Qed.

Lemma messages_ok_ext d d' :
  threads d' = threads d -> messages d' = messages d -> messages_ok d -> messages_ok d'.
Proof.
  intros Ht Hm [H1 H2 H3 H4 H5].
  assert (forall t, thread_ok d t -> thread_ok d' t) as Hth.
  { intros t. unfold thread_ok, unread_in. by rewrite Hm. }
  split; rewrite ?Ht, ?Hm; try done; auto.
  intros m Hin. destruct (H4 m Hin) as [? (t & ? & ?)]. split; [done|]. exists t. by rewrite Ht.
Qed.

Lemma unread_none d x tid :
  messages_ok d -> (forall t, t ∈ rows (threads d) -> t_ID t <> tid) -> unread_in d x tid = 0.
Proof.
  intros Hok Hno. apply count_match_none. intros m Hm.
  destruct (mo_message _ Hok m Hm) as (_ & t & Ht & Hid & _). unfold unread_by.
  rewrite bool_decide_false; [done|]. specialize (Hno t Ht). congruence.
Qed.

Definition new_thread (key : string) (a b now : Z) (id : Z) : dm_thread :=
  DirectMessageThread id key a b 0 "" 0 now 0 0 false.

Lemma next_id_fresh {R} `{Entity R} (t : table R) r : table_wf t -> r ∈ rows t -> row_id r <> next_id t.
Proof.
  intros (_ & Hall & _) Hr. rewrite Forall_forall in Hall. specialize (Hall _ Hr). simpl in Hall. lia.
Qed.

Lemma messages_ok_new_thread d a b now :
  messages_ok d -> a < b -> first_match (keyed (pair_key a b)) (threads d) = None ->
  messages_ok (set_table (insert_row (new_thread (pair_key a b) a b now) (threads d)) d).
Proof.
  intros Hok Hab Hnone. pose proof Hok as [H1 H2 H3 H4 H5].
  assert (forall t, t ∈ rows (threads d) -> t_PairKey t <> pair_key a b) as Hkey.
  { intros t Ht Hk. destruct (H3 t Ht) as [Hl _].
    pose proof (first_match_none _ _ t Hnone Ht) as Hp. simpl in Hp. rewrite Hl in Hp.
    unfold keyed in Hp. specialize (Hp eq_refl). by bool_cases. }
  assert (forall x, unread_in d x (next_id (threads d)) = 0) as Hzero.
  { intros x. apply unread_none; [done|]. intros t Ht. exact (next_id_fresh (threads d) t H1 Ht). }
  split; simpl; try done.
  - by apply table_wf_insert.
  - intros t [Ht| ->]%elem_of_insert; [by apply H3|]. unfold thread_ok; simpl.
    split_and!; try done; symmetry; apply Hzero.
  - intros m Hm. destruct (H4 m Hm) as [? (t & ? & ?)]. split; [done|]. exists t.
    split; [|done]. apply elem_of_insert. by left.
  - intros t t' [Ht| ->]%elem_of_insert [Ht'| ->]%elem_of_insert; simpl; auto.
    + intros Hk. by destruct (Hkey t Ht).
    + intros Hk. by destruct (Hkey t' Ht').
Qed.

Definition new_message (tid sender receiver : Z) (content : string) (now id : Z) : dm_message :=
  DirectMessage id tid sender receiver content false None now false.

(** The two participants of [t], in either order. *)
Definition between (t : dm_thread) (x y : Z) : Prop :=
  x = t_UserAId t /\ y = t_UserBId t \/ x = t_UserBId t /\ y = t_UserAId t.

Lemma unread_in_insert d x tid tid' s r c now :
  count_match (unread_by x tid) (insert_row (new_message tid' s r c now) (messages d)) =
  unread_in d x tid + if decide (tid' = tid /\ r = x) then 1 else 0.
Proof.
  rewrite count_match_insert. unfold unread_in. f_equal. unfold visible, unread_by. simpl.
  case_decide as Hd; [destruct Hd; subst; by rewrite !bool_decide_true|].
  repeat case_bool_decide; naive_solver.
Qed.

Lemma thread_update_ids mid s p now b t :
  t_ID (thread_after_send mid s p now b t) = t_ID t /\
  t_PairKey (thread_after_send mid s p now b t) = t_PairKey t.
Proof. done. Qed.

Lemma messages_ok_send d t s r c now p :
  messages_ok d -> t ∈ rows (threads d) -> between t s r ->
  messages_ok
    (set_table (update_match (by_id (t_ID t))
                  (thread_after_send (next_id (messages d)) s p now (bool_decide (r = t_UserAId t)))
                  (threads d))
       (set_table (insert_row (new_message (t_ID t) s r c now) (messages d)) d)).
Proof.
  intros Hok Ht Hb. pose proof Hok as [H1 H2 H3 H4 H5].
  set (f := thread_after_send _ _ _ _ _). split; simpl.
  - by apply table_wf_update.
  - by apply table_wf_insert.
  - intros t' Hin. destruct (H3 t Ht) as (Hl & Hlt & Hk & Ha & Hb').
    assert (row_live t = true) as Hlive by (simpl; by rewrite Hl).
    destruct (elem_of_update_id _ _ _ _ H1 Ht Hlive Hin) as [->|[Hin' Hid]].
    + unfold thread_ok, unread_in; simpl. rewrite !unread_in_insert, <- Ha, <- Hb'.
      split_and!; try done; case_bool_decide; case_decide; destruct Hb; naive_solver lia.
    + destruct (H3 t' Hin') as (? & ? & ? & ? & ?). simpl in Hid. unfold thread_ok, unread_in; simpl.
      rewrite !unread_in_insert, !decide_False by naive_solver. by rewrite !Z.add_0_r.
  - intros m Hm.
    assert (m_deleted m = false /\ exists t0, t0 ∈ rows (threads d) /\ t_ID t0 = m_ThreadId m /\
              between t0 (m_SenderId m) (m_ReceiverId m)) as [Hl (t0 & Ht0 & Hid & Hbt)].
    { apply elem_of_insert in Hm as [Hm| ->]; [by apply H4|]. simpl. eauto. }
    split; [done|]. eexists. split; [apply elem_of_update; by exists t0|].
    by destruct (visible (by_id (t_ID t)) t0).
  - intros t1 t2 (x & Hx & ->)%elem_of_update (y & Hy & ->)%elem_of_update Hk.
    assert (x = y) as -> by (apply H5; [done..|]; by repeat case_match). done.
Qed.

(** ** Reading *)

Lemma unread_in_read d u tid x tid' now :
  count_match (unread_by x tid') (update_match (unread_by u tid) (message_set_read now) (messages d)) =
  if decide (x = u /\ tid' = tid) then 0 else unread_in d x tid'.
Proof.
  case_decide as Hd.
  - destruct Hd as [-> ->].
    rewrite (count_match_update _ _ _ (fun _ => false)).
    { apply count_match_none. done. }
    intros m _. change (visible (fun _ => false) m) with (row_live m && false).
    rewrite andb_false_r. destruct (visible (unread_by u tid) m) eqn:E; [|done].
    unfold visible, unread_by; simpl. by rewrite !andb_false_r.
  - apply count_match_update. intros m _. destruct (visible (unread_by u tid) m) eqn:E; [|done].
    apply andb_true_iff in E as [Hl E]. unfold visible. rewrite Hl.
    change (row_live (message_set_read now m)) with (row_live m). rewrite Hl.
    unfold unread_by in *. simpl. bool_cases. rewrite H0, andb_false_r, andb_true_r.
    repeat case_bool_decide; try done. destruct Hd; split; congruence.
Qed.

Lemma messages_ok_read d t u now :
  messages_ok d -> t ∈ rows (threads d) -> u = t_UserAId t \/ u = t_UserBId t ->
  messages_ok
    (set_table (update_match (by_id (t_ID t))
                  (thread_clear_unread (bool_decide (t_UserAId t = u))) (threads d))
       (set_table (update_match (unread_by u (t_ID t)) (message_set_read now) (messages d)) d)).
Proof.
  intros Hok Ht Hu. pose proof Hok as [H1 H2 H3 H4 H5]. split; simpl.
  - by apply table_wf_update.
  - by apply table_wf_update.
  - intros t' Hin. destruct (H3 t Ht) as (Hl & Hlt & Hk & Ha & Hb).
    assert (row_live t = true) as Hlive by (simpl; by rewrite Hl).
    destruct (elem_of_update_id _ _ _ _ H1 Ht Hlive Hin) as [->|[Hin' Hid]].
    + unfold thread_ok, unread_in; simpl. rewrite !unread_in_read, <- Ha, <- Hb.
      split_and!; try done; case_bool_decide; case_decide; destruct Hu; naive_solver lia.
    + destruct (H3 t' Hin') as (? & ? & ? & ? & ?). simpl in Hid. unfold thread_ok, unread_in; simpl.
      rewrite !unread_in_read, !decide_False by naive_solver. done.
  - intros m (m0 & Hm & ->)%elem_of_update. destruct (H4 m0 Hm) as [Hl (t0 & Ht0 & Hid & Hbt)].
    unfold message_ok. assert (exists t1, t1 ∈ rows (update_match (by_id (t_ID t))
                  (thread_clear_unread (bool_decide (t_UserAId t = u))) (threads d)) /\
        t_ID t1 = t_ID t0 /\ t_UserAId t1 = t_UserAId t0 /\ t_UserBId t1 = t_UserBId t0)
      as (t1 & Ht1 & Hi1 & Ha1 & Hb1).
    { eexists. split; [apply elem_of_update; by exists t0|].
      by destruct (visible (by_id (t_ID t)) t0). }
    split; [by case_match|]. exists t1. simpl. rewrite Hi1, Ha1, Hb1.
    split; [done|]. by case_match.
  - intros t1 t2 (x & Hx & ->)%elem_of_update (y & Hy & ->)%elem_of_update Hk.
    assert (x = y) as -> by (apply H5; [done..|]; by repeat case_match). done.
Qed.

(** ** The handlers *)

Lemma wpv_find_or_create_thread s r (Q : dm_thread -> world user_db -> Prop) w :
  messages_ok (w_db w) -> s <> r ->
  (forall t w', messages_ok (w_db w') -> t ∈ rows (threads (w_db w')) -> between t s r -> Q t w') ->
  wpv (find_or_create_thread s r) Q w.
Proof.
  intros Hok Hne HQ. unfold find_or_create_thread. pose proof (messagePair_fst s r Hne) as Hp.
  destruct (messagePair s r) as [[a b] k]. destruct Hp as (Hlt & -> & Hab).
  repeat wpv_step.
  - intros t Ht. apply wpv_ret. apply first_match_some in Ht as (Hin & _ & Hk).
    apply HQ; [done..|]. destruct (mo_thread _ Hok _ Hin) as (_ & Hlt' & Hkey & _).
    unfold keyed in Hk. bool_cases. rewrite Hkey in Hk. apply pair_key_inj in Hk.
    unfold between. naive_solver lia.
  - intros Hnone. repeat wpv_step. apply HQ; simpl.
    + by apply (messages_ok_new_thread (w_db w)).
    + apply elem_of_app. right. by apply list_elem_of_singleton.
    + unfold between; simpl. naive_solver.
  - intros e. repeat wpv_step. done.
Qed.

Lemma keeps_msg_Send s r c : s <> r -> keeps messages_ok (msg_Send s r c).
Proof.
  intros Hne. unfold msg_Send. apply keeps_bind; [apply keeps_reads; unfold GetUserView; solve_reads|].
  intros _. apply keeps_bind; [|intros m; apply keeps_reads; solve_reads].
  apply keeps_transaction; [apply messages_ok_rollback|]. intros w Hok.
  apply wpv_bind, wpv_find_or_create_thread; [done..|]. intros t w' Hok' Ht Hb.
  unfold send_message. repeat wpv_step.
  exact (messages_ok_send _ t s r c _ _ Hok' Ht Hb).
Qed.

Lemma keeps_MarkThreadRead u o : keeps messages_ok (MarkThreadRead u o).
Proof.
  unfold MarkThreadRead. apply keeps_transaction; [apply messages_ok_rollback|]. intros w Hok.
  repeat wpv_step.
  - intros t Ht. repeat wpv_step. apply first_match_some in Ht as (Hin & _ & Hp).
    unfold own_thread, takes_part in Hp. bool_cases.
    apply (messages_ok_read (w_db w) _ u _ Hok Hin).
    apply orb_true_iff in H0. destruct H0; bool_cases; auto.
  - intros _. simpl. by repeat wpv_step.
  - intros e. simpl. repeat wpv_step.
Qed.

(** ** The counter a user sees *)

Definition addressed_unread (u : Z) (m : dm_message) : bool :=
  bool_decide (m_ReceiverId m = u) && negb (m_IsRead m).
(** The unread messages addressed to [u]. *)
Definition unread_total (d : user_db) (u : Z) : Z := count_match (addressed_unread u) (messages d).

Lemma sum_where {A} (p : A -> bool) (f : A -> Z) l :
  sum_list_Z (map f (where_ p l)) = sum_list_Z (map (fun x => if p x then f x else 0) l).
Proof.
  induction l as [|x l IH]; [done|]. simpl. destruct (p x); simpl; rewrite IH; lia.
Qed.

Lemma sum_plus {A} (f g : A -> Z) l :
  sum_list_Z (map f l) + sum_list_Z (map g l) = sum_list_Z (map (fun x => f x + g x) l).
Proof. induction l as [|x l IH]; simpl; [done|]. lia. Qed.

Lemma sum_ext {A} (f g : A -> Z) l :
  (forall x, x ∈ l -> f x = g x) -> sum_list_Z (map f l) = sum_list_Z (map g l).
Proof.
  induction l as [|x l IH]; intros He; [done|]. simpl. rewrite (He x), IH by set_solver. done.
Qed.

Lemma sum_zero {A} (f : A -> Z) l : (forall x, x ∈ l -> f x = 0) -> sum_list_Z (map f l) = 0.
Proof.
  induction l as [|x l IH]; intros He; [done|]. simpl. rewrite (He x), IH by set_solver. done.
Qed.

(** One of the keys, and exactly one, is [k]. *)
Lemma sum_indicator (l : list Z) k :
  StronglySorted Z.lt l -> k ∈ l -> sum_list_Z (map (fun i => if decide (i = k) then 1 else 0) l) = 1.
Proof.
  induction l as [|x l IH]; intros Hs Hk; [set_solver|]. inversion Hs as [|? ? Hs' Hall]; subst.
  rewrite Forall_forall in Hall. simpl. case_decide as Hx.
  - subst. rewrite sum_zero; [done|]. intros i Hi. rewrite decide_False; [done|].
    specialize (Hall _ Hi). simpl in Hall. lia.
  - rewrite IH; [done..|]. apply elem_of_cons in Hk as [?|?]; [congruence | done].
Qed.

(** Counting by groups: the groups are keyed, and every counted element is in one. *)
Lemma count_by_groups {A} (p : A -> bool) (key : A -> Z) (keys : list Z) (l : list A) :
  StronglySorted Z.lt keys -> (forall x, x ∈ l -> p x = true -> key x ∈ keys) ->
  sum_list_Z (map (fun k => count_where (fun x => p x && bool_decide (key x = k)) l) keys) =
  count_where p l.
Proof.
  intros Hs. induction l as [|x l IH]; intros Hin.
  { apply sum_zero. done. }
  assert (forall q, count_where q (x :: l) = (if q x then 1 else 0) + count_where q l) as Hc.
  { intros q. unfold count_where. simpl. destruct (q x); simpl; lia. }
  rewrite Hc, <- IH by set_solver. erewrite sum_ext; [|intros k _; apply Hc].
  rewrite <- sum_plus. f_equal. destruct (p x) eqn:Hp; simpl; [|by apply sum_zero].
  transitivity (sum_list_Z (map (fun i => if decide (i = key x) then 1 else 0) keys)).
  - apply sum_ext. intros k _. case_bool_decide; case_decide; congruence.
  - apply sum_indicator; [done | apply Hin; set_solver].
Qed.

Lemma unread_sums d u :
  messages_ok d ->
  sum_list_Z (map t_UnreadA (select (fun t => bool_decide (t_UserAId t = u)) (threads d))) +
  sum_list_Z (map t_UnreadB (select (fun t => bool_decide (t_UserBId t = u)) (threads d))) =
  unread_total d u.
Proof.
  intros Hok. unfold select. rewrite !sum_where, sum_plus.
  transitivity (sum_list_Z (map (fun t => unread_in d u (t_ID t)) (rows (threads d)))).
  { apply sum_ext. intros t Ht. destruct (mo_thread _ Hok t Ht) as (Hl & Hlt & _ & Ha & Hb).
    unfold visible. simpl. rewrite Hl. simpl. do 2 case_bool_decide; try (subst; lia).
    symmetry. apply count_match_none. intros m Hm. unfold unread_by.
    destruct (mo_message _ Hok m Hm) as (_ & t' & Ht' & Hid & Hbt).
    repeat case_bool_decide; try done. 
    assert (t' = t) as -> by (eapply table_wf_unique; [apply Hok|done..|simpl; congruence]).
    naive_solver. }
  transitivity (sum_list_Z (map (fun k => unread_in d u k) (map row_id (rows (threads d))))).
  { by rewrite map_map. }
  unfold unread_total, count_match. rewrite <- (count_by_groups _ m_ThreadId (map row_id (rows (threads d)))).
  - apply sum_ext. intros k _. unfold unread_in, count_match, count_where. do 2 f_equal.
    apply where_ext. intros m _. unfold visible, unread_by, addressed_unread. simpl.
    destruct (m_deleted m); simpl; [done|]. 
    destruct (bool_decide (m_ThreadId m = k)), (bool_decide (m_ReceiverId m = u)), (m_IsRead m); done.
  - apply Hok.
  - intros m Hm _. destruct (mo_message _ Hok m Hm) as (_ & t & Ht & Hid & _).
    apply list_elem_of_In, in_map_iff. exists t. split; [done | by apply list_elem_of_In].
Qed.

(** ** Runs without failures *)

Lemma wp_msg_UnreadCount u (Q : outcome Z -> world user_db -> Prop) w :
  healthy w -> messages_ok (w_db w) -> Q (Val (unread_total (w_db w) u)) (tick (tick w)) ->
  wp (msg_UnreadCount u) Q w.
Proof.
  intros Hw Hok HQ. unfold msg_UnreadCount. repeat wp_step. simpl. by rewrite unread_sums.
Qed.

Lemma unread_total_insert d x tid s r c now :
  count_match (addressed_unread x) (insert_row (new_message tid s r c now) (messages d)) =
  unread_total d x + if decide (x = r) then 1 else 0.
Proof.
  rewrite count_match_insert. unfold unread_total. f_equal. unfold visible, addressed_unread. simpl.
  case_bool_decide; case_decide; simpl; congruence.
Qed.

(** What one delivery does: nothing but one more unread message of [r]. *)
Definition delivered (r : Z) (d d' : user_db) : Prop :=
  users d' = users d /\
  forall x, unread_total d' x = unread_total d x + if decide (x = r) then 1 else 0.

Lemma wp_find_or_create_thread s r (Q : outcome dm_thread -> world user_db -> Prop) w :
  healthy w ->
  (forall t w', healthy w' -> users (w_db w') = users (w_db w) ->
     messages (w_db w') = messages (w_db w) -> Q (Val t) w') ->
  wp (find_or_create_thread s r) Q w.
Proof.
  intros Hw HQ. unfold find_or_create_thread. destruct (messagePair s r) as [[a b] k].
  repeat wp_step. destruct (first_match (keyed k) (table_of (w_db w))) as [t|]; simpl.
  - repeat wp_step. by apply HQ.
  - repeat wp_step. by apply HQ.
Qed.

Lemma wp_msg_Send s r c u (Q : outcome DirectMessageView -> world user_db -> Prop) w :
  healthy w -> messages_ok (w_db w) -> s <> r ->
  first_match (by_id r) (users (w_db w)) = Some u ->
  (forall v w', healthy w' -> messages_ok (w_db w') -> delivered r (w_db w) (w_db w') ->
     Q (Val v) w') ->
  wp (msg_Send s r c) Q w.
Proof.
  intros Hw Hok Hne Hr HQ. apply (wp_keeps messages_ok); [by apply keeps_msg_Send|done|].
  unfold msg_Send, GetUserView. repeat wp_step. simpl. rewrite Hr. repeat wp_step.
  apply wp_find_or_create_thread; [done|]. intros t w' Hw' Hus Hms. unfold send_message.
  repeat wp_step. split; [done|]. intros Hok'. apply HQ; [done..|]. split; [done|].
  intros x.
  pose proof (unread_total_insert (w_db w) x (t_ID t) s r c (w_clock w' (w_calls w'))) as Hi.
  change (messages (w_db w)) with (messages (w_db (tick w))) in Hi.
  rewrite <- Hms in Hi. exact Hi.
Qed.

(** ** Broadcasts *)

Definition receives (s : Z) (ids : list Z) (x : Z) : Z :=
  if decide (x ∈ ids /\ x <> s) then 1 else 0.

Lemma wp_broadcast_loop s c ids n (Q : outcome Z -> world user_db -> Prop) w :
  healthy w -> messages_ok (w_db w) -> NoDup ids ->
  (forall x, x ∈ ids -> is_Some (first_match (by_id x) (users (w_db w)))) ->
  (forall w', messages_ok (w_db w') -> users (w_db w') = users (w_db w) -> healthy w' ->
     (forall x, unread_total (w_db w') x = unread_total (w_db w) x + receives s ids x) ->
     Q (Val (n + Z.of_nat (length (filter (fun x => x <> s) ids)))) w') ->
  wp (broadcast_loop s c ids n) Q w.
Proof.
  revert n w. induction ids as [|r ids IH]; intros n w Hw Hok Hnd Hall HQ; simpl.
  - apply wp_ret. rewrite <- (Z.add_0_r n). apply HQ; [done..|]. intros x. unfold receives.
    rewrite decide_False by set_solver. lia.
  - apply NoDup_cons in Hnd as [Hr Hnd]. case_decide as Hs.
    + subst. apply IH; [done..|set_solver|]. intros w' Hok' Hu Hw' Hx.
      specialize (HQ w' Hok' Hu Hw'). rewrite filter_cons_False in HQ by naive_solver.
      apply HQ. intros x. rewrite Hx. unfold receives. repeat case_decide; set_solver.
    + destruct (Hall r) as [u Hu]; [set_solver|]. repeat wp_step.
      apply (wp_msg_Send _ _ _ u); [done..|]. intros v w' Hw' Hok' [Hus Hd].
      apply IH; [done..| rewrite Hus; set_solver |]. intros w2 Hok2 Hu2 Hw2 Hx.
      specialize (HQ w2 Hok2). rewrite filter_cons_True in HQ by done. simpl in HQ.
      replace (n + 1 + Z.of_nat (length (filter (fun x => x <> s) ids)))
        with (n + Z.of_nat (S (length (filter (fun x => x <> s) ids)))) by lia.
      apply HQ; [congruence|done|]. intros x. rewrite Hx, Hd. unfold receives.
      repeat case_decide; set_solver by lia.
Qed.

Definition broadcast_ids (d : user_db) : list Z :=
  map u_ID (merge_sort (asc_by u_ID) (select (fun _ => true) (users d))).

Lemma broadcast_ids_in d x :
  x ∈ broadcast_ids d <-> exists u, u ∈ rows (users d) /\ row_live u = true /\ u_ID u = x.
Proof.
  unfold broadcast_ids. rewrite list_elem_of_In, in_map_iff. setoid_rewrite <- list_elem_of_In.
  setoid_rewrite (merge_sort_Permutation (asc_by u_ID) _). setoid_rewrite elem_of_select.
  naive_solver.
Qed.

Lemma broadcast_ids_NoDup d : table_wf (users d) -> NoDup (broadcast_ids d).
Proof.
  intros (Hs & _). unfold broadcast_ids.
  assert (map u_ID (merge_sort (asc_by u_ID) (select (fun _ => true) (users d)))
          ≡ₚ map u_ID (select (fun _ => true) (users d))) as ->.
  { apply Permutation_map, merge_sort_Permutation. }
  apply sorted_lt_NoDup. exact (sorted_where (visible (fun _ => true)) (rows (users d)) Hs).
Qed.

Lemma broadcast_ids_present d x :
  table_wf (users d) -> x ∈ broadcast_ids d -> is_Some (first_match (by_id x) (users d)).
Proof. intros Hwf (u & Hu & Hl & <-)%broadcast_ids_in. exists u. by apply has_row_iff. Qed.
