(* ===== verification/AuthService.v ===== *)
(** Accounts: [service/auth.go] (login, registration, the registration code, the
    audit log) on the tables of the user service. *)
From S2P Require Export UserData.

Definition registerInviteCodeKey : string := "register_invite_code".

(** [jwt.NewWithClaims(HS256, claims).SignedString(secret)] *)
Class JwtSigner := { SignedString : string -> list (string * json) -> outcome string }.

Record LoginRes := LoginReply { lr_Success : bool; lr_Message : string; lr_JwtToken : string }.
Record RegisterRes := RegisterReply { rr_Success : bool; rr_Message : string }.
Record RegisterInviteCodeReply := CodeInfo {
  ric_Success : bool; ric_Message : string; ric_InviteCode : string }.

Definition config_key (k : string) (c : system_config) : bool := bool_decide (sc_Key c = k).
Definition with_username (n : string) (u : user) : bool := bool_decide (u_Username u = n).

(** ** The registration code *)

Definition getRegisterInviteCode : UM string :=
  config ← attempt (first_by (config_key registerInviteCodeKey));
  mret match config with
       | Exn _ => defaultRegisterInviteCode
       | Val config =>
           if decide (trim_space (sc_Value config) = "") then defaultRegisterInviteCode
           else trim_space (sc_Value config)
       end.

Definition saveRegisterInviteCode (inviteCode : string) : UM () :=
  config ← attempt (first_by (config_key registerInviteCodeKey));
  match config with
  | Exn e =>
      if is_not_found e then
        create (fun id => SystemConfig id registerInviteCodeKey inviteCode false);; mret ()
      else throw e
  | Val config =>
      update_where (by_id (sc_ID config)) (config_set_value inviteCode);; mret ()
  end.

Definition svc_GetRegisterInviteCode (c : ctx) : UM RegisterInviteCodeReply :=
  refuse_if (negb (VerifyAdmin c)) (Forbidden "权限不足" "只有管理员可以查看邀请码");;
  code ← getRegisterInviteCode;
  mret (CodeInfo true "获取邀请码成功" code).

Definition svc_UpdateRegisterInviteCode (c : ctx) (code : string) : UM RegisterInviteCodeReply :=
  refuse_if (negb (VerifyAdmin c)) (Forbidden "权限不足" "只有管理员可以修改邀请码");;
  let inviteCode := trim_space code in
  refuse_if (bool_decide (inviteCode = "")) (BadRequest "参数错误" "邀请码不能为空");;
  map_err (fun e => InternalServer "保存失败" (error_text e)) (saveRegisterInviteCode inviteCode);;
  mret (CodeInfo true "邀请码已更新" inviteCode).

(** ** Login and registration *)

Definition tokenLifetime : Z := 8640 * hour.

Definition login_claims (u : user) (exp nbf : Z) : list (string * json) :=
  [("userId", JInt (u_ID u)); ("username", JString (u_Username u)); ("name", JString (u_Name u));
   ("email", JString (u_Email u)); ("roleId", JInt (u_RoleID u));
   ("roleIds", JString (if bool_decide (u_RoleID u = 1) || bool_decide (u_RoleID u = 2)
                        then "[1]" else "[0]"));
   ("exp", JInt exp); ("nbf", JInt nbf)].

Definition login_refused : LoginRes := LoginReply false "用户名或密码错误" "".

Section accounts.
Context `{Bcrypt} `{JwtSigner} (jwtSecret : string).

(** A password kept in clear is replaced by its hash; a failure to do so is
    not looked at. *)
Definition rehash (u : user) (password : string) : UM () :=
  match hashPassword password with
  | Some h => ignore_err (update_where (by_id (u_ID u)) (user_set_password h))
  | None => mret ()
  end.

Definition issue_token (u : user) : UM LoginRes :=
  t0 ← now;
  t1 ← now;
  mret match SignedString jwtSecret
               (login_claims u (time_unix (t0 + tokenLifetime)) (time_unix t1)) with
       | Exn e =>
           LoginReply false ("身份校验成功，但是jwt生成失败了." +:+ error_text e) ""
       | Val token => LoginReply true "登录成功" token
       end.

Definition svc_Login (username password : string) : UM LoginRes :=
  r ← attempt (first_by (with_username username));
  match r with
  | Exn e =>
      mret (if is_not_found e then login_refused else LoginReply false "登录失败" "")
  | Val u =>
      let '(validPassword, needsRehash) := verifyPassword (u_Password u) password in
      if negb validPassword then mret login_refused
      else
        (if needsRehash : bool then rehash u password else mret ());;
        issue_token u
  end.

Definition svc_Register (username password name email inviteCode : string) : UM RegisterRes :=
  expected ← getRegisterInviteCode;
  let '(ok, message) := validateRegisterInviteCode inviteCode expected in
  if negb ok then mret (RegisterReply false message)
  else
    found ← attempt (find_where (with_username username));
    if match found with Val (_ :: _) => true | _ => false end
    then mret (RegisterReply false "用户名已经存在")
    else
      match hashPassword password with
      | None => mret (RegisterReply false "密码加密失败")
      | Some passwordHash =>
          r ← attempt (create (fun id =>
            User id username passwordHash "" name email 0 0 true false));
          mret match r with
               | Val _ => RegisterReply true "注册成功"
               | Exn e => RegisterReply false (error_text e)
               end
      end.
End accounts.

(** ** The audit log *)

Record UserOperationLogItem := LogItem {
  li_ID : Z; li_Service : string; li_OperatorID : Z; li_OperatorRole : Z; li_Action : string;
  li_TargetType : string; li_TargetID : Z; li_Detail : string; li_CreatedAt : Z }.

Definition userOperationDetailJSON (detail : string) : string :=
  if decide (trim_space detail = "") then "{}"
  else if json_valid detail then detail
  else json_object [("raw", JString detail)].

Definition log_item (r : operation_log) : UserOperationLogItem :=
  LogItem (ol_ID r) "user" (ol_OperatorID r) (ol_OperatorRole r) (ol_Action r) (ol_TargetType r)
    (ol_TargetID r) (userOperationDetailJSON (ol_Detail r)) (time_unix (ol_CreatedAt r)).

Definition svc_OperationLogs (c : ctx) (page pageSize : Z) (action : string)
    : UM (list UserOperationLogItem * Z) :=
  refuse_if (negb (VerifyAdmin c)) (Forbidden "权限不足" "只有管理员可以查看操作日志");;
  let page := if decide (page <= 0) then 1 else page in
  let pageSize := if decide (pageSize <= 0 \/ 100 < pageSize) then 30 else pageSize in
  let action := trim_space action in
  let p := fun r => bool_decide (action = "") || bool_decide (ol_Action r = action) in
  total ← map_err (fun e => InternalServer "查询失败" (error_text e)) (count_rows p);
  rows ← map_err (fun e => InternalServer "查询失败" (error_text e))
    (find_page p (desc_by ol_CreatedAt) pageSize
               (wrap_int64 (wrap_int64 (page - 1) * pageSize)));
  mret (map log_item rows, total).
