(* ===== verification/AuthTheory.v ===== *)
(** Who gets in: what a successful login has checked, that a registered user can
    log in, that the registration code is the one last set. *)
From S2P Require Export AuthService ProfileService.

(** ** Login *)

Section login.
Context `{Bcrypt} `{JwtSigner} (secret : string).

(** A token is signed for the first account of that name, and its password has
    been verified. *)
Definition login_checked (d : user_db) (username password : string) (r : LoginRes) : Prop :=
  lr_Success r = true -> exists u exp nbf,
    first_match (with_username username) (users d) = Some u /\
    password_matches (u_Password u) password /\
    SignedString secret (login_claims u exp nbf) = Val (lr_JwtToken r).

Lemma wpv_issue_token u (Q : LoginRes -> world user_db -> Prop) w :
  (forall r w', (lr_Success r = true -> exists exp nbf,
     SignedString secret (login_claims u exp nbf) = Val (lr_JwtToken r)) -> Q r w') ->
  wpv (issue_token secret u) Q w.
Proof.
  intros HQ. unfold issue_token. repeat wpv_step. apply HQ.
  destruct (SignedString _ _) eqn:E; simpl; [|done]. intros _. do 2 eexists. exact E.
Qed.

Lemma login_ok username password w :
  wpv (svc_Login secret username password)
      (fun r _ => login_checked (w_db w) username password r) w.
Proof.
  unfold svc_Login. repeat wpv_step.
  - intros u Hu. destruct (verifyPassword (u_Password u) password) as [valid rehashed] eqn:Hv.
    destruct valid; simpl; [|apply wpv_ret; by intros ?]. apply wpv_bind.
    apply wpv_any. intros _ w1.
    apply wpv_issue_token. intros r w2 Hr Hs. destruct (Hr Hs) as (exp & nbf & Ht).
    exists u, exp, nbf. rewrite <- verifyPassword_iff. by rewrite Hv.
  - intros _. apply wpv_ret. by intros ?.
  - intros e. apply wpv_ret. by intros ?.
Qed.
End login.

(** ** Registration *)

Section register.
Context `{Bcrypt} `{JwtSigner} (secret : string).

Definition registered_user (id : Z) (username hash name email : string) : user :=
  User id username hash "" name email 0 0 true false.

Definition valid_code (d : user_db) (code : string) : Prop :=
  let expected := match first_match (config_key registerInviteCodeKey) (system_configs d) with
                  | Some c => if decide (trim_space (sc_Value c) = "")
                              then defaultRegisterInviteCode else trim_space (sc_Value c)
                  | None => defaultRegisterInviteCode
                  end in
  (validateRegisterInviteCode code expected).1 = true.

Lemma wp_getRegisterInviteCode (Q : outcome string -> world user_db -> Prop) w :
  healthy w ->
  Q (Val match first_match (config_key registerInviteCodeKey) (system_configs (w_db w)) with
         | Some c => if decide (trim_space (sc_Value c) = "")
                     then defaultRegisterInviteCode else trim_space (sc_Value c)
         | None => defaultRegisterInviteCode
         end) (tick w) ->
  wp getRegisterInviteCode Q w.
Proof.
  intros Hw HQ. unfold getRegisterInviteCode. repeat wp_step. simpl.
  by destruct (first_match _ (system_configs (w_db w))); repeat wp_step.
Qed.

Lemma wp_register username password name email code h
    (Q : outcome RegisterRes -> world user_db -> Prop) w :
  healthy w -> valid_code (w_db w) code -> hashPassword password = Some h ->
  select (with_username username) (users (w_db w)) = [] ->
  (forall w', healthy w' ->
     users (w_db w') =
       insert_row (fun id => registered_user id username h name email) (users (w_db w)) ->
     Q (Val (RegisterReply true "注册成功")) w') ->
  wp (svc_Register username password name email code) Q w.
Proof.
  intros Hw Hc Hh Hfree HQ. unfold svc_Register. apply wp_bind, wp_getRegisterInviteCode; [done|].
  unfold valid_code in Hc. destruct (validateRegisterInviteCode _ _) as [ok msg]. simpl in *.
  subst ok. simpl. repeat wp_step. simpl. rewrite Hfree, Hh. repeat wp_step. by apply HQ.
Qed.

Lemma verify_hashed p h : hashPassword p = Some h -> verifyPassword h p = (true, false).
Proof.
  intros Hh. unfold verifyPassword, isBcryptHash. rewrite (bcrypt_prefix _ _ _ Hh). simpl.
  by rewrite (bcrypt_verifies _ _ _ Hh).
Qed.

(** The reply to a login that passes the check. *)
Definition login_reply (u : user) (exp nbf : Z) : LoginRes :=
  match SignedString secret (login_claims u exp nbf) with
  | Val token => LoginReply true "登录成功" token
  | Exn e => LoginReply false ("身份校验成功，但是jwt生成失败了." +:+ error_text e) ""
  end.

Lemma wp_login u username password h (Q : outcome LoginRes -> world user_db -> Prop) w :
  healthy w -> hashPassword password = Some h -> u_Password u = h ->
  first_match (with_username username) (users (w_db w)) = Some u ->
  (forall exp nbf w', Q (Val (login_reply u exp nbf)) w') ->
  wp (svc_Login secret username password) Q w.
Proof.
  intros Hw Hh Hp Hu HQ. unfold svc_Login. repeat wp_step. simpl. rewrite Hu. repeat wp_step.
  rewrite Hp, (verify_hashed _ _ Hh). simpl. unfold issue_token. repeat wp_step.
  match goal with |- context [login_claims u ?e ?n] => specialize (HQ e n) end.
  unfold login_reply in HQ. simpl in *. by destruct (SignedString _ _).
Qed.

Lemma first_inserted (t : table user) mk username :
  select (with_username username) t = [] -> u_deleted (mk (next_id t)) = false ->
  u_Username (mk (next_id t)) = username ->
  first_match (with_username username) (insert_row mk t) = Some (mk (next_id t)).
Proof.
  intros Hn Hl Hu. unfold first_match, select, insert_row in *. simpl. rewrite where_app, Hn. simpl.
  unfold visible, with_username. simpl. by rewrite Hl, Hu, bool_decide_true.
Qed.
End register.

(** ** The registration code *)

Definition current_code (d : user_db) : string :=
  match first_match (config_key registerInviteCodeKey) (system_configs d) with
  | Some c => if decide (trim_space (sc_Value c) = "")
              then defaultRegisterInviteCode else trim_space (sc_Value c)
  | None => defaultRegisterInviteCode
  end.

(** Setting a column of the first row that matches, by its key. *)
Lemma first_match_set {R} `{Entity R} (p : R -> bool) (f : R -> R) (t : table R) r :
  table_wf t -> (forall r, row_id (f r) = row_id r) -> (forall r, row_live (f r) = row_live r) ->
  (forall r, p (f r) = p r) -> first_match p t = Some r ->
  first_match p (update_match (by_id (row_id r)) f t) = Some (f r).
Proof.
  intros Hwf Hid Hl Hp Hr. pose proof (first_match_some _ _ _ Hr) as (Hin & Hlive & _).
  unfold first_match in *. rewrite select_update by done.
  destruct (select p t) as [|x l]; simplify_eq/=.
  unfold visible, by_id. rewrite Hlive. by rewrite bool_decide_true.
Qed.

Lemma wp_saveRegisterInviteCode code (Q : outcome () -> world user_db -> Prop) w :
  healthy w -> table_wf (system_configs (w_db w)) -> trim_space code = code -> code <> "" ->
  (forall w', healthy w' -> current_code (w_db w') = code -> Q (Val ()) w') ->
  wp (saveRegisterInviteCode code) Q w.
Proof.
  intros Hw Hwf Ht Hne HQ. unfold saveRegisterInviteCode. repeat wp_step. simpl.
  destruct (first_match _ (system_configs (w_db w))) as [c|] eqn:E; simpl; repeat wp_step.
  - apply HQ; [done|]. unfold current_code. simpl.
    erewrite (first_match_set _ (config_set_value code) _ c Hwf); try done.
    simpl. rewrite Ht. by rewrite decide_False.
  - apply HQ; [done|]. unfold current_code, first_match, select, insert_row. simpl.
    rewrite where_app. unfold first_match, select in E.
    destruct (where_ _ (rows (system_configs (w_db w)))); [|done]. simpl. rewrite Ht.
    by rewrite decide_False.
Qed.

(** ** Roles and passwords *)

(** A change of role that went through was asked for by an administrator on
    record, for somebody else. *)
Definition role_change_allowed (d : user_db) (c : ctx) (userId roleId : Z) : Prop :=
  exists caller target,
    first_match (by_id (wrap_int64 (GetCurrentUserId c))) (users d) = Some caller /\
    u_RoleID caller = RoleAdmin /\ first_match (by_id userId) (users d) = Some target /\
    u_RoleID target <> RoleAdmin /\ wrap_int64 (GetCurrentUserId c) <> userId /\
    (roleId = RoleUser \/ roleId = RoleCoach).

Lemma set_role_ok c userId roleId w :
  wpv (svc_SetUserRole c userId roleId)
      (fun _ _ => role_change_allowed (w_db w) c userId roleId) w.
Proof.
  unfold svc_SetUserRole, profile_GetById. cbn zeta. repeat wpv_step.
  bool_cases. apply Rules.canSetUserRole_iff in H3 as (Ha & Hne & Ht & Hr).
  assert (role_change_allowed (w_db w) c userId roleId) as HP by (exists r, r0; done).
  repeat first [exact HP | apply wpv_any; intros ? ?].
Qed.

Section change_password.
Context `{Bcrypt}.

(** A password that was changed: by its owner who knew the old one, or by an
    administrator and then not another administrator's. *)
Definition password_change_allowed (d : user_db) (c : ctx) (userId : Z) (old : string) : Prop :=
  exists pd target,
    c = Some pd /\ first_match (by_id userId) (users d) = Some target /\
    (caller_id pd = userId /\ password_matches (u_Password target) old \/
     caller_id pd <> userId /\ jwt_RoleID pd = RoleAdmin /\ u_RoleID target <> RoleAdmin).

Lemma change_password_ok c userId old new w :
  wpv (svc_ChangePassword c userId old new)
      (fun r _ => fr_Success r = true -> password_change_allowed (w_db w) c userId old) w.
Proof.
  unfold svc_ChangePassword, profile_GetById, require_login. apply wpv_bind.
  destruct c as [pd|]; [|apply wpv_throw]. case_decide; [apply wpv_throw|]. apply wpv_ret.
  repeat wpv_step. cbn zeta. repeat wpv_step. simpl in *.
  destruct (bool_decide (caller_id pd = userId)) eqn:Hself; simpl in *;
    destruct ((verifyPassword (u_Password r) old).1) eqn:Hv; simpl in *.
  2: by apply wpv_ret.
  all: assert (password_change_allowed (w_db w) (Some pd) userId old) as HP; [|
    destruct (hashPassword new); [|apply wpv_throw];
    repeat first [exact HP | intros _; exact HP | apply wpv_any; intros ? ?]].
  all: exists pd, r; rewrite <- ?verifyPassword_iff, ?andb_true_r in *; bool_cases; split_and!; try done.
  1: by left.
  all: by right.
Qed.
End change_password.
