(* ===== verification/UserSystem.v ===== *)
(** The user service as a whole: every handler as a request, the states that
    requests reach, and the invariant of those states. *)
From S2P Require Export TeamTheory MessageTheory ProfileService AuthService.

(** ** Requests *)

(** The RPCs and HTTP routes of the service, each with its caller and arguments. *)
Inductive request :=
  | RqTeamDetail (c : ctx) (groupId : Z)
  | RqCreateTeam (c : ctx) (name avatar describe : string)
  | RqUpdateTeam (c : ctx) (id : Z) (name avatar describe : string)
  | RqInvite (c : ctx) (inviteeId : Z)
  | RqRemoveMember (c : ctx) (userId : Z)
  | RqTransferOwner (c : ctx) (userId : Z)
  | RqLeave (c : ctx)
  | RqDisband (c : ctx)
  | RqListInvites (c : ctx)
  | RqRespond (c : ctx) (inviteId : Z) (accept : bool)
  | RqGroupCreate (c : ctx) (name describe : string)
  | RqGroupDelete (c : ctx) (id : Z)
  | RqGroupGet (c : ctx) (id : Z)
  | RqGroupList (c : ctx) (page size : Z)
  | RqGroupUpdate (c : ctx) (id : Z) (name describe : string)
  | RqGetByName (c : ctx) (name : string)
  | RqMoveGroup (c : ctx) (userId groupId : Z)
  | RqUpdate (c : ctx) (userId : Z) (avatar name email : string)
  | RqGetUserIdsByGroup (groupId : Z)
  | RqGetByIds (userIds : list Z)
  | RqSetEmailEnabled (c : ctx) (userId : Z) (enabled : bool)
  | RqDeleteUser (c : ctx) (userId : Z)
  | RqChangePassword (c : ctx) (userId : Z) (oldPassword newPassword : string)
  | RqGetList (c : ctx) (pageSize pageNum : Z)
  | RqGetById (c : ctx) (userId : Z)
  | RqSetUserRole (c : ctx) (userId roleId : Z)
  | RqConversations (c : ctx) (page pageSize : Z)
  | RqThread (c : ctx) (other page pageSize : Z)
  | RqSend (c : ctx) (receiverId : Z) (content : string)
  | RqMarkRead (c : ctx) (other : Z)
  | RqUnreadCount (c : ctx)
  | RqBroadcast (c : ctx) (content : string)
  | RqLogin (username password : string)
  | RqRegister (username password name email inviteCode : string)
  | RqGetInviteCode (c : ctx)
  | RqUpdateInviteCode (c : ctx) (code : string)
  | RqOperationLogs (c : ctx) (page pageSize : Z) (action : string).

Section system.
Context `{Bcrypt} `{JwtSigner} `{CoreDataRPC} (jwtSecret : string).

Definition serve (r : request) : UM () :=
  match r with
  | RqTeamDetail c g => svc_TeamDetail c g;; mret ()
  | RqCreateTeam c n a d => svc_CreateTeam c n a d;; mret ()
  | RqUpdateTeam c i n a d => svc_UpdateTeam c i n a d;; mret ()
  | RqInvite c i => svc_InviteTeamMember c i;; mret ()
  | RqRemoveMember c u => svc_RemoveTeamMember c u;; mret ()
  | RqTransferOwner c u => svc_TransferTeamOwner c u;; mret ()
  | RqLeave c => svc_LeaveTeam c;; mret ()
  | RqDisband c => svc_DisbandTeam c;; mret ()
  | RqListInvites c => svc_ListTeamInvites c;; mret ()
  | RqRespond c i a => svc_RespondTeamInvite c i a;; mret ()
  | RqGroupCreate c n d => svc_GroupCreate c n d;; mret ()
  | RqGroupDelete c i => svc_GroupDelete c i;; mret ()
  | RqGroupGet c i => svc_GroupGet c i;; mret ()
  | RqGroupList c p s => svc_GroupList c p s;; mret ()
  | RqGroupUpdate c i n d => svc_GroupUpdate c i n d;; mret ()
  | RqGetByName c n => svc_GetByName c n;; mret ()
  | RqMoveGroup c u g => svc_MoveGroup c u g;; mret ()
  | RqUpdate c u a n e => svc_Update c u a n e;; mret ()
  | RqGetUserIdsByGroup g => svc_GetUserIdsByGroup g;; mret ()
  | RqGetByIds us => svc_GetByIds us;; mret ()
  | RqSetEmailEnabled c u b => svc_SetEmailEnabled c u b;; mret ()
  | RqDeleteUser c u => svc_DeleteUser c u;; mret ()
  | RqChangePassword c u o n => svc_ChangePassword c u o n;; mret ()
  | RqGetList c s n => svc_GetList c s n;; mret ()
  | RqGetById c u => svc_GetById c u;; mret ()
  | RqSetUserRole c u r => svc_SetUserRole c u r;; mret ()
  | RqConversations c p s => svc_Conversations c p s;; mret ()
  | RqThread c o p s => svc_Thread c o p s;; mret ()
  | RqSend c r s => svc_Send c r s;; mret ()
  | RqMarkRead c o => svc_MarkRead c o;; mret ()
  | RqUnreadCount c => svc_UnreadCount c;; mret ()
  | RqBroadcast c s => svc_Broadcast c s;; mret ()
  | RqLogin u p => svc_Login jwtSecret u p;; mret ()
  | RqRegister u p n e i => svc_Register u p n e i;; mret ()
  | RqGetInviteCode c => svc_GetRegisterInviteCode c;; mret ()
  | RqUpdateInviteCode c s => svc_UpdateRegisterInviteCode c s;; mret ()
  | RqOperationLogs c p s a => svc_OperationLogs c p s a;; mret ()
  end.

(** The two requests by which an administrator overrides the team rules. *)
Definition overrides (r : request) : bool :=
  match r with RqMoveGroup _ _ _ | RqGroupDelete _ _ => true | _ => false end.

Definition empty_db : user_db :=
  UserDb (Table [] 1) (Table [] 1) (Table [] 1) (Table [] 1) (Table [] 1) (Table [] 1)
         (Table [] 1).

(** Requests served one after the other, whatever the cache holds, the clock
    reads and the calls do at the time. *)
Inductive reachable (allowed : request -> bool) : user_db -> Prop :=
  | reach_start : reachable allowed empty_db
  | reach_serve r w :
      reachable allowed (w_db w) -> allowed r = true -> reachable allowed (w_db (serve r w).2).

Lemma reachable_keeps (allowed : request -> bool) (I : user_db -> Prop) d :
  I empty_db -> (forall r, allowed r = true -> keeps I (serve r)) -> reachable allowed d -> I d.
Proof. intros Hi Hk. induction 1; [done|]. by apply Hk. Qed.
End system.

(** ** Messages *)

Section messages_kept.
Lemma messages_ok_users t d : messages_ok d -> messages_ok (set_table (R := user) t d).
Proof. by apply messages_ok_ext. Qed.
Lemma messages_ok_groups t d : messages_ok d -> messages_ok (set_table (R := group) t d).
Proof. by apply messages_ok_ext. Qed.
Lemma messages_ok_invites t d : messages_ok d -> messages_ok (set_table (R := group_invite) t d).
Proof. by apply messages_ok_ext. Qed.
Lemma messages_ok_configs t d : messages_ok d -> messages_ok (set_table (R := system_config) t d).
Proof. by apply messages_ok_ext. Qed.
Lemma messages_ok_logs t d : messages_ok d -> messages_ok (set_table (R := operation_log) t d).
Proof. by apply messages_ok_ext. Qed.
End messages_kept.

#[export] Hint Resolve messages_ok_users messages_ok_groups messages_ok_invites
  messages_ok_configs messages_ok_logs messages_ok_rollback : keeps.

Lemma keeps_broadcast_loop s c ids n : keeps messages_ok (broadcast_loop s c ids n).
Proof.
  revert n. induction ids as [|r ids IH]; intros n; simpl; [solve_keeps|]. case_decide; [done|].
  apply keeps_bind; [by apply keeps_map_err, keeps_msg_Send | done].
Qed.

Lemma keeps_svc_Send c r s : keeps messages_ok (svc_Send c r s).
Proof.
  unfold svc_Send. apply keeps_bind; [solve_keeps|]. intros u.
  apply keeps_guarded. intros _. apply keeps_guarded. intros Hr. bool_cases.
  apply keeps_bind; [solve_keeps|]. intros t. apply keeps_bind; [|solve_keeps].
  apply keeps_map_err, keeps_msg_Send. congruence.
Qed.

#[export] Hint Resolve keeps_broadcast_loop keeps_svc_Send keeps_MarkThreadRead : keeps.

Section messages_served.
Context `{Bcrypt} `{JwtSigner} `{CoreDataRPC} (jwtSecret : string).

Lemma keeps_messages_serve r : keeps messages_ok (serve jwtSecret r).
Proof. destruct r; simpl; solve_keeps. Qed.
End messages_served.

(** ** Teams *)

Definition teams_ok (d : user_db) : Prop := wf d /\ view_ok (view d).

Lemma teams_ok_same d d' :
  users d' = users d -> groups d' = groups d -> group_invites d' = group_invites d ->
  teams_ok d -> teams_ok d'.
Proof. intros Hu Hg Hi. unfold teams_ok, wf, view. by rewrite Hu, Hg, Hi. Qed.

Lemma teams_ok_threads t d : teams_ok d -> teams_ok (set_table (R := dm_thread) t d).
Proof. by apply teams_ok_same. Qed.
Lemma teams_ok_messages t d : teams_ok d -> teams_ok (set_table (R := dm_message) t d).
Proof. by apply teams_ok_same. Qed.
Lemma teams_ok_configs t d : teams_ok d -> teams_ok (set_table (R := system_config) t d).
Proof. by apply teams_ok_same. Qed.
Lemma teams_ok_logs t d : teams_ok d -> teams_ok (set_table (R := operation_log) t d).
Proof. by apply teams_ok_same. Qed.

Lemma teams_ok_rollback d d' : teams_ok d -> teams_ok (rollback d d').
Proof. intros [Hwf Hv]. split; [by apply wf_rollback | done]. Qed.

(** A change of a user that leaves the key, the team and the visibility alone. *)
Lemma teams_ok_users p f d :
  (forall r, u_ID (f r) = u_ID r) -> (forall r, u_GroupId (f r) = u_GroupId r) ->
  (forall r, u_deleted (f r) = u_deleted r) ->
  teams_ok d -> teams_ok (set_table (update_match p f (users d)) d).
Proof.
  intros Hid Hg Hl [Hwf Hv]. split; [by apply wf_users|].
  assert (view (set_table (update_match p f (users d)) d) ≡ view d) as ->; [|done].
  split; intros i; simpl; [|done]. apply fmap_update_same; simpl; try done.
  intros r. by rewrite Hl.
Qed.

Lemma teams_ok_group_columns p f d :
  (forall r, g_ID (f r) = g_ID r) -> (forall r, g_OwnerId (f r) = g_OwnerId r) ->
  (forall r, g_deleted (f r) = g_deleted r) ->
  teams_ok d -> teams_ok (set_table (update_match p f (groups d)) d).
Proof.
  intros Hid Hg Hl [Hwf Hv]. split; [by apply wf_groups|].
  assert (view (set_table (update_match p f (groups d)) d) ≡ view d) as ->; [|done].
  split; intros i; simpl; [done|]. apply fmap_update_same; simpl; try done.
  intros r. by rewrite Hl.
Qed.

Lemma add_team_ok v g :
  view_ok v -> g <> 0 -> v_own v g = None -> view_ok (add_team g 0 v).
Proof.
  intros (H1 & H2 & H3 & H4) Hg Ho. split_and!; view_cases; try done.
  - intros u x Hu Hx. view_cases; [by eexists | by eapply H1].
  - intros x o. view_cases; [by intros [= <-] | apply H2].
Qed.

Lemma add_user_ok v u : view_ok v -> u <> 0 -> v_mem v u = None -> view_ok (add_user u v).
Proof.
  intros (H1 & H2 & H3 & H4) Hu Hm. split_and!; view_cases; try done.
  - intros x g. view_cases; [by intros [= <-] | apply H1].
  - intros g o Ho Hne. view_cases; [|by apply H2]. rewrite (H2 _ _ Ho Hne) in Hm. done.
Qed.

Lemma teams_ok_new_group n de d :
  teams_ok d ->
  teams_ok (set_table (insert_row (fun id => Group id (Some n) de "" 0 false) (groups d)) d).
Proof.
  intros [Hwf Hv]. pose proof (wf_groups_table _ Hwf) as Hg. split; [by apply wf_insert_group|].
  rewrite (view_add_team _ 0) by done. apply add_team_ok; [done| |].
  - destruct Hg as (_ & _ & ?). lia.
  - simpl. by rewrite first_match_fresh by (done || lia).
Qed.

Lemma teams_ok_new_user mk d :
  (forall i, u_ID (mk i) = i) -> (forall i, u_GroupId (mk i) = 0) ->
  (forall i, u_deleted (mk i) = false) ->
  teams_ok d -> teams_ok (set_table (insert_row mk (users d)) d).
Proof.
  intros Hid Hg Hl [Hwf Hv]. pose proof (wf_users_table _ Hwf) as Hu.
  assert (view (set_table (insert_row mk (users d)) d) ≡ add_user (next_id (users d)) (view d)) as E.
  { split; intros i; simpl; [|done]. rewrite first_match_insert by (intros; simpl; rewrite ?Hid, ?Hl; done).
    case_decide; subst; [rewrite first_match_fresh by (done || lia); simpl; by rewrite Hg|].
    by destruct (first_match (by_id i) (users d)). }
  split.
  - destruct Hwf as (? & ? & ? & ?). split_and!; try done. by apply table_wf_insert.
  - rewrite E. apply add_user_ok; [done| |].
    + destruct Hu as (_ & _ & ?). lia.
    + simpl. by rewrite first_match_fresh by (done || lia).
Qed.

Lemma keeps_op op : keeps teams_ok (run_op op).
Proof.
  intros w [Hwf Hv]. pose proof (op_refines op w Hwf) as Hr. unfold wpd in Hr.
  destruct Hr as [Hwf' Hr]. split; [done|]. destruct ((run_op op w).1).
  - by eapply team_step_ok.
  - by rewrite Hr.
Qed.

Lemma keeps_of_then {A} (I : user_db -> Prop) (m : UM A) : keeps I (m;; mret ()) -> keeps I m.
Proof.
  intros Hk w Hw. specialize (Hk w Hw). unfold mbind, M_bind in Hk. by destruct (m w) as [[a|e] w'].
Qed.

Lemma keeps_CreateTeam u n a d : keeps teams_ok (CreateTeamForUser u n a d).
Proof. apply keeps_of_then, (keeps_op (OpCreateTeam u n a d)). Qed.
Lemma keeps_UpdateTeam u g n a d : keeps teams_ok (UpdateTeam u g n a d).
Proof. apply (keeps_op (OpUpdateTeam u g n a d)). Qed.
Lemma keeps_InviteUser i j : keeps teams_ok (InviteUser i j).
Proof. apply keeps_of_then, (keeps_op (OpInvite i j)). Qed.
Lemma keeps_RemoveTeamMember o m : keeps teams_ok (RemoveTeamMember o m).
Proof. apply (keeps_op (OpRemoveMember o m)). Qed.
Lemma keeps_TransferTeamOwner o n : keeps teams_ok (TransferTeamOwner o n).
Proof. apply (keeps_op (OpTransfer o n)). Qed.
Lemma keeps_LeaveTeam u : keeps teams_ok (LeaveTeam u).
Proof. apply (keeps_op (OpLeave u)). Qed.
Lemma keeps_DisbandTeam o : keeps teams_ok (DisbandTeam o).
Proof. apply (keeps_op (OpDisband o)). Qed.
Lemma keeps_RespondInvite u i a : keeps teams_ok (RespondInvite u i a).
Proof. apply (keeps_op (OpRespond u i a)). Qed.
Lemma keeps_DeleteUser u : keeps teams_ok (profile_DeleteUser u).
Proof. apply (keeps_op (OpDeleteUser u)). Qed.

Lemma keeps_GetWithUsers g : keeps teams_ok (GetWithUsers g).
Proof.
  apply keeps_transaction; [apply teams_ok_rollback|]. intros w [Hwf Hv]. repeat wpv_step.
  apply wpv_ensureGroupOwner; [done| |].
  - simpl; by rewrite (own_id _ _ _ H).
  - intros g' w' Hwf' _ _ Hr _. repeat wpv_step. split; [done | by eapply repaired_ok].
Qed.

#[export] Hint Resolve teams_ok_threads teams_ok_messages teams_ok_configs teams_ok_logs
  teams_ok_rollback teams_ok_new_group keeps_CreateTeam keeps_UpdateTeam keeps_InviteUser
  keeps_RemoveTeamMember keeps_TransferTeamOwner keeps_LeaveTeam keeps_DisbandTeam
  keeps_RespondInvite keeps_DeleteUser keeps_GetWithUsers : keeps.
#[export] Hint Extern 5 (teams_ok (set_table (update_match _ _ (table_of _)) _)) =>
  first [by apply teams_ok_users | by apply teams_ok_group_columns] : keeps.
#[export] Hint Extern 5 (teams_ok (set_table (insert_row _ (table_of _)) _)) =>
  by apply teams_ok_new_user : keeps.

Section teams_served.
Context `{Bcrypt} `{JwtSigner} `{CoreDataRPC} (jwtSecret : string).

Lemma keeps_teams_broadcast s c ids n : keeps teams_ok (broadcast_loop s c ids n).
Proof. revert n. induction ids as [|r ids IH]; intros n; simpl; solve_keeps. Qed.

#[local] Hint Resolve keeps_teams_broadcast : keeps.

Lemma keeps_teams_serve r : overrides r = false -> keeps teams_ok (serve jwtSecret r).
Proof. destruct r; intros Hr; try discriminate Hr; simpl; solve_keeps. Qed.
End teams_served.

(** ** Administrators *)

(** Whoever is an administrator in [d] was one in [d0]. *)
Definition admins_from (d0 d : user_db) : Prop :=
  forall r, r ∈ rows (users d) -> u_RoleID r = RoleAdmin ->
  exists r0, r0 ∈ rows (users d0) /\ u_ID r0 = u_ID r /\ u_RoleID r0 = RoleAdmin.

Section admins.
Context (d0 : user_db).

Lemma admins_groups t d : admins_from d0 d -> admins_from d0 (set_table (R := group) t d).
Proof. done. Qed.
Lemma admins_invites t d :
  admins_from d0 d -> admins_from d0 (set_table (R := group_invite) t d).
Proof. done. Qed.
Lemma admins_threads t d : admins_from d0 d -> admins_from d0 (set_table (R := dm_thread) t d).
Proof. done. Qed.
Lemma admins_messages t d : admins_from d0 d -> admins_from d0 (set_table (R := dm_message) t d).
Proof. done. Qed.
Lemma admins_configs t d :
  admins_from d0 d -> admins_from d0 (set_table (R := system_config) t d).
Proof. done. Qed.
Lemma admins_logs t d : admins_from d0 d -> admins_from d0 (set_table (R := operation_log) t d).
Proof. done. Qed.
Lemma admins_rollback d d' : admins_from d0 d -> admins_from d0 (rollback d d').
Proof. done. Qed.

Lemma admins_users p f d :
  (forall r, u_ID (f r) = u_ID r) ->
  (forall r, u_RoleID (f r) = u_RoleID r \/ u_RoleID (f r) <> RoleAdmin) ->
  admins_from d0 d -> admins_from d0 (set_table (update_match p f (users d)) d).
Proof.
  intros Hid Hrole Hd r (r0 & Hr0 & ->)%elem_of_update Ha.
  destruct (visible p r0); [|by apply Hd]. rewrite Hid. apply Hd; [done|].
  destruct (Hrole r0); congruence.
Qed.

Lemma admins_new_user mk d :
  (forall i, u_RoleID (mk i) <> RoleAdmin) ->
  admins_from d0 d -> admins_from d0 (set_table (insert_row mk (users d)) d).
Proof. intros Hmk Hd r [Hr| ->]%elem_of_insert Ha; [by apply Hd | by destruct (Hmk _ Ha)]. Qed.

Lemma keeps_SetUserRole c u r : keeps (admins_from d0) (svc_SetUserRole c u r).
Proof.
  unfold svc_SetUserRole. cbn zeta. apply keeps_bind; [solve_keeps|]. intros caller.
  apply keeps_guarded. intros _. apply keeps_guarded. intros _.
  apply keeps_bind; [solve_keeps|]. intros target. apply keeps_guarded.
  intros (_ & _ & _ & Hr)%negb_false_iff%Rules.canSetUserRole_iff.
  apply keeps_bind; [|solve_keeps; by apply admins_logs].
  apply keeps_or_fail. unfold profile_SetRoleId, UpdateCacheDal. apply keeps_bind; [|solve_keeps].
  apply keeps_bind; [|solve_keeps]. apply keeps_exec. intros d Hd. apply admins_users; [done| |done].
  intros x. right. simpl. unfold RoleAdmin, RoleUser, RoleCoach in *. lia.
Qed.
End admins.

#[export] Hint Resolve admins_groups admins_invites admins_threads admins_messages admins_configs
  admins_logs admins_rollback keeps_SetUserRole : keeps.
#[export] Hint Extern 5 (admins_from _ (set_table (update_match _ _ (table_of _)) _)) =>
  by apply admins_users; [done | by left | done] : keeps.
#[export] Hint Extern 5 (admins_from _ (set_table (delete_match _ (table_of _)) _)) =>
  by apply admins_users; [done | by left | done] : keeps.
#[export] Hint Extern 5 (admins_from _ (set_table (insert_row _ (table_of _)) _)) =>
  by apply admins_new_user : keeps.

Section admins_served.
Context `{Bcrypt} `{JwtSigner} `{CoreDataRPC} (jwtSecret : string) (d0 : user_db).

Lemma keeps_admins_broadcast s c ids n : keeps (admins_from d0) (broadcast_loop s c ids n).
Proof. revert n. induction ids as [|r ids IH]; intros n; simpl; solve_keeps. Qed.

#[local] Hint Resolve keeps_admins_broadcast : keeps.

Lemma keeps_admins_serve r : keeps (admins_from d0) (serve jwtSecret r).
Proof. destruct r; simpl; solve_keeps. Qed.
End admins_served.
