(* ===== verification/UserProps.v ===== *)
(** The properties of the user service, with instances on concrete databases. *)
From S2P Require Export UserSystem AuthTheory.

(** ** Sample states *)

Definition world_of {D} (d : D) : world D :=
  World d ∅ 0 (fun _ => None) (fun n => Z.of_nat n * second).
(** As [world_of], but call [k] fails. *)
Definition world_failing {D} (k : nat) (d : D) : world D :=
  World d ∅ 0 (fun n => if decide (n = k) then Some "connection lost" else None)
        (fun n => Z.of_nat n * second).

Lemma world_of_healthy {D} (d : D) : healthy (world_of d).
Proof. done. Qed.

Definition sample_user (id gid role : Z) (name : string) : user :=
  User id name ("$2a$" +:+ name +:+ "-secret") "" name "" gid role true false.

(** Team 1 of users 1 (its owner) and 2; user 3 has no team, user 4 administers;
    user 3 is invited to team 1; user 2 has an unread message from user 1. *)
Definition sample_db : user_db :=
  UserDb
    (Table [sample_user 1 1 RoleUser "ann"; sample_user 2 1 RoleUser "bob";
            sample_user 3 0 RoleUser "cyd"; sample_user 4 0 RoleAdmin "dan"] 5)
    (Table [Group 1 (Some "alpha") "" "" 1 false] 2)
    (Table [GroupInvite 1 1 1 3 "pending" 0 false] 2)
    (Table [DirectMessageThread 1 "1:2" 1 2 1 "hi" 1 0 0 1 false] 2)
    (Table [DirectMessage 1 1 1 2 "hi" false None 0 false] 2)
    (Table [] 1) (Table [] 1).

Lemma table_wf_check {R} `{Entity R} (t : table R) :
  StronglySorted Z.lt (map row_id (rows t)) -> forallb (fun r => (0 <? row_id r) && (row_id r <? next_id t)) (rows t) = true ->
  0 < next_id t -> table_wf t.
Proof.
  intros Hs Hb Hn. split_and!; [done| |done]. apply Forall_forall. intros r Hr.
  rewrite forallb_forall in Hb. specialize (Hb r (proj1 (list_elem_of_In _ _) Hr)). lia.
Qed.

Ltac wf_table := apply table_wf_check; [simpl; repeat constructor | done | done].

Lemma sample_wf : wf sample_db.
Proof.
  split_and!; [wf_table..|]. intros i j Hi Hj. simpl in *.
  apply list_elem_of_singleton in Hi as ->. apply list_elem_of_singleton in Hj as ->. done.
Qed.

Lemma sample_view_ok : view_ok (view sample_db).
Proof.
  split_and!; try done; simpl; unfold first_match, select, visible, by_id; simpl; intros x y;
    repeat case_bool_decide; simpl; subst; try done; intros [= <-]; try done; by eexists.
Qed.

Lemma sample_messages_ok : messages_ok sample_db.
Proof.
  split; simpl.
  - wf_table.
  - wf_table.
  - intros t ->%list_elem_of_singleton. done.
  - intros m ->%list_elem_of_singleton. split; [done|]. eexists. split; [by apply list_elem_of_singleton|].
    split; [done|]. by left.
  - intros t t' ->%list_elem_of_singleton ->%list_elem_of_singleton. done.
Qed.

Lemma empty_teams_ok : teams_ok empty_db.
Proof.
  split; [split_and!; [wf_table..|] | by split_and!].
  intros i j Hi. by apply not_elem_of_nil in Hi.
Qed.

Lemma empty_messages_ok : messages_ok empty_db.
Proof.
  split; [wf_table | wf_table | intros t Hi | intros m Hi | intros t t' Hi];
    by apply not_elem_of_nil in Hi.
Qed.

#[export] Instance sample_signer : JwtSigner | 100 :=
  {| SignedString secret claims := Val (json_object claims +:+ "." +:+ secret) |}.
#[export] Instance sample_core_data : CoreDataRPC | 100 :=
  {| coreDataRPC := Val (); LastSubmitTime _ := Val ""; decode_times _ := Val ∅;
     GetSpiderRPC _ := Val [] |}.

Definition sample_ctx (id role : Z) : ctx := Some (Jwt id "" "" "" role).

(** ** Teams *)

(** C1: every team operation ([dal/group.go], and [DeleteUser] of [dal/profile.go]),
    run on well-formed tables under any pattern of failing calls, is a step of the
    abstract machine of [TeamSpec] when it succeeds, changes no user, team or
    membership when it fails, and leaves the tables well formed. *)
Theorem team_operations_refine (op : team_op) (w : world user_db) :
  wf (w_db w) -> wpd (run_op op) (refines op (w_db w)) w.
Proof. apply op_refines. Qed.

Lemma team_operations_refine_witness :
  wf sample_db /\
  (run_op (OpRemoveMember 1 2) (world_of sample_db)).1 = Val () /\
  wpd (run_op (OpRemoveMember 1 2)) (refines (OpRemoveMember 1 2) sample_db) (world_of sample_db).
Proof.
  split_and!; [exact sample_wf | vm_compute; reflexivity |].
  apply (team_operations_refine (OpRemoveMember 1 2) (world_of sample_db)), sample_wf.
Defined.



(** Nobody comes to belong to a team except by an operation of their own:
    creating it, or accepting an invitation. *)
Theorem membership_is_voluntary (op : team_op) (w : world user_db) (x g : Z) :
  wf (w_db w) -> v_mem (view (w_db (run_op op w).2)) x = Some g -> g <> 0 ->
  v_mem (view (w_db w)) x <> Some g -> actor op = x.
Proof. apply op_joins. Qed.

Lemma membership_is_voluntary_witness : actor (OpRespond 3 1 true) = 3.
Proof.
  apply (membership_is_voluntary (OpRespond 3 1 true) (world_of sample_db) 3 1);
    [exact sample_wf | vm_compute; reflexivity | discriminate | vm_compute; discriminate].
Defined.

(** ** The service *)

Definition within_rules (r : request) : bool := negb (overrides r).


Definition demo_register (n : string) : request := RqRegister n "secret" n "" "wustacm666".
Definition demo (rs : list request) : user_db :=
  foldl (fun d r => w_db (serve "k" r (world_of d)).2) empty_db rs.
Definition demo_requests : list request :=
  [demo_register "ann"; demo_register "bob"; RqCreateTeam (sample_ctx 1 0) "alpha" "" "";
   RqInvite (sample_ctx 1 0) 2; RqRespond (sample_ctx 2 0) 1 true; RqSend (sample_ctx 1 0) 2 "hi"].

Lemma reach_demo rs : forallb within_rules rs = true -> reachable "k" within_rules (demo rs).
Proof.
  unfold demo. induction rs as [|r rs IH] using rev_ind; [intros; apply reach_start|].
  rewrite forallb_app, foldl_snoc. simpl. intros [Hrs Hr]%andb_true_iff. rewrite andb_true_r in Hr.
  apply (reach_serve "k" within_rules r (world_of (foldl _ empty_db rs))); [by apply IH | done].
Qed.


(** C6: no request makes an administrator: whatever a request is, whatever token it
    carries and whichever calls fail, an account that has the administrator role
    afterwards had it before. *)
Theorem no_request_makes_admin `{Bcrypt} `{JwtSigner} `{CoreDataRPC} (secret : string)
    (r : request) (w : world user_db) (u : user) :
  u ∈ rows (users (w_db (serve secret r w).2)) -> u_RoleID u = RoleAdmin ->
  exists u0, u0 ∈ rows (users (w_db w)) /\ u_ID u0 = u_ID u /\ u_RoleID u0 = RoleAdmin.
Proof.
  apply (keeps_admins_serve secret (w_db w) r w). intros u0 Hu0 Hr. by exists u0.
Qed.

Lemma no_request_makes_admin_witness :
  exists u0, u0 ∈ rows (users sample_db) /\ u_ID u0 = 4 /\ u_RoleID u0 = RoleAdmin.
Proof.
  apply (no_request_makes_admin "k" (RqSetUserRole (sample_ctx 4 1) 3 2) (world_of sample_db)
           (sample_user 4 0 RoleAdmin "dan")); [|reflexivity].
  vm_compute. right. right. right. left.
Defined.

(** Moving a user as an administrator can do what no operation of the team does:
    it takes the owner out of the team and leaves the team to an owner who is not a
    member of it. *)
Theorem move_group_breaks_ownership :
  let w := world_of sample_db in
  (svc_MoveGroup (sample_ctx 4 RoleAdmin) 1 0 w).1 = Val (CodeMessage 0 "移动成功") /\
  view_ok (view (w_db w)) /\
  ~ view_ok (view (w_db (svc_MoveGroup (sample_ctx 4 RoleAdmin) 1 0 w).2)).
Proof.
  split_and!; [vm_compute; reflexivity | exact sample_view_ok |].
  intros (_ & Hown & _). specialize (Hown 1 1). vm_compute in Hown.
  by specialize (Hown eq_refl ltac:(discriminate)).
Qed.

(** Deleting a group is not atomic: when the second of its statements fails, the
    request is answered with an error, the group is gone and its members still
    belong to it. *)
Theorem group_delete_not_atomic :
  let w := world_failing 1 sample_db in
  let r := svc_GroupDelete (sample_ctx 4 RoleAdmin) 1 w in
  is_val r.1 = false /\ v_own (view (w_db r.2)) 1 = None /\ v_mem (view (w_db r.2)) 2 = Some 1.
Proof. vm_compute. split_and!; reflexivity. Qed.

(** ** Messages *)

(** C7: in a run without failures, the unread count a user is shown is the number of
    unread messages addressed to the user, in every database whose threads and
    messages are consistent. *)
Theorem unread_count_exact (c : ctx) (pd : JwtPayload) (w : world user_db) :
  healthy w -> messages_ok (w_db w) -> c = Some pd -> jwt_UserID pd <> 0 ->
  (svc_UnreadCount c w).1 = Val (unread_total (w_db w) (wrap_int64 (jwt_UserID pd))).
Proof.
  intros Hw Hok -> Hne.
  change (wp (svc_UnreadCount (Some pd))
    (fun o _ => o = Val (unread_total (w_db w) (wrap_int64 (jwt_UserID pd)))) w).
  unfold svc_UnreadCount, currentUserId, require_login. rewrite decide_False by done.
  repeat wp_step. by apply wp_msg_UnreadCount.
Qed.

Lemma unread_count_exact_witness :
  (svc_UnreadCount (sample_ctx 2 0) (world_of sample_db)).1 = Val 1.
Proof.
  rewrite (unread_count_exact (sample_ctx 2 0) (Jwt 2 "" "" "" 0) (world_of sample_db)).
  - vm_compute. reflexivity.
  - done.
  - exact sample_messages_ok.
  - reflexivity.
  - discriminate.
Defined.

(** The recipients of a broadcast: every active account but the sender's. *)
Definition recipients (d : user_db) (sender : Z) : list Z :=
  filter (fun x => x <> sender) (broadcast_ids d).

(** C8: a broadcast of an administrator or coach, in a run without failures, reaches
    every active account except the sender's: each has exactly one unread message
    more, nobody else has, and the reply counts the recipients. *)
Theorem broadcast_reaches_everyone (pd : JwtPayload) (content s : string) (u : user)
    (w : world user_db) :
  healthy w -> messages_ok (w_db w) -> table_wf (users (w_db w)) -> jwt_UserID pd <> 0 ->
  let sender := wrap_int64 (jwt_UserID pd) in
  first_match (by_id sender) (users (w_db w)) = Some u ->
  canBroadcastMessage (u_RoleID u) = true -> normalizeMessageContent content = Val s ->
  wp (svc_Broadcast (Some pd) content) (fun o w' =>
    o = Val ("群发成功", Z.of_nat (length (recipients (w_db w) sender))) /\
    forall x, unread_total (w_db w') x =
      unread_total (w_db w) x + if decide (x ∈ recipients (w_db w) sender) then 1 else 0) w.
Proof.
  intros Hw Hok Hwf Hne sender Hu Hrole Hs. unfold svc_Broadcast, require_login, content_or_fail.
  rewrite decide_False, Hs by done. unfold profile_GetById, ListActiveUserIds.
  repeat wp_step. simpl. fold sender. rewrite Hu. repeat wp_step. rewrite Hrole. simpl. repeat wp_step.
  change (map u_ID _) with (broadcast_ids (w_db w)).
  apply (wp_broadcast_loop sender s (broadcast_ids (w_db w)) 0); [done|done| | |].
  - by apply broadcast_ids_NoDup.
  - intros x. by apply broadcast_ids_present.
  - intros w' Hok' _ Hw' Hx. unfold recordUserOperation. repeat wp_step. split; [done|]. intros x.
    simpl. etrans; [apply Hx|]. unfold receives. f_equal. unfold recipients.
    repeat case_decide; try done; rewrite list_elem_of_filter in *; naive_solver.
Qed.

Lemma broadcast_reaches_everyone_witness :
  wp (svc_Broadcast (sample_ctx 4 RoleAdmin) " hello ") (fun o w' =>
    o = Val ("群发成功", 3) /\
    forall x, unread_total (w_db w') x =
      unread_total sample_db x + if decide (x ∈ recipients sample_db 4) then 1 else 0)
    (world_of sample_db).
Proof.
  apply (broadcast_reaches_everyone (Jwt 4 "" "" "" RoleAdmin) " hello " "hello"
           (sample_user 4 0 RoleAdmin "dan") (world_of sample_db));
    [done | exact sample_messages_ok | wf_table | discriminate | reflexivity..].
Defined.

(** The key of a thread names its two users: two pairs have the same key exactly
    when they are the same pair, in whichever order. *)
Theorem pair_key_identifies (a b x y : Z) :
  pair_key a b = pair_key x y <-> a = x /\ b = y \/ a = y /\ b = x.
Proof.
  split; [apply pair_key_inj|]. intros [[-> ->]|[-> ->]]; [done | apply pair_key_sym].
Qed.

(** Whatever page a client asks for, the page number of a list of conversations is
    positive, its size lies between 1 and 50, and no more conversations than that
    are returned. *)
Theorem conversation_page_bounded (c : ctx) (page pageSize : Z) (w w' : world user_db)
    (r : ConversationListReply) :
  svc_Conversations c page pageSize w = (Val r, w') ->
  1 <= cl_Page r /\ 1 <= cl_PageSize r <= 50 /\ Z.of_nat (length (cl_List r)) <= cl_PageSize r.
Proof.
  revert r w'. change (wpv (svc_Conversations c page pageSize) (fun r _ =>
    1 <= cl_Page r /\ 1 <= cl_PageSize r <= 50 /\ Z.of_nat (length (cl_List r)) <= cl_PageSize r) w).
  unfold svc_Conversations. apply wpv_bind, wpv_any. intros u w1.
  destruct (normalizePage page pageSize) as [p s] eqn:Hn.
  assert (1 <= p /\ 1 <= s <= 50) as [Hp Hs]
    by (unfold normalizePage in Hn; repeat case_decide; simplify_eq; lia).
  apply wpv_bind, wpv_map_err. unfold ListConversations. repeat wpv_step.
  apply wpv_any. intros m w2. repeat wpv_step. apply wpv_any. intros n w3. apply wpv_ret. simpl.
  rewrite !length_map. split_and!; [lia|lia|lia|]. by apply limit_rows_length; lia.
Qed.

Lemma conversation_page_bounded_witness :
  exists r w', svc_Conversations (sample_ctx 1 0) (-3) 1000 (world_of sample_db) = (Val r, w') /\
  1 <= cl_Page r /\ 1 <= cl_PageSize r <= 50 /\ Z.of_nat (length (cl_List r)) <= cl_PageSize r.
Proof.
  eexists _, _. split; [vm_compute; reflexivity|].
  eapply (conversation_page_bounded (sample_ctx 1 0) (-3) 1000 (world_of sample_db)).
  vm_compute. reflexivity.
Defined.

(** ** Accounts *)

(** C14: a login that succeeds, whichever calls fail, has verified the password of the
    first active account of that name, and the token it returns is signed for that
    account's number, name and role. *)
Theorem login_verifies `{Bcrypt} `{JwtSigner} (secret username password : string)
    (w w' : world user_db) (r : LoginRes) :
  svc_Login secret username password w = (Val r, w') -> lr_Success r = true ->
  exists u exp nbf,
    first_match (with_username username) (users (w_db w)) = Some u /\
    password_matches (u_Password u) password /\
    SignedString secret (login_claims u exp nbf) = Val (lr_JwtToken r).
Proof. intros Hr. exact (login_ok secret username password w r w' Hr). Qed.

Lemma login_verifies_witness :
  exists r w', svc_Login "k" "ann" "ann-secret" (world_of sample_db) = (Val r, w') /\
  lr_Success r = true /\ exists u exp nbf,
    first_match (with_username "ann") (users sample_db) = Some u /\
    password_matches (u_Password u) "ann-secret" /\
    SignedString "k" (login_claims u exp nbf) = Val (lr_JwtToken r).
Proof.
  eexists _, _. split; [vm_compute; reflexivity|]. split; [reflexivity|].
  eapply (login_verifies "k" "ann" "ann-secret" (world_of sample_db));
    [vm_compute; reflexivity | reflexivity].
Defined.

(** An account that has just been registered can log in with its password, as an
    ordinary user, in a run without failures. *)
Theorem register_then_login `{Bcrypt} `{JwtSigner}
    (secret username password name email code h : string) (w : world user_db) :
  healthy w -> valid_code (w_db w) code -> hashPassword password = Some h ->
  select (with_username username) (users (w_db w)) = [] ->
  wp (svc_Register username password name email code) (fun o w' =>
    o = Val (RegisterReply true "注册成功") /\
    exists id, wp (svc_Login secret username password) (fun o2 _ =>
      exists exp nbf,
        o2 = Val (login_reply secret (registered_user id username h name email) exp nbf)) w') w.
Proof.
  intros Hw Hc Hh Hfree. apply (wp_register _ _ _ _ _ h); [done..|]. intros w1 Hw1 Hu. split; [done|].
  exists (next_id (users (w_db w))). apply (wp_login secret
    (registered_user (next_id (users (w_db w))) username h name email) _ _ h); [done..| |].
  - rewrite Hu. by apply (first_inserted (users (w_db w))
      (fun id => registered_user id username h name email)).
  - intros exp nbf w2. by exists exp, nbf.
Qed.

Lemma register_then_login_witness :
  wp (svc_Register "eve" "pw" "Eve" "" "wustacm666") (fun o w' =>
    o = Val (RegisterReply true "注册成功") /\
    exists id, wp (svc_Login "k" "eve" "pw") (fun o2 _ =>
      exists exp nbf,
        o2 = Val (login_reply "k" (registered_user id "eve" "$2a$pw" "Eve" "") exp nbf)) w')
    (world_of sample_db).
Proof.
  apply (register_then_login "k" "eve" "pw" "Eve" "" "wustacm666" "$2a$pw");
    [done | vm_compute; reflexivity..].
Defined.

(** The registration code an administrator sets is the one that is asked for
    afterwards. *)
Theorem invite_code_roundtrip (pd : JwtPayload) (code : string) (w : world user_db) :
  healthy w -> table_wf (system_configs (w_db w)) -> jwt_RoleID pd = RoleAdmin ->
  trim_space code = code -> code <> "" ->
  wp (svc_UpdateRegisterInviteCode (Some pd) code) (fun o w' =>
    o = Val (CodeInfo true "邀请码已更新" code) /\ wp getRegisterInviteCode (fun o2 _ => o2 = Val code) w') w.
Proof.
  intros Hw Hwf Hr Ht Hne. unfold svc_UpdateRegisterInviteCode, VerifyAdmin. rewrite Hr, Ht. simpl.
  cbn zeta. repeat wp_step. rewrite bool_decide_false by done. repeat wp_step.
  apply wp_saveRegisterInviteCode; [done..|]. intros w' Hw' Hcode. repeat wp_step. split; [done|].
  apply wp_getRegisterInviteCode; [done|]. by rewrite <- Hcode.
Qed.

Lemma invite_code_roundtrip_witness :
  wp (svc_UpdateRegisterInviteCode (sample_ctx 4 RoleAdmin) "acm2026") (fun o w' =>
    o = Val (CodeInfo true "邀请码已更新" "acm2026") /\
    wp getRegisterInviteCode (fun o2 _ => o2 = Val "acm2026") w') (world_of sample_db).
Proof.
  apply (invite_code_roundtrip (Jwt 4 "" "" "" RoleAdmin) "acm2026" (world_of sample_db));
    [done | wf_table | reflexivity | vm_compute; reflexivity | discriminate].
Defined.

(** A change of role that succeeds was asked for by somebody whom the database has
    as an administrator, for somebody else who is not one, and gives a role below;
    what the token says of the caller's role does not matter. *)
Theorem role_change_authorised (c : ctx) (userId roleId : Z) (w w' : world user_db)
    (r : CodeReply) :
  svc_SetUserRole c userId roleId w = (Val r, w') -> role_change_allowed (w_db w) c userId roleId.
Proof. apply set_role_ok. Qed.

Lemma role_change_authorised_witness :
  role_change_allowed sample_db (sample_ctx 4 RoleUser) 3 RoleCoach.
Proof.
  eapply (role_change_authorised (sample_ctx 4 RoleUser) 3 RoleCoach (world_of sample_db)).
  vm_compute. reflexivity.
Defined.

(** A password that is changed, whichever calls fail, is changed by its owner who
    gave the old one, or by a token of an administrator and then not for another
    administrator. *)
Theorem password_change_authorised `{Bcrypt} (c : ctx) (userId : Z) (old new : string)
    (w w' : world user_db) (r : FlagReply) :
  svc_ChangePassword c userId old new w = (Val r, w') -> fr_Success r = true ->
  password_change_allowed (w_db w) c userId old.
Proof. intros Hr. exact (change_password_ok c userId old new w r w' Hr). Qed.

Lemma password_change_authorised_witness :
  password_change_allowed sample_db (sample_ctx 1 RoleUser) 1 "ann-secret".
Proof.
  eapply (password_change_authorised (sample_ctx 1 RoleUser) 1 "ann-secret" "new" (world_of sample_db));
    [vm_compute; reflexivity | reflexivity].
Defined.
