(* ===== verification/CoreData.v ===== *)
(** The tables of the core-data service ([app/core_data/internal/data/model]), the
    queue its refresh jobs are announced on, and what its handlers share: the
    audit row, the rate limiters, the cache keys that are scanned for. *)
From S2P Require Export Effects Permission Json.

(** ** Rows *)

Record Platform := PlatformRow { p_Id : Z; p_UserID : Z; p_Platform : string; p_Username : string }.

Record SpiderSyncStatus := SyncStatus {
  ss_ID : Z; ss_UserID : Z; ss_Platform : string; ss_Username : string; ss_Status : string;
  ss_LastStartedAt : option Z; ss_LastFinishedAt : option Z; ss_LastSuccessAt : option Z;
  ss_LastError : string; ss_LastFetchedCount : Z; ss_LastSkippedCount : Z;
  ss_ConsecutiveFailure : Z; ss_UpdatedAt : Z }.

Record SpiderRefreshJob := RefreshJob {
  j_ID : Z; j_UserID : Z; j_RequesterID : Z; j_Source : string; j_Status : string;
  j_NeedAll : bool; j_CurrentPlatform : string; j_TotalPlatforms : Z; j_FinishedPlatforms : Z;
  j_Error : string; j_StartedAt : option Z; j_FinishedAt : option Z; j_CreatedAt : Z;
  j_UpdatedAt : Z }.

Record SubmitLog := Submission {
  s_ID : Z; s_Platform : string; s_UserID : Z; s_SubmitID : string; s_Contest : string;
  s_Problem : string; s_Lang : string; s_Status : string; s_Time : Z }.

Record ContestLog := ContestRow {
  c_ID : Z; c_Platform : string; c_UserID : Z; c_ContestId : string; c_ContestName : string;
  c_ContestUrl : string; c_Rank : Z; c_TotalCount : Z; c_AcCount : Z; c_Time : Z; c_EndTime : Z }.

Record core_log := CoreLog {
  cl_ID : Z; cl_OperatorID : Z; cl_OperatorRole : Z; cl_Action : string; cl_TargetType : string;
  cl_TargetID : Z; cl_Detail : string; cl_CreatedAt : Z }.

Record Bulletin := BulletinRow {
  bu_ID : Z; bu_Title : string; bu_Content : string; bu_AuthorID : Z; bu_AuthorName : string;
  bu_IsPinned : bool; bu_CreatedAt : Z; bu_UpdatedAt : Z }.

Record FeatureSnapshot := SnapshotRow {
  fs_ID : Z; fs_UserID : Z; fs_Kind : string; fs_SourceHash : string; fs_Payload : string;
  fs_GeneratedAt : Z }.

(** [event.SpiderEvent], as it lies on the queue. *)
Record SpiderEvent := Event { e_UserId : Z; e_NeedAll : bool; e_JobId : Z; e_Platform : string }.

(** None of these tables has a [deleted_at] column. *)
#[export] Instance platform_entity : Entity Platform := {| row_id := p_Id; row_live _ := true |}.
#[export] Instance status_entity : Entity SpiderSyncStatus :=
  {| row_id := ss_ID; row_live _ := true |}.
#[export] Instance job_entity : Entity SpiderRefreshJob := {| row_id := j_ID; row_live _ := true |}.
#[export] Instance submit_entity : Entity SubmitLog := {| row_id := s_ID; row_live _ := true |}.
#[export] Instance contest_entity : Entity ContestLog := {| row_id := c_ID; row_live _ := true |}.
#[export] Instance core_log_entity : Entity core_log := {| row_id := cl_ID; row_live _ := true |}.
#[export] Instance bulletin_entity : Entity Bulletin := {| row_id := bu_ID; row_live _ := true |}.
#[export] Instance snapshot_entity : Entity FeatureSnapshot := {| row_id := fs_ID; row_live _ := true |}.

(** ** The state of the service *)

(** Beside the tables: the events published and not yet consumed, for every
    limiter the service has made its interval and the times at which it granted a
    request, and the time of the last cleanup of snapshots.  None of them is touched
    by a rollback. *)
Record core_db := CoreDb {
  platforms : table Platform;
  statuses : table SpiderSyncStatus;
  jobs : table SpiderRefreshJob;
  submits : table SubmitLog;
  contests : table ContestLog;
  core_logs : table core_log;
  bulletins : table Bulletin;
  snapshots : table FeatureSnapshot;
  spider_queue : list SpiderEvent;
  limiters : gmap string (Z * list Z);
  last_cleanup : Z
}.

#[export, refine] Instance holds_platforms : Holds core_db Platform :=
  {| table_of := platforms;
     set_table t d := CoreDb t (statuses d) (jobs d) (submits d) (contests d) (core_logs d)
                             (bulletins d) (snapshots d) (spider_queue d) (limiters d) (last_cleanup d) |}.
Proof. done. Defined.
#[export, refine] Instance holds_statuses : Holds core_db SpiderSyncStatus :=
  {| table_of := statuses;
     set_table t d := CoreDb (platforms d) t (jobs d) (submits d) (contests d) (core_logs d)
                             (bulletins d) (snapshots d) (spider_queue d) (limiters d) (last_cleanup d) |}.
Proof. done. Defined.
#[export, refine] Instance holds_jobs : Holds core_db SpiderRefreshJob :=
  {| table_of := jobs;
     set_table t d := CoreDb (platforms d) (statuses d) t (submits d) (contests d) (core_logs d)
                             (bulletins d) (snapshots d) (spider_queue d) (limiters d) (last_cleanup d) |}.
Proof. done. Defined.
#[export, refine] Instance holds_submits : Holds core_db SubmitLog :=
  {| table_of := submits;
     set_table t d := CoreDb (platforms d) (statuses d) (jobs d) t (contests d) (core_logs d)
                             (bulletins d) (snapshots d) (spider_queue d) (limiters d) (last_cleanup d) |}.
Proof. done. Defined.
#[export, refine] Instance holds_contests : Holds core_db ContestLog :=
  {| table_of := contests;
     set_table t d := CoreDb (platforms d) (statuses d) (jobs d) (submits d) t (core_logs d)
                             (bulletins d) (snapshots d) (spider_queue d) (limiters d) (last_cleanup d) |}.
Proof. done. Defined.
#[export, refine] Instance holds_core_logs : Holds core_db core_log :=
  {| table_of := core_logs;
     set_table t d := CoreDb (platforms d) (statuses d) (jobs d) (submits d) (contests d) t
                             (bulletins d) (snapshots d) (spider_queue d) (limiters d) (last_cleanup d) |}.
Proof. done. Defined.
#[export, refine] Instance holds_bulletins : Holds core_db Bulletin :=
  {| table_of := bulletins;
     set_table t d := CoreDb (platforms d) (statuses d) (jobs d) (submits d) (contests d) (core_logs d)
                             t (snapshots d) (spider_queue d) (limiters d) (last_cleanup d) |}.
Proof. done. Defined.
#[export, refine] Instance holds_snapshots : Holds core_db FeatureSnapshot :=
  {| table_of := snapshots;
     set_table t d := CoreDb (platforms d) (statuses d) (jobs d) (submits d) (contests d) (core_logs d)
                             (bulletins d) t (spider_queue d) (limiters d) (last_cleanup d) |}.
Proof. done. Defined.

#[export] Instance core_db_transactional : Transactional core_db :=
  {| rollback old new :=
       CoreDb (rollback_table (platforms old) (platforms new))
              (rollback_table (statuses old) (statuses new))
              (rollback_table (jobs old) (jobs new))
              (rollback_table (submits old) (submits new))
              (rollback_table (contests old) (contests new))
              (rollback_table (core_logs old) (core_logs new))
              (rollback_table (bulletins old) (bulletins new))
              (rollback_table (snapshots old) (snapshots new))
              (spider_queue new) (limiters new) (last_cleanup new) |}.

Definition set_queue (q : list SpiderEvent) (d : core_db) : core_db :=
  CoreDb (platforms d) (statuses d) (jobs d) (submits d) (contests d) (core_logs d)
         (bulletins d) (snapshots d) q (limiters d) (last_cleanup d).
Definition set_limiters (l : gmap string (Z * list Z)) (d : core_db) : core_db :=
  CoreDb (platforms d) (statuses d) (jobs d) (submits d) (contests d) (core_logs d)
         (bulletins d) (snapshots d) (spider_queue d) l (last_cleanup d).
Definition set_last_cleanup (t : Z) (d : core_db) : core_db :=
  CoreDb (platforms d) (statuses d) (jobs d) (submits d) (contests d) (core_logs d)
         (bulletins d) (snapshots d) (spider_queue d) (limiters d) t.

Abbreviation CM := (M core_db).

(** ** Audit ([service/audit.go]) *)

Definition recordCoreOperation (c : ctx) (action targetType : string) (targetID : Z)
    (detail : list (string * json)) : CM () :=
  let operatorID := match c with Some pd => wrap_int64 (jwt_UserID pd) | None => 0 end in
  let operatorRole := match c with Some pd => jwt_RoleID pd | None => 0 end in
  let detailJSON := match detail with [] => "{}" | _ => json_object detail end in
  t ← now;
  ignore_err (create (fun id =>
    CoreLog id operatorID operatorRole action targetType targetID detailJSON t)).

(** ** Cache keys by pattern *)

(** Redis' glob match, for the patterns the code scans for: literals and [*]. *)
Fixpoint glob (p : list Ascii.ascii) : list Ascii.ascii -> bool :=
  match p with
  | [] => fun s => match s with [] => true | _ => false end
  | c :: p' =>
      if bool_decide (c = byte_of 42)
      then fix any (s : list Ascii.ascii) : bool :=
             glob p' s || match s with [] => false | _ :: s' => any s' end
      else fun s => match s with [] => false | x :: s' => bool_decide (x = c) && glob p' s' end
  end.
Definition key_matches (pattern key : string) : bool := glob (bytes_of pattern) (bytes_of key).

(** [SCAN .. MATCH pattern]; the keys of one pass. *)
Definition redis_scan (pattern : string) : CM (list string) := fun w =>
  match w_fault w (w_calls w) with
  | Some e => (Exn (Driver e), tick w)
  | None => (Val (where_ (key_matches pattern) (map fst (map_to_list (w_redis w)))), tick w)
  end.

(** Every key of the scan is deleted on its own; failures are only logged. *)
Definition delete_pattern (pattern : string) : CM () :=
  keys ← attempt (redis_scan pattern);
  match keys with
  | Exn _ => mret ()
  | Val keys => for_each keys (fun k => ignore_err (redis_del [k]))
  end.

(** ** Rate limiters ([getLimiterByKey]) *)

(** What the code relies on of [golang.org/x/time/rate] for a limiter of one event
    per [interval] with burst one: [Allow interval granted now] says whether a
    limiter that has granted at the times [granted] (latest first) grants at
    [now].  A fresh limiter grants; there is no grant within the interval. *)
Class RateLimit := {
  Allow : Z -> list Z -> Z -> bool;
  allow_fresh i t : Allow i [] t = true;
  allow_spaced i g l t : 0 <= t - g < i -> Allow i (g :: l) t = false
}.

(** The token bucket with one token. *)
Definition bucket_allow (interval : Z) (granted : list Z) (t : Z) : bool :=
  match granted with
  | [] => true
  | g :: _ => negb (bool_decide (0 <= t - g < interval))
  end.
#[export, refine] Instance bucket : RateLimit | 100 := {| Allow := bucket_allow |}.
Proof.
  - done.
  - intros i g l t Ht. simpl. by rewrite bool_decide_true.
Defined.

Section limiters.
Context `{RateLimit}.

(** [getLimiterByKey(key, interval).Allow()]: the interval counts when the
    limiter is made and not afterwards. *)
Definition allow_request (key : string) (interval : Z) : CM bool :=
  t ← now;
  (fun w =>
     let l := default (interval, []) (limiters (w_db w) !! key) in
     let ok := Allow l.1 l.2 t in
     (Val ok, set_db (set_limiters (<[key := (l.1, if ok then t :: l.2 else l.2)]>
                                      (limiters (w_db w))) (w_db w)) w)) : CM bool.
End limiters.

(** ** Columns that statements write *)

Definition job_fail (err : string) (t : Z) (j : SpiderRefreshJob) : SpiderRefreshJob :=
  RefreshJob (j_ID j) (j_UserID j) (j_RequesterID j) (j_Source j) "failed" (j_NeedAll j)
    (j_CurrentPlatform j) (j_TotalPlatforms j) (j_FinishedPlatforms j) err (j_StartedAt j)
    (j_FinishedAt j) (j_CreatedAt j) t.
Definition job_start (total t0 t : Z) (j : SpiderRefreshJob) : SpiderRefreshJob :=
  RefreshJob (j_ID j) (j_UserID j) (j_RequesterID j) (j_Source j) "running" (j_NeedAll j)
    (j_CurrentPlatform j) total 0 "" (Some t0) (j_FinishedAt j) (j_CreatedAt j) t.
Definition job_finish (status err : string) (t0 t : Z) (j : SpiderRefreshJob) : SpiderRefreshJob :=
  RefreshJob (j_ID j) (j_UserID j) (j_RequesterID j) (j_Source j) status (j_NeedAll j)
    (j_CurrentPlatform j) (j_TotalPlatforms j) (j_FinishedPlatforms j) err (j_StartedAt j)
    (Some t0) (j_CreatedAt j) t.
Definition job_set_platform (p : string) (t : Z) (j : SpiderRefreshJob) : SpiderRefreshJob :=
  RefreshJob (j_ID j) (j_UserID j) (j_RequesterID j) (j_Source j) (j_Status j) (j_NeedAll j)
    p (j_TotalPlatforms j) (j_FinishedPlatforms j) (j_Error j) (j_StartedAt j) (j_FinishedAt j)
    (j_CreatedAt j) t.
Definition job_finish_platform (p : string) (t : Z) (j : SpiderRefreshJob) : SpiderRefreshJob :=
  RefreshJob (j_ID j) (j_UserID j) (j_RequesterID j) (j_Source j) (j_Status j) (j_NeedAll j)
    p (j_TotalPlatforms j) (j_FinishedPlatforms j + 1) (j_Error j) (j_StartedAt j)
    (j_FinishedAt j) (j_CreatedAt j) t.
