(* ===== verification/SpiderLoad.v ===== *)
(** Refresh jobs are queued ([task/spider.go], [task/scope.go]) and carried out
    ([internal/biz/service/spider.go], [spider_normalize.go]). *)
From S2P Require Export CoreData.

(** ** Queueing a refresh *)

Definition activeRefreshJobTTL : Z := 2 * 60 * 60 * second.

(** [ActiveRefreshConflictCondition] *)
Definition conflicts (platform : string) (j : SpiderRefreshJob) : bool :=
  if decide (platform = "")
  then bool_decide (j_CurrentPlatform j = "") || bool_decide (j_TotalPlatforms j <> 1)
  else bool_decide (j_CurrentPlatform j = platform) || bool_decide (j_CurrentPlatform j = "")
       || bool_decide (j_TotalPlatforms j <> 1).

Definition is_active (j : SpiderRefreshJob) : bool :=
  bool_decide (j_Status j = "queued") || bool_decide (j_Status j = "running").

Definition active_conflict (userId : Z) (platform : string) (j : SpiderRefreshJob) : bool :=
  bool_decide (j_UserID j = userId) && is_active j && conflicts platform j.

Definition stale_error : string := "抓取任务长时间未更新，已自动标记为失败，可重新发起刷新".

(** The clock is read twice: [NOW()] in the condition, and for [updated_at]. *)
Definition expireStaleActiveJobs (userId : Z) (platform : string) : CM () :=
  t0 ← now;
  t ← now;
  update_where (fun j => active_conflict userId platform j
                         && bool_decide (j_UpdatedAt j < t0 - activeRefreshJobTTL))
               (job_fail stale_error t);;
  mret ().

(** [ORDER BY updated_at DESC, id LIMIT 1] *)
Definition latest_job (p : SpiderRefreshJob -> bool) (d : core_db) : option SpiderRefreshJob :=
  head (merge_sort (desc_by j_UpdatedAt) (select p (jobs d))).

Definition findActiveJob (userId : Z) (platform : string) : CM (option SpiderRefreshJob) :=
  expireStaleActiveJobs userId platform;;
  query (latest_job (active_conflict userId platform)).

(** ** Publishing *)

(** [rabbitMQ.Channel]/[Reconnect] and [publishToQueue] fail or deliver. *)
Definition channel {D} : M D () := query (fun _ => ()).
Definition publishToQueue (e : SpiderEvent) : CM () :=
  query (fun _ => ());;
  exec (fun d => ((), set_queue (spider_queue d ++ [e]) d)).

(** One retry over a fresh connection. *)
Definition publish_with {D} (send : M D ()) : M D () :=
  r ← attempt (channel;; send);
  match r with
  | Val _ => mret ()
  | Exn err =>
      c ← attempt channel;
      match c with
      | Exn reconnectErr =>
          throw (ErrorText (error_text err +:+ "; reconnect failed: " +:+ error_text reconnectErr))
      | Val _ => send
      end
  end.
Definition publish (e : SpiderEvent) : CM () := publish_with (publishToQueue e).

(** [Do] returns a job number with some of its errors: the outcome is paired with
    it.  Encoding the event cannot fail. *)
Definition spider_Do (userId : Z) (needAll : bool) (source : string) (requesterId : Z)
    (platform : string) : CM (Z * option goerr) :=
  r ← attempt (findActiveJob userId platform);
  match r with
  | Exn e => mret (0, Some e)
  | Val (Some job) => mret (j_ID job, Some ActiveRefreshJob)
  | Val None =>
      let totalPlatforms := if decide (platform <> "") then 1 else 0 in
      t ← now;
      c ← attempt (create (fun id =>
        RefreshJob id userId requesterId source "queued" needAll platform totalPlatforms 0 ""
                   None None t t));
      match c with
      | Exn e => mret (0, Some e)
      | Val job =>
          p ← attempt (publish (Event userId needAll (j_ID job) platform));
          match p with
          | Val _ => mret (j_ID job, None)
          | Exn err =>
              t ← now;
              ignore_err (update_where (by_id (j_ID job)) (job_fail (error_text err) t));;
              mret (j_ID job, Some err)
          end
      end
  end.

(** ** Normalising what a platform returned ([spider_normalize.go]) *)

Record norm_state := Norm { ns_logs : list SubmitLog; ns_index : gmap string nat; ns_skipped : Z }.

Definition normalize_item (userId : Z) (platform : string) (item : SubmitLog) : SubmitLog :=
  Submission (s_ID item) platform userId (trim_space (s_SubmitID item))
    (trim_space (s_Contest item)) (trim_space (s_Problem item)) (trim_space (s_Lang item))
    (trim_space (s_Status item)) (s_Time item).

Definition normalize_step (userId : Z) (platform : string) (st : norm_state) (item : SubmitLog)
    : norm_state :=
  let submitID := trim_space (s_SubmitID item) in
  if bool_decide (submitID = "") || time_is_zero (s_Time item)
  then Norm (ns_logs st) (ns_index st) (ns_skipped st + 1)
  else
    let item := normalize_item userId platform item in
    match ns_index st !! submitID with
    | Some existingIndex =>
        Norm (<[existingIndex := item]> (ns_logs st)) (ns_index st) (ns_skipped st + 1)
    | None =>
        Norm (ns_logs st ++ [item]) (<[submitID := length (ns_logs st)]> (ns_index st))
             (ns_skipped st)
    end.

Definition normalizeFetchedSubmitLogs (userId : Z) (platform : string) (logs : list SubmitLog)
    : outcome (list SubmitLog * Z) :=
  let st := foldl (normalize_step userId platform) (Norm [] ∅ 0) logs in
  match logs, ns_logs st with
  | _ :: _, [] => Exn (ErrorText (platform +:+ " 抓取结果全部无效，已拒绝写入"))
  | _, _ => Val (ns_logs st, ns_skipped st)
  end.

(** ** Storing *)

(** The rows of one user on one platform. *)
Definition submits_of (userId : Z) (platform : string) (s : SubmitLog) : bool :=
  bool_decide (s_UserID s = userId) && bool_decide (s_Platform s = platform).
Definition contests_of (userId : Z) (platform : string) (c : ContestLog) : bool :=
  bool_decide (c_UserID c = userId) && bool_decide (c_Platform c = platform).
Definition status_of (userId : Z) (platform : string) (s : SpiderSyncStatus) : bool :=
  bool_decide (ss_UserID s = userId) && bool_decide (ss_Platform s = platform).
Definition platform_of (userId : Z) (platform : string) (p : Platform) : bool :=
  bool_decide (p_UserID p = userId) && bool_decide (p_Platform p = platform).

Definition same_submit (x y : SubmitLog) : bool :=
  bool_decide (s_Platform x = s_Platform y) && bool_decide (s_SubmitID x = s_SubmitID y).
Definition submit_overwrite (x y : SubmitLog) : SubmitLog :=
  Submission (s_ID y) (s_Platform y) (s_UserID x) (s_SubmitID y) (s_Contest x) (s_Problem x)
    (s_Lang x) (s_Status x) (s_Time x).
Definition submit_with_id (x : SubmitLog) (id : Z) : SubmitLog :=
  Submission id (s_Platform x) (s_UserID x) (s_SubmitID x) (s_Contest x) (s_Problem x)
    (s_Lang x) (s_Status x) (s_Time x).

(** [INSERT .. ON CONFLICT (platform, submit_id) DO UPDATE]; the sequence moves on
    either way. *)
Definition upsert_submit (t : table SubmitLog) (x : SubmitLog) : table SubmitLog :=
  if existsb (same_submit x) (rows t)
  then Table (map (fun y => if same_submit x y then submit_overwrite x y else y) (rows t))
             (next_id t + 1)
  else insert_row (submit_with_id x) t.

Definition same_contest (x y : ContestLog) : bool :=
  bool_decide (c_ContestId x = c_ContestId y) && bool_decide (c_UserID x = c_UserID y).
Definition contest_with_id (x : ContestLog) (id : Z) : ContestLog :=
  ContestRow id (c_Platform x) (c_UserID x) (c_ContestId x) (c_ContestName x) (c_ContestUrl x)
    (c_Rank x) (c_TotalCount x) (c_AcCount x) (c_Time x) (c_EndTime x).
(** [ON CONFLICT (contest_id, user_id) DO NOTHING] *)
Definition insert_contest (t : table ContestLog) (x : ContestLog) : table ContestLog :=
  if existsb (same_contest x) (rows t) then Table (rows t) (next_id t + 1)
  else insert_row (contest_with_id x) t.

Definition spiderInsertBatchSize : nat := 500.

(** [CreateInBatches]: one statement per batch. *)
Fixpoint batches {A} (fuel : nat) (l : list A) : list (list A) :=
  match fuel, l with
  | O, _ | _, [] => []
  | S fuel, _ => take spiderInsertBatchSize l :: batches fuel (drop spiderInsertBatchSize l)
  end.
Definition save_submits (xs : list SubmitLog) : CM () :=
  for_each (batches (length xs) xs) (fun b =>
    exec (fun d => ((), set_table (foldl upsert_submit (submits d) b) d))).
Definition save_contests (xs : list ContestLog) : CM () :=
  for_each (batches (length xs) xs) (fun b =>
    exec (fun d => ((), set_table (foldl insert_contest (contests d) b) d))).

(** ** Fetching *)

(** The registered platform scrapers: which names are registered, what each can
    fetch, and what call [n] of the process gets from the platform. *)
Class Fetchers := {
  registered : string -> bool;
  fetches_submits : string -> bool;
  fetches_contests : string -> bool;
  FetchSubmitLog : string -> Z -> string -> bool -> nat -> outcome (list SubmitLog);
  FetchContestLog : string -> Z -> string -> bool -> nat -> outcome (list ContestLog)
}.

Definition nat_text (n : nat) : string := pretty (Z.of_nat n).

Definition rejectIncompleteFullFetch (platform : string) (fetchedCount : nat)
    (existingCount : Z) (needAll : bool) : option goerr :=
  if decide (needAll = false \/ existingCount <= 0 \/ existingCount <= Z.of_nat fetchedCount)
  then None
  else Some (ErrorText (platform +:+ " 全量抓取结果 " +:+ nat_text fetchedCount +:+ " 条少于现有 "
         +:+ pretty existingCount +:+ " 条，疑似平台返回不完整，已拒绝覆盖旧数据")).

Definition throw_if (e : option goerr) : CM () :=
  match e with Some e => throw e | None => mret () end.

(** ** Cache *)

Definition statistic_keys (userId : Z) : list string :=
  ["core:submit_log:user:" +:+ pretty userId; "core:submit_log:user:-1";
   "user:" +:+ pretty userId +:+ ":lastSubmitTime";
   "statistic:period:" +:+ pretty userId; "statistic:period:-1";
   "statistic:platform-period:" +:+ pretty userId; "statistic:platform-period:-1"].

Definition invalidateCache (userId : Z) : CM () :=
  ignore_err (redis_del (statistic_keys userId ++ ["core:contest_log:user:" +:+ pretty userId]));;
  for_each ["core:submit_log:detail:*"; "statistic:heatmap:" +:+ pretty userId +:+ ":*:*:*";
            "statistic:heatmap:0:*:*:*"; "core:contest_log:user:" +:+ pretty userId +:+ ":*";
            "core:contest_log:detail:*"] delete_pattern.

(** ** The job record *)

(** [if jobId <= 0 { return }] and an update whose error is dropped; gorm sets
    [updated_at]. *)
Definition update_job (jobId : Z) (f : Z -> SpiderRefreshJob -> SpiderRefreshJob) : CM () :=
  if decide (jobId <= 0) then mret ()
  else
    t ← now;
    ignore_err (update_where (by_id jobId) (f t)).

Definition startJob (jobId : Z) (totalPlatforms : nat) : CM () :=
  if decide (jobId <= 0) then mret ()
  else
    t0 ← now;
    update_job jobId (job_start (wrap_int32 (Z.of_nat totalPlatforms)) t0).
Definition finishJob (jobId : Z) (status errText : string) : CM () :=
  if decide (jobId <= 0) then mret ()
  else
    t0 ← now;
    update_job jobId (job_finish status errText t0).
Definition finishPlatform (jobId : Z) (platform : string) : CM () :=
  update_job jobId (job_finish_platform platform).
Definition setCurrentPlatform (jobId : Z) (platform : string) : CM () :=
  update_job jobId (job_set_platform platform).

(** ** The status of a platform *)

(** [FirstOrCreate] and then the update; errors are only logged. *)
Definition upsertPlatformStatus (userId : Z) (plat : Platform)
    (f : Z -> SpiderSyncStatus -> SpiderSyncStatus) : CM () :=
  r ← attempt (first_by (status_of userId (p_Platform plat)));
  s ← attempt (match r with
    | Val s => mret s
    | Exn e =>
        if is_not_found e then
          t ← now;
          create (fun id => SyncStatus id userId (p_Platform plat) (p_Username plat) "" None None
                                       None "" 0 0 0 t)
        else throw e
    end);
  match s with
  | Exn _ => mret ()
  | Val s => t ← now; ignore_err (update_where (by_id (ss_ID s)) (f t))
  end.

Definition markPlatformRunning (userId : Z) (plat : Platform) : CM () :=
  t0 ← now;
  upsertPlatformStatus userId plat (fun t s =>
    SyncStatus (ss_ID s) (ss_UserID s) (ss_Platform s) (p_Username plat) "running" (Some t0)
      (ss_LastFinishedAt s) (ss_LastSuccessAt s) "" (ss_LastFetchedCount s)
      (ss_LastSkippedCount s) (ss_ConsecutiveFailure s) t).
Definition markPlatformSuccess (userId : Z) (plat : Platform) (count skipped : Z) : CM () :=
  t0 ← now;
  upsertPlatformStatus userId plat (fun t s =>
    SyncStatus (ss_ID s) (ss_UserID s) (ss_Platform s) (p_Username plat) "success"
      (ss_LastStartedAt s) (Some t0) (Some t0) "" count skipped 0 t).
Definition markPlatformFailed (userId : Z) (plat : Platform) (err : goerr) : CM () :=
  t0 ← now;
  upsertPlatformStatus userId plat (fun t s =>
    SyncStatus (ss_ID s) (ss_UserID s) (ss_Platform s) (p_Username plat) "failed"
      (ss_LastStartedAt s) (Some t0) (ss_LastSuccessAt s) (error_text err) (ss_LastFetchedCount s)
      (ss_LastSkippedCount s) (ss_ConsecutiveFailure s + 1) t).

(** ** Skipping CodeForces *)

Definition codeforcesRefreshSkipWindow : Z := 30 * minute.
Definition CodeForces : string := "CodeForces".

Definition platformRefreshStartedWithin (userId : Z) (platform : string) (window : Z) : CM bool :=
  if decide (window <= 0) then mret false
  else
    r ← attempt (first_by (status_of userId platform));
    match r with
    | Exn _ => mret false
    | Val s =>
        match ss_LastStartedAt s with
        | None => mret false
        | Some t => t1 ← now; mret (bool_decide (time_sub t1 t < window))
        end
    end.

Definition shouldSkipRecentCodeforcesRefresh (userId : Z) (plat : Platform) : CM bool :=
  if equal_fold (trim_space (p_Platform plat)) CodeForces
  then platformRefreshStartedWithin userId (p_Platform plat) codeforcesRefreshSkipWindow
  else mret false.

Fixpoint filterRecentCodeforcesRefresh (userId : Z) (plats : list Platform) : CM (list Platform) :=
  match plats with
  | [] => mret []
  | plat :: plats =>
      skip ← shouldSkipRecentCodeforcesRefresh userId plat;
      rest ← filterRecentCodeforcesRefresh userId plats;
      mret (if skip : bool then rest else plat :: rest)
  end.

(** ** One platform *)

Section loading.
Context `{Fetchers}.

Definition check_full (userId : Z) (platform : string) (needAll : bool) (n : nat) : CM () :=
  if needAll then
    existing ← count_rows (submits_of userId platform);
    throw_if (rejectIncompleteFullFetch platform n existing needAll)
  else mret ().

Definition store_submits (userId : Z) (platform : string) (needAll : bool)
    (logs : list SubmitLog) : CM () :=
  transaction (
    (if needAll then remove_where (submits_of userId platform);; mret () else mret ());;
    match logs with [] => mret () | _ => save_submits logs end).

(** The counts that the code returns along with an error are used by nobody. *)
Definition fetchAndSave (userId : Z) (plat : Platform) (needAll : bool) : CM (Z * Z) :=
  refuse_if (negb (registered (p_Platform plat))) (ErrorText "平台插件不存在");;
  refuse_if (negb (fetches_submits (p_Platform plat)))
    (ErrorText "平台未实现 SubmitLogFetcher");;
  tmp ← remote (FetchSubmitLog (p_Platform plat) userId (p_Username plat) needAll);
  match normalizeFetchedSubmitLogs userId (p_Platform plat) tmp with
  | Exn e => throw e
  | Val (logs, skipped) =>
      check_full userId (p_Platform plat) needAll (length logs);;
      store_submits userId (p_Platform plat) needAll logs;;
      mret (Z.of_nat (length logs), skipped)
  end.

Definition fetchAndSaveContest (userId : Z) (plat : Platform) (needAll : bool) : CM () :=
  refuse_if (negb (registered (p_Platform plat))) (ErrorText "平台插件不存在");;
  refuse_if (negb (fetches_contests (p_Platform plat)))
    (ErrorText "平台未实现 SubmitContestFetcher");;
  tmp ← remote (FetchContestLog (p_Platform plat) userId (p_Username plat) needAll);
  match tmp with
  | [] => mret ()
  | _ =>
      transaction (
        (if needAll then remove_where (contests_of userId (p_Platform plat));; mret ()
         else mret ());;
        save_contests tmp)
  end.

Definition maxRetries (platform : string) : nat := if decide (platform = CodeForces) then 1 else 12.

(** [more] attempts may follow; the pauses between attempts are not modelled. *)
Fixpoint load_attempts (userId : Z) (plat : Platform) (needAll : bool) (more : nat)
    (lastErr : option goerr) : CM (Z * Z) :=
  match more with
  | O => throw (default (ErrorText ("达到最大重试次数 " +:+ nat_text (maxRetries (p_Platform plat)))) lastErr)
  | S more =>
      r ← attempt (fetchAndSave userId plat needAll);
      ignore_err (fetchAndSaveContest userId plat needAll);;
      match r with
      | Val counts => invalidateCache userId;; mret counts
      | Exn err =>
          if contains (error_text err) "平台" then throw err
          else if negb needAll then throw err
          else load_attempts userId plat needAll more (Some err)
      end
  end.

Definition loadOnePlatform (userId : Z) (plat : Platform) (needAll : bool) : CM (Z * Z) :=
  markPlatformRunning userId plat;;
  load_attempts userId plat needAll (maxRetries (p_Platform plat)) None.

(** ** A job *)

(** The texts of the platforms that failed. *)
Fixpoint load_platforms (jobId userId : Z) (needAll : bool) (plats : list Platform)
    : CM (list string) :=
  match plats with
  | [] => mret []
  | plat :: plats =>
      setCurrentPlatform jobId (p_Platform plat);;
      r ← attempt (loadOnePlatform userId plat needAll);
      finishPlatform jobId (p_Platform plat);;
      match r with
      | Exn err =>
          markPlatformFailed userId plat err;;
          rest ← load_platforms jobId userId needAll plats;
          mret ((p_Platform plat +:+ ": " +:+ error_text err) :: rest)
      | Val counts =>
          markPlatformSuccess userId plat counts.1 counts.2;;
          load_platforms jobId userId needAll plats
      end
  end.

Definition run_platforms (jobId userId : Z) (needAll : bool) (plats : list Platform) : CM () :=
  startJob jobId (length plats);;
  match plats with
  | [] => finishJob jobId "success" ""
  | _ =>
      failed ← load_platforms jobId userId needAll plats;
      match failed with
      | [] => finishJob jobId "success" ""
      | _ =>
          let errText := join "; " failed in
          finishJob jobId "failed" errText;;
          throw (ErrorText errText)
      end
  end.

Definition load_job (jobId userId : Z) (needAll : bool) (targetPlatform : string) : CM () :=
  r ← attempt (find_where (fun p => bool_decide (p_UserID p = userId)
         && (bool_decide (targetPlatform = "") || bool_decide (p_Platform p = targetPlatform))));
  match r with
  | Exn e => finishJob jobId "failed" (error_text e);; throw e
  | Val [] =>
      let err := if decide (targetPlatform = "") then ErrorText "未绑定 OJ 平台"
                 else ErrorText ("未绑定平台 " +:+ targetPlatform) in
      finishJob jobId "failed" (error_text err);;
      throw err
  | Val ((plat :: _) as plats) =>
      if decide (targetPlatform = "") then
        plats ← filterRecentCodeforcesRefresh userId plats;
        run_platforms jobId userId needAll plats
      else
        skip ← shouldSkipRecentCodeforcesRefresh userId plat;
        if skip : bool then
          startJob jobId 0;;
          finishJob jobId "success" ""
        else run_platforms jobId userId needAll plats
  end.

(** [defer uc.invalidateCache(userId)] *)
Definition LoadData (jobId userId : Z) (needAll : bool) (targetPlatform : string) : CM () :=
  r ← attempt (load_job jobId userId needAll targetPlatform);
  invalidateCache userId;;
  match r with Val _ => mret () | Exn e => throw e end.
End loading.
