(* ===== verification/SubmitTheory.v ===== *)
(** What a refresh does to the submissions of a user: the fetched list is
    normalised, and storing it never loses rows. *)
From S2P Require Export SpiderLoad.

(** ** Normalisation *)

Definition usable (item : SubmitLog) : bool :=
  negb (bool_decide (trim_space (s_SubmitID item) = "") || time_is_zero (s_Time item)).

(** The usable items that the platform reported under [id]. *)
Definition reported (id : string) (item : SubmitLog) : bool :=
  usable item && bool_decide (trim_space (s_SubmitID item) = id).

(** After the items [done], the list holds one row per reported number, the one
    reported last. *)
Record norm_inv (userId : Z) (platform : string) (done : list SubmitLog) (st : norm_state) : Prop := {
  ni_index id i : ns_index st !! id = Some i <->
    exists x, ns_logs st !! i = Some x /\ s_SubmitID x = id;
  ni_last id : (exists i, ns_index st !! id = Some i) <-> where_ (reported id) done <> [];
  ni_value i x : ns_logs st !! i = Some x ->
    exists item, last (where_ (reported (s_SubmitID x)) done) = Some item /\
                 x = normalize_item userId platform item;
  ni_count : ns_skipped st + Z.of_nat (length (ns_logs st)) = Z.of_nat (length done)
}.

Lemma norm_inv_start u p : norm_inv u p [] (Norm [] ∅ 0).
Proof.
  split; simpl.
  - intros id i. split; [by rewrite lookup_empty|]. intros (x & Hx & _). by rewrite lookup_nil in Hx.
  - intros id. split; [|done]. intros [i Hi]. by rewrite lookup_empty in Hi.
  - intros i x Hx. by rewrite lookup_nil in Hx.
  - done.
Qed.

Lemma where_snoc {A} (p : A -> bool) l x :
  where_ p (l ++ [x]) = where_ p l ++ if p x then [x] else [].
Proof. rewrite where_app. simpl. by destruct (p x). Qed.

Lemma last_where_snoc {A} (p : A -> bool) l x :
  last (where_ p (l ++ [x])) = if p x then Some x else last (where_ p l).
Proof. rewrite where_snoc. destruct (p x); [by rewrite last_snoc | by rewrite app_nil_r]. Qed.

Lemma reported_id u p item id :
  usable item = true -> reported id item = bool_decide (s_SubmitID (normalize_item u p item) = id).
Proof. intros Hu. unfold reported. by rewrite Hu. Qed.

Lemma norm_inv_skip u p done st item :
  norm_inv u p done st -> usable item = false ->
  norm_inv u p (done ++ [item]) (Norm (ns_logs st) (ns_index st) (ns_skipped st + 1)).
Proof.
  intros [H1 H2 H3 H4] Hu.
  assert (forall id, reported id item = false) as Hr by (intros id; unfold reported; by rewrite Hu).
  split; simpl; [done| | |].
  - intros id. by rewrite where_snoc, Hr, app_nil_r.
  - intros i x Hx. rewrite last_where_snoc, Hr. by eapply H3.
  - rewrite length_app. simpl. lia.
Qed.

Lemma norm_inv_step u p done st item :
  norm_inv u p done st -> norm_inv u p (done ++ [item]) (normalize_step u p st item).
Proof.
  intros Hi. unfold normalize_step.
  destruct (bool_decide (trim_space (s_SubmitID item) = "") || time_is_zero (s_Time item)) eqn:Hb.
  { apply norm_inv_skip; [done|]. unfold usable. by rewrite Hb. }
  assert (usable item = true) as Hu by (unfold usable; by rewrite Hb). clear Hb.
  set (x := normalize_item u p item). set (id0 := trim_space (s_SubmitID item)).
  assert (forall id, reported id item = bool_decide (id0 = id)) as Hr.
  { intros id. unfold reported. by rewrite Hu. }
  destruct Hi as [H1 H2 H3 H4]. destruct (ns_index st !! id0) as [k|] eqn:Hk.
  - pose proof Hk as (y & Hy & Hyid)%H1. pose proof (lookup_lt_Some _ _ _ Hy) as Hlt.
    split; simpl.
    + intros id i. rewrite H1. destruct (decide (i = k)) as [->|Hne].
      * rewrite list_lookup_insert_eq by done. rewrite Hy. split; intros (z & [= <-] & <-); eexists; (split; [done|]);
          by rewrite Hyid.
      * by rewrite list_lookup_insert_ne.
    + intros id. rewrite H2, where_snoc, Hr. case_bool_decide as Hd; simpl; [|by rewrite app_nil_r].
      subst id. split; [intros _; by destruct (where_ (reported id0) done)|]. intros _.
      apply H2. by exists k.
    + intros i z. destruct (decide (i = k)) as [->|Hne].
      * rewrite list_lookup_insert_eq by done. intros [= <-]. exists item. split; [|done].
        rewrite last_where_snoc, Hr. simpl. by rewrite bool_decide_true.
      * rewrite list_lookup_insert_ne by done. intros Hz. rewrite last_where_snoc, Hr.
        rewrite bool_decide_false; [by eapply H3|]. intros He.
        assert (ns_index st !! id0 = Some i) as Hi by (apply H1; exists z; by rewrite He). congruence.
    + rewrite length_insert, length_app. simpl. lia.
  - assert (forall i y, ns_logs st !! i = Some y -> s_SubmitID y <> id0) as Hnone.
    { intros i y Hy He. assert (ns_index st !! id0 = Some i) by (apply H1; by exists y). congruence. }
    split; simpl.
    + intros id i. destruct (decide (id = id0)) as [->|Hne].
      * rewrite lookup_insert_eq. split.
        -- intros [= <-]. exists x. split; [|done]. by rewrite lookup_app_r, Nat.sub_diag by lia.
        -- intros (y & [Hy|[Hl Hy]]%lookup_app_Some & He); [by destruct (Hnone _ _ Hy)|].
           apply list_lookup_singleton_Some in Hy as [Hz _]. f_equal. lia.
      * rewrite lookup_insert_ne by done. rewrite H1. split.
        -- intros (y & Hy & He). exists y. split; [|done]. by apply lookup_app_l_Some.
        -- intros (y & [Hy|[Hl Hy]]%lookup_app_Some & He); [by exists y|].
           apply list_lookup_singleton_Some in Hy as [_ <-]. by destruct Hne.
    + intros id. rewrite where_snoc, Hr. destruct (decide (id = id0)) as [->|Hne].
      * rewrite bool_decide_true by done. split; [by destruct (where_ (reported id0) done)|].
        intros _. eexists. apply lookup_insert_eq.
      * rewrite bool_decide_false, app_nil_r by done. rewrite <- H2. by rewrite lookup_insert_ne.
    + intros i z [Hz|[Hl Hz]]%lookup_app_Some; rewrite last_where_snoc, Hr.
      * rewrite bool_decide_false; [by eapply H3|]. intros He. by destruct (Hnone _ _ Hz).
      * apply list_lookup_singleton_Some in Hz as [_ <-]. rewrite bool_decide_true by done.
        by exists item.
    + rewrite !length_app. simpl. lia.
Qed.

Lemma norm_inv_all u p logs : norm_inv u p logs (foldl (normalize_step u p) (Norm [] ∅ 0) logs).
Proof.
  induction logs as [|item logs IH] using rev_ind; [apply norm_inv_start|].
  rewrite foldl_snoc. by apply norm_inv_step.
Qed.

(** What the normalised list is. *)
Record normalized (u : Z) (p : string) (logs out : list SubmitLog) (skipped : Z) : Prop := {
  nz_count : skipped + Z.of_nat (length out) = Z.of_nat (length logs);
  nz_distinct : NoDup (map s_SubmitID out);
  nz_owner x : x ∈ out -> s_UserID x = u /\ s_Platform x = p /\ s_SubmitID x <> "";
  nz_sound x : x ∈ out -> exists item,
    last (where_ (reported (s_SubmitID x)) logs) = Some item /\ x = normalize_item u p item;
  nz_complete item : item ∈ logs -> usable item = true ->
    trim_space (s_SubmitID item) ∈ map s_SubmitID out
}.

Lemma last_in {A} (l : list A) x : last l = Some x -> x ∈ l.
Proof.
  destruct l using rev_ind; [done|]. rewrite last_snoc. intros [= <-]. set_solver.
Qed.

Lemma normalize_ok u p logs out skipped :
  normalizeFetchedSubmitLogs u p logs = Val (out, skipped) -> normalized u p logs out skipped.
Proof.
  unfold normalizeFetchedSubmitLogs. set (st := foldl _ _ _). intros He.
  assert (out = ns_logs st /\ skipped = ns_skipped st) as [-> ->].
  { by destruct logs; [|destruct (ns_logs st) eqn:E]; simplify_eq; rewrite ?E. }
  clear He. pose proof (norm_inv_all u p logs) as [H1 H2 H3 H4]. fold st in H1, H2, H3, H4.
  assert (forall x, x ∈ ns_logs st -> exists item,
            last (where_ (reported (s_SubmitID x)) logs) = Some item /\ x = normalize_item u p item)
    as Hval.
  { intros x [i Hi]%list_elem_of_lookup. by eapply H3. }
  split; [done| | |done|].
  - apply NoDup_alt. intros i j id Hi Hj. rewrite list_lookup_fmap in Hi, Hj.
    apply fmap_Some in Hi as (x & Hx & ->). apply fmap_Some in Hj as (y & Hy & Hxy).
    assert (ns_index st !! s_SubmitID x = Some i) by (apply H1; eauto).
    assert (ns_index st !! s_SubmitID x = Some j) by (apply H1; eauto). congruence.
  - intros x Hx. destruct (Hval x Hx) as (item & Hl & Heq).
    apply last_in, elem_of_where in Hl as [_ Hr]. rewrite Heq. simpl. split_and!; [done..|].
    unfold reported, usable in Hr. bool_cases. done.
  - intros item Hin Hu.
    assert (where_ (reported (trim_space (s_SubmitID item))) logs <> []) as Hne.
    { assert (item ∈ where_ (reported (trim_space (s_SubmitID item))) logs) as Hw.
      { apply elem_of_where. split; [done|]. unfold reported. rewrite Hu. by bool_cases. }
      intros E. rewrite E in Hw. set_solver. }
    apply H2 in Hne as [i Hi]. apply H1 in Hi as (x & Hx & <-).
    apply list_elem_of_fmap. exists x. split; [done|]. by eapply list_elem_of_lookup_2.
Qed.

(** ** Storing *)

(** Keys as the unique index has them. *)
Definition submits_ok (t : table SubmitLog) : Prop :=
  table_wf t /\ forall x y, x ∈ rows t -> y ∈ rows t -> same_submit x y = true -> x = y.

Lemma same_submit_iff x y :
  same_submit x y = true <-> s_Platform x = s_Platform y /\ s_SubmitID x = s_SubmitID y.
Proof. unfold same_submit. by rewrite andb_true_iff, !bool_decide_eq_true. Qed.

Lemma existsb_same x (l : list SubmitLog) :
  existsb (same_submit x) l = false -> forall y, y ∈ l -> same_submit x y = false.
Proof.
  intros He y Hy. destruct (same_submit x y) eqn:E; [|done].
  assert (existsb (same_submit x) l = true); [|congruence].
  apply existsb_exists. exists y. split; [by apply list_elem_of_In | done].
Qed.

Lemma table_wf_advance {R} `{Entity R} (t : table R) :
  table_wf t -> table_wf (Table (rows t) (next_id t + 1)).
Proof.
  intros (Hs & Hall & Hn). split_and!; simpl; [done| |lia].
  eapply Forall_impl; [exact Hall|]. simpl. lia.
Qed.

Lemma upsert_submit_ok t x : submits_ok t -> submits_ok (upsert_submit t x).
Proof.
  intros [Hwf Hu]. unfold upsert_submit. destruct (existsb (same_submit x) (rows t)) eqn:He.
  - split.
    + set (f := fun y => if same_submit x y then submit_overwrite x y else y).
      assert (forall r, row_id (f r) = row_id r) as Hf by (intros r; unfold f; by case_match).
      apply (table_wf_advance (Table (map f (rows t)) (next_id t))).
      destruct Hwf as (Hs & Hall & Hn). unfold table_wf. cbn [rows next_id].
      rewrite map_map, (map_ext _ _ Hf). split_and!; [done| |done].
      rewrite Forall_map. eapply Forall_impl; [exact Hall|]. intros r Hr. simpl. by rewrite Hf.
    + intros y z. simpl. rewrite !list_elem_of_In, !in_map_iff.
      intros (y0 & <- & Hy) (z0 & <- & Hz) Hs. apply list_elem_of_In in Hy, Hz.
      assert (y0 = z0) as ->; [|done]. apply Hu; [done..|].
      apply same_submit_iff in Hs. apply same_submit_iff.
      by destruct (same_submit x y0), (same_submit x z0).
  - split; [by apply table_wf_insert|]. pose proof (existsb_same _ _ He) as Hno.
    assert (forall y, y ∈ rows t -> same_submit (submit_with_id x (next_id t)) y = false) as Hno'
      by exact Hno.
    intros y z [Hy| ->]%elem_of_insert [Hz| ->]%elem_of_insert Hs; auto.
    + apply same_submit_iff in Hs. specialize (Hno' y Hy).
      assert (same_submit (submit_with_id x (next_id t)) y = true); [|congruence].
      apply same_submit_iff. by destruct Hs.
    + specialize (Hno' z Hz). congruence.
Qed.

(** Item [x] is stored: there is a row with its key that has its user. *)
Definition stored (t : table SubmitLog) (x : SubmitLog) : Prop :=
  exists y, y ∈ rows t /\ same_submit x y = true /\ s_UserID y = s_UserID x.

Lemma upsert_stores t x : stored (upsert_submit t x) x.
Proof.
  unfold upsert_submit. destruct (existsb (same_submit x) (rows t)) eqn:He.
  - apply existsb_exists in He as (y & Hy & Hs). exists (submit_overwrite x y). simpl.
    split_and!; [|by apply same_submit_iff in Hs; apply same_submit_iff|done].
    apply list_elem_of_In, in_map_iff. exists y. by rewrite Hs.
  - exists (submit_with_id x (next_id t)). split_and!; [|by apply same_submit_iff|done].
    apply elem_of_insert. by right.
Qed.

Lemma upsert_keeps_stored t x z : stored t z -> s_UserID x = s_UserID z -> stored (upsert_submit t x) z.
Proof.
  intros (y & Hy & Hs & Hu) Hxz. unfold upsert_submit.
  destruct (existsb (same_submit x) (rows t)).
  - exists (if same_submit x y then submit_overwrite x y else y). split_and!.
    + apply list_elem_of_In, in_map_iff. exists y. split; [done | by apply list_elem_of_In].
    + apply same_submit_iff in Hs. apply same_submit_iff. by destruct (same_submit x y).
    + by destruct (same_submit x y).
  - exists y. split; [|done]. apply elem_of_insert. by left.
Qed.

Lemma fold_upsert_stored u xs t :
  (forall x, x ∈ xs -> s_UserID x = u) -> forall x, x ∈ xs -> stored (foldl upsert_submit t xs) x.
Proof.
  revert t. induction xs as [|y xs IH] using rev_ind; intros t Hu x Hx; [set_solver|].
  rewrite foldl_snoc. apply elem_of_app in Hx as [Hx|Hx%list_elem_of_singleton].
  - apply upsert_keeps_stored; [apply IH; set_solver|]. rewrite (Hu x), (Hu y); set_solver.
  - subst. apply upsert_stores.
Qed.

Lemma fold_upsert_ok xs t : submits_ok t -> submits_ok (foldl upsert_submit t xs).
Proof. revert t. induction xs as [|x xs IH]; intros t Ht; simpl; [done|]. by apply IH, upsert_submit_ok. Qed.

(** As many rows of [u] on [p] as there are distinct items to store. *)
Lemma fold_upsert_count u p xs t :
  NoDup (map s_SubmitID xs) -> (forall x, x ∈ xs -> s_UserID x = u /\ s_Platform x = p) ->
  Z.of_nat (length xs) <= count_match (submits_of u p) (foldl upsert_submit t xs).
Proof.
  intros Hnd Hx. set (t' := foldl upsert_submit t xs).
  unfold count_match, count_where. apply Nat2Z.inj_le.
  rewrite <- (length_map s_SubmitID xs), <- (length_map s_SubmitID (where_ _ _)).
  apply submseteq_length, NoDup_submseteq; [done|]. intros id Hid.
  apply list_elem_of_In, in_map_iff in Hid as (x & <- & Hin%list_elem_of_In).
  destruct (fold_upsert_stored u xs t (fun y Hy => proj1 (Hx y Hy)) x Hin) as (y & Hy & Hs & Hus).
  apply same_submit_iff in Hs as [Hp Hid]. apply list_elem_of_In, in_map_iff. exists y.
  split; [done|]. apply list_elem_of_In, elem_of_where. split; [done|].
  unfold visible, submits_of. simpl. destruct (Hx x Hin). bool_cases; congruence.
Qed.

Lemma upsert_count_le u p t x :
  submits_ok t -> count_match (submits_of u p) (upsert_submit t x) <= count_match (submits_of u p) t + 1.
Proof.
  intros [Hwf Hu]. unfold upsert_submit. destruct (existsb (same_submit x) (rows t)).
  - unfold count_match; simpl.
    assert (forall l, (forall y z, y ∈ l -> z ∈ l -> same_submit y z = true -> y = z) -> NoDup l ->
      count_where (visible (submits_of u p))
        (map (fun y => if same_submit x y then submit_overwrite x y else y) l) <=
      count_where (visible (submits_of u p)) l +
        if existsb (same_submit x) l then 1 else 0) as Hl.
    { induction l as [|y l IH]; intros Hun Hnd; [done|]. apply NoDup_cons in Hnd as [Hy Hnd].
      specialize (IH (fun a b Ha Hb => Hun a b ltac:(set_solver) ltac:(set_solver)) Hnd).
      assert (forall q z (k : list SubmitLog), count_where q (z :: k) = (if q z then 1 else 0) + count_where q k)
        as Hc by (intros q z k; unfold count_where; simpl; destruct (q z); simpl; lia).
      simpl. rewrite !Hc. destruct (same_submit x y) eqn:Hs; simpl.
      - assert (existsb (same_submit x) l = false) as He.
        { apply not_true_iff_false. intros (z & Hz & Hxz)%existsb_exists.
          apply Hy. rewrite (Hun y z); [by apply list_elem_of_In|set_solver| |].
          - apply elem_of_cons. right. by apply list_elem_of_In.
          - apply same_submit_iff. apply same_submit_iff in Hs, Hxz. destruct Hs, Hxz. split; congruence. }
        rewrite He in IH. repeat case_match; lia.
      - lia. }
    etrans; [apply Hl; [done|]|].
    + destruct Hwf as (Hs & _). apply (NoDup_fmap_1 row_id). change (NoDup (map row_id (rows t))).
      clear -Hs. induction (map row_id (rows t)) as [|k l IH]; [constructor|].
      inversion Hs as [|? ? Hs' Hall]; subst. constructor; [|by apply IH].
      intros Hk. rewrite Forall_forall in Hall. specialize (Hall _ Hk). simpl in Hall. lia.
    + case_match; lia.
  - rewrite count_match_insert. case_match; lia.
Qed.

Lemma fold_upsert_count_le u p xs t :
  submits_ok t ->
  count_match (submits_of u p) (foldl upsert_submit t xs) <=
  count_match (submits_of u p) t + Z.of_nat (length xs).
Proof.
  revert t. induction xs as [|x xs IH]; intros t Ht; simpl; [lia|].
  etrans; [by apply IH, upsert_submit_ok|]. pose proof (upsert_count_le u p t x Ht). lia.
Qed.

Lemma remove_submits_ok p t : submits_ok t -> submits_ok (remove_match p t).
Proof.
  intros [Hwf Hu]. split; [by apply table_wf_remove|].
  intros x y [Hx _]%elem_of_where [Hy _]%elem_of_where. by apply Hu.
Qed.

Lemma count_removed {R} `{Entity R} (p : R -> bool) (t : table R) : count_match p (remove_match p t) = 0.
Proof.
  unfold count_match, count_where, remove_match; simpl. rewrite where_where, where_none; [done|].
  intros r _. by destruct (visible p r).
Qed.

Lemma concat_batches {A} fuel (l : list A) : (length l <= fuel)%nat -> concat (batches fuel l) = l.
Proof.
  revert l. induction fuel as [|fuel IH]; intros l Hl; [by destruct l; simpl in *; [|lia]|].
  destruct l as [|x l]; [done|]. change (take spiderInsertBatchSize (x :: l) ++
    concat (batches fuel (drop spiderInsertBatchSize (x :: l))) = x :: l).
  rewrite IH, take_drop; [done|]. rewrite length_drop. unfold spiderInsertBatchSize. simpl in *. lia.
Qed.

Lemma wpv_save_batches bs (Q : () -> world core_db -> Prop) w :
  (forall w', submits (w_db w') = foldl upsert_submit (submits (w_db w)) (concat bs) -> Q () w') ->
  wpv (for_each bs (fun b =>
    exec (fun d => ((), set_table (foldl upsert_submit (submits d) b) d)))) Q w.
Proof.
  revert w. induction bs as [|b bs IH]; intros w HQ; cbn [for_each].
  - apply wpv_ret. by apply HQ.
  - repeat wpv_step. apply IH. intros w' Hw'. apply HQ. rewrite Hw'. simpl. by rewrite foldl_app.
Qed.

Lemma wpv_save_submits xs (Q : () -> world core_db -> Prop) w :
  (forall w', submits (w_db w') = foldl upsert_submit (submits (w_db w)) xs -> Q () w') ->
  wpv (save_submits xs) Q w.
Proof.
  intros HQ. apply wpv_save_batches. intros w'. rewrite concat_batches by done. apply HQ.
Qed.

Definition own_count (u : Z) (p : string) (d : core_db) : Z := count_match (submits_of u p) (submits d).

(** Storing a normalised list, in full or in addition. *)
Lemma store_refines u p needAll xs w :
  submits_ok (submits (w_db w)) -> NoDup (map s_SubmitID xs) ->
  (forall x, x ∈ xs -> s_UserID x = u /\ s_Platform x = p) ->
  wpd (store_submits u p needAll xs) (fun o d =>
    submits_ok (submits d) /\
    match o with
    | Val _ => Z.of_nat (length xs) <= own_count u p d /\
               (needAll = true -> own_count u p d = Z.of_nat (length xs)) /\
               (forall x, x ∈ xs -> stored (submits d) x)
    | Exn _ => rows (submits d) = rows (submits (w_db w))
    end) w.
Proof.
  intros Hok Hnd Hx. unfold store_submits. apply wpd_transaction.
  - intros e d. simpl. split; [|done]. destruct Hok as [Hwf Hu].
    split; [by apply table_wf_rollback | done].
  - assert (forall w1, submits_ok (submits (w_db w1)) ->
      (needAll = true -> own_count u p (w_db w1) = 0) ->
      wpv (match xs with [] => mret () | _ => save_submits xs end) (fun _ w' =>
        submits_ok (submits (w_db w')) /\ Z.of_nat (length xs) <= own_count u p (w_db w') /\
        (needAll = true -> own_count u p (w_db w') = Z.of_nat (length xs)) /\
        (forall x, x ∈ xs -> stored (submits (w_db w')) x)) w1) as Hsave.
    { intros w1 Hok1 H0. destruct xs as [|x0 xs0] eqn:E.
      - apply wpv_ret. split_and!; [done| |done|set_solver]. unfold own_count. apply count_where_nonneg.
      - rewrite <- E in *. apply wpv_save_submits. intros w' Hw'. unfold own_count. rewrite Hw'.
        pose proof (fold_upsert_count u p xs (submits (w_db w1)) Hnd Hx).
        pose proof (fold_upsert_count_le u p xs _ Hok1). split_and!.
        + by apply fold_upsert_ok.
        + done.
        + intros HA. specialize (H0 HA). unfold own_count in H0. lia.
        + apply (fold_upsert_stored u). intros x Hin. by apply Hx. }
    apply wpv_bind. destruct needAll.
    + repeat wpv_step. apply Hsave; simpl; [by apply remove_submits_ok|]. intros _. apply count_removed.
    + apply wpv_ret. by apply Hsave.
Qed.

Lemma count_where_map_le {A} (p : A -> bool) (f : A -> A) l :
  (forall x, p x = true -> p (f x) = true) -> count_where p l <= count_where p (map f l).
Proof.
  intros Hf. unfold count_where. apply Nat2Z.inj_le. induction l as [|x l IH]; [done|]. simpl.
  destruct (p x) eqn:E; simpl; [rewrite (Hf x E); simpl; lia|]. destruct (p (f x)); simpl; lia.
Qed.

Lemma fold_upsert_mono u p xs t :
  (forall x, x ∈ xs -> s_UserID x = u) ->
  count_match (submits_of u p) t <= count_match (submits_of u p) (foldl upsert_submit t xs).
Proof.
  revert t. induction xs as [|x xs IH]; intros t Hx; simpl; [lia|].
  etrans; [|apply IH; set_solver]. unfold upsert_submit. destruct (existsb (same_submit x) (rows t)).
  - unfold count_match. simpl. apply count_where_map_le. intros y Hy.
    destruct (same_submit x y); [|done]. unfold visible, submits_of in *. simpl in *. bool_cases; [|done].
    apply Hx. set_solver.
  - rewrite count_match_insert. case_match; lia.
Qed.

(** The upserts of an incremental refresh, or nothing. *)
Lemma store_mono u p xs w :
  submits_ok (submits (w_db w)) -> (forall x, x ∈ xs -> s_UserID x = u) ->
  wpd (store_submits u p false xs) (fun _ d => own_count u p (w_db w) <= own_count u p d) w.
Proof.
  intros Hok Hx. unfold store_submits. apply wpd_transaction; [done|]. repeat wpv_step.
  destruct xs as [|x0 xs0] eqn:E; [by apply wpv_ret|]. rewrite <- E in *.
  apply wpv_save_submits. intros w' Hw'. unfold own_count. rewrite Hw'. by apply fold_upsert_mono.
Qed.

Lemma wpd_and {D A} (m : M D A) (P Q : outcome A -> D -> Prop) w :
  wpd m P w -> wpd m Q w -> wpd m (fun o d => P o d /\ Q o d) w.
Proof. done. Qed.

Section refresh.
Context `{Fetchers}.

Lemma check_full_ok u p n a w w' :
  check_full u p true n w = (Val a, w') -> own_count u p (w_db w) <= Z.of_nat n.
Proof.
  revert a w'. change (wpv (check_full u p true n)
    (fun _ _ => own_count u p (w_db w) <= Z.of_nat n) w).
  unfold check_full. repeat wpv_step. unfold own_count, rejectIncompleteFullFetch.
  case_decide as Hd; [|apply wpv_throw]. apply wpv_ret. simpl in *.
  pose proof (count_where_nonneg (visible (submits_of u p)) (rows (submits (w_db w)))).
  unfold count_match in *. destruct Hd as [?|[?|?]]; [done|lia|lia].
Qed.

Lemma reads_check_full u p needAll n : reads (check_full u p needAll n).
Proof. unfold check_full, throw_if. solve_reads. Qed.

(** What one refresh does to the rows of the user on the platform. *)
Definition refreshed (u : Z) (p : string) (needAll : bool) (d : core_db)
    (o : outcome (Z * Z)) (d' : core_db) : Prop :=
  submits_ok (submits d') /\ own_count u p d <= own_count u p d' /\
  match o with
  | Val (n, _) => n <= own_count u p d' /\ (needAll = true -> own_count u p d' = n)
  | Exn _ => rows (submits d') = rows (submits d)
  end.

Lemma refreshed_same u p needAll d e : submits_ok (submits d) -> refreshed u p needAll d (Exn e) d.
Proof. intros Hok. by split_and!. Qed.

Lemma fetch_refines u plat needAll w :
  submits_ok (submits (w_db w)) ->
  wpd (fetchAndSave u plat needAll) (refreshed u (p_Platform plat) needAll (w_db w)) w.
Proof.
  intros Hok. unfold fetchAndSave. apply wpd_refuse_if; [by apply refreshed_same|]. intros _.
  apply wpd_refuse_if; [by apply refreshed_same|]. intros _.
  apply wpd_bind_reads; [done|intros; by apply refreshed_same|]. intros tmp w1 _ Hw1.
  rewrite <- Hw1 in Hok |- *. clear w Hw1.
  destruct (normalizeFetchedSubmitLogs u (p_Platform plat) tmp) as [[logs skipped]|e] eqn:Hn;
    [|by apply refreshed_same]. apply normalize_ok in Hn.
  apply wpd_bind_reads; [apply reads_check_full|intros; by apply refreshed_same|].
  intros a w2 Hcheck Hw2. rewrite <- Hw2 in Hok |- *.
  apply wpd_bind. unfold wp.
  pose proof (nz_distinct _ _ _ _ _ Hn) as Hnd.
  assert (forall x, x ∈ logs -> s_UserID x = u /\ s_Platform x = p_Platform plat) as Hx
    by (intros x Hx; by apply (nz_owner _ _ _ _ _ Hn) in Hx as (? & ? & _)).
  pose proof (store_refines u (p_Platform plat) needAll logs w2 Hok Hnd Hx) as Hs.
  assert (needAll = false -> own_count u (p_Platform plat) (w_db w2) <=
    own_count u (p_Platform plat) (w_db (store_submits u (p_Platform plat) needAll logs w2).2))
    as Hmono.
  { intros ->. apply (store_mono u (p_Platform plat) logs w2); [done|]. intros x Hin. by apply Hx. }
  assert (needAll = true -> own_count u (p_Platform plat) (w_db w2) <= Z.of_nat (length logs)) as Hc.
  { intros ->. rewrite Hw2. by eapply check_full_ok. }
  unfold wpd in Hs. destruct (store_submits u (p_Platform plat) needAll logs w2) as [[b|e] w3].
  - destruct Hs as (Hok3 & Hle & Heq & _). unfold wpd. simpl in *. split_and!; [done| |done|done].
    destruct needAll; [specialize (Hc eq_refl); specialize (Heq eq_refl); lia | by apply Hmono].
  - destruct Hs as (Hok3 & Hrows). split_and!; simpl in *; [done| |done].
    unfold own_count, count_match. by rewrite Hrows.
Qed.
End refresh.

(** ** A whole job *)

Lemma count_removed_other {R} `{Entity R} (p q : R -> bool) (t : table R) :
  (forall r, p r = true -> q r = false) -> count_match q (remove_match p t) = count_match q t.
Proof.
  intros Hpq. unfold count_match, count_where, remove_match; simpl. rewrite where_where.
  do 2 f_equal. apply where_ext. intros r _. unfold visible. specialize (Hpq r).
  destruct (row_live r), (p r), (q r); try done. by specialize (Hpq eq_refl).
Qed.

Lemma upsert_other u p q x t :
  s_Platform x = p -> q <> p ->
  count_match (submits_of u q) (upsert_submit t x) = count_match (submits_of u q) t.
Proof.
  intros Hx Hne. unfold upsert_submit. destruct (existsb (same_submit x) (rows t)).
  - unfold count_match, count_where. simpl. rewrite map_where, length_map. do 2 f_equal.
    apply where_ext. intros y _. destruct (same_submit x y) eqn:Hs; [|done].
    apply same_submit_iff in Hs as [Hp _]. unfold visible, submits_of. simpl.
    rewrite (bool_decide_false (s_Platform y = q)) by congruence. by rewrite !andb_false_r.
  - rewrite count_match_insert. unfold visible, submits_of. simpl.
    rewrite (bool_decide_false (s_Platform x = q)) by congruence. rewrite andb_false_r. lia.
Qed.

Lemma fold_upsert_other u p q xs t :
  (forall x, x ∈ xs -> s_Platform x = p) -> q <> p ->
  count_match (submits_of u q) (foldl upsert_submit t xs) = count_match (submits_of u q) t.
Proof.
  intros Hx Hne. revert t. induction xs as [|x xs IH]; intros t; simpl; [done|].
  rewrite IH by set_solver. apply (upsert_other u p); set_solver.
Qed.

Lemma store_other u p q needAll xs w :
  (forall x, x ∈ xs -> s_Platform x = p) -> q <> p ->
  wpd (store_submits u p needAll xs) (fun _ d => own_count u q d = own_count u q (w_db w)) w.
Proof.
  intros Hx Hne. unfold store_submits. apply wpd_transaction; [done|].
  assert (forall w1, own_count u q (w_db w1) = own_count u q (w_db w) ->
    wpv (match xs with [] => mret () | _ => save_submits xs end) (fun _ w' =>
      own_count u q (w_db w') = own_count u q (w_db w)) w1) as Hsave.
  { intros w1 Hw1. destruct xs as [|x0 xs0] eqn:E; [by apply wpv_ret|]. rewrite <- E in *.
    apply wpv_save_submits. intros w' Hw'. rewrite <- Hw1. unfold own_count. rewrite Hw'.
    by apply (fold_upsert_other u p). }
  apply wpv_bind. destruct needAll; [|by apply wpv_ret, Hsave].
  repeat wpv_step. apply Hsave. unfold own_count. simpl. apply count_removed_other.
  intros r Hr. unfold submits_of in *. bool_cases. rewrite andb_false_iff. right. bool_cases. congruence.
Qed.

(** The user has at least [c p] submissions on every platform [p]. *)
Definition has_submits (u : Z) (c : string -> Z) (d : core_db) : Prop :=
  submits_ok (submits d) /\ forall p, c p <= own_count u p d.

Section jobs.
Context `{Fetchers} (u : Z) (c : string -> Z).

Lemma keeps_fetchAndSave plat needAll : keeps (has_submits u c) (fetchAndSave u plat needAll).
Proof.
  intros w [Hok Hc]. pose proof (fetch_refines u plat needAll w Hok) as (Hok' & Hle & _).
  split; [done|]. intros q. destruct (decide (q = p_Platform plat)) as [->|Hne].
  { etrans; [apply Hc | done]. }
  etrans; [apply Hc|]. apply Z.eq_le_incl. symmetry. clear Hok' Hle Hc.
  change (wpd (fetchAndSave u plat needAll) (fun _ d => own_count u q d = own_count u q (w_db w)) w).
  unfold fetchAndSave. apply wpd_refuse_if; [done|]. intros _. apply wpd_refuse_if; [done|].
  intros _. apply wpd_bind_reads; [done..|]. intros tmp w1 _ Hw1. rewrite <- Hw1. clear w Hw1 Hok.
  destruct (normalizeFetchedSubmitLogs u (p_Platform plat) tmp) as [[logs skipped]|e] eqn:Hn; [|done].
  apply normalize_ok in Hn. apply wpd_bind_reads; [apply reads_check_full|done|].
  intros a w2 _ <-. apply wpd_bind. unfold wp.
  pose proof (store_other u (p_Platform plat) q needAll logs w2
    (fun x Hx => proj1 (proj2 (nz_owner _ _ _ _ _ Hn x Hx))) Hne) as Hs.
  unfold wpd in Hs. by destruct (store_submits u (p_Platform plat) needAll logs w2) as [[b|e] w3].
Qed.

Lemma has_platforms t d : has_submits u c d -> has_submits u c (set_table (R := Platform) t d).
Proof. done. Qed.
Lemma has_statuses t d :
  has_submits u c d -> has_submits u c (set_table (R := SpiderSyncStatus) t d).
Proof. done. Qed.
Lemma has_jobs t d : has_submits u c d -> has_submits u c (set_table (R := SpiderRefreshJob) t d).
Proof. done. Qed.
Lemma has_contests t d : has_submits u c d -> has_submits u c (set_table (R := ContestLog) t d).
Proof. done. Qed.
Lemma has_rollback d d' : has_submits u c d -> has_submits u c (rollback d d').
Proof. intros [[Hwf Hu] Hc]. split; [split; [by apply table_wf_rollback | done] | done]. Qed.
Lemma keeps_scan p : keeps (has_submits u c) (redis_scan p).
Proof. intros w Hw. unfold redis_scan. by case_match. Qed.
End jobs.

#[export] Hint Resolve keeps_fetchAndSave has_platforms has_statuses has_jobs has_contests
  has_rollback keeps_scan : keeps.

Section job_keeps.
Context `{Fetchers} (u : Z) (c : string -> Z).

Lemma keeps_save_contests xs : keeps (has_submits u c) (save_contests xs).
Proof.
  unfold save_contests. apply keeps_for_each. intros b. apply keeps_exec. intros d Hd.
  by apply has_contests.
Qed.
#[local] Hint Resolve keeps_save_contests : keeps.

Lemma keeps_load_attempts plat needAll n e :
  keeps (has_submits u c) (load_attempts u plat needAll n e).
Proof. revert e. induction n as [|n IH]; intros e; simpl; solve_keeps. Qed.
#[local] Hint Resolve keeps_load_attempts : keeps.

Lemma keeps_load_platforms j needAll plats :
  keeps (has_submits u c) (load_platforms j u needAll plats).
Proof. induction plats as [|plat plats IH]; simpl; solve_keeps. Qed.
#[local] Hint Resolve keeps_load_platforms : keeps.

Lemma keeps_filter plats : keeps (has_submits u c) (filterRecentCodeforcesRefresh u plats).
Proof. induction plats as [|plat plats IH]; simpl; solve_keeps. Qed.
#[local] Hint Resolve keeps_filter : keeps.

Lemma keeps_LoadData j needAll p : keeps (has_submits u c) (LoadData j u needAll p).
Proof. unfold LoadData. solve_keeps. Qed.
End job_keeps.
