(* ===== verification/JobTheory.v ===== *)
(** Refresh jobs: when a request queues one, and how each one ends. *)
From S2P Require Export SubmitTheory.

(** ** How a job ends *)

Definition job_present (j : Z) (d : core_db) : Prop := is_Some (first_match (by_id j) (jobs d)).

Section job_present_kept.
Context (j : Z).

Lemma present_platforms t d : job_present j d -> job_present j (set_table (R := Platform) t d).
Proof. done. Qed.
Lemma present_statuses t d :
  job_present j d -> job_present j (set_table (R := SpiderSyncStatus) t d).
Proof. done. Qed.
Lemma present_submits t d : job_present j d -> job_present j (set_table (R := SubmitLog) t d).
Proof. done. Qed.
Lemma present_contests t d : job_present j d -> job_present j (set_table (R := ContestLog) t d).
Proof. done. Qed.
Lemma present_rollback d d' : job_present j d -> job_present j (rollback d d').
Proof. done. Qed.
Lemma present_jobs p f d :
  (forall r, j_ID (f r) = j_ID r) -> job_present j d ->
  job_present j (set_table (update_match p f (jobs d)) d).
Proof. intros Hf [r Hr]. unfold job_present. simpl. rewrite first_match_update by done. by rewrite Hr. Qed.
Lemma present_scan p : keeps (job_present j) (redis_scan p).
Proof. intros w Hw. unfold redis_scan. by case_match. Qed.
End job_present_kept.

#[export] Hint Resolve present_platforms present_statuses present_submits present_contests
  present_rollback present_scan : keeps.
#[export] Hint Extern 5 (job_present _ (set_table (update_match _ _ (table_of _)) _)) =>
  by apply present_jobs : keeps.

Lemma steady_scan p : steady (redis_scan p).
Proof. intros w. unfold redis_scan. by case_match. Qed.
#[export] Hint Resolve steady_scan : steady.

Section job_end.
Context `{Fetchers}.

Lemma present_save_submits j xs : keeps (job_present j) (save_submits xs).
Proof.
  unfold save_submits. apply keeps_for_each. intros b. apply keeps_exec. intros d Hd.
  by apply present_submits.
Qed.
Lemma present_save_contests j xs : keeps (job_present j) (save_contests xs).
Proof.
  unfold save_contests. apply keeps_for_each. intros b. apply keeps_exec. intros d Hd.
  by apply present_contests.
Qed.
#[local] Hint Resolve present_save_submits present_save_contests : keeps.

Lemma present_load_attempts j u plat needAll n e :
  keeps (job_present j) (load_attempts u plat needAll n e).
Proof. revert e. induction n as [|n IH]; intros e; simpl; solve_keeps. Qed.
#[local] Hint Resolve present_load_attempts : keeps.

Lemma present_load_platforms j j' u needAll plats :
  keeps (job_present j) (load_platforms j' u needAll plats).
Proof. induction plats as [|plat plats IH]; simpl; solve_keeps. Qed.
#[local] Hint Resolve present_load_platforms : keeps.

Lemma present_filter j u plats : keeps (job_present j) (filterRecentCodeforcesRefresh u plats).
Proof. induction plats as [|plat plats IH]; simpl; solve_keeps. Qed.
#[local] Hint Resolve present_filter : keeps.

Lemma steady_load_attempts u plat needAll n e : steady (load_attempts u plat needAll n e).
Proof. revert e. induction n as [|n IH]; intros e; simpl; solve_steady. Qed.
#[local] Hint Resolve steady_load_attempts : steady.
Lemma steady_load_platforms j u needAll plats : steady (load_platforms j u needAll plats).
Proof. induction plats as [|plat plats IH]; simpl; solve_steady. Qed.
#[local] Hint Resolve steady_load_platforms : steady.
Lemma steady_filter u plats : steady (filterRecentCodeforcesRefresh u plats).
Proof. induction plats as [|plat plats IH]; simpl; solve_steady. Qed.
#[local] Hint Resolve steady_filter : steady.

Lemma nothrow_load_platforms j u needAll plats : nothrow (load_platforms j u needAll plats).
Proof. induction plats as [|plat plats IH]; simpl; solve_nothrow. Qed.
#[local] Hint Resolve nothrow_load_platforms : nothrow.
Lemma nothrow_filter u plats : nothrow (filterRecentCodeforcesRefresh u plats).
Proof. induction plats as [|plat plats IH]; simpl; solve_nothrow. Qed.
#[local] Hint Resolve nothrow_filter : nothrow.

(** The record of job [j] agrees with what the job returned. *)
Definition job_ended (j : Z) (o : outcome ()) (d : core_db) : Prop :=
  exists r, first_match (by_id j) (jobs d) = Some r /\
  match o with
  | Val _ => j_Status r = "success" /\ j_Error r = ""
  | Exn e => j_Status r = "failed" /\ j_Error r = error_text e
  end.

Lemma wp_finishJob j s e (Q : outcome () -> world core_db -> Prop) w :
  healthy w -> 0 < j -> job_present j (w_db w) ->
  (forall w' r, first_match (by_id j) (jobs (w_db w')) = Some r -> healthy w' ->
     j_Status r = s -> j_Error r = e -> Q (Val ()) w') ->
  wp (finishJob j s e) Q w.
Proof.
  intros Hw Hj [r Hr] HQ. unfold finishJob, update_job.
  repeat first [wp_step | rewrite decide_False by lia]. eapply HQ; simpl.
  - rewrite first_match_update by done. rewrite Hr. simpl. unfold by_id.
    pose proof (has_row_id _ _ _ Hr) as Hid. simpl in Hid. by rewrite bool_decide_true.
  - done.
  - done.
  - done.
Qed.

Lemma wp_finish_ret j (Q : outcome () -> world core_db -> Prop) w :
  healthy w -> 0 < j -> job_present j (w_db w) ->
  (forall w', job_ended j (Val ()) (w_db w') -> Q (Val ()) w') ->
  wp (finishJob j "success" "") Q w.
Proof. intros Hw Hj Hp HQ. apply wp_finishJob; [done..|]. intros w' r Hr _ Hs He. apply HQ. by exists r. Qed.

Lemma wp_finish_throw j err (Q : outcome () -> world core_db -> Prop) w :
  healthy w -> 0 < j -> job_present j (w_db w) ->
  (forall w', job_ended j (Exn err) (w_db w') -> Q (Exn err) w') ->
  wp (finishJob j "failed" (error_text err);; throw err) Q w.
Proof.
  intros Hw Hj Hp HQ. apply wp_bind, wp_finishJob; [done..|]. intros w' r Hr _ Hs He.
  apply wp_throw, HQ. by exists r.
Qed.

Lemma wp_run_platforms j u needAll plats (Q : outcome () -> world core_db -> Prop) w :
  healthy w -> 0 < j -> job_present j (w_db w) ->
  (forall o w', job_ended j o (w_db w') -> Q o w') -> wp (run_platforms j u needAll plats) Q w.
Proof.
  intros Hw Hj Hp HQ. unfold run_platforms.
  apply (wp_calm (job_present j)); [solve_nothrow|solve_steady|solve_keeps|done..|].
  intros _ w1 Hw1 Hp1. destruct plats as [|plat plats]; [apply wp_finish_ret; auto|].
  apply (wp_calm (job_present j)); [solve_nothrow|solve_steady|solve_keeps|done..|].
  intros failed w2 Hw2 Hp2. destruct failed as [|f fs]; [apply wp_finish_ret; auto|].
  apply (wp_finish_throw j (ErrorText (join "; " (f :: fs)))); auto.
Qed.

Lemma wp_load_job j u needAll p (Q : outcome () -> world core_db -> Prop) w :
  healthy w -> 0 < j -> job_present j (w_db w) ->
  (forall o w', job_ended j o (w_db w') -> Q o w') -> wp (load_job j u needAll p) Q w.
Proof.
  intros Hw Hj Hp HQ. unfold load_job.
  apply (wp_calm (job_present j)); [solve_nothrow|solve_steady|solve_keeps|done..|].
  intros r w1 Hw1 Hp1. destruct r as [[|plat plats]|e]; cbn zeta.
  - apply wp_finish_throw; auto.
  - case_decide.
    + apply (wp_calm (job_present j)); [solve_nothrow|solve_steady|solve_keeps|done..|].
      intros plats' w2 Hw2 Hp2. by apply wp_run_platforms.
    + apply (wp_calm (job_present j)); [solve_nothrow|solve_steady|solve_keeps|done..|].
      intros skip w2 Hw2 Hp2. destruct skip; [|by apply wp_run_platforms].
      apply (wp_calm (job_present j)); [solve_nothrow|solve_steady|solve_keeps|done..|].
      intros _ w3 Hw3 Hp3. apply wp_finish_ret; auto.
  - apply wp_finish_throw; auto.
Qed.

Lemma silent_delete_pattern p : reads (delete_pattern p).
Proof.
  unfold delete_pattern. apply reads_bind; [|solve_reads].
  apply reads_attempt. intros w. unfold redis_scan. by case_match.
Qed.

Lemma reads_invalidateCache u : reads (invalidateCache u).
Proof.
  unfold invalidateCache. apply reads_bind; [solve_reads|]. intros _. apply reads_for_each.
  apply silent_delete_pattern.
Qed.
Lemma nothrow_invalidateCache u : nothrow (invalidateCache u).
Proof. solve_nothrow. Qed.

Lemma LoadData_ends j u needAll p w :
  healthy w -> 0 < j -> job_present j (w_db w) ->
  wpd (LoadData j u needAll p) (fun o d => job_ended j o d) w.
Proof.
  intros Hw Hj Hp. change (wp (LoadData j u needAll p) (fun o w' => job_ended j o (w_db w')) w).
  unfold LoadData. apply wp_bind, wp_attempt, wp_load_job; [done..|]. intros o w1 Hend.
  apply wp_bind. unfold wp. destruct (nothrow_invalidateCache u w1) as [v Hv].
  pose proof (reads_invalidateCache u w1) as Hr.
  destruct (invalidateCache u w1) as [[v'|e'] w2]; simplify_eq/=. rewrite <- Hr in Hend.
  by destruct o.
Qed.
End job_end.

(** ** When a job is queued *)

(** The jobs that stand in the way of a new one at time [t]: active, in conflict,
    and updated within the last two hours. *)
Definition blocking (t u : Z) (p : string) (d : core_db) : list SpiderRefreshJob :=
  select (fun j => active_conflict u p j
                   && bool_decide (t - activeRefreshJobTTL <= j_UpdatedAt j)) (jobs d).

Definition queued_job (u requester : Z) (needAll : bool) (source p : string) (t id : Z)
    : SpiderRefreshJob :=
  RefreshJob id u requester source "queued" needAll p (if decide (p <> "") then 1 else 0) 0 ""
             None None t t.

(** Expiring leaves the blocking jobs as the active ones. *)
Lemma select_expired u p t0 t d :
  select (active_conflict u p)
    (update_match (fun j => active_conflict u p j
                            && bool_decide (j_UpdatedAt j < t0 - activeRefreshJobTTL))
                  (job_fail stale_error t) (jobs d)) = blocking t0 u p d.
Proof.
  unfold blocking, select, update_match. cbn [rows]. rewrite map_where.
  rewrite map_id_in.
  - apply where_ext. intros j _. unfold visible. simpl.
    destruct (active_conflict u p j) eqn:E; simpl.
    + do 2 case_bool_decide; simpl; try lia; [|done]. unfold active_conflict, is_active. simpl.
      by rewrite andb_false_r.
    + by rewrite E.
  - intros j [_ Hj]%elem_of_where. destruct (visible _ j) eqn:Hv; [|done].
    exfalso. unfold visible, active_conflict, is_active in Hj. simpl in Hj.
    by rewrite andb_false_r in Hj.
Qed.

Lemma latest_job_in p d r : latest_job p d = Some r -> r ∈ select p (jobs d).
Proof.
  unfold latest_job. intros Hr. rewrite <- (merge_sort_Permutation (desc_by j_UpdatedAt)).
  destruct (merge_sort _ _); simplify_eq/=. set_solver.
Qed.

Lemma latest_job_none p d : latest_job p d = None -> select p (jobs d) = [].
Proof.
  unfold latest_job. intros Hr.
  pose proof (merge_sort_Permutation (desc_by j_UpdatedAt) (select p (jobs d))) as Hp.
  destruct (merge_sort (desc_by j_UpdatedAt) (select p (jobs d))); [by apply Permutation_nil | done].
Qed.

(** What [Do] promises in a run without failures. *)
Inductive do_result (u : Z) (needAll : bool) (source : string) (requester : Z) (p : string)
    (w : world core_db) : outcome (Z * option goerr) -> core_db -> Prop :=
  | do_blocked r d' :
      r ∈ blocking (w_clock w (w_calls w)) u p (w_db w) ->
      spider_queue d' = spider_queue (w_db w) -> next_id (jobs d') = next_id (jobs (w_db w)) ->
      do_result u needAll source requester p w (Val (j_ID r, Some ActiveRefreshJob)) d'
  | do_queued t d' :
      blocking (w_clock w (w_calls w)) u p (w_db w) = [] ->
      spider_queue d' = spider_queue (w_db w) ++ [Event u needAll (next_id (jobs (w_db w))) p] ->
      has_row (jobs d') (next_id (jobs (w_db w)))
              (queued_job u requester needAll source p t (next_id (jobs (w_db w)))) ->
      do_result u needAll source requester p w (Val (next_id (jobs (w_db w)), None)) d'.

Lemma Do_result u needAll source requester p w :
  healthy w -> table_wf (jobs (w_db w)) ->
  wp (spider_Do u needAll source requester p)
     (fun o w' => do_result u needAll source requester p w o (w_db w')) w.
Proof.
  intros Hw Hwf. unfold spider_Do, findActiveJob, expireStaleActiveJobs. repeat wp_step.
  cbn [w_db set_db tick fst snd].
  match goal with |- context [latest_job ?q ?d] => destruct (latest_job q d) as [r|] eqn:E end.
  - apply latest_job_in in E. simpl in E. rewrite select_expired in E. repeat wp_step.
    by apply do_blocked.
  - apply latest_job_none in E. simpl in E. rewrite select_expired in E.
    repeat wp_step. unfold publish, publish_with, channel, publishToQueue. repeat wp_step. 
    eapply do_queued; [done|done|]. simpl. unfold has_row. 
    rewrite first_match_insert by done. rewrite first_match_fresh; [by rewrite decide_True|by apply table_wf_update|simpl; lia].
Qed.
