(* ===== verification/SpiderService.v ===== *)
(** The refresh-job handlers of the core-data service: [service/spider.go]. *)
From S2P Require Export SpiderLoad.

Definition SetForbidden : goerr := Forbidden "权限错误" "权限不允许，设置失败".
Definition CoreInternalError : goerr := InternalServer "内部错误" "内部错误，操作失败".
Definition RateLimitError : goerr := Kratos 429 "TOO_MANY_REQUESTS" "请求过于频繁，请稍后再试".
Definition CodeforcesRateLimitError : goerr :=
  Kratos 429 "TOO_MANY_REQUESTS" "Codeforces 官方 API 限流较严格，请不要频繁刷新，建议 30 分钟后再试".

Definition staleAfter : Z := 24 * hour.
Definition codeforcesManualRefreshWindow : Z := 30 * minute.
Definition defaultManualRefreshWindow : Z := 60 * second.

Definition isCodeforcesPlatform (platform : string) : bool :=
  equal_fold (trim_space platform) CodeForces.

Definition samePlatformUsername (platform current next : string) : bool :=
  if isCodeforcesPlatform platform then equal_fold (trim_space current) (trim_space next)
  else bool_decide (trim_space current = trim_space next).

Definition manualRefreshWindow (platform : string) : Z :=
  if isCodeforcesPlatform platform then codeforcesManualRefreshWindow
  else defaultManualRefreshWindow.

(** ** Replies *)

Record CodeJobReply := CodeJob { cj_Code : Z; cj_Message : string; cj_JobId : Z }.

Record JobInfo := JobPb {
  ji_JobId : Z; ji_UserId : Z; ji_RequesterId : Z; ji_Source : string; ji_Status : string;
  ji_NeedAll : bool; ji_CurrentPlatform : string; ji_TotalPlatforms : Z;
  ji_FinishedPlatforms : Z; ji_Error : string; ji_CreatedAt : Z; ji_StartedAt : Z;
  ji_FinishedAt : Z; ji_UpdatedAt : Z }.

Record RebuildAllReply := Rebuild {
  ra_TotalUsers : Z; ra_QueuedJobs : Z; ra_Skipped : Z; ra_JobIds : list Z }.

Record HealthReply := Health {
  hr_Queued : Z; hr_Running : Z; hr_FailedToday : Z; hr_GeneratedAt : Z }.

Record SyncStatusInfo := SyncInfo {
  si_Platform : string; si_Username : string; si_Status : string; si_LastStartedAt : Z;
  si_LastFinishedAt : Z; si_LastSuccessAt : Z; si_LastError : string; si_LastFetchedCount : Z;
  si_IsStale : bool; si_CanViewError : bool; si_UpdatedAt : Z }.

Definition toUnix (t : option Z) : Z := match t with None => 0 | Some t => time_unix t end.

Definition jobToPb (job : SpiderRefreshJob) (canViewError : bool) : JobInfo :=
  JobPb (j_ID job) (j_UserID job) (j_RequesterID job) (j_Source job) (j_Status job)
    (j_NeedAll job) (j_CurrentPlatform job) (j_TotalPlatforms job) (j_FinishedPlatforms job)
    (if canViewError then j_Error job else "") (time_unix (j_CreatedAt job))
    (toUnix (j_StartedAt job)) (toUnix (j_FinishedAt job)) (time_unix (j_UpdatedAt job)).

(** ** Handlers *)

Definition svc_GetSpider (userId : Z) : CM (list (string * string)) :=
  plats ← or_fail (find_where (fun p => bool_decide (p_UserID p = userId))) CoreInternalError;
  mret (map (fun p => (p_Platform p, p_Username p)) plats).

Definition svc_Job (c : ctx) (jobId : Z) : CM JobInfo :=
  refuse_if (bool_decide (jobId <= 0)) (BadRequest "参数错误" "jobId不能为空");;
  job ← or_fail (first_by (by_id jobId)) (NotFoundErr "任务不存在" "未找到抓取任务");
  refuse_if (negb (canViewUserDetail c (j_UserID job))) (Forbidden "权限错误" "无权查看该任务");;
  mret (jobToPb job true).

(** The rows that [Jobs] may list for a caller. *)
Definition jobs_scope (current : JwtPayload) (scope : string) (userId : Z)
    (j : SpiderRefreshJob) : bool :=
  if decide (scope = "all") then bool_decide (userId <= 0) || bool_decide (j_UserID j = userId)
  else bool_decide (j_UserID j = jwt_UserID current)
       || bool_decide (j_RequesterID j = jwt_UserID current).

Definition svc_Jobs (c : ctx) (page pageSize : Z) (scope : string) (userId : Z)
    (status : string) : CM (list JobInfo * Z) :=
  let page := if decide (page <= 0) then 1 else page in
  let pageSize := if decide (pageSize <= 0 \/ 100 < pageSize) then 20 else pageSize in
  match c with
  | None => throw (Unauthorized "未登录" "请先登录")
  | Some current =>
      let scope := if decide (scope = "") then "mine" else scope in
      refuse_if (bool_decide (scope = "all") && negb (isCoachOrAdmin c))
        (Forbidden "权限错误" "无权查看全站抓取任务");;
      let p := fun j => jobs_scope current scope userId j
                        && (bool_decide (status = "") || bool_decide (j_Status j = status)) in
      total ← or_fail (count_rows p) CoreInternalError;
      rows ← or_fail (find_page p (desc_by j_UpdatedAt) pageSize
                        (wrap_int64 (wrap_int64 (page - 1) * pageSize))) CoreInternalError;
      mret (map (fun j => jobToPb j (canViewUserDetail c (j_UserID j))) rows, total)
  end.

Definition with_status (s : string) (j : SpiderRefreshJob) : bool := bool_decide (j_Status j = s).

Definition svc_Health (c : ctx) : CM HealthReply :=
  refuse_if (bool_decide (c = None)) (Unauthorized "未登录" "请先登录");;
  queued ← or_fail (count_rows (with_status "queued")) CoreInternalError;
  running ← or_fail (count_rows (with_status "running")) CoreInternalError;
  t ← now;
  failedToday ← or_fail (count_rows (fun j =>
    with_status "failed" j && bool_decide (t - 24 * hour <= j_UpdatedAt j))) CoreInternalError;
  t ← now;
  mret (Health queued running failedToday (time_unix t)).

(** Where a failed job is taken up again. *)
Definition retry_platform (job : SpiderRefreshJob) : string :=
  if decide (j_TotalPlatforms job <> 1) then "" else j_CurrentPlatform job.

Definition svc_Retry (c : ctx) (jobId : Z) : CM CodeJobReply :=
  refuse_if (bool_decide (jobId <= 0)) (BadRequest "参数错误" "jobId不能为空");;
  match c with
  | None => throw (Unauthorized "未登录" "请先登录")
  | Some current =>
      job ← or_fail (first_by (by_id jobId)) (NotFoundErr "任务不存在" "未找到抓取任务");
      refuse_if (bool_decide (j_Status job <> "failed")) (BadRequest "状态错误" "只能重试失败任务");;
      refuse_if (negb (canViewUserDetail c (j_UserID job)))
        (Forbidden "权限错误" "无权重试该任务");;
      let platform := retry_platform job in
      r ← spider_Do (j_UserID job) (j_NeedAll job) "retry" (wrap_int64 (jwt_UserID current)) platform;
      match r with
      | (newJobId, None) =>
          recordCoreOperation c "spider.retry" "spider_job" jobId
            [("userId", JInt (j_UserID job)); ("platform", JString platform);
             ("newJobId", JInt newJobId)];;
          mret (CodeJob 0 "重试任务已加入队列" newJobId)
      | (newJobId, Some err) =>
          if is_active_job err then mret (CodeJob 0 "已有抓取任务正在进行，请稍等" newJobId)
          else throw CoreInternalError
      end
  end.

(** [for _, userId := range userIds] *)
Fixpoint rebuild_loop (requester : Z) (userIds : list Z) (reply : RebuildAllReply)
    : CM RebuildAllReply :=
  match userIds with
  | [] => mret reply
  | userId :: userIds =>
      r ← spider_Do userId true "admin_rebuild" requester "";
      match r with
      | (jobId, None) =>
          rebuild_loop requester userIds
            (Rebuild (ra_TotalUsers reply) (ra_QueuedJobs reply + 1) (ra_Skipped reply)
                     (ra_JobIds reply ++ [jobId]))
      | (jobId, Some err) =>
          if is_active_job err then
            rebuild_loop requester userIds
              (Rebuild (ra_TotalUsers reply) (ra_QueuedJobs reply) (ra_Skipped reply + 1)
                       (if decide (0 < jobId) then ra_JobIds reply ++ [jobId]
                        else ra_JobIds reply))
          else throw CoreInternalError
      end
  end.

Definition bound_users (d : core_db) : list Z :=
  merge_sort Z.le (remove_dups (map p_UserID (rows (platforms d)))).

Definition svc_RebuildAll (c : ctx) : CM RebuildAllReply :=
  match c with
  | None => throw (Unauthorized "未登录" "请先登录")
  | Some current =>
      refuse_if (negb (canManageCoreOps (jwt_RoleID current)))
        (Forbidden "权限错误" "只有管理员和教练可以触发全站重爬");;
      userIds ← or_fail (query bound_users) CoreInternalError;
      reply ← rebuild_loop (wrap_int64 (jwt_UserID current)) userIds
                (Rebuild (Z.of_nat (length userIds)) 0 0 []);
      recordCoreOperation c "spider.rebuild_all" "spider_job" 0
        [("totalUsers", JInt (ra_TotalUsers reply)); ("queuedJobs", JInt (ra_QueuedJobs reply));
         ("skipped", JInt (ra_Skipped reply))];;
      mret reply
  end.

(** The last row for a platform wins, as in the map that the handler builds. *)
Definition status_for (sts : list SpiderSyncStatus) (platform : string) : option SpiderSyncStatus :=
  last (where_ (fun s => bool_decide (ss_Platform s = platform)) sts).

Definition sync_info (t : Z) (canViewError : bool) (sts : list SpiderSyncStatus) (p : Platform)
    : SyncStatusInfo :=
  match status_for sts (p_Platform p) with
  | None => SyncInfo (p_Platform p) (p_Username p) "never" 0 0 0 "" 0 true canViewError 0
  | Some s =>
      SyncInfo (p_Platform p) (p_Username p) (ss_Status s) (toUnix (ss_LastStartedAt s))
        (toUnix (ss_LastFinishedAt s)) (toUnix (ss_LastSuccessAt s))
        (if canViewError then ss_LastError s else "") (ss_LastFetchedCount s)
        (match ss_LastSuccessAt s with
         | None => true
         | Some t0 => bool_decide (staleAfter < time_sub t t0)
         end) canViewError (time_unix (ss_UpdatedAt s))
  end.

Definition svc_Status (c : ctx) (userId : Z) : CM (list SyncStatusInfo * Z) :=
  refuse_if (bool_decide (userId <= 0)) (BadRequest "参数错误" "userId不能为空");;
  refuse_if (negb (VerifySelfOrAbove c (wrap_uint64 userId)) && negb (isCoachOrAdmin c))
    (Forbidden "权限错误" "无权查看该用户抓取状态");;
  plats ← or_fail (find_where (fun p => bool_decide (p_UserID p = userId))) CoreInternalError;
  sts ← or_fail (find_where (fun s => bool_decide (ss_UserID s = userId))) CoreInternalError;
  t ← now;
  mret (map (sync_info t (canViewUserDetail c userId) sts) plats, time_unix t).

Definition invalidateUserStatisticCache (userId : Z) : CM () :=
  ignore_err (redis_del (statistic_keys userId));;
  for_each ["statistic:heatmap:" +:+ pretty userId +:+ ":*:*:*"; "statistic:heatmap:0:*:*:*"]
    delete_pattern.

Section with_limits.
Context `{RateLimit}.

Definition update_key (userId : Z) (platform : string) : string :=
  "update:" +:+ pretty userId +:+ ":" +:+ (if decide (platform = "") then "all" else platform).

(** [header] is the [X-Spider-Platform] header of the request. *)
Definition svc_SpiderUpdate (c : ctx) (userId : Z) (platform header : string)
    : CM CodeJobReply :=
  let platform := trim_space platform in
  let platform := if decide (platform = "") then trim_space header else platform in
  recent ← (if isCodeforcesPlatform platform
            then platformRefreshStartedWithin userId platform codeforcesManualRefreshWindow
            else mret false);
  if recent : bool then
    mret (CodeJob 0 "Codeforces 官方 API 限流较严格，最近已刷新过，请 30 分钟后再试" 0)
  else
    ok ← allow_request (update_key userId platform) (manualRefreshWindow platform);
    refuse_if (negb ok) (if isCodeforcesPlatform platform then CodeforcesRateLimitError
                         else RateLimitError);;
    let requesterId := match c with Some pd => wrap_int64 (jwt_UserID pd) | None => 0 end in
    r ← spider_Do userId true "manual" requesterId platform;
    match r with
    | (jobId, Some err) =>
        if is_active_job err then mret (CodeJob 0 "已有抓取任务正在进行，请稍等" jobId)
        else throw CoreInternalError
    | (jobId, None) =>
        recordCoreOperation c "spider.update" "user" userId
          [("platform", JString platform); ("jobId", JInt jobId); ("source", JString "manual")];;
        mret (CodeJob 0 (if decide (platform <> "")
                         then "更新成功，请稍等片刻，" +:+ platform +:+ " 数据正在更新"
                         else "更新成功，请稍等片刻，您的全量OJ数据正在更新") jobId)
    end.

Definition svc_SetSpider (c : ctx) (userId : Z) (platform username : string)
    : CM (Z * string) :=
  refuse_if (negb (VerifySelfOrAbove c (wrap_uint64 userId))) SetForbidden;;
  let platform := trim_space platform in
  let username := trim_space username in
  ok ← allow_request ("user:" +:+ pretty userId) (30 * second);
  refuse_if (negb ok) RateLimitError;;
  existing ← attempt (first_by (platform_of userId platform));
  let isSameBinding :=
    match existing with
    | Val e => samePlatformUsername platform (p_Username e) username
    | Exn _ => false
    end in
  recent ← (if isCodeforcesPlatform platform && isSameBinding
            then platformRefreshStartedWithin userId platform codeforcesManualRefreshWindow
            else mret false);
  if recent : bool then
    mret (0, "Codeforces 官方 API 限流较严格，该账号最近已刷新过，请 30 分钟后再试")
  else
    (if isCodeforcesPlatform platform && is_val existing && negb isSameBinding
     then ignore_err (remove_where (status_of userId platform)) else mret ());;
    ignore_err (remove_where (platform_of userId platform));;
    ignore_err (remove_where (submits_of userId platform));;
    invalidateUserStatisticCache userId;;
    or_fail (create (fun id => PlatformRow id userId platform username)) CoreInternalError;;
    spider_Do userId true "bind" (wrap_int64 (GetCurrentUserId c)) platform;;
    recordCoreOperation c "spider.set_binding" "user" userId [("platform", JString platform)];;
    mret (0, "设置成功，请稍等片刻，您的全量OJ数据正在更新").
End with_limits.
