(* ===== verification/ContestProblems.v ===== *)
(** The problems of a contest as the ranking shows them: [service/contest_matrix.go]
    (columns, their keys, letters, links and aliases) and the acceptance rule of
    [data/dal/statistic_rules.go].  The pages of the judges are read by code that is
    a parameter here. *)
From S2P Require Export SpiderLoad.
From Stdlib Require Import Ascii.

(** ** Platforms and links *)

Definition AtCoder : string := "AtCoder".
Definition NowCoder : string := "NowCoder".

Definition isContestPlatform (platform target : string) : bool :=
  equal_fold (trim_space platform) (trim_space target).

Record contestProblemMeta := ProblemMeta {
  pm_Key : string; pm_Index : string; pm_Name : string; pm_URL : string;
  pm_Aliases : list string }.

Definition is_letter (a : ascii) : bool :=
  is_between 65 90 (code a) || is_between 97 122 (code a).

(** [url.PathEscape] *)
Definition hex_upper (n : Z) : ascii := byte_of (if n <? 10 then 48 + n else 55 + n).
Definition path_byte (a : ascii) : list ascii :=
  if is_letter a || is_between 48 57 (code a)
     || bool_decide (code a ∈ [45; 95; 46; 126; 36; 38; 43; 58; 61; 64])
  then [a] else [byte_of 37; hex_upper (code a / 16); hex_upper (code a mod 16)].
Definition path_escape (s : string) : string := of_bytes (concat (map path_byte (bytes_of s))).

Definition atCoderProblemURL (contestID taskID : string) : string :=
  let contestID := trim_space contestID in
  let taskID := trim_space taskID in
  if decide (contestID = "" \/ taskID = "") then ""
  else "https://atcoder.jp/contests/" +:+ path_escape contestID +:+ "/tasks/" +:+ path_escape taskID.

Definition codeforcesProblemURLFromIndex (contestID index : string) : string :=
  let contestID := trim_space contestID in
  let index := trim_space index in
  if decide (contestID = "" \/ index = "") then ""
  else "https://codeforces.com/contest/" +:+ path_escape contestID +:+ "/problem/"
         +:+ path_escape index.

Definition nowCoderProblemURL (contestID index : string) : string :=
  let contestID := trim_space contestID in
  let index := trim_space index in
  if decide (contestID = "" \/ index = "") then ""
  else "https://ac.nowcoder.com/acm/contest/" +:+ path_escape contestID +:+ "/" +:+ path_escape index.

Definition problemURL (platform contestID index key : string) : string :=
  if isContestPlatform platform AtCoder then
    let taskID := trim_space key in
    atCoderProblemURL contestID (if decide (taskID = "") then trim_space index else taskID)
  else if isContestPlatform platform CodeForces then codeforcesProblemURLFromIndex contestID index
  else if isContestPlatform platform NowCoder then nowCoderProblemURL contestID index
  else "".

(** ** Letters *)

(** [string(rune('A' + n%26))] *)
Definition letter (n : nat) : string := of_bytes [byte_of (65 + Z.of_nat n mod 26)].

(** [^[A-Za-z]+$] *)
Definition atCoderTaskAlphabet (s : string) : bool :=
  negb (bool_decide (s = "")) && forallb is_letter (bytes_of s).

(** The first field of a problem when it is short, a letter otherwise. *)
Definition short_field (problem : string) (fallback : nat) : string :=
  match fields problem with
  | f :: _ => if decide (rune_count f <= 4) then f else letter fallback
  | [] => letter fallback
  end.

Definition deriveProblemIndex (platform contestID problem : string) (fallback : nat) : string :=
  let problem := trim_space problem in
  let contestID := trim_space contestID in
  let suffix := trim_prefix problem (contestID +:+ "_") in
  if isContestPlatform platform AtCoder && negb (bool_decide (contestID = ""))
     && has_prefix problem (contestID +:+ "_") && atCoderTaskAlphabet suffix
  then to_upper suffix
  else
    let rest := trim_space (trim_prefix problem (contestID +:+ "-")) in
    if isContestPlatform platform CodeForces && negb (bool_decide (contestID = ""))
       && has_prefix problem (contestID +:+ "-") && negb (bool_decide (rest = ""))
    then default "" (head (fields rest))
    else short_field problem fallback.

Definition naturalProblemOrder (leftIndex rightIndex leftKey rightKey : string) : bool :=
  let leftIndex := to_upper (trim_space leftIndex) in
  let rightIndex := to_upper (trim_space rightIndex) in
  if decide (leftIndex <> "" /\ rightIndex <> "" /\ leftIndex <> rightIndex)
  then string_lt leftIndex rightIndex
  else string_lt leftKey rightKey.

(** [sort.SliceStable] on [naturalProblemOrder]: [x] may stay in front of [y]. *)
Definition may_precede (x y : contestProblemMeta) : Prop :=
  naturalProblemOrder (pm_Index y) (pm_Index x) (pm_Key y) (pm_Key x) = false.
#[export] Instance may_precede_dec x y : Decision (may_precede x y).
Proof. unfold may_precede. apply _. Defined.

(** ** Columns *)

Definition nowCoderProblemAliases (index title : string) : list string :=
  let index := trim_space index in
  let title := trim_space title in
  (if decide (index <> "") then [index; to_upper index] else [])
  ++ (if decide (title <> "") then
        title :: (if decide (index <> "")
                  then [index +:+ " " +:+ title; to_upper index +:+ " " +:+ title] else [])
      else []).

(** The problems collected so far and the keys seen. *)
Record columns := Columns { co_seen : gset string; co_problems : list contestProblemMeta }.

Definition raw_problem_key (sub : SubmitLog) : string :=
  let key := trim_space (s_Problem sub) in
  if decide (key = "") then trim_space (s_SubmitID sub) else key.

Definition add_meta_problem (platform contestID : string) (st : columns)
    (problem : contestProblemMeta) : columns :=
  let key := trim_space (pm_Key problem) in
  if decide (key = "" \/ key ∈ co_seen st) then st
  else
    let index := if decide (pm_Index problem = "")
                 then deriveProblemIndex platform contestID key (length (co_problems st))
                 else pm_Index problem in
    let name := if decide (pm_Name problem = "") then key else pm_Name problem in
    let url := if decide (pm_URL problem = "") then problemURL platform contestID index key
               else pm_URL problem in
    Columns ({[key]} ∪ co_seen st)
      (co_problems st ++ [ProblemMeta key index name url (pm_Aliases problem ++ [index; name])]).

Definition add_submitted_problem (platform contestID : string) (st : columns) (sub : SubmitLog)
    : columns :=
  let key := raw_problem_key sub in
  if decide (key = "" \/ key ∈ co_seen st) then st
  else
    let index := deriveProblemIndex platform contestID key (length (co_problems st)) in
    Columns ({[key]} ∪ co_seen st)
      (co_problems st ++ [ProblemMeta key index key (problemURL platform contestID index key) []]).

Definition collect_problems (platform contestID : string) (metaProblems : list contestProblemMeta)
    (submissions : list SubmitLog) : list contestProblemMeta :=
  co_problems (foldl (add_submitted_problem platform contestID)
    (foldl (add_meta_problem platform contestID) (Columns ∅ []) metaProblems) submissions).

Definition normalizeContestProblems (platform contestID : string)
    (metaProblems : list contestProblemMeta) (submissions : list SubmitLog)
    : list contestProblemMeta :=
  let problems := collect_problems platform contestID metaProblems submissions in
  match metaProblems with
  | [] => merge_sort may_precede problems
  | _ => problems
  end.

(** ** Problems made up for NowCoder *)

Definition add_synthesized (contestID : string) (totalCount : nat) (st : columns) (sub : SubmitLog)
    : columns :=
  let key := trim_space (s_Problem sub) in
  if decide ((totalCount <= length (co_problems st))%nat \/ key = "" \/ key ∈ co_seen st) then st
  else
    let index := deriveProblemIndex NowCoder contestID key (length (co_problems st)) in
    Columns ({[key]} ∪ co_seen st)
      (co_problems st ++ [ProblemMeta key index key (nowCoderProblemURL contestID index)
                            (nowCoderProblemAliases index key)]).

Definition synthesized_key (contestID index : string) : string :=
  "__nowcoder_" +:+ contestID +:+ "_" +:+ index.

(** One round of [for len(problems) < totalCount]; [continue] changes nothing. *)
Definition fill_step (contestID : string) (st : columns) : columns :=
  let index := letter (length (co_problems st)) in
  let key := synthesized_key contestID index in
  if decide (key ∈ co_seen st) then st
  else Columns ({[key]} ∪ co_seen st)
         (co_problems st ++ [ProblemMeta key index index (nowCoderProblemURL contestID index) [index]]).

(** The loop; [None] when [fuel] rounds do not end it. *)
Fixpoint fill_problems (fuel : nat) (contestID : string) (totalCount : nat) (st : columns)
    : option (list contestProblemMeta) :=
  if decide (totalCount <= length (co_problems st))%nat then Some (co_problems st)
  else match fuel with
       | O => None
       | S fuel => fill_problems fuel contestID totalCount (fill_step contestID st)
       end.

Definition synthesizeNowCoderProblems (fuel : nat) (contestID : string) (totalCount : Z)
    (submissions : list SubmitLog) : option (list contestProblemMeta) :=
  if decide (totalCount <= 0) then Some []
  else fill_problems fuel contestID (Z.to_nat totalCount)
         (foldl (add_synthesized contestID (Z.to_nat totalCount)) (Columns ∅ []) submissions).

(** ** Aliases *)

Definition registerProblemAlias (aliases : gmap string string) (alias canonical : string)
    : gmap string string :=
  let alias := trim_space alias in
  let canonical := trim_space canonical in
  if decide (alias = "" \/ canonical = "") then aliases
  else <[to_lower alias := canonical]> (<[alias := canonical]> aliases).

Definition register_problem (aliases : gmap string string) (problem : contestProblemMeta)
    : gmap string string :=
  foldl (fun m alias => registerProblemAlias m alias (pm_Key problem)) aliases
        (pm_Key problem :: pm_Index problem :: pm_Name problem :: pm_Aliases problem).

Definition buildProblemAliasMap (problems : list contestProblemMeta) : gmap string string :=
  foldl register_problem ∅ problems.

Definition canonicalProblemKey (raw : string) (aliases : gmap string string) : string :=
  let key := trim_space raw in
  if decide (key = "") then ""
  else match aliases !! key with
       | Some canonical => canonical
       | None => match aliases !! to_lower key with Some canonical => canonical | None => key end
       end.

(** ** The standings of Codeforces *)

Record codeforcesMatrixProblem := StandingsProblem {
  sp_ContestID : Z; sp_ProblemsetName : string; sp_Index : string; sp_Name : string }.

(** What is used of the answer of the API; [Rows] are ranks with their members. *)
Record codeforcesStandings := Standings {
  cs_Name : string; cs_StartTime : Z; cs_DurationSeconds : Z;
  cs_Problems : list codeforcesMatrixProblem; cs_Rows : list (Z * list string) }.

Definition non_empty (l : list string) : list string :=
  where_ (fun s => negb (bool_decide (s = ""))) l.

(** A key is its parts, joined, and the name. *)
Definition key_of_parts (parts : list string) (name : string) : string :=
  let prefix := join "-" (non_empty parts) in
  if decide (prefix <> "" /\ name <> "") then prefix +:+ " " +:+ name
  else if decide (prefix <> "") then prefix else name.

Definition standings_contest (contestID : string) (problem : codeforcesMatrixProblem) : string :=
  if decide (sp_ContestID problem <> 0) then pretty (sp_ContestID problem) else trim_space contestID.

Definition codeforcesMatrixProblemKey (contestID : string) (problem : codeforcesMatrixProblem)
    : string :=
  key_of_parts [trim_space (sp_ProblemsetName problem); standings_contest contestID problem;
                trim_space (sp_Index problem)] (trim_space (sp_Name problem)).

Definition codeforcesProblemURL (contestID : string) (problem : codeforcesMatrixProblem) : string :=
  codeforcesProblemURLFromIndex (standings_contest contestID problem) (sp_Index problem).

Record contestMeta := ContestMeta {
  cm_Title : string; cm_Start : Z; cm_End : Z; cm_Problems : list contestProblemMeta }.

Definition add_standings_problem (contestID : string) (l : list contestProblemMeta)
    (problem : codeforcesMatrixProblem) : list contestProblemMeta :=
  let key := codeforcesMatrixProblemKey contestID problem in
  if decide (key = "") then l
  else
    let index := trim_space (sp_Index problem) in
    let index := if decide (index = "") then deriveProblemIndex CodeForces contestID key (length l)
                 else index in
    let name := trim_space (sp_Name problem) in
    l ++ [ProblemMeta key index (if decide (name = "") then key else name)
            (codeforcesProblemURL contestID problem) []].

(** A start of zero is the Unix epoch only when the API says nothing. *)
Definition codeforcesStandingsToMeta (contestID : string) (parsed : codeforcesStandings)
    : contestMeta :=
  let start := if decide (0 < cs_StartTime parsed) then cs_StartTime parsed * second else zero_time in
  let fin := if negb (time_is_zero start) && bool_decide (0 < cs_DurationSeconds parsed)
             then start + wrap_int64 (cs_DurationSeconds parsed * second) else zero_time in
  ContestMeta (cs_Name parsed) start fin
    (foldl (add_standings_problem contestID) [] (cs_Problems parsed)).

(** ** Acceptance *)

Definition IsAcceptedStatus (status : string) : bool :=
  let normalized := to_upper (trim_space status) in
  bool_decide (normalized = "AC") || bool_decide (normalized = "OK")
  || contains normalized "ACCEPTED" || contains status "正确".
