(* ===== verification/Platforms.v ===== *)
(** What the scrapers of [internal/spider/platform] do with what the judges answer:
    rows to submissions, problem keys, verdicts, and the loops that go through the
    pages of an answer.  An HTTP request with the decoding of its answer is a
    parameter: the number of the request selects what comes back. *)
From S2P Require Export ContestProblems.

(** ** Codeforces ([codeforces.go]) *)

Inductive fetch_error :=
  | APIError (statusCode : Z) (body : string)
  | PlainError (text : string).

Definition fetch_error_text (e : fetch_error) : string :=
  match e with
  | APIError statusCode body =>
      if decide (0 < statusCode) then "请求响应码错误 " +:+ pretty statusCode +:+ ", " +:+ body
      else "CodeForces API 错误: " +:+ body
  | PlainError text => text
  end.

Definition transient (e : fetch_error) : bool :=
  match e with
  | APIError statusCode body =>
      bool_decide (statusCode = 0) || bool_decide (statusCode ∈ [429; 502; 503; 504])
      || contains (to_lower body) "call limit exceeded"
      || contains (to_lower body) "temporarily unavailable"
  | PlainError _ => false
  end.

Record cfJson := CfRow {
  cf_ID : Z; cf_ContestID : Z; cf_Problem : codeforcesMatrixProblem; cf_Language : string;
  cf_Verdict : string; cf_CreationTimeSeconds : Z }.

Definition submitted_contest (sub : cfJson) : Z :=
  if decide (sp_ContestID (cf_Problem sub) = 0) then cf_ContestID sub else sp_ContestID (cf_Problem sub).

Definition buildCodeforcesProblemKey (sub : cfJson) : string :=
  let contestID := submitted_contest sub in
  key_of_parts [trim_space (sp_ProblemsetName (cf_Problem sub));
                if decide (contestID <> 0) then pretty contestID else "";
                trim_space (sp_Index (cf_Problem sub))] (trim_space (sp_Name (cf_Problem sub))).

Definition cf_submission (userId : Z) (sub : cfJson) : SubmitLog :=
  Submission 0 CodeForces userId (pretty (cf_ID sub)) (pretty (cf_ContestID sub))
    (buildCodeforcesProblemKey sub) (cf_Language sub) (cf_Verdict sub)
    (cf_CreationTimeSeconds sub * second).
Definition codeforcesRowsToSubmitLogs (userId : Z) (rows : list cfJson) : list SubmitLog :=
  map (cf_submission userId) rows.

Definition codeforcesPageSize : nat := 1000.
Definition codeforcesMaxPageAttempts : nat := 5.

Section codeforces.
(** [fetchCodeforcesPageOnce]: the page from [from] on, as request [n] gets it. *)
Context (once : nat -> nat -> fetch_error + list cfJson).

(** The answer and the number of the next request; the pauses between the attempts
    take no time. *)
Fixpoint page_attempts (more : nat) (from n : nat) : (fetch_error + list cfJson) * nat :=
  match once from n with
  | inr rows => (inr rows, S n)
  | inl e =>
      match more with
      | O => (inl e, S n)
      | S more => if transient e then page_attempts more from (S n) else (inl e, S n)
      end
  end.
Definition fetchCodeforcesPage (from n : nat) : (fetch_error + list cfJson) * nat :=
  page_attempts (codeforcesMaxPageAttempts - 1) from n.

(** [fuel] bounds the number of pages; [None] when they do not end within it. *)
Fixpoint cf_pages (fuel : nat) (userId : Z) (needAll : bool) (from n : nat) (res : list SubmitLog)
    : option (fetch_error + list SubmitLog) :=
  match fuel with
  | O => None
  | S fuel =>
      match fetchCodeforcesPage from n with
      | (inl e, _) => Some (inl e)
      | (inr rows, n) =>
          let res := res ++ codeforcesRowsToSubmitLogs userId rows in
          if negb needAll || bool_decide (length rows < codeforcesPageSize)%nat
          then Some (inr res)
          else cf_pages fuel userId needAll (from + length rows) n res
      end
  end.

Definition cf_FetchSubmitLog (fuel : nat) (userId : Z) (username : string) (needAll : bool) (n : nat)
    : option (fetch_error + list SubmitLog) :=
  if decide (trim_space username = "") then Some (inl (PlainError "CodeForces 用户名不能为空"))
  else cf_pages fuel userId needAll 1 n [].
End codeforces.

(** ** AtCoder ([atcoder.go]) *)

Record atcJson := AtcRow {
  at_ID : Z; at_EpochSecond : Z; at_ProblemID : string; at_ContestID : string;
  at_Language : string; at_Result : string }.

Definition at_submission (userId : Z) (v : atcJson) : SubmitLog :=
  Submission 0 AtCoder userId (pretty (at_ID v)) (at_ContestID v) (at_ProblemID v) (at_Language v)
    (at_Result v) (at_EpochSecond v * second).
Definition atCoderRowsToSubmitLogs (userId : Z) (rows : list atcJson) : list SubmitLog :=
  map (at_submission userId) rows.

Definition atCoderPageSize : nat := 500.

(** One page: the rows whose ids have not been seen, and the latest second. *)
Record page_state := PageState { ps_seen : gset Z; ps_new : list atcJson; ps_last : Z }.
Definition take_row (st : page_state) (r : atcJson) : page_state :=
  let last := Z.max (ps_last st) (at_EpochSecond r) in
  if decide (at_ID r ∈ ps_seen st) then PageState (ps_seen st) (ps_new st) last
  else PageState ({[at_ID r]} ∪ ps_seen st) (ps_new st ++ [r]) last.

Definition stuck_error (username : string) (from : Z) : fetch_error :=
  PlainError ("AtCoder 翻页没有前进，停止以避免重复抓取: user=" +:+ username +:+ " from_second=" +:+ pretty from).

Section atcoder.
(** [fetchAtCoderLog]: the rows from a second on, as request [n] gets them. *)
Context (fetch : Z -> nat -> fetch_error + list atcJson) (username : string).

Fixpoint atcoder_pages (fuel : nat) (needAll : bool) (from : Z) (n : nat) (seen : gset Z)
    (res : list atcJson) : option (fetch_error + list atcJson) :=
  match fuel with
  | O => None
  | S fuel =>
      match fetch from n with
      | inl e => Some (inl e)
      | inr [] => Some (inr res)
      | inr atc =>
          let st := foldl take_row (PageState seen [] from) atc in
          let res := res ++ ps_new st in
          if negb needAll || bool_decide (length atc < atCoderPageSize)%nat then Some (inr res)
          else if bool_decide (ps_new st = []) || bool_decide (ps_last st <= from)
          then Some (inl (stuck_error (trim_space username) from))
          else atcoder_pages fuel needAll (ps_last st) (S n) (ps_seen st) res
      end
  end.

Definition fetchAtCoderRows (fuel : nat) (needAll : bool) (t : Z) (n : nat)
    : option (fetch_error + list atcJson) :=
  if decide (trim_space username = "") then Some (inl (PlainError "AtCoder 用户名不能为空"))
  else atcoder_pages fuel needAll (if needAll then 0 else time_unix (t - 60 * minute)) n ∅ [].
End atcoder.

(** ** Verdicts and problems of the others *)

Definition normalizeNowCoderProblem (problemID title : string) : string :=
  let problemID := trim_space problemID in
  let title := trim_space title in
  if decide (problemID = "") then title
  else if decide (title = "") then problemID else problemID +:+ " " +:+ title.

Definition normalizeLuoGuStatus (status : Z) : string :=
  if decide (status = 12) then "AC" else if decide (status = 2) then "CE"
  else if decide (status = 5) then "TLE" else if decide (status = 6) then "WA"
  else if decide (status = 7) then "RE" else if decide (status ∈ [11; 14]) then "WA"
  else if decide (status ∈ [0; 1]) then "UNKNOWN" else if decide (status = 3) then "OLE"
  else if decide (status = 4) then "MLE" else "LuoGu:" +:+ pretty status.

Definition normalizeQOJStatus (rawStatus : string) : string :=
  let status := trim_space rawStatus in
  let upper := to_upper status in
  if contains status "✓" || has_prefix upper "100" then "AC"
  else if has_prefix upper "AC" || has_prefix upper "ACCEPTED" then "AC"
  else if has_prefix upper "CE" || contains upper "COMPILE" then "CE"
  else if has_prefix upper "TLE" || bool_decide (upper = "TL") || contains upper "TIME LIMIT" then "TLE"
  else if has_prefix upper "WA" || contains upper "WRONG" then "WA"
  else if has_prefix upper "RE" || contains upper "RUNTIME" then "RE"
  else if has_prefix upper "MLE" || bool_decide (upper = "ML") || contains upper "MEMORY" then "MLE"
  else if decide (status = "0") then "WA"
  else if decide (status = "") then "UNKNOWN" else status.
