(* ===== verification/PlatformTheory.v ===== *)
(** Going through the pages of a judge collects every submission once, and the keys
    of a problem on the two sides of Codeforces are the same. *)
From S2P Require Export Platforms.

(** ** Codeforces *)

Section codeforces_pages.
Context (once : nat -> nat -> fetch_error + list cfJson) (rows : list cfJson).

Definition cf_page (from : nat) : list cfJson := take codeforcesPageSize (drop (from - 1) rows).

(** The API serves the pages of one list; before it answers it may fail, for a
    passing reason, fewer times than there are attempts. *)
Definition serves_pages : Prop := forall from n, exists k,
  (k < codeforcesMaxPageAttempts)%nat /\ once from (n + k) = inr (cf_page from) /\
  forall j, (j < k)%nat -> exists e, once from (n + j) = inl e /\ transient e = true.

Lemma page_attempts_serves from more k : forall n,
  (k <= more)%nat -> once from (n + k) = inr (cf_page from) ->
  (forall j, (j < k)%nat -> exists e, once from (n + j) = inl e /\ transient e = true) ->
  exists n', page_attempts once more from n = (inr (cf_page from), n').
Proof.
  revert more. induction k as [|k IH]; intros more n Hk Hpage Hfail.
  - rewrite Nat.add_0_r in Hpage. destruct more; simpl; rewrite Hpage; by eexists.
  - destruct more as [|more]; [lia|]. simpl.
    destruct (Hfail 0%nat ltac:(lia)) as (e & He & Ht). rewrite Nat.add_0_r in He. rewrite He, Ht.
    apply IH; [lia | by rewrite <- Hpage; f_equal; lia |].
    intros j Hj. destruct (Hfail (S j) ltac:(lia)) as (e' & He' & Ht'). exists e'.
    split; [|done]. rewrite <- He'. f_equal. lia.
Qed.

Lemma fetch_page_serves from n :
  serves_pages -> exists n', fetchCodeforcesPage once from n = (inr (cf_page from), n').
Proof.
  intros Hs. destruct (Hs from n) as (k & Hk & Hp & Hf).
  apply (page_attempts_serves from _ k); [unfold codeforcesMaxPageAttempts in *; lia | done..].
Qed.

Lemma cf_pages_complete userId fuel : serves_pages -> forall from n,
  (1 <= from)%nat -> (from - 1 <= length rows)%nat ->
  (length rows - (from - 1) < fuel * codeforcesPageSize)%nat ->
  cf_pages once fuel userId true from n (codeforcesRowsToSubmitLogs userId (take (from - 1) rows))
    = Some (inr (codeforcesRowsToSubmitLogs userId rows)).
Proof.
  intros Hs. unfold codeforcesPageSize. induction fuel as [|fuel IH]; intros from n H1 H2 Hf; [simpl in Hf; lia|].
  simpl. destruct (fetch_page_serves from n Hs) as [n' ->]. unfold codeforcesRowsToSubmitLogs.
  rewrite <- map_app. unfold cf_page, codeforcesPageSize. rewrite length_take, length_drop.
  destruct (decide (length rows - (from - 1) < 1000)%nat) as [Hlt|Hge].
  - rewrite bool_decide_true by lia. rewrite (take_ge (drop _ _)) by (rewrite length_drop; lia).
    by rewrite take_drop.
  - rewrite bool_decide_false by lia. rewrite Nat.min_l by lia.
    assert (take (from - 1) rows ++ take 1000 (drop (from - 1) rows) = take (from + 1000 - 1) rows) as ->.
    { rewrite take_take_drop. f_equal. lia. }
    apply IH; lia.
Qed.
End codeforces_pages.

Lemma cf_fetch_complete once rows userId username n fuel :
  serves_pages once rows -> trim_space username <> "" ->
  (length rows < fuel * codeforcesPageSize)%nat ->
  cf_FetchSubmitLog once fuel userId username true n =
    Some (inr (codeforcesRowsToSubmitLogs userId rows)).
Proof.
  intros Hs Hu Hf. unfold cf_FetchSubmitLog. rewrite decide_False by done.
  apply (cf_pages_complete once rows userId fuel Hs 1 n); lia.
Qed.

(** A problem of the standings and a submission for it have the same key. *)
Lemma codeforces_keys_equal (sub : cfJson) (problem : codeforcesMatrixProblem) :
  cf_Problem sub = problem -> cf_ContestID sub <> 0 ->
  codeforcesMatrixProblemKey (pretty (cf_ContestID sub)) problem = buildCodeforcesProblemKey sub.
Proof.
  intros <- Hc. unfold codeforcesMatrixProblemKey, buildCodeforcesProblemKey, standings_contest, submitted_contest.
  rewrite trim_space_number. repeat case_decide; congruence.
Qed.

(** ** AtCoder *)

Lemma sorted_split {A} (f : A -> Z) (t : Z) (l : list A) :
  StronglySorted (asc_by f) l -> Forall (fun x => f x <= t) l ->
  exists a b, l = a ++ b /\ Forall (fun x => f x < t) a /\ Forall (fun x => f x = t) b.
Proof.
  induction 1 as [|x l Hl IH Hx]; intros Hle; [by exists [], []|].
  inversion Hle as [|? ? Hxt Hlt]; subst. destruct (IH Hlt) as (a & b & -> & Ha & Hb).
  destruct (decide (f x < t)) as [Hlt'|Hge]; [exists (x :: a), b; by auto|].
  exists [], (x :: a ++ b). split_and!; [done|done|]. constructor; [lia|].
  rewrite Forall_forall in Hx, Hlt |- *. intros y Hy. specialize (Hx y Hy). specialize (Hlt y Hy).
  unfold asc_by in Hx. lia.
Qed.

(** What a page adds: the rows not seen, and the latest second of all of them. *)
Lemma take_rows_seen seen new last l :
  Forall (fun r => at_ID r ∈ seen) l -> Forall (fun r => at_EpochSecond r <= last) l ->
  foldl take_row (PageState seen new last) l = PageState seen new last.
Proof.
  induction 1 as [|r l Hr Hl IH]; intros Hle; [done|]. inversion Hle; subst. simpl.
  unfold take_row at 2; simpl. rewrite decide_True by done. rewrite Z.max_l by done. by apply IH.
Qed.

Definition ids (l : list atcJson) : gset Z := list_to_set (map at_ID l).
Definition latest (last : Z) (l : list atcJson) : Z := foldl (fun t r => Z.max t (at_EpochSecond r)) last l.

Lemma take_rows_unseen l : forall seen new last,
  Forall (fun r => at_ID r ∉ seen) l -> NoDup (map at_ID l) ->
  foldl take_row (PageState seen new last) l = PageState (ids l ∪ seen) (new ++ l) (latest last l).
Proof.
  induction l as [|r l IH]; intros seen new last Hs Hd.
  { simpl. rewrite app_nil_r. f_equal. unfold ids. simpl. by rewrite (left_id_L _ _). }
  inversion Hs as [|? ? Hr Hl]; subst. simpl in Hd. apply NoDup_cons in Hd as [Hr' Hd].
  simpl. unfold take_row at 2; simpl. rewrite decide_False by done. rewrite IH; [|rewrite Forall_forall in Hl |- *|done].
  - rewrite <- app_assoc. f_equal. unfold ids. simpl. set_solver.
  - intros x Hx. rewrite elem_of_union, elem_of_singleton. intros [He|Hin]; [|by apply (Hl x)].
    apply Hr'. rewrite <- He. by apply list_elem_of_fmap_2.
Qed.

Lemma latest_bounds l : forall last, last <= latest last l /\ Forall (fun r => at_EpochSecond r <= latest last l) l.
Proof.
  unfold latest. induction l as [|r l IH]; intros last; simpl; [done|].
  destruct (IH (last `max` at_EpochSecond r)) as [H1 H2]. split; [lia|]. constructor; [lia|done].
Qed.

Lemma latest_in l : forall last, latest last l = last \/ exists r, r ∈ l /\ at_EpochSecond r = latest last l.
Proof.
  unfold latest. induction l as [|r l IH]; intros last; simpl; [by left|].
  destruct (IH (last `max` at_EpochSecond r)) as [He|(x & Hx & He)]; [|right; exists x; set_solver].
  destruct (decide (at_EpochSecond r <= last)); [left; lia|]. right. exists r. split; [set_solver | lia].
Qed.

Section atcoder_pages.
Context (fetch : Z -> nat -> fetch_error + list atcJson) (username : string) (rows : list atcJson).

(** The archive lists a user's submissions from a second on, in the order of time,
    at most a page of them. *)
Definition serves_from : Prop := forall from n,
  fetch from n = inr (take atCoderPageSize (where_ (fun r => from <=? at_EpochSecond r) rows)).

(** Its rows have ids of their own, and no second fills a page. *)
Record archive : Prop := {
  archive_serves : serves_from;
  archive_sorted : StronglySorted (asc_by at_EpochSecond) rows;
  archive_ids : NoDup (map at_ID rows);
  archive_spread : forall t,
    (length (where_ (fun r => Z.eqb (at_EpochSecond r) t) rows) < atCoderPageSize)%nat }.

(** Before a page: older rows, rows of the current second, the rows to come. *)
Definition split_rows (from : Z) (a b c : list atcJson) : Prop :=
  rows = a ++ b ++ c /\ Forall (fun r => at_EpochSecond r < from) a /\
  Forall (fun r => at_EpochSecond r = from) b /\ Forall (fun r => from <= at_EpochSecond r) c.

Lemma split_page (from : Z) (a b c : list atcJson) (n : nat) :
  archive -> split_rows from a b c ->
  fetch from n = inr (b ++ take (atCoderPageSize - length b) c) /\ (length b < atCoderPageSize)%nat.
Proof.
  intros [Hserve _ _ Hspread] (Hrows & Ha & Hb & Hc). rewrite Forall_forall in Ha, Hb, Hc.
  assert (length b < atCoderPageSize)%nat as Hlen.
  { specialize (Hspread from). rewrite Hrows, !where_app, !length_app in Hspread.
    rewrite (where_all _ b) in Hspread; [lia|]. intros x Hx. apply Z.eqb_eq. by apply Hb. }
  split; [|done]. rewrite Hserve, Hrows, !where_app.
  rewrite where_none by (intros x Hx; apply Z.leb_gt; by apply Ha).
  rewrite (where_all _ b) by (intros x Hx; apply Z.leb_le; rewrite (Hb x Hx); lia).
  rewrite (where_all _ c) by (intros x Hx; apply Z.leb_le; by apply Hc).
  simpl. by rewrite take_app, (take_ge b) by lia.
Qed.

(** After a full page. *)
Lemma split_next (from : Z) (a b c : list atcJson) (k : nat) :
  archive -> split_rows from a b c -> take k c <> [] ->
  exists a' b', a ++ b ++ take k c = a' ++ b' /\ split_rows (latest from (take k c)) a' b' (drop k c).
Proof.
  intros [_ Hsort _ _] (Hrows & Ha & Hb & Hc) Hne. set (t := latest from (take k c)).
  destruct (latest_bounds (take k c) from) as [Hfrom Hall]. fold t in Hfrom, Hall.
  assert (rows = (a ++ b ++ take k c) ++ drop k c) as Hrows'.
  { rewrite Hrows, <- !app_assoc, take_drop. done. }
  rewrite Hrows' in Hsort. apply StronglySorted_app in Hsort as (Hx & Hs & _).
  destruct (sorted_split at_EpochSecond t _ Hs) as (a' & b' & Hab & Ha' & Hb').
  { rewrite !Forall_app. split_and!; [eapply Forall_impl; [exact Ha|simpl; lia] | eapply Forall_impl; [exact Hb|simpl; lia] | done]. }
  exists a', b'. split; [done|]. split_and!; [|done|done|].
  - by rewrite Hrows', Hab, <- app_assoc.
  - apply Forall_forall. intros x Hx'. unfold t.
    destruct (latest_in (take k c) from) as [He|(y & Hy & He)].
    + rewrite He. rewrite Forall_forall in Hc. apply Hc. rewrite <- (take_drop k c). set_solver.
    + rewrite <- He. apply (Hx y x); [set_solver | done].
Qed.

Lemma atcoder_pages_complete fuel : archive -> forall from n a b c,
  split_rows from a b c -> (length c < fuel)%nat ->
  atcoder_pages fetch username fuel true from n (ids (a ++ b)) (a ++ b) = Some (inr rows).
Proof.
  intros Har. induction fuel as [|fuel IH]; intros from n a b c Hsp Hfuel; [lia|].
  destruct (split_page from a b c n Har Hsp) as [Hpage Hlen]. simpl. rewrite Hpage.
  pose proof Hsp as (Hrows & Ha & Hb & Hc). set (k := (atCoderPageSize - length b)%nat) in *.
  destruct (b ++ take k c) as [|r0 page0] eqn:Hne.
  { apply app_eq_nil in Hne as [-> Ht]. destruct c as [|x c]; [|by destruct k eqn:?; [lia|]].
    by rewrite Hrows, !app_nil_r. }
  rewrite <- Hne, foldl_app. clear Hpage Hne r0 page0.
  rewrite take_rows_seen; [|apply Forall_forall; intros x Hx; unfold ids; set_solver|
    eapply Forall_impl; [exact Hb|simpl; lia]].
  pose proof (archive_ids Har) as Hids.
  rewrite Hrows in Hids. rewrite app_assoc, <- (take_drop k c), app_assoc, map_app in Hids.
  apply NoDup_app in Hids as (Hids & _ & _). rewrite map_app in Hids.
  apply NoDup_app in Hids as (_ & Hdis & Hids).
  rewrite take_rows_unseen; [|apply Forall_forall; intros x Hx; unfold ids; rewrite elem_of_list_to_set;
    intros Hin; apply (Hdis _ Hin); by apply list_elem_of_fmap_2|done].
  simpl. rewrite length_app, length_take.
  destruct (decide (length c < k)%nat) as [Hlt|Hge].
  { rewrite bool_decide_true by lia. by rewrite (take_ge c), Hrows, <- app_assoc by lia. }
  rewrite bool_decide_false by lia.
  assert (take k c <> []) as Hne.
  { intros Ht. apply (f_equal length) in Ht. rewrite length_take in Ht. simpl in Ht. lia. }
  rewrite bool_decide_false by done.
  destruct (split_next from a b c k Har Hsp Hne) as (a' & b' & Hab & Hsp').
  rewrite bool_decide_false.
  - simpl. assert (ids (take k c) ∪ ids (a ++ b) = ids (a' ++ b')) as ->.
    { rewrite <- Hab. unfold ids. rewrite !map_app, !list_to_set_app_L. set_solver. }
    rewrite <- app_assoc, Hab. apply (IH _ _ _ _ _ Hsp'). rewrite length_drop. lia.
  - intros Hle. pose proof (archive_spread Har from) as Hspread.
    rewrite Hrows, !where_app, !length_app in Hspread. rewrite (where_all _ b) in Hspread
      by (rewrite Forall_forall in Hb; intros x Hx; apply Z.eqb_eq; by apply Hb).
    rewrite <- (take_drop k c), where_app, length_app, (where_all _ (take k c)) in Hspread.
    + rewrite length_take in Hspread. lia.
    + intros x Hx. apply Z.eqb_eq. rewrite Forall_forall in Hc.
      destruct (latest_bounds (take k c) from) as [_ Hall]. rewrite Forall_forall in Hall.
      specialize (Hall x Hx). simpl in Hle. assert (from <= at_EpochSecond x); [|lia].
      apply Hc. rewrite <- (take_drop k c). set_solver.
Qed.

Lemma atcoder_fetch_complete fuel t n :
  archive -> trim_space username <> "" -> Forall (fun r => 0 <= at_EpochSecond r) rows ->
  (length rows < fuel)%nat -> fetchAtCoderRows fetch username fuel true t n = Some (inr rows).
Proof.
  intros Har Hu Hpos Hf. unfold fetchAtCoderRows. rewrite decide_False by done.
  by apply (atcoder_pages_complete fuel Har 0 n [] [] rows).
Qed.
End atcoder_pages.
