(* ===== verification/ContestTheory.v ===== *)
(** What the columns of a contest are: every problem once, every submission in one
    of them; and when the columns made up for NowCoder come to an end. *)
From S2P Require Export ContestProblems.
From Stdlib Require Import Ascii.

(** ** Columns *)

Definition problem_keys (l : list contestProblemMeta) : list string := map pm_Key l.

(** A key that can name a column. *)
Definition usable_key (k : string) : Prop := k <> "" /\ trim_space k = k.

Record columns_ok (st : columns) := {
  co_nodup : NoDup (problem_keys (co_problems st));
  co_keys : forall k, k ∈ co_seen st <-> k ∈ problem_keys (co_problems st);
  co_usable : Forall usable_key (problem_keys (co_problems st)) }.

Lemma columns_ok_start : columns_ok (Columns ∅ []).
Proof. split; [constructor | set_solver | constructor]. Qed.

Lemma columns_ok_add st p :
  columns_ok st -> usable_key (pm_Key p) -> pm_Key p ∉ co_seen st ->
  columns_ok (Columns ({[pm_Key p]} ∪ co_seen st) (co_problems st ++ [p])).
Proof.
  intros [H1 H2 H3] Hu Hn. split; simpl; unfold problem_keys in *; rewrite map_app.
  - apply NoDup_app. split_and!; [done| |by apply NoDup_singleton].
    intros k Hk. rewrite <- H2 in Hk. set_solver.
  - intros k. rewrite elem_of_app, elem_of_union, H2. set_solver.
  - apply Forall_app. split; [done|]. by constructor.
Qed.

(** A fold that adds a column for the usable keys it meets, each once. *)
Section collecting.
Context {A : Type} (key_of : A -> string) (step : columns -> A -> columns).
Hypothesis step_ok : forall st a, columns_ok st -> columns_ok (step st a) /\
  forall k, k ∈ co_seen (step st a) <-> k ∈ co_seen st \/ (k = key_of a /\ k <> "").

Lemma fold_columns l : forall st, columns_ok st -> columns_ok (foldl step st l) /\
  forall k, k ∈ co_seen (foldl step st l) <-> k ∈ co_seen st \/ (k ∈ map key_of l /\ k <> "").
Proof using step_ok.
  induction l as [|a l IH]; intros st Hst; simpl; [split; [done|set_solver]|].
  destruct (step_ok st a Hst) as [H1 H2]. destruct (IH _ H1) as [H3 H4]. split; [done|].
  intros k. rewrite H4, H2, elem_of_cons. tauto.
Qed.
End collecting.

(** The step of all three loops. *)
Lemma add_column_ok st key p :
  columns_ok st -> trim_space key = key -> pm_Key p = key ->
  let st' := if decide (key = "" \/ key ∈ co_seen st) then st
             else Columns ({[key]} ∪ co_seen st) (co_problems st ++ [p]) in
  columns_ok st' /\ forall k, k ∈ co_seen st' <-> k ∈ co_seen st \/ (k = key /\ k <> "").
Proof.
  intros Hst Ht <-. cbn zeta. case_decide as Hd; [|apply Decidable.not_or in Hd as [Hne Hn]].
  - split; [done|]. intros k. split; [by left|]. intros [?|[-> ?]]; naive_solver.
  - split; [by apply columns_ok_add|]. simpl. intros k. rewrite elem_of_union, elem_of_singleton.
    naive_solver.
Qed.

Lemma add_meta_ok platform contestID st p :
  columns_ok st -> columns_ok (add_meta_problem platform contestID st p) /\
  forall k, k ∈ co_seen (add_meta_problem platform contestID st p) <->
    k ∈ co_seen st \/ (k = trim_space (pm_Key p) /\ k <> "").
Proof. intros Hst. by apply add_column_ok; [|apply trim_space_idem|]. Qed.

Lemma trim_raw_key sub : trim_space (raw_problem_key sub) = raw_problem_key sub.
Proof. unfold raw_problem_key. case_decide; apply trim_space_idem. Qed.

Lemma add_submitted_ok platform contestID st sub :
  columns_ok st -> columns_ok (add_submitted_problem platform contestID st sub) /\
  forall k, k ∈ co_seen (add_submitted_problem platform contestID st sub) <->
    k ∈ co_seen st \/ (k = raw_problem_key sub /\ k <> "").
Proof. intros Hst. by apply add_column_ok; [|apply trim_raw_key|]. Qed.

(** The keys that a list of columns is to have. *)
Definition expected_key (metaProblems : list contestProblemMeta) (submissions : list SubmitLog)
    (k : string) : Prop :=
  k <> "" /\ (k ∈ map (fun p => trim_space (pm_Key p)) metaProblems \/
              k ∈ map raw_problem_key submissions).

Lemma collect_ok platform contestID metaProblems submissions :
  let l := collect_problems platform contestID metaProblems submissions in
  NoDup (problem_keys l) /\ Forall usable_key (problem_keys l) /\
  forall k, k ∈ problem_keys l <-> expected_key metaProblems submissions k.
Proof.
  unfold collect_problems. cbn zeta.
  destruct (fold_columns _ _ (add_meta_ok platform contestID) metaProblems _ columns_ok_start) as [H1 H2].
  destruct (fold_columns _ _ (add_submitted_ok platform contestID) submissions _ H1) as [[H3 H4 H5] H6].
  split_and!; [done|done|]. intros k. rewrite <- H4, H6, H2. unfold expected_key. set_solver.
Qed.

Lemma normalize_problems_perm platform contestID metaProblems submissions :
  normalizeContestProblems platform contestID metaProblems submissions
    ≡ₚ collect_problems platform contestID metaProblems submissions.
Proof. unfold normalizeContestProblems. destruct metaProblems; [apply merge_sort_Permutation | done]. Qed.

Lemma normalize_problems_ok platform contestID metaProblems submissions :
  let l := normalizeContestProblems platform contestID metaProblems submissions in
  NoDup (problem_keys l) /\ Forall usable_key (problem_keys l) /\
  forall k, k ∈ problem_keys l <-> expected_key metaProblems submissions k.
Proof.
  cbn zeta. destruct (collect_ok platform contestID metaProblems submissions) as (H1 & H2 & H3).
  assert (problem_keys (normalizeContestProblems platform contestID metaProblems submissions)
    ≡ₚ problem_keys (collect_problems platform contestID metaProblems submissions)) as Hp
    by apply Permutation_map, normalize_problems_perm.
  rewrite Hp. split_and!; [done|done|]. intros k. by rewrite Hp.
Qed.

(** ** Aliases *)

Definition alias_values (m : gmap string string) (l : list string) : Prop :=
  forall a k, m !! a = Some k -> k ∈ l.

Lemma register_alias_values m a k l :
  alias_values m l -> trim_space k ∈ l -> alias_values (registerProblemAlias m a k) l.
Proof.
  intros Hm Hk x y. unfold registerProblemAlias. case_decide; [apply Hm|].
  rewrite !lookup_insert_Some. naive_solver.
Qed.

Lemma register_alias_keeps m a k x : is_Some (m !! x) -> is_Some (registerProblemAlias m a k !! x).
Proof.
  intros Hx. unfold registerProblemAlias. case_decide; [done|]. rewrite !lookup_insert_is_Some'. auto.
Qed.

Lemma register_problem_values m p l :
  alias_values m l -> trim_space (pm_Key p) ∈ l -> alias_values (register_problem m p) l.
Proof.
  unfold register_problem. generalize (pm_Key p :: pm_Index p :: pm_Name p :: pm_Aliases p).
  intros names. revert m. induction names as [|a names IH]; intros m Hm Hk; [done|].
  apply IH; [by apply register_alias_values | done].
Qed.

Lemma fold_alias_keeps k names m x :
  is_Some (m !! x) -> is_Some (foldl (fun m alias => registerProblemAlias m alias k) m names !! x).
Proof.
  revert m. induction names as [|a names IH]; intros m Hx; [done|]. apply IH. by apply register_alias_keeps.
Qed.

Lemma register_problem_key m p :
  usable_key (pm_Key p) -> is_Some (register_problem m p !! pm_Key p).
Proof.
  intros [Hne Ht]. unfold register_problem. generalize (pm_Index p :: pm_Name p :: pm_Aliases p). intros names. cbn [foldl]. apply fold_alias_keeps.
  unfold registerProblemAlias. rewrite Ht. rewrite decide_False by naive_solver.
  rewrite !lookup_insert_is_Some'. auto.
Qed.

Lemma alias_map_ok l :
  Forall usable_key (problem_keys l) ->
  alias_values (buildProblemAliasMap l) (problem_keys l) /\
  forall k, k ∈ problem_keys l -> is_Some (buildProblemAliasMap l !! k).
Proof.
  unfold buildProblemAliasMap. induction l as [|p l IH] using rev_ind; intros Hl.
  { split; [intros a k Ha; simpl in Ha; by rewrite lookup_empty in Ha | intros k Hk; by apply not_elem_of_nil in Hk]. }
  unfold problem_keys in *. rewrite map_app in *. apply Forall_app in Hl as [Hl Hp].
  apply Forall_cons in Hp as [Hp _]. destruct (IH Hl) as [H1 H2]. rewrite foldl_snoc. split.
  - apply register_problem_values; [|destruct Hp as [_ ->]; set_solver].
    intros a k Ha. apply elem_of_app. left. by apply (H1 a).
  - intros k [Hk|Hk%list_elem_of_singleton]%elem_of_app; [|subst; by apply register_problem_key].
    apply fold_alias_keeps. by apply H2.
Qed.

(** The key of a column, and nothing else, is what a usable key is taken to. *)
Lemma canonical_in l k :
  Forall usable_key (problem_keys l) -> k ∈ problem_keys l ->
  canonicalProblemKey k (buildProblemAliasMap l) ∈ problem_keys l.
Proof.
  intros Hl Hk. destruct (alias_map_ok l Hl) as [H1 H2].
  pose proof (proj1 (Forall_forall _ _) Hl k Hk) as [Hne Ht].
  unfold canonicalProblemKey. rewrite Ht. rewrite decide_False by done.
  destruct (H2 k Hk) as [c Hc]. rewrite Hc. by apply (H1 k).
Qed.

(** ** Columns made up for NowCoder *)

(** The columns taken from the submissions. *)
Definition submitted_columns (contestID : string) (totalCount : nat) (submissions : list SubmitLog)
    : columns :=
  foldl (add_synthesized contestID totalCount) (Columns ∅ []) submissions.

Lemma letter_period n : letter (n + 26) = letter n.
Proof.
  unfold letter. replace (Z.of_nat (n + 26) mod 26) with (Z.of_nat n mod 26); [done|].
  rewrite Nat2Z.inj_add. symmetry. by apply (Z.mod_add (Z.of_nat n) 1 26).
Qed.

Lemma letter_inj i j : letter i = letter j -> (Z.of_nat i - Z.of_nat j) mod 26 = 0.
Proof.
  unfold letter. intros H. apply (f_equal bytes_of) in H. rewrite !bytes_of_of in H.
  injection H as H. apply (f_equal code) in H.
  pose proof (Z.mod_pos_bound (Z.of_nat i) 26 eq_refl). pose proof (Z.mod_pos_bound (Z.of_nat j) 26 eq_refl).
  rewrite !code_byte_of in H by lia. rewrite Zminus_mod. replace (Z.of_nat i mod 26) with (Z.of_nat j mod 26) by lia. by rewrite Z.sub_diag.
Qed.

Lemma app_string_inj (s t u : string) : s +:+ t = s +:+ u -> t = u.
Proof.
  intros H. apply (f_equal bytes_of) in H. rewrite !app_bytes in H. apply app_inv_head in H.
  rewrite <- (of_bytes_of t), <- (of_bytes_of u). by f_equal.
Qed.

Lemma synthesized_key_inj contestID a b : synthesized_key contestID a = synthesized_key contestID b -> a = b.
Proof. unfold synthesized_key. intros H. do 3 apply app_string_inj in H. done. Qed.

Section filling.
Context (contestID : string) (st0 : columns).
Notation start := (length (co_problems st0)).
Notation key_at := (fun i => synthesized_key contestID (letter i)).

(** The columns after some rounds of the loop. *)
Record filled (st : columns) := {
  fi_from : (start <= length (co_problems st))%nat;
  fi_room : (length (co_problems st) <= start + 26)%nat;
  fi_seen : forall i, (start <= i < length (co_problems st))%nat -> key_at i ∈ co_seen st;
  fi_only : forall k, k ∈ co_seen st -> k ∈ co_seen st0 \/
    exists i, (start <= i < length (co_problems st))%nat /\ k = key_at i }.

Lemma filled_start : filled st0.
Proof. split; [lia|lia|lia|by left]. Qed.

Lemma fill_step_filled st : filled st -> filled (fill_step contestID st).
Proof.
  intros [H1 H2 H3 H4]. unfold fill_step. case_decide as Hd; [by split|].
  assert (length (co_problems st) < start + 26)%nat as Hlt.
  { destruct (decide (length (co_problems st) = start + 26)%nat) as [Heq|]; [|lia].
    destruct Hd. rewrite Heq, letter_period. apply H3. lia. }
  split; simpl; rewrite ?length_app; simpl; [lia|lia| |].
  - intros i Hi. destruct (decide (i = length (co_problems st))) as [->|]; [set_solver|].
    apply elem_of_union_r, H3. lia.
  - intros k [->%elem_of_singleton|Hk]%elem_of_union.
    + right. exists (length (co_problems st)). split; [lia|done].
    + destruct (H4 k Hk) as [|(i & Hi & ->)]; [by left|]. right. exists i. split; [lia|done].
Qed.

(** With more columns asked for than there are letters left, the loop does not end. *)
Lemma fill_stuck total st fuel :
  (start + 26 < total)%nat -> filled st -> fill_problems fuel contestID total st = None.
Proof.
  intros Ht. revert st. induction fuel as [|fuel IH]; intros st Hst; simpl;
    rewrite decide_False by (destruct Hst; lia); [done|]. by apply IH, fill_step_filled.
Qed.

(** Otherwise every round adds one. *)
Lemma fill_step_adds st :
  (forall i, key_at i ∉ co_seen st0) -> filled st -> (length (co_problems st) < start + 26)%nat ->
  length (co_problems (fill_step contestID st)) = S (length (co_problems st)).
Proof.
  intros Hnew [H1 H2 H3 H4] Hlt. unfold fill_step. case_decide as Hd; simpl; [|rewrite length_app; simpl; lia].
  exfalso. destruct (H4 _ Hd) as [Hs|(i & Hi & He)]; [by apply (Hnew (length (co_problems st)))|].
  apply synthesized_key_inj, letter_inj in He. apply Z.mod_divide in He as [z He]; lia.
Qed.

Lemma fill_ends total st fuel :
  (forall i, key_at i ∉ co_seen st0) -> (total <= start + 26)%nat -> filled st ->
  (length (co_problems st) <= total)%nat -> (total - length (co_problems st) <= fuel)%nat ->
  exists l, fill_problems fuel contestID total st = Some l /\ length l = total.
Proof.
  intros Hnew Ht. revert st. induction fuel as [|fuel IH]; intros st Hst Hle Hf; simpl; case_decide.
  - exists (co_problems st). split; [done|lia].
  - lia.
  - exists (co_problems st). split; [done|lia].
  - pose proof (fill_step_adds st Hnew Hst) as Hadd.
    apply IH; [by apply fill_step_filled | lia | lia].
Qed.
End filling.

Lemma add_synthesized_length contestID total st sub :
  (length (co_problems st) <= total)%nat ->
  (length (co_problems (add_synthesized contestID total st sub)) <= total)%nat.
Proof. unfold add_synthesized. intros H. case_decide; simpl; [lia|]. rewrite length_app. simpl. lia. Qed.

Lemma submitted_columns_length contestID total subs :
  (length (co_problems (submitted_columns contestID total subs)) <= total)%nat.
Proof.
  unfold submitted_columns. assert (forall st, (length (co_problems st) <= total)%nat ->
    (length (co_problems (foldl (add_synthesized contestID total) st subs)) <= total)%nat) as H.
  { induction subs as [|s subs IH]; intros st Hst; [done|]. by apply IH, add_synthesized_length. }
  apply H. simpl. lia.
Qed.

Lemma submitted_columns_seen contestID total subs k :
  k ∈ co_seen (submitted_columns contestID total subs) -> k ∈ map (fun s => trim_space (s_Problem s)) subs.
Proof.
  unfold submitted_columns. induction subs as [|s subs IH] using rev_ind; [set_solver|].
  rewrite foldl_snoc, map_app. unfold add_synthesized at 1. case_decide; set_solver.
Qed.

Lemma synthesize_ends contestID (total : Z) subs :
  0 < total ->
  (forall s i, s ∈ subs -> trim_space (s_Problem s) <> synthesized_key contestID (letter i)) ->
  let n := length (co_problems (submitted_columns contestID (Z.to_nat total) subs)) in
  (total <= Z.of_nat n + 26 -> exists l,
     synthesizeNowCoderProblems (Z.to_nat total) contestID total subs = Some l /\
     Z.of_nat (length l) = total) /\
  (Z.of_nat n + 26 < total -> forall fuel,
     synthesizeNowCoderProblems fuel contestID total subs = None).
Proof.
  intros Ht Hnew n. set (st := submitted_columns contestID (Z.to_nat total) subs) in *.
  assert (forall fuel, synthesizeNowCoderProblems fuel contestID total subs =
    fill_problems fuel contestID (Z.to_nat total) st) as Hs
    by (intros; unfold synthesizeNowCoderProblems; by rewrite decide_False by lia).
  split; intros Hn; [setoid_rewrite Hs|].
  - destruct (fill_ends contestID st (Z.to_nat total) st (Z.to_nat total)) as (l & Hl & Hlen);
      [| lia | apply filled_start | apply submitted_columns_length | lia | exists l; split; [done|lia]].
    intros i Hi%submitted_columns_seen%list_elem_of_fmap. destruct Hi as (s & He & Hin). by apply (Hnew s i).
  - intros fuel. rewrite Hs. apply (fill_stuck contestID st); [lia | apply filled_start].
Qed.
