(* ===== verification/ContestMatrix.v ===== *)
(** The matrix of a contest: [calculateContestProblemMatrix] of
    [service/contest_matrix.go], which goes once through the submissions, and what
    each cell and each total of it means. *)
From S2P Require Export ContestTheory.

#[local] Arguments wrap_int32 : simpl never.
#[local] Arguments IsAcceptedStatus : simpl never.

(** ** One user and one problem *)

Record problemUserState := UserState {
  us_hasContestSubmit : bool; us_hasContestAC : bool; us_contestMinute : Z;
  us_wrongBeforeAC : Z; us_contestWrong : Z; us_upsolveAC : bool; us_upsolveWrong : Z }.
Definition fresh_state : problemUserState := UserState false false 0 0 0 false 0.

(** The minutes pass through a [float64]; it is exact to the minute on the
    microseconds that the database keeps, for any [Duration]. *)
Definition elapsedMinute (start submitTime : Z) : Z :=
  if time_is_zero start || bool_decide (submitTime < start) then 0
  else wrap_int32 (time_sub submitTime start / minute).

#[local] Arguments elapsedMinute : simpl never.

(** The window of the contest; without a reliable one everything is in it. *)
Record window := Window { wi_start : Z; wi_end : Z; wi_reliable : bool }.

Definition in_contest (wi : window) (t : Z) : bool :=
  if wi_reliable wi then bool_decide (wi_start wi <= t) && bool_decide (t < wi_end wi) else true.
Definition after_contest (wi : window) (t : Z) : bool :=
  if wi_reliable wi then bool_decide (wi_end wi <= t) else false.

Definition apply_submission (wi : window) (st : problemUserState) (sub : SubmitLog)
    : problemUserState :=
  let accepted := IsAcceptedStatus (s_Status sub) in
  let 'UserState submitted ac min before wrong upsolved upwrong := st in
  if in_contest wi (s_Time sub) then
    if accepted then
      if ac then UserState true ac min before wrong upsolved upwrong
      else UserState true true (elapsedMinute (wi_start wi) (s_Time sub)) before wrong upsolved upwrong
    else if negb ac
    then UserState true ac min (wrap_int32 (before + 1)) (wrap_int32 (wrong + 1)) upsolved upwrong
    else UserState true ac min before wrong upsolved upwrong
  else if after_contest wi (s_Time sub) then
    if accepted && negb ac && negb upsolved
    then UserState submitted ac min before wrong true upwrong
    else if negb accepted && negb ac && negb upsolved
    then UserState submitted ac min before wrong upsolved (wrap_int32 (upwrong + 1))
    else st
  else st.

(** ** All of them *)

(** [stateByUser], whose inner maps are made on demand. *)
Abbreviation states := (gmap (Z * string) problemUserState).
Definition state_of (m : states) (userID : Z) (key : string) : problemUserState :=
  default fresh_state (m !! (userID, key)).

Definition column_of (aliases : gmap string string) (sub : SubmitLog) : string :=
  canonicalProblemKey (raw_problem_key sub) aliases.

Definition record_submission (wi : window) (problemSet : gset string)
    (aliases : gmap string string) (m : states) (sub : SubmitLog) : states :=
  let key := column_of aliases sub in
  if decide (key ∈ problemSet)
  then <[(s_UserID sub, key) := apply_submission wi (state_of m (s_UserID sub) key) sub]> m
  else m.

Record problemColumnStat := ColumnStat {
  st_contestAccepted : Z; st_contestAttempted : Z; st_upsolveAccepted : Z }.
Definition no_stat : problemColumnStat := ColumnStat 0 0 0.

Record totals := Totals {
  to_stats : gmap string problemColumnStat; to_penalty : gmap Z Z; to_accepted : gmap Z Z }.

Definition one_if (b : bool) : Z := if b then 1 else 0.

Definition add_cell (m : states) (userID : Z) (t : totals) (problem : contestProblemMeta) : totals :=
  let state := state_of m userID (pm_Key problem) in
  let stat := default no_stat (to_stats t !! pm_Key problem) in
  let stat := ColumnStat (st_contestAccepted stat + one_if (us_hasContestAC state))
                         (st_contestAttempted stat + one_if (us_hasContestSubmit state))
                         (st_upsolveAccepted stat + one_if (us_upsolveAC state)) in
  let stats := <[pm_Key problem := stat]> (to_stats t) in
  if us_hasContestAC state then
    let spent := wrap_int32 (us_contestMinute state + wrap_int32 (us_wrongBeforeAC state * 20)) in
    Totals stats
      (<[userID := wrap_int32 (default 0 (to_penalty t !! userID) + spent)]> (to_penalty t))
      (<[userID := wrap_int32 (default 0 (to_accepted t !! userID) + 1)]> (to_accepted t))
  else Totals stats (to_penalty t) (to_accepted t).

Definition count_totals (m : states) (problems : list contestProblemMeta) (allUserIDs : list Z)
    : totals :=
  foldl (fun t userID => foldl (add_cell m userID) t problems) (Totals ∅ ∅ ∅) allUserIDs.

Record ProblemResult := ProblemCell {
  pr_ProblemKey : string; pr_Status : string; pr_AcceptedMinute : Z; pr_WrongBeforeAc : Z;
  pr_WrongAttempts : Z; pr_Upsolved : bool }.

Definition cell_status (state : problemUserState) : string :=
  if us_hasContestAC state then "contest_ac"
  else if us_upsolveAC state then "upsolve_ac"
  else if us_hasContestSubmit state then "contest_failed" else "none".

Definition result_cell (m : states) (userID : Z) (problem : contestProblemMeta) : ProblemResult :=
  let state := state_of m userID (pm_Key problem) in
  ProblemCell (pm_Key problem) (cell_status state) (us_contestMinute state) (us_wrongBeforeAC state)
    (wrap_int32 (us_contestWrong state + us_upsolveWrong state)) (us_upsolveAC state).

Record contestProblemCalculation := Calculated {
  ca_resultsByUser : gmap Z (list ProblemResult); ca_penaltyByUser : gmap Z Z;
  ca_contestAcCountByUser : gmap Z Z; ca_problemStats : gmap string problemColumnStat }.

Definition record_submissions (wi : window) (problems : list contestProblemMeta)
    (submissions : list SubmitLog) : states :=
  foldl (record_submission wi (list_to_set (map pm_Key problems)) (buildProblemAliasMap problems))
        ∅ submissions.

Definition results_of (m : states) (problems : list contestProblemMeta) (pageUserIDs : list Z)
    : gmap Z (list ProblemResult) :=
  foldl (fun r userID => <[userID := map (result_cell m userID) problems]> r) ∅ pageUserIDs.

Definition calculateContestProblemMatrix (wi : window) (problems : list contestProblemMeta)
    (submissions : list SubmitLog) (pageUserIDs allUserIDs : list Z) : contestProblemCalculation :=
  let m := record_submissions wi problems submissions in
  let t := count_totals m problems allUserIDs in
  Calculated
    (results_of m problems pageUserIDs) (to_penalty t) (to_accepted t) (to_stats t).

(** ** What a cell means *)

(** The part of a list before the first element that satisfies [p]. *)
Fixpoint until {A} (p : A -> bool) (l : list A) : list A :=
  match l with
  | [] => []
  | x :: l => if p x then [] else x :: until p l
  end.

Lemma until_snoc {A} (p : A -> bool) l x :
  until p (l ++ [x]) = if existsb p l then until p l else if p x then l else l ++ [x].
Proof.
  induction l as [|y l IH]; simpl; [by destruct (p x)|]. destruct (p y); [done|]. simpl. rewrite IH.
  by repeat case_match.
Qed.

Lemma until_none {A} (p : A -> bool) l : existsb p l = false -> until p l = l.
Proof.
  induction l as [|y l IH]; simpl; [done|]. destruct (p y); simpl; [done|]. intros H. by rewrite IH.
Qed.

Lemma existsb_snoc {A} (p : A -> bool) l x : existsb p (l ++ [x]) = existsb p l || p x.
Proof. by rewrite existsb_app; simpl; rewrite orb_false_r. Qed.

Lemma find_snoc {A} (p : A -> bool) l x :
  List.find p (l ++ [x]) = if existsb p l then List.find p l else if p x then Some x else None.
Proof. induction l as [|y l IH]; simpl; [done|]. by destruct (p y). Qed.

Lemma find_none_iff {A} (p : A -> bool) l : existsb p l = false -> List.find p l = None.
Proof. induction l as [|y l IH]; simpl; [done|]. by destruct (p y). Qed.

Definition accepted_sub (s : SubmitLog) : bool := IsAcceptedStatus (s_Status s).

(** The cell of a user and problem, from the submissions for them in the order of
    their times: the first accepted one in the contest decides, those after the
    contest count only when there is none. *)
Definition cell_of (wi : window) (l : list SubmitLog) : problemUserState :=
  let during := where_ (fun s => in_contest wi (s_Time s)) l in
  let after := where_ (fun s => after_contest wi (s_Time s)) l in
  let solved := existsb accepted_sub during in
  let rejected := wrap_int32 (Z.of_nat (length (until accepted_sub during))) in
  UserState (match during with [] => false | _ => true end) solved
    (match List.find accepted_sub during with
     | Some s => elapsedMinute (wi_start wi) (s_Time s)
     | None => 0
     end) rejected rejected (negb solved && existsb accepted_sub after)
    (if solved then 0 else wrap_int32 (Z.of_nat (length (until accepted_sub after)))).

Lemma wrap_int32_add_l a b : wrap_int32 (wrap_int32 a + b) = wrap_int32 (a + b).
Proof.
  unfold wrap_int32. f_equal.
  replace ((a + 2 ^ 31) mod 2 ^ 32 - 2 ^ 31 + b + 2 ^ 31) with ((a + 2 ^ 31) mod 2 ^ 32 + b) by lia.
  rewrite Zplus_mod_idemp_l. f_equal. lia.
Qed.

Lemma wrap_succ (n : nat) : wrap_int32 (wrap_int32 (Z.of_nat n) + 1) = wrap_int32 (Z.of_nat (S n)).
Proof. rewrite wrap_int32_add_l. f_equal. lia. Qed.

Lemma where_snoc_true {A} (p : A -> bool) l x : p x = true -> where_ p (l ++ [x]) = where_ p l ++ [x].
Proof. intros H. rewrite where_app. simpl. by rewrite H. Qed.
Lemma where_snoc_false {A} (p : A -> bool) l x : p x = false -> where_ p (l ++ [x]) = where_ p l.
Proof. intros H. rewrite where_app. simpl. by rewrite H, app_nil_r. Qed.

Lemma in_not_after wi t : in_contest wi t = true -> after_contest wi t = false.
Proof. unfold in_contest, after_contest. destruct (wi_reliable wi); [|done]. intros. bool_cases. lia. Qed.

Lemma none_after_yet wi l s :
  in_contest wi (s_Time s) = true -> (forall x, x ∈ l -> s_Time x <= s_Time s) ->
  where_ (fun x => after_contest wi (s_Time x)) l = [].
Proof.
  intros Hs Hl. apply where_none. intros x Hx. specialize (Hl x Hx). apply in_not_after in Hs.
  unfold after_contest in *. destruct (wi_reliable wi); [|done]. bool_cases.
  lia.
Qed.

Lemma snoc_not_nil {A} (l : list A) x : match l ++ [x] with [] => false | _ => true end = true.
Proof. by destruct l. Qed.

(** The single pass keeps [cell_of] up to date. *)
Lemma apply_submission_cell wi l s :
  (forall x, x ∈ l -> s_Time x <= s_Time s) ->
  apply_submission wi (cell_of wi l) s = cell_of wi (l ++ [s]).
Proof.
  intros Hl. unfold apply_submission, cell_of at 1. cbv zeta.
  change (IsAcceptedStatus (s_Status s)) with (accepted_sub s).
  destruct (in_contest wi (s_Time s)) eqn:Hin.
  - unfold cell_of. rewrite (where_snoc_true (fun x => in_contest wi (s_Time x))) by done.
    rewrite (where_snoc_false (fun x => after_contest wi (s_Time x))) by (by apply in_not_after).
    rewrite (none_after_yet wi l s) by done. generalize (where_ (fun x => in_contest wi (s_Time x)) l).
    intros during. rewrite snoc_not_nil, existsb_snoc, find_snoc, until_snoc.
    destruct (existsb accepted_sub during) eqn:He, (accepted_sub s); cbn [negb andb orb].
    + reflexivity.
    + reflexivity.
    + by rewrite (until_none _ _ He).
    + by rewrite (until_none _ _ He), (find_none_iff _ _ He), !wrap_succ, length_app, Nat.add_1_r.
  - unfold cell_of. rewrite (where_snoc_false (fun x => in_contest wi (s_Time x))) by done.
    generalize (where_ (fun x => in_contest wi (s_Time x)) l). intros during.
    destruct (after_contest wi (s_Time s)) eqn:Haf.
    + rewrite (where_snoc_true (fun x => after_contest wi (s_Time x))) by done.
      generalize (where_ (fun x => after_contest wi (s_Time x)) l). intros after.
      rewrite existsb_snoc, until_snoc.
      destruct (existsb accepted_sub during), (accepted_sub s), (existsb accepted_sub after) eqn:He;
        cbn [negb andb orb]; try (rewrite (until_none _ _ He), ?wrap_succ, ?length_app, ?Nat.add_1_r);
        reflexivity.
    + by rewrite (where_snoc_false (fun x => after_contest wi (s_Time x))) by done.
Qed.

(** ** What the pass computes *)

Definition by_time (l : list SubmitLog) : Prop := StronglySorted (fun x y => s_Time x <= s_Time y) l.

Lemma by_time_snoc l s : by_time (l ++ [s]) -> by_time l /\ forall x, x ∈ l -> s_Time x <= s_Time s.
Proof.
  unfold by_time. induction l as [|y l IH]; simpl; [split; [constructor|set_solver]|].
  intros H. apply StronglySorted_inv in H as [H1 H2]. apply Forall_app in H2 as [H2 H3].
  apply Forall_cons in H3 as [H3 _]. destruct (IH H1) as [H4 H5]. split; [by constructor|].
  intros x [->|Hx]%elem_of_cons; [done|by apply H5].
Qed.

Lemma by_time_where p l : by_time l -> by_time (where_ p l).
Proof.
  unfold by_time. induction 1 as [|x l Hl IH Hx]; simpl; [constructor|]. destruct (p x); [|done].
  constructor; [done|]. apply Forall_forall. intros y Hy. apply elem_of_where in Hy as [Hy _].
  by apply (proj1 (Forall_forall _ _) Hx).
Qed.

(** The submissions of a user that count for a column. *)
Definition counts_for (problems : list contestProblemMeta) (userID : Z) (key : string)
    (s : SubmitLog) : bool :=
  bool_decide (s_UserID s = userID)
  && bool_decide (column_of (buildProblemAliasMap problems) s = key).

Lemma state_of_insert m u k st u' k' :
  state_of (<[(u, k) := st]> m) u' k' = if decide (u = u' /\ k = k') then st else state_of m u' k'.
Proof.
  unfold state_of. case_decide as Hd; [destruct Hd as [-> ->]; by rewrite lookup_insert_eq|].
  rewrite lookup_insert_ne; [done|]. intros [= -> ->]. by destruct Hd.
Qed.

Lemma record_submissions_cell wi problems submissions userID key :
  by_time submissions -> key ∈ map pm_Key problems ->
  state_of (record_submissions wi problems submissions) userID key =
  cell_of wi (where_ (counts_for problems userID key) submissions).
Proof.
  intros Hs Hk. unfold record_submissions. induction submissions as [|s l IH] using rev_ind; [done|].
  apply by_time_snoc in Hs as [Hl Hs]. rewrite foldl_snoc, where_app.
  unfold record_submission at 1. simpl.
  set (m := foldl _ ∅ l) in *. specialize (IH Hl).
  destruct (counts_for problems userID key s) eqn:Hc.
  - apply andb_true_iff in Hc as [<-%bool_decide_eq_true He%bool_decide_eq_true].
    rewrite He, decide_True, state_of_insert, decide_True, IH by set_solver. apply apply_submission_cell.
    intros x Hx. apply elem_of_where in Hx as [Hx _]. by apply Hs.
  - rewrite app_nil_r. case_decide; [|done]. rewrite state_of_insert, decide_False; [done|].
    intros [H1 H2]. unfold counts_for in Hc. by rewrite H1, H2, !bool_decide_true in Hc.
Qed.

(** What the cell of a user and a problem shows, in terms of their submissions. *)
Record cell_spec (wi : window) (mine : list SubmitLog) (c : ProblemResult) : Prop := {
  cs_contest_ac : pr_Status c = "contest_ac" <->
    exists s, s ∈ mine /\ in_contest wi (s_Time s) = true /\ accepted_sub s = true;
  cs_upsolve_ac : pr_Status c = "upsolve_ac" <->
    pr_Status c <> "contest_ac" /\
    exists s, s ∈ mine /\ after_contest wi (s_Time s) = true /\ accepted_sub s = true;
  cs_failed : pr_Status c = "contest_failed" <->
    pr_Status c <> "contest_ac" /\ pr_Status c <> "upsolve_ac" /\
    exists s, s ∈ mine /\ in_contest wi (s_Time s) = true;
  cs_upsolved : pr_Upsolved c = bool_decide (pr_Status c = "upsolve_ac");
  (** The first accepted submission of the contest is the one that is timed, and
      the rejected ones before it are counted. *)
  cs_first : forall before s rest,
    where_ (fun x => in_contest wi (s_Time x)) mine = before ++ s :: rest ->
    accepted_sub s = true -> (forall x, x ∈ before -> accepted_sub x = false) ->
    pr_AcceptedMinute c = elapsedMinute (wi_start wi) (s_Time s) /\
    pr_WrongBeforeAc c = wrap_int32 (Z.of_nat (length before)) /\
    pr_WrongAttempts c = wrap_int32 (Z.of_nat (length before)) }.

Lemma existsb_iff {A} (p : A -> bool) l : existsb p l = true <-> exists x, x ∈ l /\ p x = true.
Proof. rewrite existsb_exists. by setoid_rewrite list_elem_of_In. Qed.

Lemma first_is {A} (p : A -> bool) before x rest :
  p x = true -> (forall y, y ∈ before -> p y = false) ->
  List.find p (before ++ x :: rest) = Some x /\ until p (before ++ x :: rest) = before /\
  existsb p (before ++ x :: rest) = true.
Proof.
  intros Hx. induction before as [|y l IH]; intros Hb; simpl; [by rewrite Hx|].
  rewrite (Hb y) by set_solver. destruct IH as (-> & -> & ->); [set_solver|done].
Qed.

Lemma existsb_where {A} (p q : A -> bool) l :
  existsb p (where_ q l) = true <-> exists x, x ∈ l /\ q x = true /\ p x = true.
Proof. rewrite existsb_iff. setoid_rewrite elem_of_where. naive_solver. Qed.

Lemma some_where {A} (q : A -> bool) l :
  match where_ q l with [] => false | _ => true end = true <-> exists x, x ∈ l /\ q x = true.
Proof.
  setoid_rewrite <- elem_of_where. destruct (where_ q l) as [|y k]; split; intros Hx; try done.
  - destruct Hx as [x Hx]. by apply not_elem_of_nil in Hx.
  - exists y. set_solver.
Qed.

Lemma cell_of_spec wi mine m userID problem :
  state_of m userID (pm_Key problem) = cell_of wi mine ->
  cell_spec wi mine (result_cell m userID problem).
Proof.
  intros Hs. unfold result_cell. rewrite Hs. unfold cell_status, cell_of. cbn zeta. simpl.
  set (during := where_ _ mine). set (after := where_ (fun s => after_contest _ _) mine).
  pose proof (existsb_where accepted_sub (fun s => in_contest wi (s_Time s)) mine) as Hd.
  pose proof (existsb_where accepted_sub (fun s => after_contest wi (s_Time s)) mine) as Ha.
  pose proof (some_where (fun s => in_contest wi (s_Time s)) mine) as Hn.
  fold during in Hd, Hn. fold after in Ha. split; simpl; rewrite <- ?Hd, <- ?Ha, <- ?Hn.
  5: { intros before s rest He Hs1 Hb. fold during in He.
       destruct (first_is accepted_sub before s rest Hs1 Hb) as (H1 & H2 & H3).
       rewrite He, H1, H2, H3, wrap_int32_add_l, Z.add_0_r. by split_and!. }
  all: destruct (existsb accepted_sub during), (existsb accepted_sub after); simpl;
    try destruct during; simpl; naive_solver.
Qed.

(** ** What the totals mean *)

Lemma wrap_int32_add_r a b : wrap_int32 (a + wrap_int32 b) = wrap_int32 (a + b).
Proof. rewrite Z.add_comm, wrap_int32_add_l. f_equal. lia. Qed.

(** Of the cells of a row: those accepted in the contest. *)
Definition contest_cells (l : list ProblemResult) : list ProblemResult :=
  where_ (fun c => bool_decide (pr_Status c = "contest_ac")) l.
Definition row_penalty (l : list ProblemResult) : Z :=
  sum_list_Z (map (fun c => pr_AcceptedMinute c + pr_WrongBeforeAc c * 20) (contest_cells l)).

Definition row (m : states) (problems : list contestProblemMeta) (userID : Z) : list ProblemResult :=
  map (result_cell m userID) problems.

Lemma cell_accepted m u p :
  bool_decide (pr_Status (result_cell m u p) = "contest_ac") = us_hasContestAC (state_of m u (pm_Key p)).
Proof. unfold result_cell, cell_status. simpl. by repeat case_match. Qed.

Lemma contest_cells_cons m u p l :
  contest_cells (result_cell m u p :: l) =
  (if us_hasContestAC (state_of m u (pm_Key p)) then [result_cell m u p] else []) ++ contest_cells l.
Proof. unfold contest_cells, where_. cbn [List.filter]. rewrite cell_accepted. by case_match. Qed.

(** Rows of totals in the width of the counters. *)
Definition user_totals (t : totals) (x zp za : Z) : Prop :=
  default 0 (to_penalty t !! x) = wrap_int32 zp /\ default 0 (to_accepted t !! x) = wrap_int32 za.

Lemma add_cell_other m u t p x zp za : x <> u -> user_totals t x zp za -> user_totals (add_cell m u t p) x zp za.
Proof.
  intros Hx [Hp Ha]. unfold add_cell. cbn zeta. case_match; [|done].
  split; simpl; by rewrite lookup_insert_ne.
Qed.

Lemma add_row_other m u t problems x zp za :
  x <> u -> user_totals t x zp za -> user_totals (foldl (add_cell m u) t problems) x zp za.
Proof.
  intros Hx. revert t. induction problems as [|p l IH]; intros t Ht; [done|].
  apply IH. by apply add_cell_other.
Qed.

Lemma add_row_own m u problems : forall t zp za,
  user_totals t u zp za ->
  user_totals (foldl (add_cell m u) t problems) u (zp + row_penalty (row m problems u))
    (za + Z.of_nat (length (contest_cells (row m problems u)))).
Proof.
  induction problems as [|p l IH]; intros t zp za [Hp Ha].
  { unfold row_penalty. simpl. rewrite !Z.add_0_r. done. }
  cbn [foldl row map]. fold (row m l u). unfold row_penalty. rewrite contest_cells_cons.
  rewrite map_app, sum_list_Z_app, length_app, Nat2Z.inj_add, !Z.add_assoc. apply IH.
  unfold add_cell. cbn zeta. case_match; split; simpl; rewrite ?lookup_insert_eq, ?Hp, ?Ha, ?Z.add_0_r; try done.
  - simpl. rewrite wrap_int32_add_l, wrap_int32_add_r, Z.add_assoc, wrap_int32_add_r. f_equal. lia.
  - simpl. by rewrite wrap_int32_add_l.
Qed.

Lemma add_rows_other m problems ids : forall t x zp za,
  x ∉ ids -> user_totals t x zp za ->
  user_totals (foldl (fun t u => foldl (add_cell m u) t problems) t ids) x zp za.
Proof.
  induction ids as [|u ids IH]; intros t x zp za Hx Ht; [done|].
  apply not_elem_of_cons in Hx as [Hx Hn]. apply IH; [done|]. by apply add_row_other.
Qed.

Lemma count_totals_user m problems ids u :
  NoDup ids -> u ∈ ids ->
  user_totals (count_totals m problems ids) u (row_penalty (row m problems u))
    (Z.of_nat (length (contest_cells (row m problems u)))).
Proof.
  intros Hnd Hu. unfold count_totals.
  assert (user_totals (Totals ∅ ∅ ∅) u 0 0) as H0 by (split; simpl; by rewrite lookup_empty).
  revert H0. generalize (Totals ∅ ∅ ∅). induction Hnd as [|x ids Hx Hnd IH]; intros t Ht;
    [by apply not_elem_of_nil in Hu|].
  cbn [foldl]. apply elem_of_cons in Hu as [->|Hu].
  - apply add_rows_other; [done|]. apply (add_row_own m x problems t 0 0 Ht).
  - apply IH; [done|]. apply add_row_other; [by intros ->|done].
Qed.

Definition stat_at (t : totals) (k : string) : problemColumnStat := default no_stat (to_stats t !! k).
Definition stat_plus (a : problemColumnStat) (s : problemUserState) : problemColumnStat :=
  ColumnStat (st_contestAccepted a + one_if (us_hasContestAC s))
             (st_contestAttempted a + one_if (us_hasContestSubmit s))
             (st_upsolveAccepted a + one_if (us_upsolveAC s)).

Lemma add_cell_stats m u t p :
  to_stats (add_cell m u t p) =
  <[pm_Key p := stat_plus (stat_at t (pm_Key p)) (state_of m u (pm_Key p))]> (to_stats t).
Proof. unfold add_cell. cbn zeta. case_match eqn:Hs; simpl; unfold stat_plus; by rewrite Hs. Qed.

Lemma stat_add_cell m u t p k :
  stat_at (add_cell m u t p) k =
  if decide (k = pm_Key p) then stat_plus (stat_at t k) (state_of m u k) else stat_at t k.
Proof.
  unfold stat_at. rewrite add_cell_stats. case_decide as Hk; [subst k; by rewrite lookup_insert_eq|].
  by rewrite lookup_insert_ne by congruence.
Qed.

Lemma stat_add_row m u problems : forall t k,
  NoDup (map pm_Key problems) ->
  stat_at (foldl (add_cell m u) t problems) k =
  if decide (k ∈ map pm_Key problems) then stat_plus (stat_at t k) (state_of m u k) else stat_at t k.
Proof.
  induction problems as [|p l IH]; intros t k Hnd; simpl; [done|].
  apply NoDup_cons in Hnd as [Hp Hnd]. rewrite (IH _ _ Hnd), stat_add_cell.
  repeat case_decide; subst; set_solver.
Qed.

(** What a column counts, over users. *)
Definition column_total (m : states) (k : string) (ids : list Z) : problemColumnStat :=
  ColumnStat (count_where (fun u => us_hasContestAC (state_of m u k)) ids)
             (count_where (fun u => us_hasContestSubmit (state_of m u k)) ids)
             (count_where (fun u => us_upsolveAC (state_of m u k)) ids).

Lemma count_where_cons {A} (p : A -> bool) x l : count_where p (x :: l) = one_if (p x) + count_where p l.
Proof. unfold count_where, one_if. simpl. destruct (p x); simpl; lia. Qed.

Lemma count_totals_column m problems k ids :
  NoDup (map pm_Key problems) -> k ∈ map pm_Key problems ->
  stat_at (count_totals m problems ids) k = column_total m k ids.
Proof.
  intros Hnd Hk. unfold count_totals.
  assert (forall t, stat_at (foldl (fun t u => foldl (add_cell m u) t problems) t ids) k =
    let c := column_total m k ids in
    ColumnStat (st_contestAccepted (stat_at t k) + st_contestAccepted c)
               (st_contestAttempted (stat_at t k) + st_contestAttempted c)
               (st_upsolveAccepted (stat_at t k) + st_upsolveAccepted c)) as H.
  { induction ids as [|u ids IH]; intros t; cbn zeta; simpl.
    - unfold count_where. simpl. rewrite !Z.add_0_r. by destruct (stat_at t k).
    - rewrite IH, (stat_add_row m u problems t k Hnd), decide_True by done. simpl.
      rewrite !count_where_cons, !Z.add_assoc. done. }
  rewrite H. unfold stat_at. simpl. by rewrite lookup_empty.
Qed.

(** ** Rows on display *)

Lemma results_lookup m problems pageUserIDs u :
  u ∈ pageUserIDs ->
  results_of m problems pageUserIDs !! u = Some (row m problems u).
Proof.
  unfold results_of. generalize (∅ : gmap Z (list ProblemResult)). induction pageUserIDs as [|x l IH] using rev_ind;
    intros r Hu; [by apply not_elem_of_nil in Hu|].
  rewrite foldl_snoc. destruct (decide (u = x)) as [->|Hx]; [by rewrite lookup_insert_eq|].
  rewrite lookup_insert_ne by done. apply IH. set_solver.
Qed.

Lemma row_keys m problems u : map pr_ProblemKey (row m problems u) = map pm_Key problems.
Proof. unfold row. rewrite map_map. done. Qed.

(** Every submission with a usable key is in exactly one column. *)
Lemma submission_has_column platform contestID metaProblems submissions sub :
  sub ∈ submissions -> raw_problem_key sub <> "" ->
  let problems := normalizeContestProblems platform contestID metaProblems submissions in
  column_of (buildProblemAliasMap problems) sub ∈ problem_keys problems.
Proof.
  intros Hs Hk. cbn zeta.
  destruct (normalize_problems_ok platform contestID metaProblems submissions) as (_ & H2 & H3).
  apply canonical_in; [done|]. apply H3. split; [done|]. right. by apply list_elem_of_fmap_2.
Qed.
