(* ===== verification/ContestService.v ===== *)
(** Contests and their rankings: the contest queries of [data/dal/spider.go], the
    handlers of [service/contest.go], the official ranks of
    [service/contest_official_rank.go] and [buildContestMatrix]. *)
From S2P Require Export ContestMatrix.

(** ** Queries ([data/dal/spider.go]) *)

(** Postgres' order of texts. *)
Class Collation := {
  text_le : relation string;
  text_le_dec : forall x y, Decision (text_le x y);
  text_le_total : Total text_le;
  text_le_trans : Transitive text_le
}.
#[export] Existing Instances text_le_dec text_le_total text_le_trans.

Definition contest_key (c : ContestLog) : string * string := (c_Platform c, c_ContestId c).
Definition joined_key (k : string * string) : string := k.1 +:+ of_bytes [byte_of 31] +:+ k.2.

Definition contest_filter (userId : Z) (platform : string) (c : ContestLog) : bool :=
  (bool_decide (userId = -1) || bool_decide (c_UserID c = userId))
  && (bool_decide (platform = "") || bool_decide (c_Platform c = platform)).

(** [MAX(time)] of a group; a group is not empty. *)
Definition latest (l : list ContestLog) : Z :=
  match map c_Time l with [] => zero_time | t :: ts => foldr Z.max t ts end.

Section contest_list.
Context `{Collation}.

(** [max_time DESC, platform ASC, contest_id DESC] *)
Definition newer (x y : (string * string) * Z) : Prop :=
  y.2 < x.2 \/ (x.2 = y.2 /\
    ((text_le x.1.1 y.1.1 /\ x.1.1 <> y.1.1) \/ (x.1.1 = y.1.1 /\ text_le y.1.2 x.1.2))).
#[export] Instance newer_dec x y : Decision (newer x y).
Proof. unfold newer. apply _. Defined.

Definition contest_groups (l : list ContestLog) : list ((string * string) * Z) :=
  map (fun k => (k, latest (where_ (fun c => bool_decide (contest_key c = k)) l)))
      (remove_dups (map contest_key l)).

(** The map that restores the order of the page: the last row of a contest wins. *)
Definition row_of (l : list ContestLog) (k : string * string) : option ContestLog :=
  last (where_ (fun c => bool_decide (joined_key (contest_key c) = joined_key k)) l).

Definition dal_GetContestList (userId offset limit : Z) (platform : string)
    : CM (list ContestLog * Z) :=
  total ← query (fun d => Z.of_nat (length (remove_dups
    (map (fun c => joined_key (contest_key c)) (select (contest_filter userId platform) (contests d))))));
  items ← query (fun d => limit_rows limit (offset_rows offset
    (merge_sort newer (contest_groups (select (contest_filter userId platform) (contests d))))));
  match items with
  | [] => mret ([], total)
  | _ =>
      found ← find_where (fun c => bool_decide (contest_key c ∈ map fst items)
                                   && contest_filter userId platform c);
      mret (omap (fun k => row_of found k) (map fst items), total)
  end.
End contest_list.

Definition of_contest (contestId platform : string) (userIds : list Z) (c : ContestLog) : bool :=
  bool_decide (c_ContestId c = contestId) && bool_decide (c_Platform c = platform)
  && (bool_decide (userIds = []) || bool_decide (c_UserID c ∈ userIds)).

Definition ranked (c : ContestLog) : bool := bool_decide (0 < c_Rank c).

(** The columns of the [ORDER BY], each decides when the ones before it are equal. *)
Definition tie_break (c : ContestLog) : list Z := [- c_AcCount c; - c_TotalCount c; c_UserID c].
Definition sql_rank_key (c : ContestLog) : list Z :=
  (if ranked c then 0 else 1) :: c_Rank c :: tie_break c.

Fixpoint lex_le (x y : list Z) : Prop :=
  match x, y with
  | [], _ => True
  | _ :: _, [] => False
  | a :: x, b :: y => a < b \/ (a = b /\ lex_le x y)
  end.
#[export] Instance lex_le_dec x y : Decision (lex_le x y).
Proof. revert y. induction x as [|a x IH]; intros [|b y]; simpl; apply _. Defined.

Definition sql_rank_le (x y : ContestLog) : Prop := lex_le (sql_rank_key x) (sql_rank_key y).
#[export] Instance sql_rank_le_dec x y : Decision (sql_rank_le x y).
Proof. unfold sql_rank_le. apply _. Defined.

Definition dal_GetContestRanking (contestId platform : string) (offset limit : Z)
    (userIds : list Z) : CM (list ContestLog * Z) :=
  total ← count_rows (of_contest contestId platform userIds);
  rows ← find_page (of_contest contestId platform userIds) sql_rank_le limit offset;
  mret (rows, total).

Definition GetContestParticipants (contestId platform : string) (userIds : list Z)
    : CM (list ContestLog) :=
  query (fun d => merge_sort sql_rank_le (select (of_contest contestId platform userIds) (contests d))).

(** ** Sorting and paging in memory ([service/contest.go]) *)

Definition contest_less (x y : ContestLog) : bool :=
  if decide (ranked x <> ranked y) then ranked x
  else if decide (c_Rank x <> c_Rank y) then
    if decide (c_Rank x <= 0) then false
    else if decide (c_Rank y <= 0) then true
    else bool_decide (c_Rank x < c_Rank y)
  else if decide (c_AcCount x <> c_AcCount y) then bool_decide (c_AcCount y < c_AcCount x)
  else if decide (c_TotalCount x <> c_TotalCount y) then bool_decide (c_TotalCount y < c_TotalCount x)
  else bool_decide (c_UserID x < c_UserID y).

Definition not_after (x y : ContestLog) : Prop := contest_less y x = false.
#[export] Instance not_after_dec x y : Decision (not_after x y).
Proof. unfold not_after. apply _. Defined.

(** [sort.SliceStable]; [contest_less] is a strict weak order when no rank is
    negative, as ranks are. *)
Definition sortContestLogs (logs : list ContestLog) : list ContestLog := merge_sort not_after logs.

(** [None] is the panic of a slice whose end lies before its start. *)
Definition paginateContestLogs (logs : list ContestLog) (offset limit : Z)
    : option (list ContestLog) :=
  let len := Z.of_nat (length logs) in
  let start := if decide (offset < 0) then 0 else offset in
  let limit := if decide (limit <= 0) then len else limit in
  if decide (len <= start) then Some []
  else
    let fin := wrap_int64 (start + limit) in
    let fin := if decide (len < fin) then len else fin in
    if decide (fin < start) then None
    else Some (take (Z.to_nat (fin - start)) (drop (Z.to_nat start) logs)).

(** ** The outside world *)

(** What the judges' pages and the user service say, by the number of the call. *)
Class ContestPages := {
  AtCoderMeta : string -> nat -> outcome contestMeta;
  CodeforcesStandings : string -> nat -> outcome codeforcesStandings;
  NowCoderMeta : string -> nat -> outcome contestMeta;
  AtCoderHistory : string -> nat -> outcome (list (Z * string))
}.

Record userInfo := UserInfo { ui_Name : string; ui_Username : string; ui_Avatar : string; ui_GroupID : Z }.
Class UserService := {
  user_dial : nat -> outcome ();
  UserIdsByGroup : Z -> nat -> outcome (list Z);
  ProfilesByIds : list Z -> nat -> outcome (list (Z * userInfo))
}.

(** ** Users of a contest *)

Definition collectContestUserIDs (logs : list ContestLog) : list Z :=
  foldl (fun ids c => if decide (c_UserID c = 0 \/ c_UserID c ∈ ids) then ids else ids ++ [c_UserID c])
        [] logs.

(** [map[int64]string] from bindings: later rows win, empty names are left out. *)
Definition names_of (normal : string -> string) (plats : list Platform) : gmap Z string :=
  foldl (fun m p => if decide (normal (p_Username p) = "") then m
                    else <[p_UserID p := normal (p_Username p)]> m) ∅ plats.

Definition bound_to (platform : string) (userIDs : list Z) (p : Platform) : bool :=
  bool_decide (to_lower (p_Platform p) = to_lower platform) && bool_decide (p_UserID p ∈ userIDs).

Definition set_rank (r : Z) (c : ContestLog) : ContestLog :=
  ContestRow (c_ID c) (c_Platform c) (c_UserID c) (c_ContestId c) (c_ContestName c)
    (c_ContestUrl c) r (c_TotalCount c) (c_AcCount c) (c_Time c) (c_EndTime c).

(** ** Official ranks *)

Definition atCoderHistoryMatchesContest (contestID screenName : string) : bool :=
  let contestID := to_lower (trim_space contestID) in
  let screenName := to_lower (trim_space screenName) in
  if decide (contestID = "") then false
  else bool_decide (screenName = contestID +:+ ".contest.atcoder.jp")
       || has_prefix screenName (contestID +:+ ".").

Definition place_in (contestID : string) (history : list (Z * string)) : option Z :=
  fst <$> List.find (fun it => bool_decide (0 < it.1)
                               && atCoderHistoryMatchesContest contestID it.2) history.

Definition normalizeCodeforcesHandle (handle : string) : string := to_lower (trim_space handle).

(** The first rank of a handle counts. *)
Definition rank_map (rows : list (Z * list string)) : gmap string Z :=
  foldl (fun m row =>
    if decide (row.1 <= 0) then m
    else foldl (fun m handle =>
           let handle := normalizeCodeforcesHandle handle in
           if decide (handle = "" \/ is_Some (m !! handle)) then m else <[handle := row.1]> m)
         m row.2) ∅ rows.

Definition rank_codeforces (handleByUser : gmap Z string) (rankByHandle : gmap string Z)
    (c : ContestLog) : ContestLog :=
  match rankByHandle !! default "" (handleByUser !! c_UserID c) with
  | Some rank => if decide (0 < rank) then set_rank rank c else set_rank 0 c
  | None => set_rank 0 c
  end.
Definition rank_atcoder (rankByUser : gmap Z Z) (c : ContestLog) : ContestLog :=
  match rankByUser !! c_UserID c with
  | Some rank => if decide (0 < rank) then set_rank rank c else c
  | None => c
  end.

Section handlers.
Context `{ContestPages}.

(** A judge without an id is not asked. *)
Definition by_id_text {A} (fetch : string -> nat -> outcome A) (contestID : string) (n : nat)
    : outcome A :=
  if decide (trim_space contestID = "") then Exn (ErrorText "empty contest id")
  else fetch (trim_space contestID) n.

(** [for _, userID := range userIDs] *)
Fixpoint fetch_atcoder_ranks (contestID : string) (usernameByUser : gmap Z string)
    (userIDs : list Z) : CM (gmap Z Z) :=
  match userIDs with
  | [] => mret ∅
  | userID :: userIDs =>
      let username := default "" (usernameByUser !! userID) in
      rank ← (if decide (username = "") then mret None
              else
                r ← attempt (remote (AtCoderHistory username));
                mret match r with Val history => place_in contestID history | Exn _ => None end);
      rest ← fetch_atcoder_ranks contestID usernameByUser userIDs;
      mret match rank with Some r => <[userID := r]> rest | None => rest end
  end.

(** The lists that come back are the argument with other ranks. *)
Definition applyAtCoderOfficialRanks (contestID : string) (logs : list ContestLog)
    : CM (list ContestLog) :=
  let userIDs := collectContestUserIDs logs in
  if decide (contestID = "" \/ userIDs = []) then mret logs
  else
    plats ← attempt (find_where (bound_to AtCoder userIDs));
    match plats with
    | Exn _ => mret logs
    | Val plats =>
        let usernameByUser := names_of trim_space plats in
        if decide (usernameByUser = ∅) then mret logs
        else
          rankByUser ← fetch_atcoder_ranks contestID usernameByUser userIDs;
          mret (map (rank_atcoder rankByUser) logs)
    end.

Definition applyCodeforcesOfficialRanks (contestID : string) (logs : list ContestLog)
    : CM (list ContestLog) :=
  let userIDs := collectContestUserIDs logs in
  if decide (contestID = "" \/ userIDs = []) then mret logs
  else
    plats ← attempt (find_where (bound_to CodeForces userIDs));
    match plats with
    | Exn _ => mret logs
    | Val plats =>
        let handleByUser := names_of normalizeCodeforcesHandle plats in
        if decide (handleByUser = ∅) then mret logs
        else
          standings ← attempt (remote (by_id_text CodeforcesStandings contestID));
          match standings with
          | Exn _ => mret logs
          | Val standings =>
              let rankByHandle := rank_map (cs_Rows standings) in
              if decide (rankByHandle = ∅) then mret logs
              else mret (map (rank_codeforces handleByUser rankByHandle) logs)
          end
    end.

(** ** The matrix of a page of the ranking *)

Definition reliable (start fin : Z) : bool :=
  negb (time_is_zero start) && negb (time_is_zero fin) && bool_decide (start < fin).

Definition platform_is (platform : string) (s : SubmitLog) : bool :=
  bool_decide (to_lower (s_Platform s) = to_lower platform).

Definition loadContestSubmissions (platform contestID : string) (userIDs : list Z) (start fin : Z)
    : CM (list SubmitLog) :=
  match userIDs with
  | [] => mret []
  | _ =>
      r ← attempt (query (fun d => merge_sort (asc_by s_Time) (select (fun s =>
            platform_is platform s && bool_decide (s_Contest s = contestID)
            && bool_decide (s_UserID s ∈ userIDs)) (submits d))));
      match r with
      | Exn _ => mret []
      | Val ((_ :: _) as submissions) => mret submissions
      | Val [] =>
          if negb (reliable start fin) then mret []
          else
            r ← attempt (query (fun d => merge_sort (asc_by s_Time) (select (fun s =>
                  platform_is platform s && bool_decide (s_UserID s ∈ userIDs)
                  && bool_decide (start <= s_Time s) && bool_decide (s_Time s < fin)) (submits d))));
            mret match r with Val submissions => submissions | Exn _ => [] end
      end
  end.

Record ProblemColumn := Column {
  pc_Index : string; pc_Name : string; pc_ProblemKey : string; pc_ProblemUrl : string;
  pc_ContestAccepted : Z; pc_ContestAttempted : Z; pc_UpsolveAccepted : Z }.

Record contestMatrixResult := MatrixResult {
  mx_Problems : list ProblemColumn; mx_ResultsByUser : gmap Z (list ProblemResult);
  mx_PenaltyByUser : gmap Z Z; mx_ContestAcCountByUser : gmap Z Z; mx_DegradedReason : string }.

Definition problem_column (stats : gmap string problemColumnStat) (problem : contestProblemMeta)
    : ProblemColumn :=
  let stat := default no_stat (stats !! pm_Key problem) in
  Column (pm_Index problem) (pm_Name problem) (pm_Key problem) (pm_URL problem)
    (wrap_int32 (st_contestAccepted stat)) (wrap_int32 (st_contestAttempted stat))
    (wrap_int32 (st_upsolveAccepted stat)).

(** What is known of a contest so far: its window, its problems, what went wrong. *)
Record known := Known {
  kn_start : Z; kn_end : Z; kn_problems : list contestProblemMeta; kn_degraded : string }.

Definition learn (m : contestMeta) (k : known) : known :=
  Known (if time_is_zero (cm_Start m) then kn_start k else cm_Start m)
        (if time_is_zero (cm_End m) then kn_end k else cm_End m) (cm_Problems m) (kn_degraded k).
Definition degrade (reason : string) (k : known) : known :=
  Known (kn_start k) (kn_end k) (kn_problems k)
        (if decide (kn_degraded k = "") then reason else kn_degraded k).

(** One of the three blocks that ask a judge. *)
Definition ask (applies : bool) (fetch : nat -> outcome contestMeta) (reason : string) (k : known)
    : CM known :=
  if applies then
    r ← attempt (remote fetch);
    mret match r with Val m => learn m k | Exn _ => degrade reason k end
  else mret k.

Definition fetchCodeforcesMatrixMeta (contestID : string) (n : nat) : outcome contestMeta :=
  match by_id_text CodeforcesStandings contestID n with
  | Val parsed => Val (codeforcesStandingsToMeta (trim_space contestID) parsed)
  | Exn e => Exn e
  end.

(** [fuel] bounds the loop of [synthesizeNowCoderProblems]; [None] is a request
    that does not come back. *)
Definition buildContestMatrix (fuel : nat) (contest : ContestLog) (pageLogs allLogs : list ContestLog)
    : CM (option contestMatrixResult) :=
  if decide (pageLogs = [] \/ c_ContestId contest = "" \/ c_Platform contest = "")
  then mret (Some (MatrixResult [] ∅ ∅ ∅ ""))
  else
    let platform := c_Platform contest in
    let contestID := c_ContestId contest in
    k ← ask (isContestPlatform platform AtCoder) (by_id_text AtCoderMeta contestID)
          "AtCoder 元数据获取失败，题目列按本站提交记录生成。"
          (Known (c_Time contest) (c_EndTime contest) [] "");
    k ← ask (isContestPlatform platform CodeForces)
          (fetchCodeforcesMatrixMeta contestID)
          "Codeforces 元数据获取失败，题目列按本站提交记录生成。" k;
    k ← ask (isContestPlatform platform NowCoder) (by_id_text NowCoderMeta contestID)
          "NowCoder 元数据获取失败，题目列按本站提交记录生成。" k;
    let allUserIDs := collectContestUserIDs allLogs in
    let wi := Window (kn_start k) (kn_end k) (reliable (kn_start k) (kn_end k)) in
    submissions ← loadContestSubmissions platform contestID allUserIDs (kn_start k) (kn_end k);
    let k := if wi_reliable wi then k
             else degrade "缺少官方比赛结束时间，赛后补题不会单独标记。" k in
    let metaProblems :=
      if isContestPlatform platform NowCoder && bool_decide (kn_problems k = [])
         && bool_decide (0 < c_TotalCount contest)
      then synthesizeNowCoderProblems fuel contestID (c_TotalCount contest) submissions
      else Some (kn_problems k) in
    mret match metaProblems with
         | None => None
         | Some metaProblems =>
             let problems := normalizeContestProblems platform contestID metaProblems submissions in
             let calculated := calculateContestProblemMatrix wi problems submissions
                                 (collectContestUserIDs pageLogs) allUserIDs in
             Some (MatrixResult (map (problem_column (ca_problemStats calculated)) problems)
                     (ca_resultsByUser calculated) (ca_penaltyByUser calculated)
                     (ca_contestAcCountByUser calculated) (kn_degraded k))
         end.

(** ** Handlers *)

(** [errors.InternalServer("内部服务器错误", err.Error())] *)
Definition contest_failed (e : goerr) : goerr := InternalServer "内部服务器错误" (error_text e).
Definition unixOrZero (value : Z) : Z := if time_is_zero value then 0 else time_unix value.

Record ContestItem := ContestPb {
  ct_Id : Z; ct_Platform : string; ct_ContestId : string; ct_ContestName : string;
  ct_ContestUrl : string; ct_TotalCount : Z; ct_Time : Z; ct_EndTime : Z }.
Definition contest_item (v : ContestLog) : ContestItem :=
  ContestPb (c_ID v mod 2 ^ 32) (c_Platform v) (c_ContestId v) (c_ContestName v) (c_ContestUrl v)
    (wrap_int32 (c_TotalCount v)) (unixOrZero (c_Time v)) (unixOrZero (c_EndTime v)).
Definition with_total (n : Z) (c : ContestItem) : ContestItem :=
  ContestPb (ct_Id c) (ct_Platform c) (ct_ContestId c) (ct_ContestName c) (ct_ContestUrl c) n
    (ct_Time c) (ct_EndTime c).

Definition svc_GetContestList `{Collation} (userId offset limit : Z) (platform : string)
    : CM (list ContestItem * Z) :=
  r ← map_err contest_failed (dal_GetContestList userId offset limit platform);
  mret (map contest_item r.1, r.2).

Context `{UserService}.

Definition fetchUserNames (connected : bool) (logs : list ContestLog) : CM (gmap Z userInfo) :=
  if negb connected || bool_decide (logs = []) then mret ∅
  else
    r ← attempt (remote (ProfilesByIds (collectContestUserIDs logs)));
    mret match r with
         | Val profiles => foldl (fun m p => <[p.1 := p.2]> m) ∅ profiles
         | Exn _ => ∅
         end.

Record RankingItem := RankingRow {
  rk_Rank : Z; rk_UserId : Z; rk_Info : userInfo; rk_AcCount : Z; rk_TotalCount : Z;
  rk_Penalty : Z; rk_ProblemResults : list ProblemResult }.
Record RankingReply := Ranking {
  rr_Contest : ContestItem; rr_Data : list RankingItem; rr_Total : Z;
  rr_Problems : list ProblemColumn; rr_DegradedReason : string }.

Definition ranking_item (matrix : contestMatrixResult) (nameMap : gmap Z userInfo) (v : ContestLog)
    : RankingItem :=
  RankingRow (c_Rank v) (c_UserID v) (default (UserInfo "" "" "" 0) (nameMap !! c_UserID v))
    (match mx_Problems matrix with
     | [] => wrap_int32 (c_AcCount v)
     | _ => default 0 (mx_ContestAcCountByUser matrix !! c_UserID v)
     end) (wrap_int32 (c_TotalCount v)) (default 0 (mx_PenaltyByUser matrix !! c_UserID v))
    (default [] (mx_ResultsByUser matrix !! c_UserID v)).

Definition no_contest : ContestLog := ContestRow 0 "" 0 "" "" "" 0 0 0 zero_time zero_time.

(** The slice panic of the page, which the recovery middleware turns into an error. *)
Definition page_of (logs : list ContestLog) (offset limit : Z) : CM (list ContestLog) :=
  match paginateContestLogs logs offset limit with
  | Some l => mret l
  | None => throw (ErrorText "slice bounds out of range")
  end.

(** The page of the ranking and the number of participants. *)
Definition ranking_page (contest : ContestLog) (allLogs : list ContestLog) (offset limit : Z)
    (userIds : list Z) : CM (list ContestLog * list ContestLog * Z) :=
  let total := Z.of_nat (length allLogs) in
  if isContestPlatform (c_Platform contest) AtCoder then
    allLogs ← applyAtCoderOfficialRanks (c_ContestId contest) allLogs;
    logs ← page_of (sortContestLogs allLogs) offset limit;
    mret (sortContestLogs allLogs, logs, total)
  else if isContestPlatform (c_Platform contest) CodeForces then
    allLogs ← applyCodeforcesOfficialRanks (c_ContestId contest) allLogs;
    logs ← page_of (sortContestLogs allLogs) offset limit;
    mret (sortContestLogs allLogs, logs, total)
  else
    r ← map_err contest_failed
          (dal_GetContestRanking (c_ContestId contest) (c_Platform contest) offset limit userIds);
    mret (allLogs, r.1, r.2).

(** The ranking of the participants among [userIds], or of all of them. *)
Definition rank_contest (fuel : nat) (contest : ContestLog) (connected : bool) (offset limit : Z)
    (userIds : list Z) : CM (option RankingReply) :=
  allLogs ← map_err contest_failed
    (GetContestParticipants (c_ContestId contest) (c_Platform contest) userIds);
  '(allLogs, logs, total) ← ranking_page contest allLogs offset limit userIds;
  nameMap ← fetchUserNames connected logs;
  matrix ← buildContestMatrix fuel contest logs allLogs;
  mret match matrix with
       | None => None
       | Some matrix =>
           let shown := match mx_Problems matrix with
                        | [] => contest_item contest
                        | l => with_total (wrap_int32 (Z.of_nat (length l))) (contest_item contest)
                        end in
           Some (Ranking shown (map (ranking_item matrix nameMap) logs) total (mx_Problems matrix)
                   (mx_DegradedReason matrix))
       end.

Definition svc_GetContestRanking (fuel : nat) (contestRow : Z) (groupId : option Z)
    (offset limit : Z) : CM (option RankingReply) :=
  c ← attempt (first_by (by_id contestRow));
  let contest := match c with Val c => c | Exn _ => no_contest end in
  conn ← attempt (remote user_dial);
  let connected := is_val conn in
  match groupId with
  | Some g =>
      if connected then
        userIds ← map_err (fun _ => InternalServer "内部服务器错误" "获取用户组信息失败")
                          (remote (UserIdsByGroup g));
        match userIds with
        | [] => mret (Some (Ranking (contest_item contest) [] 0 [] ""))
        | _ => rank_contest fuel contest connected offset limit userIds
        end
      else rank_contest fuel contest connected offset limit []
  | None => rank_contest fuel contest connected offset limit []
  end.
End handlers.
