(* ===== verification/ReplyTheory.v ===== *)
(** The two ways in which a ranking is ordered and paged - by the database, and in
    memory once official ranks are known - come to the same.  What the reply of the ranking
    says is consistent: the counts and penalties of a row are those of its cells, whatever
    the judges and the user service answer and whichever calls fail. *)
From S2P Require Export ContestService.


Lemma lex_le_total x y : lex_le x y \/ lex_le y x.
Proof.
  revert y. induction x as [|a x IH]; intros [|b y]; simpl; auto.
  destruct (Z.lt_trichotomy a b) as [?|[->|?]]; auto. destruct (IH y); auto.
Qed.
Lemma lex_le_trans x y z : lex_le x y -> lex_le y z -> lex_le x z.
Proof.
  revert y z. induction x as [|a x IH]; intros [|b y] [|c z]; simpl; try done.
  intros [?|[-> ?]] [?|[-> ?]]; [left; lia|by left|by left|]. right. split; [done|]. by eapply IH.
Qed.
Lemma lex_le_antisym x y : lex_le x y -> lex_le y x -> x = y.
Proof.
  revert y. induction x as [|a x IH]; intros [|b y]; simpl; try done.
  intros [?|[-> ?]] [?|[? ?]]; try lia. f_equal. by apply IH.
Qed.

#[export] Instance sql_rank_total : Total sql_rank_le.
Proof. intros x y. apply lex_le_total. Qed.
#[export] Instance sql_rank_trans : Transitive sql_rank_le.
Proof. intros x y z. apply lex_le_trans. Qed.
#[export] Instance not_after_total : Total not_after.
Proof.
  intros x y. unfold not_after, contest_less. destruct (ranked x), (ranked y); repeat case_decide; try done; auto;
    repeat case_bool_decide; auto; lia.
Qed.

(** Without negative ranks the two orders are one. *)
Lemma not_after_sql x y : 0 <= c_Rank x -> 0 <= c_Rank y -> not_after x y <-> sql_rank_le x y.
Proof.
  intros Hx Hy. unfold not_after, contest_less, sql_rank_le, sql_rank_key, tie_break, ranked. simpl.
  repeat case_bool_decide; repeat case_decide; try done; rewrite ?bool_decide_eq_false; try lia.
  all: split; intros; try done; try lia.
Qed.

Lemma merge_sort_agree {A} (R S : relation A) `{forall x y, Decision (R x y), forall x y, Decision (S x y)}
    `{!Total R, !Total S, !Transitive S} (l : list A) :
  (forall x y, x ∈ l -> y ∈ l -> R x y <-> S x y) ->
  (forall x y, x ∈ l -> y ∈ l -> S x y -> S y x -> x = y) ->
  merge_sort R l = merge_sort S l.
Proof.
  intros HRS Hanti.
  assert (StronglySorted S (merge_sort R l)) as HR.
  { apply Sorted_StronglySorted; [done|].
    assert (forall k, (forall x, x ∈ k -> x ∈ l) -> Sorted R k -> Sorted S k) as Hk.
    { induction k as [|x k IH]; intros Hin Hs; [constructor|]. apply Sorted_inv in Hs as [Hs Hx].
      constructor; [apply IH; [set_solver|done]|]. destruct Hx as [|y k Hxy]; constructor.
      apply HRS; [set_solver..|done]. }
    apply Hk; [intros x; by rewrite merge_sort_Permutation|]. apply Sorted_merge_sort, _. }
  apply (StronglySorted_unique_strong S); [|done|apply (StronglySorted_merge_sort S)|by rewrite !merge_sort_Permutation].
  intros x y Hx Hy. rewrite merge_sort_Permutation in Hx, Hy. by apply Hanti.
Qed.

(** Paging in memory is [OFFSET] and [LIMIT], within the integers. *)
Lemma paginate_rows logs offset limit :
  0 <= offset -> 0 < limit -> offset + limit < 2 ^ 63 -> Z.of_nat (length logs) < 2 ^ 63 ->
  paginateContestLogs logs offset limit = Some (limit_rows limit (offset_rows offset logs)).
Proof.
  intros Ho Hl Hb Hlen. unfold paginateContestLogs, limit_rows, offset_rows. cbn zeta.
  rewrite (decide_False (P := offset < 0)), (decide_False (P := limit <= 0)), (decide_True (P := 0 <= limit)) by lia.
  rewrite wrap_int64_id by (unfold in_int64; lia).
  assert ((if decide (0 < offset) then drop (Z.to_nat offset) logs else logs) = drop (Z.to_nat offset) logs) as ->.
  { case_decide; [done|]. by replace offset with 0 by lia. }
  destruct (decide (Z.of_nat (length logs) <= offset)) as [Hs|Hs]; [rewrite drop_ge by lia; by rewrite take_nil|].
  destruct (decide (Z.of_nat (length logs) < offset + limit)) as [Hf|Hf]; rewrite decide_False by lia; f_equal.
  - rewrite !take_ge; [done|rewrite length_drop; lia..].
  - f_equal. lia.
Qed.

Lemma rankings_agree (l : list ContestLog) (offset limit : Z) :
  (forall c, c ∈ l -> 0 <= c_Rank c) -> NoDup (map c_UserID l) ->
  0 <= offset -> 0 < limit -> offset + limit < 2 ^ 63 -> Z.of_nat (length l) < 2 ^ 63 ->
  paginateContestLogs (sortContestLogs l) offset limit =
    Some (limit_rows limit (offset_rows offset (merge_sort sql_rank_le l))).
Proof.
  intros Hr Hnd Ho Hl Hb Hlen.
  assert (sortContestLogs l = merge_sort sql_rank_le l) as Hs.
  { apply (merge_sort_agree not_after sql_rank_le).
    - intros x y Hx Hy. apply not_after_sql; auto.
    - intros x y Hx Hy H1 H2. pose proof (lex_le_antisym _ _ H1 H2) as He.
      unfold sql_rank_key, tie_break in He.
      apply list_elem_of_lookup in Hx as [i Hi], Hy as [j Hj].
      assert (i = j) as ->; [|congruence].
      apply (NoDup_lookup _ _ _ (c_UserID x) Hnd); rewrite list_lookup_fmap, ?Hi, ?Hj; simpl; congruence. }
  rewrite <- Hs. apply paginate_rows; try done. unfold sortContestLogs. by rewrite merge_sort_Permutation.
Qed.

(** Far beyond the end of the integers the page is a panic, not an empty page. *)
Lemma paginate_panics logs offset limit :
  0 < offset < Z.of_nat (length logs) -> limit = 2 ^ 63 - 1 -> Z.of_nat (length logs) < 2 ^ 62 ->
  paginateContestLogs logs offset limit = None.
Proof.
  intros Ho -> Hlen. unfold paginateContestLogs. cbn zeta.
  rewrite (decide_False (P := offset < 0)), (decide_False (P := 2 ^ 63 - 1 <= 0)), decide_False by lia.
  assert (wrap_int64 (offset + (2 ^ 63 - 1)) = offset - 2 ^ 63 - 1) as ->.
  { unfold wrap_int64. replace (offset + (2 ^ 63 - 1) + 2 ^ 63) with (offset - 1 + 1 * 2 ^ 64) by lia.
    rewrite Z.mod_add, Z.mod_small by lia. lia. }
  rewrite (decide_False (P := Z.of_nat (length logs) < offset - 2 ^ 63 - 1)) by lia. by rewrite decide_True by lia.
Qed.

#[local] Arguments wrap_int32 : simpl never.

(** ** Who takes part *)

Lemma collect_ids logs :
  NoDup (collectContestUserIDs logs) /\
  forall u, u ∈ collectContestUserIDs logs <-> u <> 0 /\ u ∈ map c_UserID logs.
Proof.
  unfold collectContestUserIDs. induction logs as [|c logs [IH1 IH2]] using rev_ind.
  { split; [constructor | set_solver]. }
  rewrite foldl_snoc, map_app. set (ids := foldl _ [] logs) in *. case_decide as Hd.
  - split; [done|]. intros u. rewrite IH2. set_solver.
  - apply Decidable.not_or in Hd as [H0 Hn]. split.
    + apply NoDup_app. split_and!; [done|set_solver|apply NoDup_singleton].
    + intros u. rewrite elem_of_app, list_elem_of_singleton, IH2. set_solver.
Qed.

Lemma page_subset (logs page : list ContestLog) (offset limit : Z) :
  paginateContestLogs logs offset limit = Some page -> forall c, c ∈ page -> c ∈ logs.
Proof.
  unfold paginateContestLogs. cbn zeta. set (start := if decide (offset < 0) then 0 else offset).
  set (fin := if decide (_ < wrap_int64 _) then _ else _).
  destruct (decide (Z.of_nat (length logs) <= start)); [intros [= <-] c Hc; by apply not_elem_of_nil in Hc|].
  destruct (decide (fin < start)); [done|]. intros [= <-] c Hc.
  apply elem_of_take in Hc as (i & Hi & _). rewrite lookup_drop in Hi. by eapply list_elem_of_lookup_2.
Qed.

(** A pass over the participants that gives them ranks keeps them. *)
Definition same_users (l k : list ContestLog) : Prop := map c_UserID l = map c_UserID k.

Lemma rerank_users (f : ContestLog -> ContestLog) l :
  (forall c, c_UserID (f c) = c_UserID c) -> same_users (map f l) l.
Proof. intros Hf. unfold same_users. rewrite map_map. by apply map_ext. Qed.

Lemma rank_codeforces_user h r c : c_UserID (rank_codeforces h r c) = c_UserID c.
Proof. unfold rank_codeforces. by repeat case_match. Qed.
Lemma rank_atcoder_user r c : c_UserID (rank_atcoder r c) = c_UserID c.
Proof. unfold rank_atcoder. by repeat case_match. Qed.

Section reply.
Context `{ContestPages}.

Lemma official_codeforces contestID logs w :
  wpv (applyCodeforcesOfficialRanks contestID logs) (fun l _ => same_users l logs) w.
Proof.
  unfold applyCodeforcesOfficialRanks. cbn zeta. case_decide; [by apply wpv_ret|].
  apply wpv_bind, wpv_any. intros [plats|e] w1; [|by apply wpv_ret].
  case_decide; [by apply wpv_ret|]. apply wpv_bind, wpv_any. intros [st|e] w2; [|by apply wpv_ret].
  case_decide; apply wpv_ret; [done|]. apply rerank_users, rank_codeforces_user.
Qed.

Lemma official_atcoder contestID logs w :
  wpv (applyAtCoderOfficialRanks contestID logs) (fun l _ => same_users l logs) w.
Proof.
  unfold applyAtCoderOfficialRanks. cbn zeta. case_decide; [by apply wpv_ret|].
  apply wpv_bind, wpv_any. intros [plats|e] w1; [|by apply wpv_ret].
  case_decide; [by apply wpv_ret|]. apply wpv_bind, wpv_any. intros ranks w2.
  apply wpv_ret, rerank_users, rank_atcoder_user.
Qed.

(** The users of a page are participants. *)
Definition page_users (l logs : list ContestLog) : Prop :=
  forall c, c ∈ logs -> c_UserID c ∈ map c_UserID l.

Lemma sorted_page_users l logs offset limit :
  paginateContestLogs (sortContestLogs l) offset limit = Some logs -> page_users (sortContestLogs l) logs.
Proof. intros Hp c Hc. apply list_elem_of_fmap_2. by eapply page_subset. Qed.

Lemma page_of_users l offset limit w :
  wpv (page_of (sortContestLogs l) offset limit) (fun logs _ => page_users (sortContestLogs l) logs) w.
Proof.
  unfold page_of. case_match eqn:Hp; [|apply wpv_throw]. apply wpv_ret. by eapply sorted_page_users.
Qed.

Lemma ranking_page_users contest allLogs offset limit userIds w :
  allLogs = merge_sort sql_rank_le
    (select (of_contest (c_ContestId contest) (c_Platform contest) userIds) (contests (w_db w))) ->
  wpv (ranking_page contest allLogs offset limit userIds) (fun r _ => page_users r.1.1 r.1.2) w.
Proof.
  intros Hall. unfold ranking_page. cbn zeta.
  case_match; [|case_match].
  1, 2: apply wpv_bind, wpv_any; intros l w1; apply wpv_bind;
    eapply wpv_mono; [apply page_of_users|]; intros logs w2 Hp; by apply wpv_ret.
  apply wpv_bind, wpv_map_err. unfold dal_GetContestRanking.
  apply wpv_bind, wpv_query, wpv_bind, wpv_query. do 2 apply wpv_ret. simpl. intros c Hc.
  apply elem_of_limit_rows, elem_of_offset_rows in Hc. subst allLogs. by apply list_elem_of_fmap_2.
Qed.

(** ** The matrix of a reply *)

Definition matrix_of (wi : window) (problems : list contestProblemMeta) (submissions : list SubmitLog)
    (pageLogs allLogs : list ContestLog) (mx : contestMatrixResult) : Prop :=
  let c := calculateContestProblemMatrix wi problems submissions (collectContestUserIDs pageLogs)
             (collectContestUserIDs allLogs) in
  mx_Problems mx = map (problem_column (ca_problemStats c)) problems /\
  mx_ResultsByUser mx = ca_resultsByUser c /\ mx_PenaltyByUser mx = ca_penaltyByUser c /\
  mx_ContestAcCountByUser mx = ca_contestAcCountByUser c.

Lemma matrix_result fuel contest pageLogs allLogs w :
  wpv (buildContestMatrix fuel contest pageLogs allLogs) (fun r _ =>
    forall mx, r = Some mx -> mx_Problems mx = [] \/
      exists wi problems submissions, matrix_of wi problems submissions pageLogs allLogs mx) w.
Proof.
  unfold buildContestMatrix. cbn zeta. case_decide; [apply wpv_ret; intros mx [= <-]; by left|].
  do 4 (apply wpv_bind, wpv_any; intros ? ?). apply wpv_ret.
  set (k := if wi_reliable _ then _ else _). case_match; [|done]. intros mx [= <-]. right.
  by eexists _, _, _.
Qed.

(** The row of a participant who is on the page. *)
Lemma matrix_row wi problems submissions pageLogs allLogs mx u :
  matrix_of wi problems submissions pageLogs allLogs mx ->
  u <> 0 -> u ∈ map c_UserID pageLogs -> u ∈ map c_UserID allLogs ->
  let cells := default [] (mx_ResultsByUser mx !! u) in
  map pr_ProblemKey cells = map pc_ProblemKey (mx_Problems mx) /\
  default 0 (mx_ContestAcCountByUser mx !! u) = wrap_int32 (Z.of_nat (length (contest_cells cells))) /\
  default 0 (mx_PenaltyByUser mx !! u) = wrap_int32 (row_penalty cells).
Proof.
  intros (-> & -> & -> & ->) H0 Hp Ha. cbn zeta. unfold calculateContestProblemMatrix.
  cbn [ca_resultsByUser ca_penaltyByUser ca_contestAcCountByUser ca_problemStats].
  destruct (collect_ids pageLogs) as [_ Hpage]. destruct (collect_ids allLogs) as [Hnd Hall].
  rewrite results_lookup by (by apply Hpage). simpl.
  edestruct (count_totals_user (record_submissions wi problems submissions) problems
    (collectContestUserIDs allLogs) u Hnd) as [H1 H2]; [by apply Hall|].
  rewrite H1, H2, row_keys. split_and!; [|done|done]. by rewrite map_map.
Qed.

Context `{UserService}.

(** A row of the reply. *)
Definition row_consistent (reply : RankingReply) (it : RankingItem) : Prop :=
  rr_Problems reply <> [] -> rk_UserId it <> 0 ->
  map pr_ProblemKey (rk_ProblemResults it) = map pc_ProblemKey (rr_Problems reply) /\
  rk_AcCount it = wrap_int32 (Z.of_nat (length (contest_cells (rk_ProblemResults it)))) /\
  rk_Penalty it = wrap_int32 (row_penalty (rk_ProblemResults it)).

Definition reply_consistent (r : option RankingReply) : Prop :=
  forall reply, r = Some reply -> Forall (row_consistent reply) (rr_Data reply).

Lemma rank_contest_consistent fuel contest connected offset limit userIds w :
  wpv (rank_contest fuel contest connected offset limit userIds) (fun r _ => reply_consistent r) w.
Proof.
  unfold rank_contest. apply wpv_bind, wpv_map_err, wpv_query, wpv_bind.
  eapply wpv_mono; [by apply ranking_page_users|]. intros [[allLogs logs] total] w1 Hpage. simpl in Hpage.
  apply wpv_bind, wpv_any. intros names w2. apply wpv_bind.
  eapply wpv_mono; [apply matrix_result|]. intros r w3 Hmx. apply wpv_ret.
  destruct r as [mx|]; [|done]. intros reply [= <-]. simpl. destruct (Hmx mx eq_refl) as [He|(wi & ps & ss & Hm)].
  { apply Forall_forall. intros it _ Hne. by rewrite He in Hne. }
  apply Forall_map, Forall_forall. intros c Hc Hne Hu. simpl in *.
  edestruct (matrix_row wi ps ss logs allLogs mx (c_UserID c) Hm Hu) as (H1 & H2 & H3);
    [by apply list_elem_of_fmap_2 | by apply Hpage|].
  rewrite H1, H2, H3. split_and!; try done. by destruct (mx_Problems mx).
Qed.

Lemma ranking_consistent fuel row groupId offset limit w :
  wpv (svc_GetContestRanking fuel row groupId offset limit) (fun r _ => reply_consistent r) w.
Proof.
  unfold svc_GetContestRanking. apply wpv_bind, wpv_any. intros c w1. cbn zeta.
  apply wpv_bind, wpv_any. intros conn w2. destruct groupId as [g|]; [|apply rank_contest_consistent].
  destruct (is_val conn); [|apply rank_contest_consistent].
  apply wpv_bind, wpv_any. intros userIds w3. case_match; [|apply rank_contest_consistent].
  apply wpv_ret. intros reply [= <-]. constructor.
Qed.
End reply.
