(* ===== verification/CoreProps.v ===== *)
(** The properties of the core-data service, with instances on concrete databases. *)
From S2P Require Export SpiderService JobTheory UserProps.

(** ** Sample states *)

Definition sub (id uid : Z) (p sid : string) : SubmitLog := Submission id p uid sid "" "A" "C++" "AC" 100.

(** User 7 is bound to QOJ and has two submissions there; job 1 is queued. *)
Definition sample_core : core_db :=
  CoreDb (Table [PlatformRow 1 7 "QOJ" "ann"] 2) (Table [] 1)
    (Table [RefreshJob 1 7 7 "manual" "queued" true "" 0 0 "" None None 0 0] 2)
    (Table [sub 1 7 "QOJ" "11"; sub 2 7 "QOJ" "12"] 3) (Table [] 1) (Table [] 1) (Table [] 1) (Table [] 1) [] ∅ zero_time.

(** A platform that returns the given list to everybody. *)
Definition fetching (l : list SubmitLog) : Fetchers :=
  {| registered _ := true; fetches_submits _ := true; fetches_contests _ := true;
     FetchSubmitLog _ _ _ _ _ := Val l; FetchContestLog _ _ _ _ _ := Val [] |}.

Definition fetched : list SubmitLog :=
  [sub 0 0 "" "12"; sub 0 0 "" " 13 "; sub 0 0 "" ""; sub 0 0 "" "12"; sub 0 0 "" "14"].

Lemma sample_submits_ok : submits_ok (submits sample_core).
Proof.
  split; [wf_table|]. intros x y Hx Hy Hs. simpl in *. apply same_submit_iff in Hs.
  rewrite !elem_of_cons in Hx, Hy. destruct Hx as [->|[->|Hx]], Hy as [->|[->|Hy]];
    try by destruct Hs. all: by apply not_elem_of_nil in Hx || by apply not_elem_of_nil in Hy.
Qed.

(** ** What a refresh stores *)

(** Normalising what a platform returned keeps one row per submission number, the
    last reported with its fields trimmed, all owned by the user on the platform;
    every usable item is represented; and every item is either kept or counted as
    skipped. *)
Theorem normalisation_keeps_last (userId : Z) (platform : string) (logs out : list SubmitLog)
    (skipped : Z) :
  normalizeFetchedSubmitLogs userId platform logs = Val (out, skipped) ->
  normalized userId platform logs out skipped.
Proof. apply normalize_ok. Qed.

Lemma normalisation_keeps_last_witness :
  exists out, normalizeFetchedSubmitLogs 7 "QOJ" fetched = Val (out, 2) /\
  map s_SubmitID out = ["12"; "13"; "14"] /\ normalized 7 "QOJ" fetched out 2.
Proof.
  eexists. split; [vm_compute; reflexivity|]. split; [vm_compute; reflexivity|].
  apply (normalisation_keeps_last 7 "QOJ" fetched). vm_compute. reflexivity.
Defined.

(** C4: one refresh of a platform, whatever the platform returns and whichever calls
    fail, keeps the index of submissions unique and never leaves the user with
    fewer submissions there than before; a full refresh that succeeds leaves
    exactly the number it reports, and one that fails changes no row. *)
Theorem refresh_never_shrinks `{Fetchers} (userId : Z) (plat : Platform) (needAll : bool)
    (w : world core_db) :
  submits_ok (submits (w_db w)) ->
  wpd (fetchAndSave userId plat needAll) (refreshed userId (p_Platform plat) needAll (w_db w)) w.
Proof. apply fetch_refines. Qed.

Lemma refresh_never_shrinks_witness :
  (@fetchAndSave (fetching fetched) 7 (PlatformRow 1 7 "QOJ" "ann") true (world_of sample_core)).1
    = Val (3, 2) /\
  wpd (@fetchAndSave (fetching fetched) 7 (PlatformRow 1 7 "QOJ" "ann") true)
      (refreshed 7 "QOJ" true sample_core) (world_of sample_core).
Proof.
  split; [vm_compute; reflexivity|].
  apply (@refresh_never_shrinks (fetching fetched) 7 (PlatformRow 1 7 "QOJ" "ann") true
           (world_of sample_core)), sample_submits_ok.
Defined.

(** The same of a whole job with its retries, over all the platforms of the user. *)
Theorem job_loses_no_submissions `{Fetchers} (jobId userId : Z) (needAll : bool)
    (target : string) (w : world core_db) (p : string) :
  submits_ok (submits (w_db w)) ->
  own_count userId p (w_db w) <= own_count userId p (w_db (LoadData jobId userId needAll target w).2).
Proof.
  intros Hok. apply (keeps_LoadData userId (fun q => own_count userId q (w_db w)) jobId needAll target w).
  by split.
Qed.

Lemma job_loses_no_submissions_witness :
  2 <= own_count 7 "QOJ" (w_db (@LoadData (fetching [sub 0 0 "" "99"]) 1 7 true "" (world_of sample_core)).2).
Proof.
  apply (@job_loses_no_submissions (fetching [sub 0 0 "" "99"]) 1 7 true "" (world_of sample_core) "QOJ"),
    sample_submits_ok.
Defined.



(** A full fetch that was rejected as incomplete is not attempted again: its text
    contains the word by which the retry loop recognises errors not worth a retry,
    whatever number of attempts is left. *)
Theorem incomplete_fetch_not_retried `{Fetchers} (userId : Z) (plat : Platform) (n more : nat)
    (existing : Z) (err : goerr) (lastErr : option goerr) (w w1 : world core_db) :
  rejectIncompleteFullFetch (p_Platform plat) n existing true = Some err ->
  fetchAndSave userId plat true w = (Exn err, w1) ->
  (load_attempts userId plat true (S more) lastErr w) =
  (Exn err, (ignore_err (fetchAndSaveContest userId plat true) w1).2).
Proof.
  intros Hr Hf.
  assert (contains (error_text err) "平台" = true) as Hc.
  { unfold rejectIncompleteFullFetch in Hr. case_decide; [done|]. injection Hr as <-.
    apply contains_spec. simpl error_text.
    exists (p_Platform plat +:+ " 全量抓取结果 " +:+ nat_text n +:+ " 条少于现有 "
            +:+ pretty existing +:+ " 条，疑似"), "返回不完整，已拒绝覆盖旧数据".
    by rewrite !str_app_assoc. }
  cbn [load_attempts]. unfold mbind, M_bind, attempt, ignore_err. rewrite Hf. simpl. by rewrite Hc.
Qed.

Lemma incomplete_fetch_not_retried_witness :
  exists err w1, @load_attempts (fetching [sub 0 0 "" "99"]) 7 (PlatformRow 1 7 "QOJ" "ann")
    true 12 None (world_of sample_core) = (Exn err, w1).
Proof.
  eexists _, _.
  eapply (@incomplete_fetch_not_retried (fetching [sub 0 0 "" "99"]) 7 (PlatformRow 1 7 "QOJ" "ann")
            1 11 2 _ None (world_of sample_core)); vm_compute; reflexivity.
Defined.

(** ** Queueing *)

(** C11: in a run without failures, a request for a refresh is answered with a job of
    the same user that conflicts with it, is active and has moved within two hours,
    when there is one - then nothing is queued; otherwise a queued job is recorded
    and exactly one event with its number is published. *)
Theorem refresh_request_outcome (userId requester : Z) (needAll : bool) (source platform : string)
    (w : world core_db) :
  healthy w -> table_wf (jobs (w_db w)) ->
  wp (spider_Do userId needAll source requester platform)
     (fun o w' => do_result userId needAll source requester platform w o (w_db w')) w.
Proof. apply Do_result. Qed.

Lemma refresh_request_outcome_witness :
  (spider_Do 7 true "manual" 7 "QOJ" (world_of sample_core)).1 = Val (1, Some ActiveRefreshJob) /\
  (spider_Do 8 true "manual" 8 "QOJ" (world_of sample_core)).1 = Val (2, None) /\
  wp (spider_Do 8 true "manual" 8 "QOJ")
     (fun o w' => do_result 8 true "manual" 8 "QOJ" (world_of sample_core) o (w_db w')) (world_of sample_core).
Proof.
  split_and!; [vm_compute; reflexivity..|].
  apply (refresh_request_outcome 8 8 true "manual" "QOJ" (world_of sample_core)); [done | wf_table].
Defined.

(** The events up to the first platform of the worker's run of job 1. *)
Definition first_steps : CM () := startJob 1 1;; setCurrentPlatform 1 "QOJ".

(** A full refresh does not keep a second one out when the user has one platform:
    once the worker has started on the queued job of the sample, the record looks
    like the refresh of a single platform, another full refresh of the same user is
    queued beside it and both are active. *)
Theorem full_refresh_queued_twice :
  let w := (first_steps (world_of sample_core)).2 in
  let r := spider_Do 7 true "manual" 7 "" w in
  (spider_Do 7 true "manual" 7 "" (world_of sample_core)).1 = Val (1, Some ActiveRefreshJob) /\
  r.1 = Val (2, None) /\
  map j_ID (select (fun j => bool_decide (j_UserID j = 7) && is_active j) (jobs (w_db r.2))) = [1; 2].
Proof. vm_compute. split_and!; reflexivity. Qed.

(** ** What a caller sees *)

(** Every job that [Jobs] lists is one of the table's; its error text is shown only
    to its user, coaches and administrators; and whoever is neither coach nor
    administrator is shown only jobs they are the user or the requester of. *)
Theorem listed_jobs_private (c : ctx) (page pageSize : Z) (scope : string) (userId : Z)
    (status : string) (w w' : world core_db) (l : list JobInfo) (total : Z) :
  svc_Jobs c page pageSize scope userId status w = (Val (l, total), w') ->
  forall ji, ji ∈ l ->
    (exists j, j ∈ rows (jobs (w_db w)) /\ ji = jobToPb j (canViewUserDetail c (j_UserID j))) /\
    (ji_Error ji <> "" -> canViewUserDetail c (ji_UserId ji) = true) /\
    (isCoachOrAdmin c = false -> ji_UserId ji = GetCurrentUserId c \/ ji_RequesterId ji = GetCurrentUserId c).
Proof.
  intros Hrun. revert Hrun.
  enough (wpv (svc_Jobs c page pageSize scope userId status) (fun r _ => forall ji, ji ∈ r.1 ->
    (exists j, j ∈ rows (jobs (w_db w)) /\ ji = jobToPb j (canViewUserDetail c (j_UserID j))) /\
    (ji_Error ji <> "" -> canViewUserDetail c (ji_UserId ji) = true) /\
    (isCoachOrAdmin c = false -> ji_UserId ji = GetCurrentUserId c \/ ji_RequesterId ji = GetCurrentUserId c)) w)
    as Hw by (intros Hrun; exact (Hw _ _ Hrun)).
  unfold svc_Jobs. destruct c as [pd|]; [|apply wpv_throw]. repeat wpv_step.
  intros ji (j & -> & Hj)%list_elem_of_fmap.
  apply elem_of_limit_rows, elem_of_offset_rows in Hj. rewrite merge_sort_Permutation in Hj.
  apply elem_of_select in Hj as (Hin & _ & Hp). simpl in Hin. split; [by exists j|]. split.
  - unfold jobToPb. cbn [ji_Error ji_UserId]. destruct (canViewUserDetail (Some pd) (j_UserID j)); [done|]. by intros [].
  - intros Hc. rewrite Hc in H. bool_cases. unfold jobs_scope in H0. rewrite andb_true_r in H. bool_cases.
    rewrite decide_False in H0 by done. apply orb_true_iff in H0 as [?|?]; bool_cases; auto.
Qed.

Lemma listed_jobs_private_witness :
  exists l total w', svc_Jobs (sample_ctx 7 0) 1 20 "" 0 "" (world_of sample_core) = (Val (l, total), w') /\
  forall ji, ji ∈ l ->
    (exists j, j ∈ rows (jobs sample_core) /\ ji = jobToPb j (canViewUserDetail (sample_ctx 7 0) (j_UserID j))) /\
    (ji_Error ji <> "" -> canViewUserDetail (sample_ctx 7 0) (ji_UserId ji) = true) /\
    (isCoachOrAdmin (sample_ctx 7 0) = false -> ji_UserId ji = 7 \/ ji_RequesterId ji = 7).
Proof.
  eexists _, _, _. split; [vm_compute; reflexivity|].
  eapply (listed_jobs_private (sample_ctx 7 0) 1 20 "" 0 "" (world_of sample_core)).
  vm_compute. reflexivity.
Defined.

(** A manual refresh of a platform other than CodeForces is refused, and nothing is
    queued, when the limiter of that user and platform granted one within its
    interval - for any limiter that keeps its documented promise. *)
Theorem manual_refresh_limited `{RateLimit} (c : ctx) (userId : Z) (platform header : string)
    (interval g : Z) (l : list Z) (w : world core_db) :
  trim_space platform <> "" -> isCodeforcesPlatform (trim_space platform) = false ->
  limiters (w_db w) !! update_key userId (trim_space platform) = Some (interval, g :: l) ->
  0 <= w_clock w (w_calls w) - g < interval ->
  let r := svc_SpiderUpdate c userId platform header w in
  r.1 = Exn RateLimitError /\ jobs (w_db r.2) = jobs (w_db w) /\
  spider_queue (w_db r.2) = spider_queue (w_db w).
Proof.
  intros Hne Hcf Hl Hg. unfold svc_SpiderUpdate. cbn zeta. destruct (decide (trim_space platform = "")) as [|_]; [done|]. rewrite Hcf.
  unfold mbind, M_bind, allow_request, now. simpl. rewrite Hl. simpl.
  by rewrite (allow_spaced interval g l) by done.
Qed.

Lemma manual_refresh_limited_witness :
  let w := (svc_SpiderUpdate (sample_ctx 8 0) 8 "QOJ" "" (world_of sample_core)).2 in
  (svc_SpiderUpdate (sample_ctx 8 0) 8 "QOJ" "" w).1 = Exn RateLimitError.
Proof.
  cbv zeta.
  apply (manual_refresh_limited (sample_ctx 8 0) 8 "QOJ" "" (60 * second) 0 []
    (svc_SpiderUpdate (sample_ctx 8 0) 8 "QOJ" "" (world_of sample_core)).2);
    [vm_compute; discriminate | vm_compute; reflexivity.. | vm_compute; split; [discriminate | reflexivity]].
Defined.
