(* ===== verification/ContestProps.v ===== *)
(** The properties of contests, their rankings and the pages of the judges, with
    instances on concrete data. *)
From S2P Require Export ReplyTheory PlatformTheory CoreProps.

#[local] Arguments wrap_int32 : simpl never.
#[local] Arguments IsAcceptedStatus : simpl never.

(** ** Sample contest *)

(** Contest 100 of NowCoder: an hour, problems A and B, users 7 and 8. *)
Definition at_minute (m : Z) : Z := 1000000 * second + m * minute.
Definition sent (id uid : Z) (problem status : string) (m : Z) : SubmitLog :=
  Submission id NowCoder uid (pretty id) "100" problem "C++" status (at_minute m).
Definition official (index title : string) : contestProblemMeta :=
  ProblemMeta title index title "" (nowCoderProblemAliases index title).
Definition sample_window : window := Window (at_minute 0) (at_minute 60) true.
Definition sample_problems : list contestProblemMeta := [official "A" "Sum"; official "B" "Tree"].
Definition sample_sent : list SubmitLog :=
  [sent 1 7 "Sum" "WA" 2; sent 2 7 "Sum" "AC" 5; sent 3 8 "Tree" "WA" 7; sent 4 8 "Tree" "AC" 70].

Lemma by_time_check l :
  StronglySorted Z.le (map s_Time l) -> by_time l.
Proof.
  induction l as [|x l IH]; intros Hs; [constructor|].
  change (StronglySorted Z.le (s_Time x :: map s_Time l)) in Hs. apply StronglySorted_inv in Hs as [Hs Hx].
  constructor; [by apply IH|]. by rewrite Forall_map in Hx.
Qed.

Ltac sorted_times := apply by_time_check; vm_compute;
  repeat first [apply SSorted_nil | apply SSorted_cons | apply Forall_nil | apply Forall_cons; split | exact I | discriminate].

(** ** The matrix *)

(** Whether a user solved a problem in the contest, tried it there, or solved it only
    afterwards, from the submissions that count for the column. *)
Definition counted (problems : list contestProblemMeta) (k : string) (u : Z) (p : SubmitLog -> bool)
    (submissions : list SubmitLog) : bool :=
  existsb (fun s => counts_for problems u k s && p s) submissions.
Definition solved_in (wi : window) problems k submissions (u : Z) : bool :=
  counted problems k u (fun s => in_contest wi (s_Time s) && accepted_sub s) submissions.
Definition tried_in (wi : window) problems k submissions (u : Z) : bool :=
  counted problems k u (fun s => in_contest wi (s_Time s)) submissions.
Definition solved_after (wi : window) problems k submissions (u : Z) : bool :=
  negb (solved_in wi problems k submissions u)
  && counted problems k u (fun s => after_contest wi (s_Time s) && accepted_sub s) submissions.

Lemma existsb_where_and {A} (p q : A -> bool) l : existsb p (where_ q l) = existsb (fun x => q x && p x) l.
Proof. induction l as [|x l IH]; simpl; [done|]. destruct (q x); simpl; by rewrite IH. Qed.

Lemma some_where_and {A} (q : A -> bool) l :
  match where_ q l with [] => false | _ => true end = existsb q l.
Proof. induction l as [|x l IH]; simpl; [done|]. by destruct (q x). Qed.

Lemma count_where_same {A} (p q : A -> bool) l : (forall x, p x = q x) -> count_where p l = count_where q l.
Proof. intros Hpq. unfold count_where. by rewrite (where_ext p q). Qed.

Lemma cell_flags wi problems k submissions u :
  let c := cell_of wi (where_ (counts_for problems u k) submissions) in
  us_hasContestAC c = solved_in wi problems k submissions u /\
  us_hasContestSubmit c = tried_in wi problems k submissions u /\
  us_upsolveAC c = solved_after wi problems k submissions u.
Proof.
  unfold cell_of, solved_after, solved_in, tried_in, counted. cbn zeta. simpl.
  rewrite !existsb_where_and, !where_where, some_where_and. by split_and!.
Qed.

(** C15: in the matrix of a contest, made from submissions in the order of their times,
    every user of the page has a row with one cell per column, and a cell says what
    that user's submissions for that column say: accepted in the contest when one was,
    then with the minute of the first and the rejected ones before it; solved
    afterwards only when not solved in the contest; failed when only tried.  The three
    numbers of a column count the participants for whom that is so. *)
Theorem matrix_meaning (wi : window) (problems : list contestProblemMeta)
    (submissions : list SubmitLog) (pageUserIDs allUserIDs : list Z) :
  by_time submissions -> NoDup (map pm_Key problems) ->
  let c := calculateContestProblemMatrix wi problems submissions pageUserIDs allUserIDs in
  (forall u : Z, u ∈ pageUserIDs -> exists cells : list ProblemResult,
     ca_resultsByUser c !! u = Some cells /\ map pr_ProblemKey cells = map pm_Key problems /\
     forall cell, cell ∈ cells ->
       cell_spec wi (where_ (counts_for problems u (pr_ProblemKey cell)) submissions) cell) /\
  (forall k, k ∈ map pm_Key problems -> default no_stat (ca_problemStats c !! k) = ColumnStat
     (count_where (solved_in wi problems k submissions) allUserIDs)
     (count_where (tried_in wi problems k submissions) allUserIDs)
     (count_where (solved_after wi problems k submissions) allUserIDs)).
Proof.
  intros Ht Hnd c. split.
  - intros u Hu. exists (row (record_submissions wi problems submissions) problems u).
    split_and!; [by apply results_lookup | apply row_keys |].
    intros cell (p & -> & Hp)%list_elem_of_fmap. apply cell_of_spec.
    apply (record_submissions_cell wi problems submissions u (pm_Key p)); [done|by apply list_elem_of_fmap_2].
  - intros k Hk. unfold c, calculateContestProblemMatrix. cbn [ca_problemStats].
    pose proof (count_totals_column (record_submissions wi problems submissions) problems k allUserIDs Hnd Hk) as Hs.
    unfold stat_at in Hs. rewrite Hs. unfold column_total.
    f_equal; apply count_where_same; intros u; rewrite record_submissions_cell by done; apply cell_flags.
Qed.

Lemma matrix_meaning_witness :
  let c := calculateContestProblemMatrix sample_window sample_problems sample_sent [7; 8] [7; 8] in
  ca_resultsByUser c !! 7 =
    Some [ProblemCell "Sum" "contest_ac" 5 1 1 false; ProblemCell "Tree" "none" 0 0 0 false] /\
  ca_resultsByUser c !! 8 =
    Some [ProblemCell "Sum" "none" 0 0 0 false; ProblemCell "Tree" "upsolve_ac" 0 1 1 true] /\
  (forall k, k ∈ map pm_Key sample_problems -> default no_stat (ca_problemStats c !! k) = ColumnStat
     (count_where (solved_in sample_window sample_problems k sample_sent) [7; 8])
     (count_where (tried_in sample_window sample_problems k sample_sent) [7; 8])
     (count_where (solved_after sample_window sample_problems k sample_sent) [7; 8])).
Proof.
  cbv zeta. split_and!; [vm_compute; reflexivity.. |].
  refine (proj2 (matrix_meaning sample_window sample_problems sample_sent [7; 8] [7; 8] _ _));
    [sorted_times | apply (bool_decide_unpack _); vm_compute; exact I].
Defined.

(** ** Columns *)



(** The names under which a judge reports a problem are registered with the column,
    yet a submission under such a name is not counted there: the columns are made before
    the names are looked at, so it has a column of its own, which takes the name over.
    With the official columns alone, the same submission counts where it should. *)
Theorem alias_splits_column :
  let mine := [sent 1 7 "A Sum" "AC" 5] in
  let problems := normalizeContestProblems NowCoder "100" sample_problems mine in
  "A Sum" ∈ pm_Aliases (official "A" "Sum") /\
  problem_keys problems = ["Sum"; "Tree"; "A Sum"] /\
  ca_resultsByUser (calculateContestProblemMatrix sample_window problems mine [7] [7]) !! 7 =
    Some [ProblemCell "Sum" "none" 0 0 0 false; ProblemCell "Tree" "none" 0 0 0 false;
          ProblemCell "A Sum" "contest_ac" 5 0 0 false] /\
  ca_resultsByUser (calculateContestProblemMatrix sample_window sample_problems mine [7] [7]) !! 7 =
    Some [ProblemCell "Sum" "contest_ac" 5 0 0 false; ProblemCell "Tree" "none" 0 0 0 false].
Proof.
  cbv zeta. split_and!; [|vm_compute; reflexivity..]. apply (bool_decide_unpack _). vm_compute. exact I.
Qed.

(** C20: the columns made up for a NowCoder contest without a problem list: when the
    submissions leave no more than 26 of them to add, there are exactly as many as the
    contest has; when they leave more, the loop that adds them never ends. *)
Theorem synthesis_ends_iff (contestID : string) (total : Z) (submissions : list SubmitLog) :
  0 < total ->
  (forall s i, s ∈ submissions -> trim_space (s_Problem s) <> synthesized_key contestID (letter i)) ->
  let n := length (co_problems (submitted_columns contestID (Z.to_nat total) submissions)) in
  (total <= Z.of_nat n + 26 -> exists l,
     synthesizeNowCoderProblems (Z.to_nat total) contestID total submissions = Some l /\
     Z.of_nat (length l) = total) /\
  (Z.of_nat n + 26 < total -> forall fuel,
     synthesizeNowCoderProblems fuel contestID total submissions = None).
Proof. apply synthesize_ends. Qed.

Lemma synthesis_ends_iff_witness :
  (exists l, synthesizeNowCoderProblems 26 "100" 26 [] = Some l /\ Z.of_nat (length l) = 26) /\
  forall fuel, synthesizeNowCoderProblems fuel "100" 27 [] = None.
Proof.
  split.
  - apply (synthesis_ends_iff "100" 26 []); [lia | intros s i Hs; by apply not_elem_of_nil in Hs | vm_compute; discriminate].
  - apply (synthesis_ends_iff "100" 27 []); [lia | intros s i Hs; by apply not_elem_of_nil in Hs | vm_compute; reflexivity].
Defined.

(** ** Rankings *)

(** C16: in every reply of the ranking that shows a matrix - whatever the judges and the
    user service answer, whichever calls fail - a row has one cell per column in the
    order of the columns, its number of solved problems is the number of cells
    accepted in the contest, and its penalty is the sum of their minutes and twenty
    minutes for each rejected attempt before, in 32 bits. *)
Theorem ranking_reply_consistent `{ContestPages, UserService} (fuel : nat) (contestRow : Z)
    (groupId : option Z) (offset limit : Z) (w w' : world core_db) (reply : RankingReply) :
  svc_GetContestRanking fuel contestRow groupId offset limit w = (Val (Some reply), w') ->
  Forall (row_consistent reply) (rr_Data reply).
Proof. intros Hrun. by apply (ranking_consistent _ _ _ _ _ _ _ _ Hrun). Qed.

(** A judge that knows contest 100 and one that gives ranks; nobody has a profile. *)
Definition sample_pages : ContestPages := {|
  AtCoderMeta _ _ := Exn (Driver "down");
  CodeforcesStandings _ _ := Exn (Driver "down");
  NowCoderMeta _ _ := Val (ContestMeta "Weekly" (at_minute 0) (at_minute 60) sample_problems);
  AtCoderHistory _ _ := Exn (Driver "down") |}.
Definition sample_users : UserService := {|
  user_dial _ := Val ();
  UserIdsByGroup _ _ := Val [7; 8];
  ProfilesByIds _ _ := Val [(7, UserInfo "Ann" "ann" "" 0)] |}.

Definition took_part (id uid rank ac : Z) : ContestLog :=
  ContestRow id NowCoder uid "100" "Weekly" "" rank 2 ac (at_minute 0) zero_time.
Definition sample_contests : core_db :=
  CoreDb (Table [] 1) (Table [] 1) (Table [] 1) (Table sample_sent 5)
    (Table [took_part 1 7 2 1; took_part 2 8 1 1] 3) (Table [] 1) (Table [] 1) (Table [] 1) [] ∅ zero_time.

Lemma ranking_reply_consistent_witness :
  exists reply w', @svc_GetContestRanking sample_pages sample_users 10 1 None 0 20 (world_of sample_contests)
    = (Val (Some reply), w') /\
  map (fun r => (rk_UserId r, rk_AcCount r, rk_Penalty r)) (rr_Data reply) = [(8, 0, 0); (7, 1, 25)] /\
  Forall (row_consistent reply) (rr_Data reply).
Proof.
  eexists _, _. split_and!; [vm_compute; reflexivity | vm_compute; reflexivity |].
  eapply (@ranking_reply_consistent sample_pages sample_users 10 1 None 0 20 (world_of sample_contests)).
  vm_compute. reflexivity.
Defined.



(** ** What the judges are asked for *)

(** C19: the scraper of AtCoder ends, and has collected every submission of a user once and
    in order, when the archive serves them by time in pages of 500, with distinct numbers
    and never 500 of them in one second; one more page than there are submissions is
    enough. *)
Theorem atcoder_collects_all (fetch : Z -> nat -> fetch_error + list atcJson) (username : string)
    (rows : list atcJson) (fuel : nat) (t : Z) (n : nat) :
  archive fetch rows -> trim_space username <> "" ->
  Forall (fun r => 0 <= at_EpochSecond r) rows -> (length rows < fuel)%nat ->
  fetchAtCoderRows fetch username fuel true t n = Some (inr rows).
Proof. apply atcoder_fetch_complete. Qed.

Definition atc (id t : Z) : atcJson := AtcRow id t "abc100_a" "abc100" "C++" "AC".
Definition sample_archive : list atcJson := [atc 5 10; atc 3 10; atc 4 12].

Lemma atcoder_collects_all_witness :
  fetchAtCoderRows (fun from _ => inr (take atCoderPageSize
    (where_ (fun r => from <=? at_EpochSecond r) sample_archive))) "ann" 4 true 0 0 = Some (inr sample_archive).
Proof.
  apply (atcoder_collects_all _ "ann" sample_archive 4 0 0).
  - split; [by intros from n | | |].
    + repeat first [apply SSorted_nil | apply SSorted_cons | apply Forall_nil | apply Forall_cons; split |
        vm_compute; discriminate | exact I].
    + apply (bool_decide_unpack _). vm_compute. exact I.
    + intros t. unfold where_. eapply Nat.le_lt_trans; [apply filter_length_le|]. vm_compute. lia.
  - vm_compute. discriminate.
  - repeat first [apply Forall_nil | apply Forall_cons; split | vm_compute; discriminate | exact I].
  - simpl. lia.
Defined.

(** The scraper of Codeforces ends with every submission of a user, in order, when the
    API serves the pages of one list and answers each request after at most four
    passing failures. *)
Theorem codeforces_collects_all (once : nat -> nat -> fetch_error + list cfJson) (rows : list cfJson)
    (userId : Z) (username : string) (n fuel : nat) :
  serves_pages once rows -> trim_space username <> "" ->
  (length rows < fuel * codeforcesPageSize)%nat ->
  cf_FetchSubmitLog once fuel userId username true n =
    Some (inr (codeforcesRowsToSubmitLogs userId rows)).
Proof. apply cf_fetch_complete. Qed.

(** A server that answers every other request. *)
Definition sample_cf : list cfJson :=
  [CfRow 9 100 (StandingsProblem 100 "" "A" "Sum") "C++" "OK" 50].
Definition flaky (from n : nat) : fetch_error + list cfJson :=
  if Nat.even n then inl (APIError 503 "try again") else inr (cf_page sample_cf from).

Lemma codeforces_collects_all_witness :
  cf_FetchSubmitLog flaky 1 7 "ann" true 0 = Some (inr (codeforcesRowsToSubmitLogs 7 sample_cf)).
Proof.
  apply codeforces_collects_all; [|vm_compute; discriminate|unfold codeforcesPageSize; simpl; lia].
  intros from n. unfold flaky. destruct (Nat.even n) eqn:He.
  - exists 1%nat. split; [unfold codeforcesMaxPageAttempts; lia|]. split.
    + by rewrite Nat.add_1_r, Nat.even_succ, <- Nat.negb_even, He.
    + intros j Hj. replace j with 0%nat by lia. rewrite Nat.add_0_r, He. eexists. split; reflexivity.
  - exists 0%nat. split; [unfold codeforcesMaxPageAttempts; lia|]. split; [by rewrite Nat.add_0_r, He|]. lia.
Defined.

(** ** What is stored of contests *)

(** The index of the table: one row per contest number and user. *)
Definition contests_unique (t : table ContestLog) : Prop :=
  forall x y, x ∈ rows t -> y ∈ rows t -> same_contest x y = true -> x = y.

Lemma same_contest_iff x y : same_contest x y = true <-> c_ContestId x = c_ContestId y /\ c_UserID x = c_UserID y.
Proof. unfold same_contest. rewrite andb_true_iff, !bool_decide_eq_true. done. Qed.

Lemma insert_contest_unique t x : contests_unique t -> contests_unique (insert_contest t x).
Proof.
  intros Ht. unfold insert_contest. case_match eqn:He; [done|]. intros y z Hy Hz. simpl in *.
  assert (forall y, y ∈ rows t -> same_contest x y = false) as Hnew.
  { intros y' Hy'. destruct (same_contest x y') eqn:E; [|done].
    rewrite <- He. symmetry. apply existsb_exists. exists y'. by rewrite <- list_elem_of_In. }
  apply elem_of_app in Hy as [Hy|Hy%list_elem_of_singleton], Hz as [Hz|Hz%list_elem_of_singleton]; subst; [by apply Ht| | |done];
    rewrite same_contest_iff; simpl; intros [H1 H2].
  - specialize (Hnew y Hy). by rewrite (proj2 (same_contest_iff x y)) in Hnew.
  - specialize (Hnew z Hz). by rewrite (proj2 (same_contest_iff x z)) in Hnew.
Qed.

Lemma insert_contest_keeps t x r : r ∈ rows t -> r ∈ rows (insert_contest t x).
Proof. intros Hr. unfold insert_contest. case_match; simpl; [done|]. apply elem_of_app. by left. Qed.

(** A stored row, in a table with its index. *)
Definition stored (r : ContestLog) (d : core_db) : Prop :=
  contests_unique (contests d) /\ r ∈ rows (contests d).

Lemma stored_save r xs : keeps (stored r) (save_contests xs).
Proof.
  unfold save_contests. apply keeps_for_each. intros b. apply keeps_exec. intros d Hd.
  enough (forall t, contests_unique t /\ r ∈ rows t ->
    contests_unique (foldl insert_contest t b) /\ r ∈ rows (foldl insert_contest t b)) as Hf by by apply Hf.
  induction b as [|x b IH]; intros t [H1 H2]; [done|]. apply IH.
  split; [by apply insert_contest_unique | by apply insert_contest_keeps].
Qed.

Lemma stored_remove r u plat :
  contests_of u plat r = false -> keeps (stored r) (remove_where (contests_of u plat)).
Proof.
  intros Hr. apply keeps_exec. intros d [Hu Hd]. split; simpl.
  - intros x y [Hx _]%elem_of_where [Hy _]%elem_of_where. by apply Hu.
  - apply elem_of_where. split; [done|]. unfold visible. simpl. by rewrite Hr.
Qed.

Lemma stored_rollback r d d' : stored r d -> stored r (rollback d d').
Proof. done. Qed.
#[local] Hint Resolve stored_save stored_rollback : keeps.

(** A contest is stored under its number and user alone.  A row that is there for
    another platform - or under another spelling of it, as Codeforces' scraper writes
    "Codeforces" for the platform "CodeForces" - stays as it is through every refresh,
    full or not, and is the only row of that number and user afterwards, whatever the
    platform returned. *)
Theorem foreign_contest_stays `{Fetchers} (userId : Z) (plat : Platform) (needAll : bool)
    (r : ContestLog) (w : world core_db) :
  contests_unique (contests (w_db w)) -> r ∈ rows (contests (w_db w)) ->
  c_Platform r <> p_Platform plat ->
  let d := w_db (fetchAndSaveContest userId plat needAll w).2 in
  r ∈ rows (contests d) /\ forall c, c ∈ rows (contests d) -> same_contest c r = true -> c = r.
Proof.
  intros Hu Hr Hp. cbv zeta.
  enough (keeps (stored r) (fetchAndSaveContest userId plat needAll)) as Hk.
  { destruct (Hk w) as [Hu' Hr']; [done|]. split; [done|]. intros c Hc. by apply Hu'. }
  assert (contests_of userId (p_Platform plat) r = false) as Hof.
  { unfold contests_of. rewrite andb_false_iff, !bool_decide_eq_false. by right. }
  unfold fetchAndSaveContest. repeat keeps_step; by apply stored_remove.
Qed.

(** Codeforces returns the user's contest 2217 again, now rated. *)
Definition rated (rank : Z) : ContestLog :=
  ContestRow 0 "Codeforces" 7 "2217" "Round" "" rank 6 3 (at_minute 0) zero_time.
Definition codeforces_returns (l : list ContestLog) : Fetchers :=
  {| registered _ := true; fetches_submits _ := true; fetches_contests _ := true;
     FetchSubmitLog _ _ _ _ _ := Val []; FetchContestLog _ _ _ _ _ := Val l |}.
Definition with_contests (l : list ContestLog) : core_db :=
  CoreDb (Table [] 1) (Table [] 1) (Table [] 1) (Table [] 1)
    (Table l (Z.of_nat (length l) + 1)) (Table [] 1) (Table [] 1) (Table [] 1) [] ∅ zero_time.

Lemma foreign_contest_stays_witness :
  let plat := PlatformRow 1 7 CodeForces "ann" in
  let first := (@fetchAndSaveContest (codeforces_returns [rated 0]) 7 plat true (world_of (with_contests []))).2 in
  let again := (@fetchAndSaveContest (codeforces_returns [rated 12]) 7 plat true first) in
  again.1 = Val () /\ map c_Rank (rows (contests (w_db again.2))) = [0] /\
  contest_with_id (rated 0) 1 ∈ rows (contests (w_db again.2)).
Proof.
  cbv zeta. split_and!; [vm_compute; reflexivity | vm_compute; reflexivity|].
  refine (proj1 (@foreign_contest_stays (codeforces_returns [rated 12]) 7 (PlatformRow 1 7 CodeForces "ann") true
    (contest_with_id (rated 0) 1)
    (@fetchAndSaveContest (codeforces_returns [rated 0]) 7 (PlatformRow 1 7 CodeForces "ann") true (world_of (with_contests []))).2 _ _ _)).
  - intros x y Hx Hy _. vm_compute in Hx, Hy.
    apply list_elem_of_singleton in Hx as ->. apply list_elem_of_singleton in Hy as ->. reflexivity.
  - apply list_elem_of_In. vm_compute. by left.
  - vm_compute. discriminate.
Defined.
