(* ===== verification/BulletinService.v ===== *)
(** Bulletins: [data/dal/bulletin.go] and [service/bulletin.go]. *)
From S2P Require Export CoreData.

(** ** Rows *)

(** [Order("is_pinned DESC, created_at DESC")] *)
Definition pinned_first : relation Bulletin := fun a b =>
  (bu_IsPinned a = true /\ bu_IsPinned b = false)
  \/ (bu_IsPinned a = bu_IsPinned b /\ bu_CreatedAt b <= bu_CreatedAt a).
#[export] Instance pinned_first_dec a b : Decision (pinned_first a b).
Proof. unfold pinned_first. apply _. Defined.

Definition bulletin_Create (title content : string) (author : Z) (name : string) (pinned : bool)
    : CM Bulletin :=
  t ← now;
  create (fun id => BulletinRow id title content author name pinned t t).

(** [Updates] with a map: [None] for a key that is not in it. *)
Definition bulletin_set (title content : option string) (pinned : bool) (t : Z) (b : Bulletin) : Bulletin :=
  BulletinRow (bu_ID b) (default (bu_Title b) title) (default (bu_Content b) content) (bu_AuthorID b)
    (bu_AuthorName b) pinned (bu_CreatedAt b) t.
Definition bulletin_Update (id : Z) (title content : option string) (pinned : bool) : CM () :=
  t ← now;
  update_where (by_id id) (bulletin_set title content pinned t);;
  mret ().

Definition bulletin_Delete (id : Z) : CM () := remove_where (R := Bulletin) (by_id id);; mret ().
Definition bulletin_GetById (id : Z) : CM Bulletin := first_by (by_id id).

Definition bulletin_List (page pageSize : Z) : CM (list Bulletin * Z) :=
  total ← count_rows (R := Bulletin) (fun _ => true);
  rows ← find_page (R := Bulletin) (fun _ => true) pinned_first pageSize
           (wrap_int64 (wrap_int64 (page - 1) * pageSize));
  mret (rows, total).

(** ** Replies *)

Record BulletinInfo := BulletinPb {
  bi_Id : Z; bi_Title : string; bi_Content : string; bi_AuthorId : Z; bi_AuthorName : string;
  bi_IsPinned : bool; bi_CreatedAt : Z; bi_UpdatedAt : Z }.

Definition modelToProto (m : Bulletin) : BulletinInfo :=
  BulletinPb (bu_ID m) (bu_Title m) (bu_Content m) (bu_AuthorID m) (bu_AuthorName m)
    (bu_IsPinned m) (time_unix (bu_CreatedAt m)) (time_unix (bu_UpdatedAt m)).

(** A reply with its code; refusals are replies as well. *)
Record BulletinRes := BulletinReply {
  br_Code : Z; br_Message : string; br_Data : option BulletinInfo }.
Definition refusal (code : Z) (message : string) : BulletinRes := BulletinReply code message None.

Record ListBulletinRes := BulletinPage {
  bl_Data : list BulletinInfo; bl_Total : Z; bl_Page : Z; bl_PageSize : Z }.

(** ** Handlers *)

Definition svc_CreateBulletin (c : ctx) (title content : string) (pinned : bool) : CM BulletinRes :=
  if negb (VerifyMinRole c RoleCoach) then mret (refusal 1 "权限不足，仅教练和管理员可发布公告")
  else if decide (title = "") then mret (refusal 2 "标题不能为空")
  else if decide (content = "") then mret (refusal 3 "内容不能为空")
  else match GetCurrentUser c with
  | None => mret (refusal 1 "未获取到用户信息")
  | Some user =>
      m ← map_err (fun e => InternalServer "创建失败" (error_text e))
        (bulletin_Create title content (wrap_int64 (jwt_UserID user)) (jwt_Name user) pinned);
      mret (BulletinReply 0 "success" (Some (modelToProto m)))
  end.

(** [if err == gorm.ErrRecordNotFound { .. }] *)
Definition found_or {A} (missing : A) (r : outcome Bulletin) (f : Bulletin -> CM A) : CM A :=
  match r with
  | Val b => f b
  | Exn e => if decide (e = RecordNotFound) then mret missing
             else throw (InternalServer "查询失败" (error_text e))
  end.

Definition svc_UpdateBulletin (c : ctx) (id : Z) (title content : string) (pinned : bool) : CM BulletinRes :=
  if negb (VerifyMinRole c RoleCoach) then mret (refusal 1 "权限不足")
  else
    r ← attempt (bulletin_GetById id);
    found_or (refusal 2 "公告不存在") r (fun _ =>
      let title := if decide (title = "") then None else Some title in
      let content := if decide (content = "") then None else Some content in
      map_err (fun e => InternalServer "更新失败" (error_text e)) (bulletin_Update id title content pinned);;
      updated ← map_err (fun e => InternalServer "查询失败" (error_text e)) (bulletin_GetById id);
      mret (BulletinReply 0 "success" (Some (modelToProto updated)))).

Definition svc_DeleteBulletin (c : ctx) (id : Z) : CM BulletinRes :=
  if negb (VerifyMinRole c RoleCoach) then mret (refusal 1 "权限不足")
  else
    r ← attempt (bulletin_GetById id);
    found_or (refusal 2 "公告不存在") r (fun _ =>
      map_err (fun e => InternalServer "删除失败" (error_text e)) (bulletin_Delete id);;
      mret (BulletinReply 0 "success" None)).

Definition svc_GetBulletin (id : Z) : CM BulletinRes :=
  r ← attempt (bulletin_GetById id);
  found_or (refusal 2 "公告不存在") r (fun m =>
    mret (BulletinReply 0 "success" (Some (modelToProto m)))).

Definition svc_ListBulletins (page pageSize : Z) : CM ListBulletinRes :=
  let page := if page <? 1 then 1 else page in
  let pageSize := if pageSize <? 1 then 10 else pageSize in
  let pageSize := if 50 <? pageSize then 50 else pageSize in
  r ← map_err (fun e => InternalServer "查询失败" (error_text e)) (bulletin_List page pageSize);
  mret (BulletinPage (map modelToProto r.1) r.2 page pageSize).
