(* ===== verification/SnapshotService.v ===== *)
(** The housekeeping part of [service/statistic_ops.go]: snapshots of generated
    reports, clearing of the statistics cache, and the audit log. *)
From S2P Require Export SpiderService.

(** ** Snapshots *)

Definition featureSnapshotRetention : Z := 30 * 24 * hour.
Definition featureSnapshotCleanupInterval : Z := hour.
Definition featureSnapshotMaxRows : Z := 5000.
Definition featureSnapshotKeepRows : Z := 3000.

(** [user_id > 0 AND kind IN ?] *)
Definition user_snapshot (s : FeatureSnapshot) : bool :=
  bool_decide (0 < fs_UserID s) && bool_decide (fs_Kind s ∈ ["weekly_report"; "achievement"]).

(** [featureSnapshotLastCleanup] is read and written under a mutex. *)
Definition cleanup_due (t : Z) : CM bool := fun w =>
  if time_sub t (last_cleanup (w_db w)) <? featureSnapshotCleanupInterval then (Val false, w)
  else (Val true, set_db (set_last_cleanup t (w_db w)) w).

Definition affected (r : outcome Z) : Z := match r with Val n => n | Exn _ => 0 end.

(** The oldest snapshots beyond the number to keep; their number. *)
Definition delete_overflow (totalRows : Z) : CM Z :=
  if totalRows <=? featureSnapshotMaxRows then mret 0
  else
    let overflow := totalRows - featureSnapshotKeepRows in
    if overflow <=? 0 then mret 0
    else
      r ← attempt (query (fun d => map fs_ID (limit_rows overflow
            (merge_sort (asc_by fs_GeneratedAt) (select user_snapshot (snapshots d))))));
      match r with
      | Val ((_ :: _) as ids) =>
          n ← attempt (remove_where (R := FeatureSnapshot) (fun s => bool_decide (fs_ID s ∈ ids)));
          mret (affected n)
      | _ => mret 0
      end.

Definition cleanupExpiredFeatureSnapshots (c : ctx) : CM () :=
  t ← now;
  due ← cleanup_due t;
  if negb due then mret ()
  else
    let cutoff := t - featureSnapshotRetention in
    expired ← attempt (remove_where (R := FeatureSnapshot)
      (fun s => user_snapshot s && bool_decide (fs_GeneratedAt s < cutoff)));
    let deletedExpired := affected expired in
    total ← attempt (count_rows user_snapshot);
    match total with
    | Exn _ => mret ()
    | Val totalRows =>
        deletedOverflow ← delete_overflow totalRows;
        if (0 <? deletedExpired) || (0 <? deletedOverflow)
        then recordCoreOperation c "snapshot.cleanup" "feature_snapshot" 0
               [("retentionDays", JInt 30); ("maxRows", JInt featureSnapshotMaxRows);
                ("keepRows", JInt featureSnapshotKeepRows); ("deletedExpired", JInt deletedExpired);
                ("deletedOverflow", JInt deletedOverflow)]
        else mret ()
    end.

Definition normalizeSnapshotKind (kind : string) : outcome string :=
  let kind := trim_space kind in
  if decide (kind ∈ ["weekly_report"; "achievement"]) then Val kind
  else Exn (BadRequest "参数错误" "不支持的快照类型").

Record FeatureSnapshotResponse := SnapshotReply {
  sr_Message : string; sr_UserID : Z; sr_Kind : string; sr_SourceHash : string;
  sr_Payload : string; sr_Exists : bool; sr_Stale : bool; sr_GeneratedAt : Z }.

Record SaveFeatureSnapshotRequest := SaveSnapshot {
  sq_UserID : Z; sq_Kind : string; sq_SourceHash : string; sq_Payload : string }.

Definition snapshot_of (userId : Z) (kind : string) (s : FeatureSnapshot) : bool :=
  bool_decide (fs_UserID s = userId) && bool_decide (fs_Kind s = kind).

(** What the code relies on of a [jsonb] column: it takes a JSON text or refuses it,
    and what it gives back is a JSON text that it takes as it is. *)
Class Jsonb := {
  jsonb_in : string -> option string;
  jsonb_valid s t : jsonb_in s = Some t -> json_valid t = true;
  jsonb_again s t : jsonb_in s = Some t -> jsonb_in t = Some t
}.

(** The columns of [Assign]: those of the struct that are not zero. *)
Definition snapshot_assign (hash payload : string) (t : Z) (s : FeatureSnapshot) : FeatureSnapshot :=
  SnapshotRow (fs_ID s) (fs_UserID s) (fs_Kind s) (if decide (hash = "") then fs_SourceHash s else hash)
    payload t.

Section snapshots.
Context `{Jsonb}.

(** [Where(..).Assign(..).FirstOrCreate(&snapshot)] *)
Definition assign_or_create (userId : Z) (kind hash payload : string) (t : Z) : CM () :=
  found ← query (fun d => first_match (snapshot_of userId kind) (snapshots d));
  match jsonb_in payload with
  | None => query (fun _ => ());; throw (Driver "invalid input syntax for type json")
  | Some payload =>
      match found with
      | None => create (fun id => SnapshotRow id userId kind hash payload t);; mret ()
      | Some s => update_where (by_id (fs_ID s)) (snapshot_assign hash payload t);; mret ()
      end
  end.

(** [current == nil || !canOperateUserDetail(int64(current.UserID), current.RoleID, userId)] *)
Definition may_operate (c : ctx) (userId : Z) : bool :=
  match GetCurrentUser c with
  | None => false
  | Some current => canOperateUserDetail (wrap_int64 (jwt_UserID current)) (jwt_RoleID current) userId
  end.

Definition svc_GetFeatureSnapshot (c : ctx) (userId : Z) (kind sourceHash : string)
    : CM FeatureSnapshotResponse :=
  cleanupExpiredFeatureSnapshots c;;
  refuse_if (bool_decide (userId <= 0)) (BadRequest "参数错误" "userId不能为空");;
  match normalizeSnapshotKind kind with
  | Exn e => throw e
  | Val kind =>
      refuse_if (negb (may_operate c userId)) (Forbidden "权限错误" "无权查看该用户快照");;
      r ← attempt (first_by (snapshot_of userId kind));
      match r with
      | Exn e => if is_not_found e
                 then mret (SnapshotReply "暂无快照" userId kind "" "{}" false true 0)
                 else throw e
      | Val s =>
          let stale := bool_decide (sourceHash <> "") && bool_decide (fs_SourceHash s <> sourceHash) in
          let payload := if json_valid (fs_Payload s) then fs_Payload s else "{}" in
          mret (SnapshotReply "获取快照成功" userId kind (fs_SourceHash s) payload true stale
                  (time_unix (fs_GeneratedAt s)))
      end
  end.

Definition svc_SaveFeatureSnapshot (c : ctx) (req : SaveFeatureSnapshotRequest)
    : CM FeatureSnapshotResponse :=
  cleanupExpiredFeatureSnapshots c;;
  refuse_if (bool_decide (sq_UserID req <= 0)) (BadRequest "参数错误" "userId不能为空");;
  match normalizeSnapshotKind (sq_Kind req) with
  | Exn e => throw e
  | Val kind =>
      refuse_if (negb (may_operate c (sq_UserID req))) (Forbidden "权限错误" "无权保存该用户快照");;
      let payload := trim_space (sq_Payload req) in
      let payload := if decide (payload = "" \/ payload = "null") then "{}" else payload in
      refuse_if (negb (json_valid payload)) (BadRequest "参数错误" "payload必须是JSON");;
      t ← now;
      assign_or_create (sq_UserID req) kind (trim_space (sq_SourceHash req)) payload t;;
      recordCoreOperation c "snapshot.save" "user" (sq_UserID req)
        [("kind", JString kind); ("sourceHash", JString (sq_SourceHash req))];;
      mret (SnapshotReply "保存快照成功" (sq_UserID req) kind (sq_SourceHash req) payload true false
              (time_unix t))
  end.
End snapshots.

(** ** The statistics cache *)

Definition statisticCacheKeys (userId : Z) : list string :=
  ["statistic:period:" +:+ pretty userId; "statistic:platform-period:" +:+ pretty userId;
   "core:submit_log:user:" +:+ pretty userId; "core:contest_log:user:" +:+ pretty userId;
   "statistic:period:-1"; "statistic:platform-period:-1"].

Definition statisticCachePatterns (userId : Z) : list string :=
  ["statistic:heatmap:" +:+ pretty userId +:+ ":*"; "statistic:heatmap:0:*"; "core:submit_log:detail:*";
   "core:contest_log:user:" +:+ pretty userId +:+ ":*"; "core:contest_log:detail:*"].

(** [DEL] and [UNLINK] return how many keys there were. *)
Fixpoint del_count (ks : list string) (r : gmap string redis_value) : Z :=
  match ks with
  | [] => 0
  | k :: ks => match r !! k with
               | Some _ => 1 + del_count ks (delete k r)
               | None => del_count ks r
               end
  end.
Definition del_keys (ks : list string) : CM Z :=
  r ← attempt (fun w : world core_db => let n := del_count ks (w_redis w) in
    match redis_del ks w with (Val _, w') => (Val n, w') | (Exn e, w') => (Exn e, w') end);
  mret (affected r).

(** The keys of a scan, deleted a hundred at a time. *)
Fixpoint unlink_batches (ks batch : list string) (deleted : Z) : CM Z :=
  match ks with
  | [] => match batch with
          | [] => mret deleted
          | _ => n ← del_keys batch; mret (deleted + n)
          end
  | k :: ks =>
      let batch := batch ++ [k] in
      if decide (100 <= length batch)%nat
      then n ← del_keys batch; unlink_batches ks [] (deleted + n)
      else unlink_batches ks batch deleted
  end.

Fixpoint unlink_patterns (ps : list string) (deleted : Z) : CM Z :=
  match ps with
  | [] => mret deleted
  | p :: ps =>
      r ← attempt (redis_scan p);
      deleted ← unlink_batches (match r with Val ks => ks | Exn _ => [] end) [] deleted;
      unlink_patterns ps deleted
  end.

Definition svc_ClearCache (c : ctx) (userId : Z) : CM (Z * Z) :=
  let userId := if userId <=? 0 then -1 else userId in
  match GetCurrentUser c with
  | None => throw (Forbidden "权限错误" "无权清理统计缓存")
  | Some current =>
      refuse_if (negb (canManageCoreOps (jwt_RoleID current))) (Forbidden "权限错误" "无权清理统计缓存");;
      n ← del_keys (statisticCacheKeys userId);
      deleted ← unlink_patterns (statisticCachePatterns userId) n;
      recordCoreOperation c "statistic.clear_cache" "user" userId [("deletedKeys", JInt deleted)];;
      mret (userId, deleted)
  end.

(** ** The audit log *)

Record OperationLogItem := CoreLogItem {
  oi_ID : Z; oi_OperatorID : Z; oi_OperatorRole : Z; oi_Action : string;
  oi_TargetType : string; oi_TargetID : Z; oi_Detail : string; oi_CreatedAt : Z }.

Definition operationDetailJSON (detail : string) : string :=
  if decide (trim_space detail = "") then "{}"
  else if json_valid detail then detail
  else json_object [("raw", JString detail)].

Definition core_log_item (r : core_log) : OperationLogItem :=
  CoreLogItem (cl_ID r) (cl_OperatorID r) (cl_OperatorRole r) (cl_Action r) (cl_TargetType r)
    (cl_TargetID r) (operationDetailJSON (cl_Detail r)) (time_unix (cl_CreatedAt r)).

Definition svc_CoreOperationLogs (c : ctx) (page pageSize : Z) (action : string)
    : CM (list OperationLogItem * Z) :=
  match GetCurrentUser c with
  | None => throw (Forbidden "权限错误" "无权查看操作日志")
  | Some current =>
      refuse_if (negb (canManageCoreOps (jwt_RoleID current))) (Forbidden "权限错误" "无权查看操作日志");;
      let page := if decide (page <= 0) then 1 else page in
      let pageSize := if decide (pageSize <= 0 \/ 100 < pageSize) then 30 else pageSize in
      let p := fun r => bool_decide (trim_space action = "") || bool_decide (cl_Action r = trim_space action) in
      total ← count_rows p;
      rows ← find_page p (desc_by cl_CreatedAt) pageSize (wrap_int64 (wrap_int64 (page - 1) * pageSize));
      mret (map core_log_item rows, total)
  end.
