(* ===== verification/SnapshotTheory.v ===== *)
(** What the housekeeping does: cleaning up snapshots as a function on the table,
    saving and reading a snapshot, and clearing the cache as a function on its keys. *)
From S2P Require Export SnapshotService.

(** ** Deleting by key *)

Section keyed.
Context {A K : Type} `{EqDecision K} (f : A -> K).

Definition keyed_by (ks : list K) (x : A) : bool := bool_decide (f x ∈ ks).

Lemma where_split_keys (n : nat) (l : list A) : NoDup (map f l) ->
  where_ (fun x => negb (keyed_by (map f (take n l)) x)) l = drop n l.
Proof.
  intros Hl. set (p := fun x => negb (keyed_by (map f (take n l)) x)).
  trans (where_ p (take n l ++ drop n l)); [by rewrite take_drop|]. rewrite where_app. unfold p.
  rewrite <- (take_drop n l), map_app, NoDup_app in Hl. destruct Hl as (_ & Hl & _).
  rewrite where_none, where_all; [done| |].
  - intros x Hx. unfold keyed_by. apply negb_true_iff, bool_decide_eq_false. intros Hin.
    apply (Hl _ Hin). apply list_elem_of_fmap. eauto.
  - intros x Hx. unfold keyed_by. apply negb_false_iff, bool_decide_eq_true, list_elem_of_fmap. eauto.
Qed.

Lemma where_perm (p : A -> bool) (l l' : list A) : l ≡ₚ l' -> where_ p l ≡ₚ where_ p l'.
Proof.
  induction 1 as [|x l l' _ IH|x y l|l l1 l2 _ IH1 _ IH2]; [done| | |by etrans]; simpl.
  - destruct (p x); [by constructor|done].
  - destruct (p x), (p y); done || apply Permutation_swap.
Qed.
End keyed.

(** The first of a sorted list are no larger than the rest. *)
Lemma sorted_take_drop {A} (R : relation A) n (l : list A) x y :
  StronglySorted R l -> x ∈ take n l -> y ∈ drop n l -> R x y.
Proof.
  revert n. induction l as [|z l IH]; intros [|n] Hs Hx Hy; simpl in *; try set_solver.
  inversion Hs as [|? ? Hs' Hz]; subst. apply elem_of_cons in Hx as [->|Hx]; [|by eapply IH].
  rewrite Forall_forall in Hz. apply Hz. rewrite <- (take_drop n l). set_solver.
Qed.

Lemma asc_sorted {A} (f : A -> Z) l : StronglySorted (asc_by f) (merge_sort (asc_by f) l).
Proof.
  apply StronglySorted_merge_sort; [intros x y z; unfold asc_by; lia|intros x y; unfold asc_by; lia].
Qed.

(** ** Cleaning up *)

(** The snapshots that make room: the oldest, as many as there are beyond the number
    to keep. *)
Definition oldest (n : Z) (t : table FeatureSnapshot) : list Z :=
  map fs_ID (limit_rows n (merge_sort (asc_by fs_GeneratedAt) (select user_snapshot t))).

Definition cleanup_table (now : Z) (t : table FeatureSnapshot) : table FeatureSnapshot :=
  let t := remove_match (fun s => user_snapshot s
             && bool_decide (fs_GeneratedAt s < now - featureSnapshotRetention)) t in
  let n := count_match user_snapshot t in
  if n <=? featureSnapshotMaxRows then t
  else remove_match (keyed_by fs_ID (oldest (n - featureSnapshotKeepRows) t)) t.

(** Nothing but the snapshots, the audit log and the time of the cleanup changes. *)
Definition after_cleanup (t : table FeatureSnapshot) (last : Z) (d : core_db) : Prop :=
  snapshots d = t /\ last_cleanup d = last.

Lemma wp_record c a ty id det (Q : outcome () -> world core_db -> Prop) w :
  healthy w -> (forall w', healthy w' -> w_redis w' = w_redis w -> w_clock w' = w_clock w ->
    snapshots (w_db w') = snapshots (w_db w) -> last_cleanup (w_db w') = last_cleanup (w_db w) -> Q (Val ()) w') ->
  wp (recordCoreOperation c a ty id det) Q w.
Proof.
  intros Hw HQ. unfold recordCoreOperation. wp_step. apply wp_now. wp_step. wp_step.
  by apply HQ; eauto with golang.
Qed.

Lemma remove_match_none {R} `{Entity R} (p : R -> bool) (t : table R) :
  (forall r, r ∈ rows t -> p r = false) -> remove_match p t = t.
Proof.
  intros Hp. unfold remove_match. destruct t as [l n]. f_equal. apply where_all.
  intros r Hr. apply negb_true_iff. unfold visible. by rewrite (Hp r Hr), andb_false_r.
Qed.

Lemma delete_overflow_run n w : healthy w -> n = count_match user_snapshot (snapshots (w_db w)) ->
  wp (delete_overflow n) (fun o w' => healthy w' /\ w_clock w' = w_clock w /\ (exists k, o = Val k) /\
    last_cleanup (w_db w') = last_cleanup (w_db w) /\ snapshots (w_db w') =
    if n <=? featureSnapshotMaxRows then snapshots (w_db w)
    else remove_match (keyed_by fs_ID (oldest (n - featureSnapshotKeepRows) (snapshots (w_db w)))) (snapshots (w_db w))) w.
Proof.
  intros Hw Hn. unfold delete_overflow. destruct (Z.leb_spec n featureSnapshotMaxRows) as [Hle|Hgt].
  { apply wp_ret. eauto 10. }
  destruct (Z.leb_spec (n - featureSnapshotKeepRows) 0) as [Hb|_].
  { unfold featureSnapshotKeepRows, featureSnapshotMaxRows in *. lia. }
  wp_step. wp_step. wp_step. fold (oldest (n - featureSnapshotKeepRows) (snapshots (w_db w))).
  destruct (oldest _ _) as [|i ids] eqn:E.
  - apply wp_ret. split_and!; eauto with golang.
    symmetry. apply remove_match_none. intros r _. unfold keyed_by. apply bool_decide_eq_false. set_solver.
  - wp_step. wp_step. wp_step. apply wp_ret. split_and!; eauto with golang.
Qed.

Definition due (t last : Z) : bool := negb (time_sub t last <? featureSnapshotCleanupInterval).

Lemma wp_cleanup_due t (Q : outcome bool -> world core_db -> Prop) w :
  (if due t (last_cleanup (w_db w)) then Q (Val true) (set_db (set_last_cleanup t (w_db w)) w)
   else Q (Val false) w) -> wp (cleanup_due t) Q w.
Proof. unfold wp, cleanup_due, due. by destruct (time_sub _ _ <? _). Qed.

Lemma cleanup_run c w : healthy w -> let t := w_clock w (w_calls w) in
  wp (cleanupExpiredFeatureSnapshots c) (fun o w' => o = Val () /\ healthy w' /\ w_clock w' = w_clock w /\
    snapshots (w_db w') = (if due t (last_cleanup (w_db w)) then cleanup_table t (snapshots (w_db w))
                           else snapshots (w_db w)) /\
    last_cleanup (w_db w') = if due t (last_cleanup (w_db w)) then t else last_cleanup (w_db w)) w.
Proof.
  intros Hw t. unfold cleanupExpiredFeatureSnapshots. wp_step. apply wp_now. wp_step.
  fold t. apply wp_cleanup_due. change (w_db (tick w)) with (w_db w).
  destruct (due t (last_cleanup (w_db w))); cbn beta iota delta [negb].
  2: { apply wp_ret. split_and!; eauto with golang. }
  wp_step. wp_step. wp_step. wp_step. wp_step. wp_step.
  wp_step. eapply wp_mono.
  { apply delete_overflow_run; [by eauto with golang|]. reflexivity. }
  intros o w' (Hw' & Hc & [k ->] & Hl & Hs). cbn beta iota.
  change (last_cleanup (w_db w') = t) in Hl. change (w_clock w' = w_clock w) in Hc.
  change (snapshots (w_db w') = cleanup_table t (snapshots (w_db w))) in Hs.
  destruct ((0 <? affected _) || (0 <? k)); [|apply wp_ret; split_and!; eauto with golang].
  apply wp_record; [done|]. intros w2 H1 _ H3 H4 H5. split_and!; congruence.
Qed.

(** *** What the cleanup leaves *)

Lemma elem_of_remove p (t : table FeatureSnapshot) s :
  s ∈ rows (remove_match p t) <-> s ∈ rows t /\ p s = false.
Proof. unfold remove_match. simpl. rewrite elem_of_where, negb_true_iff. done. Qed.

Lemma ids_distinct p (t : table FeatureSnapshot) : table_wf t -> NoDup (map fs_ID (select p t)).
Proof.
  intros [Hs _]. apply (sorted_where (visible p)) in Hs.
  change (NoDup (map row_id (select p t))). apply NoDup_ListNoDup.
  change (where_ (visible p) (rows t)) with (select p t) in Hs.
  induction (select p t) as [|x l IH]; simpl in *; constructor; inversion Hs as [|? ? H1 H2]; subst; [|auto].
  rewrite Forall_forall in H2. intros Hin%list_elem_of_In. specialize (H2 _ Hin). lia.
Qed.

Section cleanup.
Context (t : table FeatureSnapshot) (n : nat).
Hypothesis t_wf : table_wf t.

Definition by_age : list FeatureSnapshot := merge_sort (asc_by fs_GeneratedAt) (select user_snapshot t).

Lemma by_age_perm : by_age ≡ₚ select user_snapshot t.
Proof. apply merge_sort_Permutation. Qed.

Lemma by_age_ids : NoDup (map fs_ID by_age).
Proof. rewrite by_age_perm. by apply ids_distinct. Qed.

(** Removing the [n] oldest snapshots leaves the others. *)
Lemma remove_oldest : select user_snapshot (remove_match (keyed_by fs_ID (oldest (Z.of_nat n) t)) t)
  ≡ₚ drop n by_age.
Proof.
  assert (oldest (Z.of_nat n) t = map fs_ID (take n by_age)) as ->.
  { unfold oldest, limit_rows. rewrite decide_True by lia. by rewrite Nat2Z.id. }
  rewrite <- (where_split_keys fs_ID n by_age) by apply by_age_ids. rewrite (where_perm _ _ _ by_age_perm).
  unfold select, remove_match. simpl. rewrite !where_where. erewrite where_ext; [done|].
  intros x _. apply andb_comm.
Qed.

Lemma remove_oldest_count : count_match user_snapshot
    (remove_match (keyed_by fs_ID (oldest (Z.of_nat n) t)) t)
  = Z.of_nat (length (select user_snapshot t) - n).
Proof.
  unfold count_match, count_where. fold (select user_snapshot (remove_match (keyed_by fs_ID (oldest (Z.of_nat n) t)) t)).
  by rewrite remove_oldest, length_drop, by_age_perm.
Qed.

(** A row that is removed is a snapshot no younger than those that stay. *)
Lemma removed_is_old s : s ∈ rows t -> s ∉ rows (remove_match (keyed_by fs_ID (oldest (Z.of_nat n) t)) t) ->
  user_snapshot s = true /\ forall s', s' ∈ rows (remove_match (keyed_by fs_ID (oldest (Z.of_nat n) t)) t) ->
    user_snapshot s' = true -> fs_GeneratedAt s <= fs_GeneratedAt s'.
Proof.
  intros Hs Hgone.
  assert (s ∈ take n by_age) as Hin.
  { assert (keyed_by fs_ID (oldest (Z.of_nat n) t) s = true) as Hk.
    { destruct (keyed_by fs_ID _ s) eqn:E; [done|]. exfalso. apply Hgone. by apply elem_of_remove. }
    unfold keyed_by, oldest, limit_rows in Hk. rewrite decide_True, Nat2Z.id in Hk by lia.
    apply bool_decide_eq_true, list_elem_of_fmap in Hk as (s2 & He & Hs2).
    assert (s2 ∈ rows t) as Hs2'.
    { apply (elem_of_take _ n) in Hs2 as (i & Hi & _). apply list_elem_of_lookup_2 in Hi.
      change (s2 ∈ by_age) in Hi. rewrite by_age_perm, elem_of_select in Hi. tauto. }
    by rewrite (table_wf_unique t s s2 t_wf Hs Hs2' He). }
  split.
  - assert (s ∈ by_age) as Hb by (rewrite <- (take_drop n by_age); set_solver).
    rewrite by_age_perm, elem_of_select in Hb. tauto.
  - intros s' Hs' Hu. apply (sorted_take_drop (asc_by fs_GeneratedAt) n by_age s s'); [apply asc_sorted|done|].
    rewrite <- remove_oldest, elem_of_select. done.
Qed.
End cleanup.

Definition outdated (now : Z) (s : FeatureSnapshot) : bool :=
  user_snapshot s && bool_decide (fs_GeneratedAt s < now - featureSnapshotRetention).

(** What a cleanup leaves: a bounded number of snapshots; whatever it removes is a
    snapshot that is outdated, or beyond the number to keep and no younger than any
    that stays. *)
Lemma cleanup_table_spec now t : table_wf t -> let t' := cleanup_table now t in
  count_match user_snapshot t' <= featureSnapshotMaxRows /\
  (forall s, s ∈ rows t' -> s ∈ rows t /\ outdated now s = false) /\
  (forall s, s ∈ rows t -> s ∉ rows t' -> user_snapshot s = true /\
     (outdated now s = true \/ (count_match user_snapshot t' = featureSnapshotKeepRows /\
        forall s', s' ∈ rows t' -> user_snapshot s' = true -> fs_GeneratedAt s <= fs_GeneratedAt s'))).
Proof.
  intros Hwf. unfold cleanup_table. fold (outdated now). set (t1 := remove_match (outdated now) t).
  assert (table_wf t1) as Hwf1 by by apply table_wf_remove.
  assert (forall s, s ∈ rows t -> s ∉ rows t1 -> user_snapshot s = true /\ outdated now s = true) as Hout.
  { intros s Hs Hg. destruct (outdated now s) eqn:E.
    - split; [|done]. unfold outdated in E. by bool_cases.
    - exfalso. apply Hg. by apply elem_of_remove. }
  assert (forall s, s ∈ rows t1 -> s ∈ rows t /\ outdated now s = false) as Hin.
  { intros s. unfold t1. by rewrite elem_of_remove. }
  destruct (Z.leb_spec (count_match user_snapshot t1) featureSnapshotMaxRows) as [Hle|Hgt].
  { split_and!; [done|done|]. intros s Hs Hg. destruct (Hout s Hs Hg). auto. }
  assert (count_match user_snapshot t1 = Z.of_nat (length (select user_snapshot t1))) as Hc by done.
  unfold featureSnapshotMaxRows in Hgt. set (n := Z.to_nat (count_match user_snapshot t1 - featureSnapshotKeepRows)).
  replace (count_match user_snapshot t1 - featureSnapshotKeepRows) with (Z.of_nat n) by (unfold n, featureSnapshotKeepRows; lia).
  assert (count_match user_snapshot (remove_match (keyed_by fs_ID (oldest (Z.of_nat n) t1)) t1) = featureSnapshotKeepRows) as Hkeep.
  { rewrite remove_oldest_count by done. unfold n, featureSnapshotKeepRows in *. lia. }
  split_and!.
  - rewrite Hkeep. done.
  - intros s [Hs _]%elem_of_remove. by apply Hin.
  - intros s Hs Hg. destruct (outdated now s) eqn:E.
    { unfold outdated in E. apply andb_true_iff in E as [E _]. auto. }
    assert (s ∈ rows t1) as Hs1 by by apply elem_of_remove.
    destruct (removed_is_old t1 n Hwf1 s Hs1 Hg) as [Hu Hold]. auto.
Qed.

(** ** Saving and reading a snapshot *)

Lemma match_after_assign (p : FeatureSnapshot -> bool) f (t : table FeatureSnapshot) s :
  (forall x, p (f x) = p x) -> first_match p t = Some s ->
  first_match p (update_match (by_id (fs_ID s)) f t) = Some (f s).
Proof.
  intros Hp. unfold first_match, select, update_match. simpl.
  induction (rows t) as [|x l IH]; simpl; [done|].
  assert (visible p (if visible (by_id (fs_ID s)) x then f x else x) = visible p x) as Hv.
  { unfold visible. simpl. by destruct (by_id (fs_ID s) x). }
  rewrite Hv. destruct (visible p x) eqn:E; [|done]. simpl. intros [= ->].
  unfold visible at 1, by_id. simpl. by rewrite bool_decide_true.
Qed.

Lemma match_after_create (p : FeatureSnapshot -> bool) mk (t : table FeatureSnapshot) :
  (forall id, p (mk id) = true) -> first_match p t = None ->
  first_match p (insert_row mk t) = Some (mk (next_id t)).
Proof.
  intros Hp. unfold first_match, select, insert_row. cbn [rows].
  rewrite where_app. assert (visible p (mk (next_id t)) = true) as Hv by apply Hp.
  destruct (where_ (visible p) (rows t)); [|done]. intros _.
  unfold where_. cbn [app List.filter]. by rewrite Hv.
Qed.

Section saving.
Context `{Jsonb}.

(** What is written over the hash of the row there was. *)
Definition stored_hash (hash : string) (old : option FeatureSnapshot) : string :=
  if decide (hash = "") then match old with Some s => fs_SourceHash s | None => "" end else hash.

Lemma wp_assign_or_create userId kind hash payload payload' t (Q : outcome () -> world core_db -> Prop) w :
  healthy w -> jsonb_in payload = Some payload' ->
  (forall w' s, healthy w' -> first_match (snapshot_of userId kind) (snapshots (w_db w')) = Some s ->
     fs_Payload s = payload' -> fs_GeneratedAt s = t ->
     fs_SourceHash s = stored_hash hash (first_match (snapshot_of userId kind) (snapshots (w_db w))) ->
     Q (Val ()) w') ->
  wp (assign_or_create userId kind hash payload t) Q w.
Proof.
  intros Hw Hj HQ. unfold assign_or_create. wp_step. wp_step. rewrite Hj.
  destruct (first_match _ (snapshots (w_db w))) as [s|] eqn:E; wp_step; wp_step; apply wp_ret.
  - apply (HQ _ (snapshot_assign hash payload' t s)); try done.
    apply match_after_assign; [done|exact E].
  - apply (HQ _ (SnapshotRow (next_id (snapshots (w_db w))) userId kind hash payload' t)); try done.
    + apply (match_after_create (snapshot_of userId kind) (fun id => SnapshotRow id userId kind hash payload' t)); [|exact E].
      intros id. unfold snapshot_of. simpl. by rewrite !bool_decide_true.
    + unfold stored_hash. cbn. by case_decide.
Qed.

(** The payload that is written. *)
Definition snapshot_payload (req : SaveFeatureSnapshotRequest) : string :=
  let payload := trim_space (sq_Payload req) in
  if decide (payload = "" \/ payload = "null") then "{}" else payload.

(** The table as the cleanup that opens a request leaves it. *)
Definition cleaned (w : world core_db) : table FeatureSnapshot :=
  let t := w_clock w (w_calls w) in
  if due t (last_cleanup (w_db w)) then cleanup_table t (snapshots (w_db w)) else snapshots (w_db w).

Lemma save_run c req kind payload' w :
  healthy w -> 0 < sq_UserID req -> normalizeSnapshotKind (sq_Kind req) = Val kind ->
  may_operate c (sq_UserID req) = true -> json_valid (snapshot_payload req) = true ->
  jsonb_in (snapshot_payload req) = Some payload' ->
  wp (svc_SaveFeatureSnapshot c req) (fun o w' => healthy w' /\ (exists r, o = Val r) /\
    exists s, first_match (snapshot_of (sq_UserID req) kind) (snapshots (w_db w')) = Some s /\
      fs_Payload s = payload' /\ fs_SourceHash s = stored_hash (trim_space (sq_SourceHash req))
        (first_match (snapshot_of (sq_UserID req) kind) (cleaned w))) w.
Proof.
  intros Hw Hu Hk Hm Hv Hj. unfold svc_SaveFeatureSnapshot. wp_step. eapply wp_mono; [by apply cleanup_run|].
  intros o w1 (-> & Hw1 & _ & Hs1 & _). cbn beta iota. fold (cleaned w) in Hs1.
  wp_step. apply wp_refuse_if. rewrite bool_decide_false by lia. cbn beta iota. rewrite Hk, Hm.
  wp_step. apply wp_refuse_if. cbn [negb]. cbn beta iota. cbv zeta. fold (snapshot_payload req). rewrite Hv.
  wp_step. apply wp_refuse_if. cbn [negb]. cbn beta iota. wp_step. apply wp_now. wp_step.
  eapply wp_assign_or_create; [by eauto with golang|exact Hj|].
  intros w2 s Hw2 Hs Hp _ Hh. wp_step. apply wp_record; [done|]. intros w3 Hw3 _ _ Hs3 _.
  apply wp_ret. split_and!; [done|by eexists|]. exists s. rewrite Hs3.
  split_and!; [done|done|]. rewrite Hh. simpl. by rewrite Hs1.
Qed.

Lemma get_run c userId kind0 kind hash s w :
  healthy w -> 0 < userId -> normalizeSnapshotKind kind0 = Val kind -> may_operate c userId = true ->
  due (w_clock w (w_calls w)) (last_cleanup (w_db w)) = false ->
  first_match (snapshot_of userId kind) (snapshots (w_db w)) = Some s -> json_valid (fs_Payload s) = true ->
  (svc_GetFeatureSnapshot c userId kind0 hash w).1 = Val (SnapshotReply "获取快照成功" userId kind
    (fs_SourceHash s) (fs_Payload s) true
    (bool_decide (hash <> "") && bool_decide (fs_SourceHash s <> hash)) (time_unix (fs_GeneratedAt s))).
Proof.
  intros Hw Hu Hk Hm Hd Hs Hv.
  enough (wp (svc_GetFeatureSnapshot c userId kind0 hash) (fun o _ => o = Val (SnapshotReply "获取快照成功" userId kind
    (fs_SourceHash s) (fs_Payload s) true
    (bool_decide (hash <> "") && bool_decide (fs_SourceHash s <> hash)) (time_unix (fs_GeneratedAt s)))) w) by done.
  unfold svc_GetFeatureSnapshot. wp_step. eapply wp_mono; [by apply cleanup_run|]. rewrite Hd.
  intros o w1 (-> & Hw1 & _ & Hs1 & _). cbn beta iota.
  wp_step. apply wp_refuse_if. rewrite bool_decide_false by lia. cbn beta iota. rewrite Hk, Hm.
  wp_step. apply wp_refuse_if. cbn [negb]. cbn beta iota. wp_step. apply wp_attempt.
  apply wp_first_by; [done|]. change (table_of (w_db w1)) with (snapshots (w_db w1)). rewrite Hs1, Hs.
  apply wp_ret. by rewrite Hv.
Qed.
End saving.

(** ** Clearing the cache *)

(** [r'] is [r] without the keys that satisfy [P]. *)
Definition without (P : string -> bool) (r r' : gmap string redis_value) : Prop :=
  forall k, r' !! k = if P k then None else r !! k.

Lemma without_trans P P' r r1 r2 : without P r r1 -> without P' r1 r2 ->
  without (fun k => P k || P' k) r r2.
Proof. intros H1 H2 k. rewrite H2, H1. by destruct (P k), (P' k). Qed.

Lemma without_ext P P' r r' : (forall k, P k = P' k) -> without P r r' -> without P' r r'.
Proof. intros He H k. by rewrite H, He. Qed.

Lemma delete_all_without ks r : without (fun k => bool_decide (k ∈ ks)) r (foldr delete r ks).
Proof.
  intros k. induction ks as [|k' ks IH]; simpl; [done|].
  destruct (decide (k = k')) as [->|Hne].
  - rewrite lookup_delete_eq. by rewrite bool_decide_true by left.
  - rewrite lookup_delete_ne, IH by done. rewrite (bool_decide_ext (k ∈ k' :: ks) (k ∈ ks)); [done|]. set_solver.
Qed.

Lemma delete_all_delete k ks (r : gmap string redis_value) : foldr delete (delete k r) ks = delete k (foldr delete r ks).
Proof. induction ks as [|k' ks IH]; [done|]. simpl. by rewrite IH, delete_delete. Qed.

Lemma del_count_size ks r : del_count ks r = Z.of_nat (size r) - Z.of_nat (size (foldr delete r ks)).
Proof.
  revert r. induction ks as [|k ks IH]; intros r; simpl; [lia|]. rewrite <- delete_all_delete.
  destruct (r !! k) as [v|] eqn:E.
  - rewrite IH. assert (size (delete k r) = pred (size r)) as -> by (apply map_size_delete_Some; eauto).
    pose proof (map_size_ne_0_lookup_2 r k ltac:(eauto)). lia.
  - rewrite IH. by rewrite !(delete_id r) by done.
Qed.

Section clearing.
Implicit Types (w : world core_db).

(** [m] returns how many keys it has removed, over [d] of them, and these are the
    keys that satisfy [P]. *)
Definition clears (m : CM Z) (d : Z) (P : string -> bool) w : Prop :=
  wp m (fun o w' => healthy w' /\ without P (w_redis w) (w_redis w') /\
    o = Val (d + (Z.of_nat (size (w_redis w)) - Z.of_nat (size (w_redis w'))))) w.

Lemma wp_clears m d P (Q : outcome Z -> world core_db -> Prop) w : clears m d P w ->
  (forall w', healthy w' -> without P (w_redis w) (w_redis w') ->
     Q (Val (d + (Z.of_nat (size (w_redis w)) - Z.of_nat (size (w_redis w'))))) w') -> wp m Q w.
Proof. unfold clears, wp. intros (H1 & H2 & ->) HQ. by apply HQ. Qed.

Lemma clears_del_keys ks w : healthy w -> clears (del_keys ks) 0 (fun k => bool_decide (k ∈ ks)) w.
Proof.
  intros Hw. unfold clears, wp, del_keys, attempt, mbind, M_bind, redis_del. rewrite Hw. simpl.
  split_and!; [done|apply delete_all_without|by rewrite del_count_size].
Qed.

(** First one part, then the rest. *)
Lemma clears_then m d P P' (f : Z -> CM Z) w :
  clears m 0 P w ->
  (forall n w', healthy w' -> clears (f n) (d + n) P' w') ->
  clears (n ← m; f n) d (fun k => P k || P' k) w.
Proof.
  intros Hm Hf. apply wp_bind. eapply wp_clears; [exact Hm|]. intros w' Hw' Hr.
  eapply wp_clears; [by apply Hf|]. intros w2 Hw2 Hr2. split_and!; [done|by eapply without_trans|]. f_equal. lia.
Qed.

Lemma clears_ext m d P P' w : (forall k, P k = P' k) -> clears m d P w -> clears m d P' w.
Proof.
  intros He Hm. eapply wp_clears; [exact Hm|]. intros w' Hw' Hr.
  split_and!; [done|by eapply without_ext|done].
Qed.

Lemma clears_ret d w : healthy w -> clears (mret d) d (fun _ => false) w.
Proof. intros Hw. apply wp_ret. split_and!; [done|done|]. f_equal. lia. Qed.

Lemma clears_batches ks batch d w : healthy w ->
  clears (unlink_batches ks batch d) d (fun k => bool_decide (k ∈ batch ++ ks)) w.
Proof.
  revert batch d w. induction ks as [|k ks IH]; intros batch d w Hw; simpl.
  - destruct batch as [|k batch]; [by apply clears_ret|].
    apply (clears_ext _ d (fun k' => bool_decide (k' ∈ k :: batch) || false)).
    { intros k'. by rewrite app_nil_r, orb_false_r. }
    apply (clears_then _ d); [by apply clears_del_keys|]. intros n w' Hw'. by apply clears_ret.
  - case_decide.
    + apply (clears_ext _ d (fun k' => bool_decide (k' ∈ batch ++ [k]) || bool_decide (k' ∈ [] ++ ks))).
      { intros k'. rewrite <- bool_decide_or. apply bool_decide_ext. set_solver. }
      apply (clears_then _ d); [by apply clears_del_keys|]. intros n w' Hw'. by apply IH.
    + apply (clears_ext _ d (fun k' => bool_decide (k' ∈ (batch ++ [k]) ++ ks))); [|by apply IH].
      intros k'. apply bool_decide_ext. set_solver.
Qed.

Definition matches_any (ps : list string) (k : string) : bool := existsb (fun p => key_matches p k) ps.

Lemma clears_patterns ps d w : healthy w -> clears (unlink_patterns ps d) d (matches_any ps) w.
Proof.
  revert d w. induction ps as [|p ps IH]; intros d w Hw; simpl; [by apply clears_ret|].
  apply wp_bind, wp_attempt. unfold wp at 1, redis_scan. rewrite Hw. cbn [fst snd].
  apply wp_bind. eapply wp_clears; [by apply clears_batches|]. intros w1 Hw1 Hr1.
  eapply wp_clears; [by apply IH|]. intros w2 Hw2 Hr2. split_and!; [done| |f_equal; simpl; lia].
  intros k. rewrite Hr2. simpl. destruct (matches_any ps k) eqn:E; [by rewrite orb_true_r|].
  rewrite Hr1. simpl. rewrite orb_false_r. destruct (key_matches p k) eqn:Ek.
  - case_bool_decide as Hin; [done|]. destruct (w_redis w !! k) as [v|] eqn:Ev; [|done]. exfalso. apply Hin.
    apply elem_of_where. split; [|done]. apply list_elem_of_fmap. exists (k, v). split; [done|].
    by apply elem_of_map_to_list.
  - rewrite bool_decide_false; [done|]. intros [_ Hm]%elem_of_where. congruence.
Qed.
End clearing.
