(* ===== verification/StatisticDal.v ===== *)
(** Counting submissions: the queries of [data/dal/statistic.go], their caching in
    [biz/service/statistic.go], and the handlers of [service/statistic.go]. *)
From S2P Require Export UserData ContestProblems Calendar.

(** ** What counts *)

(** [status ILIKE '%pat%'], for a pattern without letters outside ASCII. *)
Definition ilike (status pat : string) : bool := contains (to_lower status) (to_lower pat).
Definition acCondition (status : string) : bool :=
  ilike status "AC" || ilike status "正确" || ilike status "OK".
Definition waCondition (status : string) : bool :=
  ilike status "WA" || ilike status "Wrong Answer" || ilike status "答案错误".

(** [BTRIM] takes spaces off, and nothing else. *)
Fixpoint drop_blanks (l : list Ascii.ascii) : list Ascii.ascii :=
  match l with
  | [] => []
  | a :: l' => if code a =? 32 then drop_blanks l' else l
  end.
Definition btrim (s : string) : string :=
  of_bytes (rev (drop_blanks (rev (drop_blanks (bytes_of s))))).

(** [COALESCE(NULLIF(BTRIM(problem), ''), submit_id)] *)
Definition problemDistinctExpr (s : SubmitLog) : string :=
  if decide (btrim (s_Problem s) = "") then s_SubmitID s else btrim (s_Problem s).
Definition acDistinctKey (s : SubmitLog) : string :=
  pretty (s_UserID s) +:+ "|" +:+ s_Platform s +:+ "|" +:+ problemDistinctExpr s.

(** [COUNT(DISTINCT ...)] *)
Definition count_distinct {A} (key : A -> string) (l : list A) : Z :=
  Z.of_nat (length (remove_dups (map key l))).

(** ** Periods *)

(** [PeriodSubmitCount] and [PeriodAcCount] have these fields. *)
Record periods (A : Type) := Periods {
  Today : A; ThisWeek : A; LastWeek : A; ThisMonth : A; LastMonth : A; ThisYear : A;
  LastYear : A; Total : A }.
Arguments Periods {A}.
Arguments Today {A}. Arguments ThisWeek {A}. Arguments LastWeek {A}. Arguments ThisMonth {A}.
Arguments LastMonth {A}. Arguments ThisYear {A}. Arguments LastYear {A}. Arguments Total {A}.
Definition PeriodSubmitCount := periods Z.
Definition PeriodAcCount := periods Z.

Definition pmap {A B} (f : A -> B) (p : periods A) : periods B :=
  Periods (f (Today p)) (f (ThisWeek p)) (f (LastWeek p)) (f (ThisMonth p)) (f (LastMonth p))
          (f (ThisYear p)) (f (LastYear p)) (f (Total p)).
Definition pzip {A B C} (f : A -> B -> C) (p : periods A) (q : periods B) : periods C :=
  Periods (f (Today p) (Today q)) (f (ThisWeek p) (ThisWeek q)) (f (LastWeek p) (LastWeek q))
          (f (ThisMonth p) (ThisMonth q)) (f (LastMonth p) (LastMonth q)) (f (ThisYear p) (ThisYear q))
          (f (LastYear p) (LastYear q)) (f (Total p) (Total q)).
Definition zeros : periods Z := Periods 0 0 0 0 0 0 0 0.

Definition getWeekStart (t : Z) : Z := midnight (week_start_day (local_day t)).

(** The bounds of each period; the total has none. *)
Definition ranges (now : Z) : periods (option (Z * Z)) :=
  let z := local_day now in
  let y := year_of z in
  let thisWeekStart := getWeekStart now in
  let lastWeekStart := thisWeekStart - 7 * 24 * hour in
  let thisMonthStart := midnight (month_start y (month_of z)) in
  let lastMonthStart := midnight (month_start y (month_of z - 1)) in
  let thisYearStart := midnight (month_start y 1) in
  let lastYearStart := midnight (month_start (y - 1) 1) in
  Periods (Some (midnight z, now)) (Some (thisWeekStart, now)) (Some (lastWeekStart, thisWeekStart))
    (Some (thisMonthStart, now)) (Some (lastMonthStart, thisMonthStart)) (Some (thisYearStart, now))
    (Some (lastYearStart, thisYearStart)) None.

Definition in_range (r : option (Z * Z)) (s : SubmitLog) : bool :=
  match r with
  | Some (start, fin) => bool_decide (start <= s_Time s) && bool_decide (s_Time s < fin)
  | None => true
  end.

(** ** Queries *)

Definition of_user (userId : Z) (s : SubmitLog) : bool :=
  bool_decide (userId = -1) || bool_decide (s_UserID s = userId).

(** An error is logged, and the count is what it was: zero. *)
Definition count_or_zero (q : core_db -> Z) : CM Z :=
  r ← attempt (query q);
  mret match r with Val n => n | Exn _ => 0 end.
Definition countQuery (userId : Z) (r : option (Z * Z)) : CM Z :=
  count_or_zero (fun d => count_match (fun s => of_user userId s && in_range r s) (submits d)).
Definition countAcDistinctQuery (userId : Z) (r : option (Z * Z)) : CM Z :=
  count_or_zero (fun d => count_distinct acDistinctKey
    (select (fun s => acCondition (s_Status s) && in_range r s && of_user userId s) (submits d))).

(** Field after field. *)
Definition each_period {A B} (f : A -> CM B) (p : periods A) : CM (periods B) :=
  a ← f (Today p); b ← f (ThisWeek p); c ← f (LastWeek p); d ← f (ThisMonth p);
  e ← f (LastMonth p); g ← f (ThisYear p); h ← f (LastYear p); i ← f (Total p);
  mret (Periods a b c d e g h i).

Definition GetPeriodCount (userId : Z) : CM (PeriodSubmitCount * PeriodAcCount) :=
  t ← now;
  submit ← each_period (countQuery userId) (ranges t);
  ac ← each_period (countAcDistinctQuery userId) (ranges t);
  mret (submit, ac).

(** The columns of a grouped query. *)
Definition submit_counts (t : Z) (l : list SubmitLog) : periods Z :=
  pmap (fun r => count_where (in_range r) l) (ranges t).
Definition ac_counts (t : Z) (l : list SubmitLog) : periods Z :=
  pmap (fun r => count_distinct acDistinctKey
                   (where_ (fun s => acCondition (s_Status s) && in_range r s) l)) (ranges t).

(** [GROUP BY]: one row per value that occurs; [row_at] is the map made of them, in
    which a missing row is all zeros. *)
Definition group_by {K B} `{EqDecision K} (key : SubmitLog -> K) (cols : list SubmitLog -> B)
    (l : list SubmitLog) : list (K * B) :=
  map (fun k => (k, cols (where_ (fun s => bool_decide (key s = k)) l))) (remove_dups (map key l)).
Definition row_at {K B} `{EqDecision K} (rows : list (K * B)) (zero : B) (k : K) : B :=
  match List.find (fun r => bool_decide (r.1 = k)) rows with Some r => r.2 | None => zero end.

Record PlatformPeriodCount := PlatformPeriod {
  pp_Platform : string; pp_Submit : PeriodSubmitCount; pp_Ac : PeriodAcCount }.

Definition GetPlatformPeriodCount (userId : Z) (platforms : list string)
    : CM (list PlatformPeriodCount) :=
  t ← now;
  rows ← query (fun d => group_by s_Platform (fun l => (submit_counts t l, ac_counts t l))
    (select (fun s => bool_decide (s_Platform s ∈ platforms) && of_user userId s) (submits d)));
  mret (map (fun p => let r := row_at rows (zeros, zeros) p in PlatformPeriod p r.1 r.2) platforms).

Record TeamMemberPeriodCount := MemberPeriod {
  mp_UserID : Z; mp_Submit : PeriodSubmitCount; mp_Ac : PeriodAcCount; mp_WaTotal : Z }.

Definition GetTeamPeriodCount (userIds : list Z) : CM (list TeamMemberPeriodCount) :=
  t ← now;
  rows ← query (fun d => group_by s_UserID
      (fun l => (submit_counts t l, ac_counts t l, count_where (fun s => waCondition (s_Status s)) l))
    (select (fun s => bool_decide (s_UserID s ∈ userIds)) (submits d)));
  mret (map (fun u => let r := row_at rows (zeros, zeros, 0) u in MemberPeriod u r.1.1 r.1.2 r.2) userIds).

(** ** Caching ([biz/service/statistic.go]) *)

(** [encoding/gob]: what is encoded is what is decoded. *)
Class Gob (A : Type) := {
  GobEncoder : A -> option string;
  GobDecoder : string -> outcome A;
  gob_roundtrip a b : GobEncoder a = Some b -> GobDecoder b = Val a
}.

Definition internal_error (e : goerr) : goerr := InternalServer "内部错误" (error_text e).

Definition PeriodCount `{Gob (PeriodSubmitCount * PeriodAcCount)} (userId : Z)
    : CM (PeriodSubmitCount * PeriodAcCount) :=
  r ← map_err internal_error (GetCacheDal GobEncoder GobDecoder
        ("statistic:period:" +:+ pretty userId) (GetPeriodCount userId));
  mret r.1.

Definition statistic_platforms : list string := [AtCoder; NowCoder; "LuoGu"; CodeForces; "QOJ"].

Definition PlatformPeriodCount_ `{Gob (list PlatformPeriodCount)} (userId : Z)
    : CM (list PlatformPeriodCount) :=
  r ← map_err internal_error (GetCacheDal GobEncoder GobDecoder
        ("statistic:platform-period:" +:+ pretty userId)
        (GetPlatformPeriodCount userId statistic_platforms));
  mret r.1.

Definition TeamPeriodCount (userIds : list Z) : CM (list TeamMemberPeriodCount) :=
  match userIds with
  | [] => mret []
  | _ => map_err internal_error (GetTeamPeriodCount userIds)
  end.

(** ** Handlers ([service/statistic.go]) *)

(** Go's [+=] on [int64]. *)
Definition add_int64 (a b : Z) : Z := wrap_int64 (a + b).
Definition addSubmitCount (total item : periods Z) : periods Z := pzip add_int64 total item.
Definition addAcCount (total item : periods Z) : periods Z := pzip add_int64 total item.

Record TeamPeriodResponse := TeamReply {
  tr_Members : list TeamMemberPeriodCount; tr_Total : TeamMemberPeriodCount }.

Definition add_member (total item : TeamMemberPeriodCount) : TeamMemberPeriodCount :=
  MemberPeriod (mp_UserID total) (addSubmitCount (mp_Submit total) (mp_Submit item))
    (addAcCount (mp_Ac total) (mp_Ac item)) (add_int64 (mp_WaTotal total) (mp_WaTotal item)).

Definition svc_TeamPeriod (userIds : list Z) : CM TeamPeriodResponse :=
  data ← TeamPeriodCount userIds;
  mret (TeamReply data (foldl add_member (MemberPeriod 0 zeros zeros 0) data)).
