(* ===== verification/AuditService.v ===== *)
(** The explanatory part of [service/statistic_ops.go]: what counts as accepted, the
    detail of a platform, and the audit of a user's platforms. *)
From S2P Require Export StatisticDal SpiderService ContestService.

(** ** Rules *)

Definition isAcceptedStatus (status : string) : bool :=
  let status := to_lower (trim_space status) in
  contains status "ac" || contains status "accepted" || contains status "正确" || contains status "ok".

Definition statisticCountPolicy (platform : string) : list string :=
  ["原始提交：数据库中保留的该平台提交记录总数。";
   "去重提交：按 problem key 去重后的提交题目数。";
   "AC 提交：状态识别为 AC/Accepted/正确/OK 的提交次数。";
   "去重 AC：最终展示 AC 数，按 platform + problem key 去重。";
   "problem key：优先使用题目标识，缺失时回退 submit_id；跨平台同名题不合并。"] ++
  let p := to_lower platform in
  if decide (p = "luogu") then ["洛谷保留抓到的全部记录，可能包含 U/T/SP 等主页统计不展示的题目。"]
  else if decide (p = "codeforces")
  then ["Codeforces 基于 user.status API，题目标识由 contestId/index/name 归一化生成。"]
  else if decide (p = "nowcoder")
  then ["牛客按提交记录中的题目标识去重，可能与主页不同 tab 的展示口径不同。"] else [].

Definition auditReason (row : SubmitLog) : string :=
  let problem := trim_space (s_Problem row) in
  let submitID := trim_space (s_SubmitID row) in
  if decide (submitID = "") then "提交 ID 缺失，审计中视为异常记录。"
  else
    let keySource := if decide (problem = "") then "submit_id 回退" else "题目标识" in
    if isAcceptedStatus (s_Status row) then "AC 状态，进入 AC 候选；最终按 " +:+ keySource +:+ " 去重。"
    else "非 AC 状态，仅计入原始提交和提交题，AC 统计不计入；problem key 来源：" +:+ keySource +:+ "。".

(** ** Detail of a platform *)

(** The columns that both queries compute of the rows of a user on a platform. *)
Record StatisticPlatformSummary := Summary {
  RawSubmits : Z; AcceptedSubmits : Z; DistinctSubmitted : Z; DistinctAc : Z;
  FilteredDuplicate : Z; FilteredInvalid : Z }.

Definition ac_row (s : SubmitLog) : bool := acCondition (s_Status s).
Definition summary_of (l : list SubmitLog) : StatisticPlatformSummary :=
  let raw := Z.of_nat (length l) in
  let distinct := count_distinct problemDistinctExpr l in
  Summary raw (count_where ac_row l) distinct (count_distinct problemDistinctExpr (where_ ac_row l))
    (Z.max (raw - distinct) 0) (count_where (fun s => bool_decide (btrim (s_SubmitID s) = "")) l).

Definition user_platform (userId : Z) (platform : string) (s : SubmitLog) : bool :=
  bool_decide (s_UserID s = userId) && bool_decide (s_Platform s = platform).

Record StatisticDetailRecord := DetailRecord {
  dr_ID : Z; dr_SubmitID : string; dr_Platform : string; dr_Problem : string; dr_ProblemKey : string;
  dr_Contest : string; dr_Lang : string; dr_Status : string; dr_Time : Z; dr_IncludedInAc : bool;
  dr_AuditReason : string }.

Record StatisticProblemRecord := ProblemRecord {
  pr_ProblemKey : string; pr_Problem : string; pr_FirstAcAt : Z; pr_AcceptedSubmits : Z;
  pr_TotalSubmits : Z }.

Record StatisticPlatformDetail := PlatformDetailReply {
  pd_UserID : Z; pd_Platform : string; pd_Mode : string; pd_Page : Z; pd_PageSize : Z; pd_Total : Z;
  pd_Summary : StatisticPlatformSummary; pd_Policy : list string;
  pd_Records : list StatisticDetailRecord; pd_Problems : list StatisticProblemRecord }.

Definition detail_record (row : SubmitLog) : StatisticDetailRecord :=
  let problemKey := trim_space (s_Problem row) in
  let problemKey := if decide (problemKey = "") then s_SubmitID row else problemKey in
  DetailRecord (s_ID row) (s_SubmitID row) (s_Platform row) (s_Problem row)
    (s_Platform row +:+ "|" +:+ problemKey) (s_Contest row) (s_Lang row) (s_Status row)
    (time_unix (s_Time row)) (isAcceptedStatus (s_Status row)) (auditReason row).

(** A problem solved: its key, least title, first time and number of accepted rows. *)
Record ac_problem := AcProblem {
  ap_key : string; ap_title : string; ap_first : Z; ap_accepted : Z }.

(** [MIN] of a column. *)
Definition least {A} (le : relation A) `{forall x y, Decision (le x y)} (x : A) (l : list A) : A :=
  foldl (fun a b => if decide (le a b) then a else b) x l.

Section detail.
Context `{Collation}.

Definition ac_problem_of (l : list SubmitLog) (key : string) : ac_problem :=
  match where_ (fun s => ac_row s && bool_decide (problemDistinctExpr s = key)) l with
  | [] => AcProblem key "" 0 0
  | s :: rest =>
      AcProblem key (least text_le (s_Problem s) (map s_Problem rest)) (least Z.le (s_Time s) (map s_Time rest))
        (Z.of_nat (length (s :: rest)))
  end.

(** The common table expression without its page. *)
Definition ac_problems (l : list SubmitLog) : list ac_problem :=
  merge_sort (desc_by ap_first)
    (map (ac_problem_of l) (remove_dups (map problemDistinctExpr (where_ ac_row l)))).

Definition problem_record (platform : string) (l : list SubmitLog) (p : ac_problem) : StatisticProblemRecord :=
  ProblemRecord (platform +:+ "|" +:+ ap_key p) (ap_title p) (time_unix (ap_first p)) (ap_accepted p)
    (count_where (fun s => bool_decide (problemDistinctExpr s = ap_key p)) l).

Definition svc_PlatformDetail (userId : Z) (platform mode : string) (page pageSize : Z)
    : CM StatisticPlatformDetail :=
  refuse_if (bool_decide (userId <= 0)) (BadRequest "参数错误" "userId不能为空");;
  let platform := trim_space platform in
  refuse_if (bool_decide (platform = "")) (BadRequest "参数错误" "platform不能为空");;
  let page := if decide (page <= 0) then 1 else page in
  let pageSize := if decide (pageSize <= 0 \/ 100 < pageSize) then 30 else pageSize in
  let mode := if decide (mode = "") then "ac" else mode in
  let offset := wrap_int64 (wrap_int64 (page - 1) * pageSize) in
  let rows_of := fun d => select (user_platform userId platform) (submits d) in
  summary ← query (fun d => summary_of (rows_of d));
  let reply := fun total records problems =>
    PlatformDetailReply userId platform mode page pageSize total summary (statisticCountPolicy platform)
      records problems in
  if decide (mode = "submit") then
    total ← count_rows (user_platform userId platform);
    rows ← find_page (user_platform userId platform) (desc_by s_Time) pageSize offset;
    mret (reply total (map detail_record rows) [])
  else
    total ← query (fun d => count_distinct problemDistinctExpr (where_ ac_row (rows_of d)));
    if decide (offset < 0) then query (fun _ => ());; throw (Driver "OFFSET must not be negative")
    else
      problems ← query (fun d => map (problem_record platform (rows_of d))
        (limit_rows pageSize (offset_rows offset (ac_problems (rows_of d)))));
      mret (reply total [] problems).
End detail.

(** ** Audit *)

Record SpiderAuditItem := AuditItem {
  au_Platform : string; au_Username : string; au_Status : string; au_LastStartedAt : Z;
  au_LastFinishedAt : Z; au_LastSuccessAt : Z; au_LastRawFetchedCount : Z; au_LastFetchedCount : Z;
  au_LastSkippedCount : Z; au_LastError : string; au_Counts : StatisticPlatformSummary;
  au_FilteredAbnormalCount : Z; au_CountPolicy : list string; au_FilterReasons : list string;
  au_AuditNotes : list string; au_IsStale : bool }.

Definition note_if (b : bool) (s : string) : list string := if b then [s] else [].

Definition auditNotes (platform : string) (started raw fetched skipped : Z) (counts : StatisticPlatformSummary)
    (isStale : bool) (lastError : string) : list string :=
  ["库内原始提交 " +:+ pretty (RawSubmits counts) +:+ " 条，去重提交题 " +:+ pretty (DistinctSubmitted counts) +:+ " 个。";
   "AC 提交 " +:+ pretty (AcceptedSubmits counts) +:+ " 条，最终去重 AC " +:+ pretty (DistinctAc counts) +:+ " 题。"] ++
  note_if (0 <? started) ("最近一次抓取原始返回约 " +:+ pretty raw +:+ " 条，有效写入 " +:+ pretty fetched
                          +:+ " 条，跳过 " +:+ pretty skipped +:+ " 条。") ++
  note_if (0 <? FilteredDuplicate counts)
    ("库内有 " +:+ pretty (FilteredDuplicate counts) +:+ " 条重复提交记录会在题目维度统计时被去重。") ++
  note_if (0 <? FilteredInvalid counts)
    ("检测到 " +:+ pretty (FilteredInvalid counts) +:+ " 条提交 ID 或时间异常记录，需要优先排查爬虫返回。") ++
  note_if isStale "最近成功同步已超过 24 小时，数字可能不是最新。" ++
  note_if (bool_decide (lastError <> "")) "最近一次抓取失败原因已记录，可结合抓取任务日志排查。" ++
  let p := to_lower platform in
  if decide (p = "luogu") then ["洛谷主页通过数和本站可能不同：主页可能隐藏部分题库/远程题/不可见记录，本站以抓取到的提交日志为准。"]
  else if decide (p = "codeforces") then ["Codeforces 主页 solved 口径可能包含 problemset/gym/历史可见性差异；本站以 user.status API 返回并成功写入的记录为准。"]
  else if decide (p = "nowcoder") then ["牛客主页不同栏目可能分别展示练习、比赛或题单数据；本站统一按提交日志题目标识去重。"]
  else if decide (p = "qoj") then ["QOJ 部分题目来源和比赛可见性会影响主页展示；本站保留抓取到的提交记录。"]
  else if decide (p = "atcoder") then ["AtCoder 以提交记录题目标识去重，历史 contest 归档和主页统计展示可能存在时间差。"]
  else [].

Definition filterReasons : list string :=
  ["重复提交：同一 problem key 的多次提交只在 AC/提交题维度计为 1。";
   "异常记录：submit_id 或时间缺失的记录会标记为异常，需结合最近错误排查。";
   "非 AC 提交：保留在提交记录中，但不会进入最终 AC 数。"].

(** The last status of a platform counts; the zero value when there is none. *)
Definition audit_status (sts : list SpiderSyncStatus) (platform : string) : SpiderSyncStatus :=
  match List.find (fun s => bool_decide (ss_Platform s = platform)) (rev sts) with
  | Some s => s
  | None => SyncStatus 0 0 "" "" "" None None None "" 0 0 0 zero_time
  end.

Definition audit_item (t : Z) (sts : list SpiderSyncStatus) (plat : Platform) (counts : StatisticPlatformSummary)
    : SpiderAuditItem :=
  let item := audit_status sts (p_Platform plat) in
  let stale := match ss_LastSuccessAt item with
               | None => true
               | Some t0 => bool_decide (24 * hour < time_sub t t0)
               end in
  let raw := wrap_int64 (ss_LastFetchedCount item + ss_LastSkippedCount item) in
  AuditItem (p_Platform plat) (p_Username plat) (if decide (ss_Status item = "") then "never" else ss_Status item)
    (toUnix (ss_LastStartedAt item)) (toUnix (ss_LastFinishedAt item)) (toUnix (ss_LastSuccessAt item)) raw
    (ss_LastFetchedCount item) (ss_LastSkippedCount item) (ss_LastError item) counts
    (wrap_int64 (FilteredInvalid counts + ss_LastSkippedCount item)) (statisticCountPolicy (p_Platform plat))
    filterReasons
    (auditNotes (p_Platform plat) (toUnix (ss_LastStartedAt item)) raw (ss_LastFetchedCount item)
       (ss_LastSkippedCount item) counts stale (ss_LastError item)) stale.

(** The counts of each platform; a query that fails leaves zeros. *)
Fixpoint audit_platforms (userId t : Z) (sts : list SpiderSyncStatus) (plats : list Platform)
    : CM (list SpiderAuditItem) :=
  match plats with
  | [] => mret []
  | plat :: plats =>
      r ← attempt (query (fun d => summary_of (select (user_platform userId (p_Platform plat)) (submits d))));
      let counts := match r with Val c => c | Exn _ => Summary 0 0 0 0 0 0 end in
      rest ← audit_platforms userId t sts plats;
      mret (audit_item t sts plat counts :: rest)
  end.

Definition svc_SpiderAudit (c : ctx) (userId : Z) : CM (list SpiderAuditItem) :=
  refuse_if (bool_decide (userId <= 0)) (BadRequest "参数错误" "userId不能为空");;
  refuse_if (negb (canViewUserDetail c userId)) (Forbidden "权限错误" "无权查看该用户抓取审计");;
  plats ← find_where (fun p => bool_decide (p_UserID p = userId));
  sts ← find_where (fun s => bool_decide (ss_UserID s = userId));
  t ← now;
  audit_platforms userId t sts plats.
