(* ===== verification/HistoryDal.v ===== *)
(** The histories that are paged through a sorted set in Redis, and the times of the last
    submissions: [GetByUserId] and [GetContestByUserId] of [data/dal/spider.go],
    [service/submit_log.go] and [GetUserContestHistory] of [service/contest.go]. *)
From S2P Require Export StatisticDal ContestService.

(** ** Sorted sets *)

(** [ZADD]; under a key that holds a text the command fails, and the others of the
    pipeline run on. *)
Definition zadd (k member : string) (score : Z) (r : gmap string redis_value) : gmap string redis_value :=
  match r !! k with
  | Some (RStr _) => r
  | Some (RZset z) => <[k := RZset (<[member := score]> z)]> r
  | None => <[k := RZset {[member := score]}]> r
  end.

(** Highest score first; members of one score in descending order of their bytes. *)
Definition zrev_le (x y : string * Z) : Prop := y.2 < x.2 \/ (x.2 = y.2 /\ string_lt x.1 y.1 = false).
#[export] Instance zrev_le_dec x y : Decision (zrev_le x y).
Proof. unfold zrev_le. apply _. Defined.

(** [ZREVRANGEBYSCORE key (max -inf LIMIT 0 count]; the client leaves the limit out when
    the count is zero, and a negative one is none. *)
Definition below (max : Z) (z : gmap string Z) : list (string * Z) :=
  merge_sort zrev_le (where_ (fun m => bool_decide (m.2 < max)) (map_to_list z)).
Definition redis_zrange (k : string) (max count : Z) : CM (list string) := fun w =>
  match w_fault w (w_calls w), w_redis w !! k with
  | Some e, _ => (Exn (Driver e), tick w)
  | None, Some (RStr _) => (Exn (Driver wrong_type), tick w)
  | None, Some (RZset z) =>
      (Val (let l := map fst (below max z) in if count <=? 0 then l else take (Z.to_nat count) l), tick w)
  | None, None => (Val [], tick w)
  end.

(** ** A page of a history *)

Section history.
Context {R : Type} `{Entity R} `{Holds core_db R} `{Gob R}.
Context (time_of : R -> Z) (zero : R) (set_key : string) (detail_key : string -> string).

(** [SetCache]: the pipeline is sent when it has commands.  [EXPIRE] on the key of the
    row changes nothing that [SET] does not change again. *)
Definition cache_row (r : gmap string redis_value) (v : R) : gmap string redis_value :=
  <[detail_key (pretty (row_id v)) := RStr (default "" (GobEncoder v))]>
    (zadd set_key (pretty (row_id v)) (time_unix (time_of v)) r).
Definition set_cache (rows : list R) : CM () :=
  match rows with
  | [] => mret ()
  | _ => ignore_err (redis_exec (fun r => foldl cache_row r rows))
  end.

(** [dbFunc]; the goroutine that fills the cache runs when the page has been read. *)
Definition db_page (q : R -> bool) (limit : Z) : CM (list R) :=
  rows ← find_page q (desc_by time_of) limit 0;
  set_cache rows;;
  mret rows.

(** The rows behind the ids of a page, when all of them are cached.  Errors of the
    decoder are dropped. *)
Definition cached_rows (ids : list string) : CM (option (list R)) :=
  r ← attempt (redis_mget (map detail_key ids));
  mret match r with
       | Exn _ => None
       | Val vals =>
           l ← mapM id vals;
           Some (map (fun s => match GobDecoder s with Val v => v | Exn _ => zero end) l)
       end.

(** [q] has been run with [Limit(1)] when [dbFunc] runs it again: an error stays with
    it, and so does that limit when the new one is zero.  [agrees] compares the newest
    row with the ids of the cache; [None] is the panic of [ids[0]]. *)
Definition page (q : R -> bool) (agrees : list R -> list string -> option bool) (cursor limit : Z) : CM (list R) :=
  ids ← attempt (redis_zrange set_key cursor limit);
  match ids with
  | Exn _ => db_page q limit
  | Val ids =>
      newest ← find_page q (desc_by time_of) 1 0;
      let again := db_page q (if decide (limit = 0) then 1 else limit) in
      if Z.of_nat (length ids) <? limit then again
      else match agrees newest ids with
           | None => throw (ErrorText "index out of range [0] with length 0")
           | Some false => again
           | Some true =>
               c ← cached_rows ids;
               match c with None => again | Some rows => mret rows end
           end
  end.

Definition first_is (v : R) (ids : list string) : option bool :=
  match ids with [] => None | i :: _ => Some (bool_decide (pretty (row_id v) = i)) end.
End history.

(** ** Submissions *)

(** The largest cursor. *)
Definition far_future : Z := 33325619029.

Definition of_user_or_all (u : Z) (t : Z) (v_user v_time : Z) : bool :=
  (bool_decide (u = -1) || bool_decide (v_user = u)) && bool_decide (v_time < t).

Definition submit_set_key (userId : Z) : string := "core:submit_log:user:" +:+ pretty userId.
Definition submit_detail_key (i : string) : string := "core:submit_log:detail:" +:+ i.
Definition no_submission : SubmitLog := Submission 0 "" 0 "" "" "" "" "" zero_time.

Definition submits_before (userId cursor : Z) (s : SubmitLog) : bool :=
  of_user_or_all userId (cursor * second) (s_UserID s) (s_Time s).
(** [len(sbLog) == 0 || ..]: without a row the cache is not used. *)
Definition submit_agrees (newest : list SubmitLog) (ids : list string) : option bool :=
  match newest with [] => Some false | v :: _ => first_is v ids end.

Definition GetByUserId `{Gob SubmitLog} (userId lastTimeUnix limit : Z) : CM (list SubmitLog) :=
  let cursor := if decide (lastTimeUnix = -1) then far_future else lastTimeUnix in
  page s_Time no_submission (submit_set_key userId) submit_detail_key (submits_before userId cursor)
    submit_agrees cursor limit.

Record SubmitLogPb := SubmitItem {
  sl_Id : Z; sl_UserId : Z; sl_Platform : string; sl_SubmitId : string; sl_Contest : string;
  sl_Problem : string; sl_Lang : string; sl_Status : string; sl_Time : Z }.
Definition submit_item (v : SubmitLog) : SubmitLogPb :=
  SubmitItem (s_ID v mod 2 ^ 32) (s_UserID v) (s_Platform v) (s_SubmitID v) (s_Contest v) (s_Problem v)
    (s_Lang v) (s_Status v) (time_unix (s_Time v)).

Definition svc_GetSubmitLog `{Gob SubmitLog} (userId cursor limit : Z) : CM (list SubmitLogPb) :=
  d ← map_err contest_failed (GetByUserId userId cursor limit);
  mret (map submit_item d).

(** ** Contests *)

Definition contest_set_key (userId : Z) (platform : string) : string :=
  "core:contest_log:user:" +:+ pretty userId +:+ (if decide (platform = "") then "" else ":" +:+ platform).
Definition contest_detail_key (i : string) : string := "core:contest_log:detail:" +:+ i.

Definition contests_before (userId cursor : Z) (platform : string) (c : ContestLog) : bool :=
  of_user_or_all userId (cursor * second) (c_UserID c) (c_Time c)
  && (bool_decide (platform = "") || bool_decide (c_Platform c = platform)).
(** [len(contestLogs) > 0 && ..]: without a row the ids are taken as they are. *)
Definition contest_agrees (newest : list ContestLog) (ids : list string) : option bool :=
  match newest with [] => Some true | v :: _ => first_is v ids end.

Definition GetContestByUserId `{Gob ContestLog} (userId cursor limit : Z) (platform : string) : CM (list ContestLog) :=
  let cursor := if decide (cursor = 0) then far_future else cursor in
  page c_Time no_contest (contest_set_key userId platform) contest_detail_key (contests_before userId cursor platform)
    contest_agrees cursor limit.

Definition svc_GetUserContestHistory `{Gob ContestLog} (userId cursor limit : Z) (platform : string)
    : CM (list ContestItem) :=
  logs ← map_err contest_failed (GetContestByUserId userId cursor limit platform);
  mret (map contest_item logs).

(** ** Last submissions *)

Definition last_submit_key (userId : Z) : string := "user:" +:+ pretty userId +:+ ":lastSubmitTime".

(** The users without a cached time, and the times of the others.  When [MGet] fails
    there is no value to go through, and nobody is missing. *)
Definition cached_times (userIds : list Z) (vals : list (option string)) : list Z * gmap Z Z :=
  foldl (fun acc uv => match uv.2 with
                       | None => (acc.1 ++ [uv.1], acc.2)
                       | Some v => (acc.1, <[uv.1 := parse_int64_lax v]> acc.2)
                       end) ([], ∅) (zip userIds vals).

(** [DISTINCT ON (user_id) .. ORDER BY user_id, time DESC] *)
Definition latest_of (d : core_db) (u : Z) : option Z :=
  s ← head (merge_sort (desc_by s_Time) (select (fun s => bool_decide (s_UserID s = u)) (submits d)));
  Some (time_unix (s_Time s)).
Definition latest_submits (users : list Z) (d : core_db) : list (Z * Z) :=
  omap (fun u => t ← latest_of d u; Some (u, t)) (merge_sort Z.le (remove_dups users)).

Definition svc_LastSubmitTime (userIds : list Z) : CM (gmap Z Z) :=
  r ← attempt (redis_mget (map last_submit_key userIds));
  let '(missUser, times) := cached_times userIds (match r with Val vals => vals | Exn _ => [] end) in
  match missUser with
  | [] => mret times
  | _ =>
      d ← or_fail (query (latest_submits missUser)) (InternalServer "内部错误" "数据库查询错误");
      (match d with
       | [] => mret ()
       | _ => ignore_err (redis_exec (fun r =>
                foldl (fun r ut => <[last_submit_key ut.1 := RStr (pretty ut.2)]> r) r d))
       end);;
      mret (foldl (fun m ut => <[ut.1 := ut.2]> m) times d)
  end.
