(* ===== verification/HistoryTheory.v ===== *)
(** Pages of a history that come from the cache: what they hold when the cache agrees
    with the tables, and that pages keep it so. *)
From S2P Require Export HistoryDal.
From S2P Require Import TokenTheory.


(** ** Orders *)

Lemma bytes_lt_asym l1 : forall l2, bytes_lt l1 l2 = true -> bytes_lt l2 l1 = false.
Proof.
  induction l1 as [|a l1 IH]; intros [|b l2]; simpl; try done. intros H.
  apply orb_true_iff in H as [H|[H1 H2]%andb_true_iff]; apply orb_false_iff.
  - apply Z.ltb_lt in H. split; [apply Z.ltb_ge; lia|]. apply andb_false_iff. left. apply Z.eqb_neq. lia.
  - apply Z.eqb_eq in H1. split; [apply Z.ltb_ge; lia|]. apply andb_false_iff. right. by apply IH.
Qed.
#[export] Instance zrev_total : Total zrev_le.
Proof.
  intros x y. unfold zrev_le. destruct (decide (x.2 = y.2)) as [He|Hne]; [|lia].
  destruct (string_lt x.1 y.1) eqn:E; [|by left; right].
  right. right. split; [done|]. by apply bytes_lt_asym.
Qed.

(** Sorting by an order sorts by any coarser one that is transitive. *)
Lemma sorted_coarser {A} (P Q : relation A) l : Transitive Q -> (forall x y, P x y -> Q x y) -> Sorted P l -> StronglySorted Q l.
Proof.
  intros HQ Himp Hs. apply Sorted_StronglySorted; [done|].
  induction Hs as [|x l Hs IH Hhd]; constructor; [done|]. destruct Hhd; constructor; auto.
Qed.
Lemma sorted_firstn {A} (P : relation A) n l : StronglySorted P l -> StronglySorted P (take n l).
Proof. intros Hs. rewrite <- (take_drop n l) in Hs. by apply StronglySorted_app_1_l in Hs. Qed.
Lemma sorted_desc_by {A} (f : A -> Z) l : StronglySorted (desc_by f) (merge_sort (desc_by f) l).
Proof. apply StronglySorted_merge_sort; [intros x y z; unfold desc_by; lia | intros x y; unfold desc_by; lia]. Qed.

Lemma where_sublist {A} (p : A -> bool) l : where_ p l `sublist_of` l.
Proof. induction l as [|x l IH]; [constructor|]. simpl. case_match; [by apply sublist_skip | by apply sublist_cons]. Qed.

Lemma below_spec max z : NoDup (map fst (below max z)) /\ StronglySorted (desc_by snd) (below max z)
  /\ forall m, m ∈ below max z -> z !! m.1 = Some m.2 /\ m.2 < max.
Proof.
  unfold below. set (l := where_ _ _). pose proof (merge_sort_Permutation zrev_le l) as Hp. split_and!.
  - rewrite Hp. unfold l. apply (sublist_NoDup _ (map fst (map_to_list z))); [apply NoDup_fst_map_to_list|].
    apply (fmap_sublist fst), where_sublist.
  - apply (sorted_coarser zrev_le); [intros x y w; unfold desc_by; lia|unfold zrev_le, desc_by; lia|].
    apply Sorted_merge_sort, _.
  - intros m. rewrite Hp. intros [Hin Hlt]%elem_of_where. destruct m as [k v]. apply elem_of_map_to_list in Hin.
    by apply bool_decide_eq_true in Hlt.
Qed.

(** ** Coherence *)

Section coherence.
Context {R : Type} `{Entity R} `{Holds core_db R} `{Gob R}.
Context (time_of : R -> Z) (zero : R) (set_key : string) (detail_key : string -> string) (mine : R -> bool).
Hypothesis detail_inj : forall i j, detail_key i = detail_key j -> i = j.
Hypothesis keys_apart : forall i, detail_key i <> set_key.
Hypothesis encodes : forall v : R, is_Some (GobEncoder v).
Hypothesis all_live : forall v : R, row_live v = true.

(** The set holds rows of the history with their times, and under the key of a row lies
    that row. *)
Definition coherent (t : table R) (r : gmap string redis_value) : Prop :=
  (forall z, r !! set_key = Some (RZset z) -> forall m sc, z !! m = Some sc ->
     exists v, v ∈ rows t /\ mine v = true /\ pretty (row_id v) = m /\ time_unix (time_of v) = sc)
  /\ (forall i s, r !! detail_key i = Some (RStr s) ->
     exists v, v ∈ rows t /\ pretty (row_id v) = i /\ GobDecoder s = Val v).

Lemma coherent_row t r v : v ∈ rows t -> mine v = true -> coherent t r ->
  coherent t (cache_row time_of set_key detail_key r v).
Proof.
  intros Hv Hm [Hset Hdet]. unfold cache_row. destruct (encodes v) as [b Hb]. rewrite Hb. cbn [default from_option id]. split.
  - intros z Hz m sc Hsc. rewrite lookup_insert_ne in Hz by apply keys_apart. unfold zadd in Hz.
    destruct (r !! set_key) as [[s|z0]|] eqn:E.
    + by rewrite E in Hz.
    + rewrite lookup_insert_eq in Hz. injection Hz as <-.
      apply lookup_insert_Some in Hsc as [[<- <-]|[_ Hsc]]; [by exists v | by apply (Hset z0)].
    + rewrite lookup_insert_eq in Hz. injection Hz as <-.
      apply lookup_singleton_Some in Hsc as [<- <-]. by exists v.
  - intros i s Hs. apply lookup_insert_Some in Hs as [[Heq Hs]|[_ Hs]].
    + apply detail_inj in Heq as <-. injection Hs as <-. exists v. split_and!; [done..|]. by apply gob_roundtrip.
    + apply Hdet. unfold zadd in Hs.
      destruct (r !! set_key) as [[s'|z0]|]; [done| |]; by rewrite lookup_insert_ne in Hs by (intros E; by apply (keys_apart i)).
Qed.

Lemma coherent_rows t vs : forall r, (forall v, v ∈ vs -> v ∈ rows t /\ mine v = true) -> coherent t r ->
  coherent t (foldl (cache_row time_of set_key detail_key) r vs).
Proof.
  induction vs as [|v vs IH]; intros r Hvs Hr; [done|]. cbn [foldl]. apply IH; [set_solver|].
  apply coherent_row; [apply Hvs; set_solver..|done].
Qed.

(** ** Pages *)

Context (q : R -> bool) (agrees : list R -> list string -> option bool) (cursor limit : Z).
Hypothesis q_iff : forall v, q v = true <-> mine v = true /\ time_of v < cursor * second.
Hypothesis agrees_first : forall v newest ids, agrees (v :: newest) ids = first_is v ids.
Hypothesis some_rows : 0 < limit.

(** A page that holds rows of the history before the cursor, none twice, the newest first,
    and the newest of all at its head. *)
Definition good_page (t : table R) (l : list R) : Prop :=
  (forall v, v ∈ l -> v ∈ select q t) /\ NoDup l /\ StronglySorted (desc_by (fun v => time_unix (time_of v))) l
  /\ Z.of_nat (length l) <= limit
  /\ forall v, v ∈ select q t -> exists v0, head l = Some v0 /\ time_of v <= time_of v0.

Definition db_rows (n : Z) (t : table R) : list R := limit_rows n (merge_sort (desc_by time_of) (select q t)).

Lemma db_rows_good t : table_wf t -> good_page t (db_rows limit t).
Proof.
  intros Hwf. unfold db_rows. set (s := merge_sort (desc_by time_of) (select q t)).
  assert (s ≡ₚ select q t) as Hp by apply merge_sort_Permutation.
  assert (StronglySorted (desc_by time_of) s) as Hs by apply sorted_desc_by.
  assert (NoDup s) as Hnd.
  { rewrite Hp. apply (NoDup_fmap_1 row_id). by apply sorted_lt_NoDup, sorted_where, Hwf. }
  unfold limit_rows. rewrite decide_True by lia. split_and!.
  - intros v Hv. rewrite <- Hp. apply elem_of_take in Hv as (i & Hi & _). by eapply list_elem_of_lookup_2.
  - apply (sublist_NoDup _ s); [done | apply sublist_take].
  - apply sorted_firstn. eapply sorted_coarser; [intros x y z; unfold desc_by; lia| |by apply StronglySorted_Sorted].
    intros x y. unfold desc_by, time_unix. intros Hle. apply Z.div_le_mono; [done|exact Hle].
  - rewrite length_take. lia.
  - intros v Hv. rewrite <- Hp in Hv. destruct s as [|v0 s']; [by apply not_elem_of_nil in Hv|]. exists v0. split.
    + destruct (Z.to_nat limit) eqn:E; [lia | done].
    + apply StronglySorted_inv in Hs as [_ Hall]. rewrite Forall_forall in Hall.
      apply elem_of_cons in Hv as [->|Hv]; [lia | by apply Hall].
Qed.

(** The rows of the cache, paired with the members of the set. *)
Definition backed (t : table R) (m : string * Z) (v : R) : Prop :=
  v ∈ rows t /\ mine v = true /\ pretty (row_id v) = m.1 /\ time_unix (time_of v) = m.2.

Lemma backed_rows t r z (ms : list (string * Z)) vals : table_wf t -> coherent t r -> r !! set_key = Some (RZset z) ->
  (forall m, m ∈ ms -> z !! m.1 = Some m.2) ->
  mapM id (map (fun k => match r !! k with Some (RStr s) => Some s | _ => None end) (map detail_key (map fst ms))) = Some vals ->
  Forall2 (backed t) ms (map (fun s => match GobDecoder s with Val v => v | Exn _ => zero end) vals).
Proof.
  intros Hwf [Hset Hdet] Hz. revert vals. induction ms as [|m ms IH]; intros vals Hin Hvals; simpl in Hvals.
  { injection Hvals as <-. constructor. }
  destruct (r !! detail_key m.1) as [[s|]|] eqn:Es; simpl in Hvals; [|done..].
  destruct (mapM id _) as [vals'|] eqn:Ev; simpl in Hvals; [|done]. injection Hvals as <-. simpl.
  constructor; [|apply IH; [set_solver|done]].
  destruct (Hdet _ _ Es) as (v & Hv & Hid & ->).
  destruct (Hset z Hz m.1 m.2 (Hin m ltac:(set_solver))) as (v' & Hv' & Hm & Hid' & Ht).
  assert (v = v') as ->; [|done]. apply (table_wf_unique t); [done..|]. apply (inj pretty). congruence.
Qed.

Hypothesis agrees_empty : forall ids, agrees [] ids <> None.

(** What a call leaves when it only fills the cache. *)
Definition only_caches (w w' : world core_db) : Prop :=
  healthy w' /\ w_db w' = w_db w /\ coherent (table_of (w_db w)) (w_redis w').

Lemma db_page_run n w : healthy w -> coherent (table_of (w_db w)) (w_redis w) ->
  wp (db_page time_of set_key detail_key q n)
     (fun o w' => o = Val (db_rows n (table_of (w_db w))) /\ only_caches w w') w.
Proof.
  intros Hw Hc. unfold db_page. apply wp_bind, wp_query; [done|]. unfold offset_rows. rewrite decide_False by lia.
  fold (db_rows n (table_of (w_db w))). set (l := db_rows n (table_of (w_db w))).
  assert (forall v, v ∈ l -> v ∈ rows (table_of (w_db w)) /\ mine v = true) as Hl.
  { intros v Hv. unfold l, db_rows in Hv. apply elem_of_limit_rows in Hv. rewrite merge_sort_Permutation in Hv.
    apply elem_of_select in Hv as (Hv & _ & Hq). split; [done|]. by apply q_iff. }
  clearbody l. apply wp_bind. unfold set_cache. destruct l as [|v l].
  - apply wp_ret, wp_ret. by split_and!.
  - apply wp_ignore_err, wp_redis_exec; [done|]. apply wp_ret. split; [done|]. split_and!; [done|done|].
    by apply coherent_rows.
Qed.

Lemma backed_selected t m v : backed t m v -> m.2 < cursor -> v ∈ select q t.
Proof.
  intros (Hv & Hmine & _ & Ht) Hlt. apply elem_of_select. split_and!; [done|apply all_live|]. apply q_iff. split; [done|].
  unfold time_unix in Ht. rewrite <- Ht in Hlt. assert (0 < second) by done.
  pose proof (Z.div_mod (time_of v) second). pose proof (Z.mod_pos_bound (time_of v) second). nia.
Qed.

(** The rows of the cache are a good page when the newest row of the table is first. *)
Lemma backed_good t z ms l v0 rest : table_wf t -> Forall2 (backed t) ms l ->
  ms = take (Z.to_nat limit) (below cursor z) ->
  merge_sort (desc_by time_of) (select q t) = v0 :: rest -> map fst ms = pretty (row_id v0) :: tail (map fst ms) ->
  good_page t l.
Proof.
  intros Hwf Hall Hms Hsort Hhead. destruct (below_spec cursor z) as (Hnd & Hs & Hin).
  assert (forall m, m ∈ ms -> z !! m.1 = Some m.2 /\ m.2 < cursor) as Hin'.
  { intros m Hm. apply Hin. subst ms. apply elem_of_take in Hm as (i & Hi & _). by eapply list_elem_of_lookup_2. }
  split_and!.
  - intros v Hv. apply list_elem_of_lookup in Hv as [i Hi].
    destruct (Forall2_lookup_r _ _ _ _ _ Hall Hi) as (m & Hm & Hv).
    apply (backed_selected t m); [done|]. apply Hin'. by eapply list_elem_of_lookup_2.
  - apply (NoDup_fmap_1 (fun v => pretty (row_id v))).
    assert ((fun v : R => pretty (row_id v)) <$> l = map fst ms) as ->.
    { clear -Hall. induction Hall as [|m v ms l (_ & _ & Hid & _) _ IH]; [done|].
      change (pretty (row_id v) :: ((fun v : R => pretty (row_id v)) <$> l) = m.1 :: map fst ms). by rewrite Hid, IH. }
    subst ms. rewrite <- firstn_map. apply (sublist_NoDup _ (map fst (below cursor z))); [done | apply sublist_take].
  - assert (StronglySorted (desc_by snd) ms) as Hsm by (subst ms; by apply sorted_firstn).
    clear -Hall Hsm. induction Hall as [|m v ms l (_ & _ & _ & Ht) Hall IH]; [constructor|].
    apply StronglySorted_inv in Hsm as [Hsm Hm]. constructor; [by apply IH|].
    apply Forall_forall. intros v' Hv'. apply list_elem_of_lookup in Hv' as [i Hi].
    destruct (Forall2_lookup_r _ _ _ _ _ Hall Hi) as (m' & Hm' & _ & _ & _ & Ht').
    rewrite Forall_forall in Hm. apply list_elem_of_lookup_2 in Hm'. specialize (Hm m' Hm').
    unfold desc_by in *. lia.
  - rewrite <- (Forall2_length _ _ _ Hall). subst ms. rewrite length_take. lia.
  - intros v Hv. assert (exists v1 l', l = v1 :: l' /\ v1 = v0) as (v1 & l' & -> & ->).
    { destruct Hall as [|m v1 ms l (Hv1 & _ & Hid & _) Hall]; [done|]. exists v1, l. split; [done|].
      simpl in Hhead. injection Hhead as Hhead. apply (table_wf_unique t); [done|done| |].
      - assert (v0 ∈ select q t) as Hv0 by (rewrite <- (merge_sort_Permutation (desc_by time_of)), Hsort; set_solver).
        by apply elem_of_select in Hv0 as [? _].
      - apply (inj pretty). congruence. }
    exists v0. split; [done|]. pose proof (sorted_desc_by time_of (select q t)) as Hd. rewrite Hsort in Hd.
    rewrite <- (merge_sort_Permutation (desc_by time_of)), Hsort in Hv.
    apply StronglySorted_inv in Hd as [_ Hf]. rewrite Forall_forall in Hf.
    apply elem_of_cons in Hv as [->|Hv]; [lia | by apply Hf].
Qed.
(** When the ids of the cache are taken, the newest row of the table is the first. *)
Lemma agreed_head t r z ms : coherent t r -> r !! set_key = Some (RZset z) -> ms <> [] ->
  (forall m, m ∈ ms -> z !! m.1 = Some m.2 /\ m.2 < cursor) ->
  agrees (limit_rows 1 (merge_sort (desc_by time_of) (select q t))) (map fst ms) = Some true ->
  exists v0 rest, merge_sort (desc_by time_of) (select q t) = v0 :: rest
    /\ map fst ms = pretty (row_id v0) :: tail (map fst ms).
Proof.
  intros [Hset _] Hz Hne Hin Ha. destruct ms as [|m ms]; [done|].
  unfold limit_rows in Ha. rewrite decide_True in Ha by lia.
  destruct (merge_sort (desc_by time_of) (select q t)) as [|v0 rest] eqn:Hsort.
  - exfalso. destruct (Hin m (list_elem_of_here _ _)) as [Hm Hlt].
    destruct (Hset z Hz m.1 m.2 Hm) as (v & Hv & Hmine & Hid & Ht).
    assert (v ∈ select q t) as Hq by (by apply (backed_selected t m)).
    rewrite <- (merge_sort_Permutation (desc_by time_of)), Hsort in Hq. by apply not_elem_of_nil in Hq.
  - exists v0, rest. split; [done|]. change (Z.to_nat 1) with 1%nat in Ha. cbn [take] in Ha. rewrite agrees_first in Ha. simpl in Ha |- *.
    injection Ha as Ha%bool_decide_eq_true. by rewrite Ha.
Qed.

(** A page of what the history holds, and no more changes than the cache's. *)
Definition right_page (w : world core_db) (o : outcome (list R)) (w' : world core_db) : Prop :=
  only_caches w w' /\ exists l, o = Val l /\ good_page (table_of (w_db w)) l
    /\ (w_redis w !! set_key = None -> l = db_rows limit (table_of (w_db w))).

Lemma page_from_db w w1 : table_wf (table_of (w_db w)) -> coherent (table_of (w_db w)) (w_redis w) ->
  healthy w1 -> w_db w1 = w_db w -> w_redis w1 = w_redis w ->
  wp (db_page time_of set_key detail_key q limit) (right_page w) w1.
Proof.
  intros Hwf Hc Hw1 Hd Hr. eapply wp_mono; [apply db_page_run; [done | by rewrite Hd, Hr]|].
  intros o w' [-> Ho]. unfold only_caches in Ho. rewrite Hd in Ho. split; [done|].
  exists (db_rows limit (table_of (w_db w))). rewrite Hd. split_and!; [done|by apply db_rows_good|done].
Qed.

Lemma page_good w : healthy w -> table_wf (table_of (w_db w)) -> coherent (table_of (w_db w)) (w_redis w) ->
  wp (page time_of zero set_key detail_key q agrees cursor limit) (right_page w) w.
Proof.
  intros Hw Hwf Hc. set (t := table_of (w_db w)) in *.
  assert (forall n, wp (db_page time_of set_key detail_key q limit) (right_page w) (Nat.iter n tick w)) as Hagain.
  { intros n. apply page_from_db; [done..| | |]; induction n; done. }
  unfold page. apply wp_bind, wp_attempt. unfold wp at 1, redis_zrange. rewrite Hw.
  destruct (w_redis w !! set_key) as [[s|z]|] eqn:Hz; cbn [fst snd]; [by apply (Hagain 1%nat)| |].
  all: apply wp_bind, wp_query; [done|]; unfold offset_rows; rewrite !decide_False by lia; cbv zeta;
    change (table_of (w_db (tick w))) with t.
  2:{ cbn [length]. rewrite (proj2 (Z.ltb_lt (Z.of_nat 0) limit)) by lia. by apply (Hagain 2%nat). }
  rewrite (proj2 (Z.leb_gt limit 0)) by lia. rewrite firstn_map.
  set (ms := take (Z.to_nat limit) (below cursor z)).
  destruct (Z.ltb_spec (Z.of_nat (length (map fst ms))) limit) as [Hlt|Hge]; [by apply (Hagain 2%nat)|].
  rewrite length_map in Hge. assert (ms <> []) as Hne by (intros E; rewrite E in Hge; simpl in Hge; lia).
  assert (forall m, m ∈ ms -> z !! m.1 = Some m.2 /\ m.2 < cursor) as Hin.
  { intros m Hm. apply (proj2 (proj2 (below_spec cursor z))). subst ms.
    apply elem_of_take in Hm as (i & Hi & _). by eapply list_elem_of_lookup_2. }
  destruct (agrees _ (map fst ms)) as [[]|] eqn:Ha; [|by apply (Hagain 2%nat)|].
  2:{ exfalso. unfold limit_rows in Ha. rewrite decide_True in Ha by lia.
      destruct (merge_sort _ (select q t)); change (Z.to_nat 1) with 1%nat in Ha; cbn [take] in Ha;
        [by apply agrees_empty in Ha|].
      rewrite agrees_first in Ha. by destruct ms. }
  unfold cached_rows. apply wp_bind, wp_bind, wp_attempt.
  assert (exists k ks, map detail_key (map fst ms) = k :: ks) as (k & ks & Hks).
  { destruct ms; [done | by eexists _, _]. }
  rewrite Hks. apply wp_redis_mget; [done|]. apply wp_ret. rewrite <- Hks.
  change (w_redis (tick (tick w))) with (w_redis w).
  destruct (mapM id _) as [vals|] eqn:Hvals; [|by apply (Hagain 3%nat)].
  cbn [mbind option_bind]. apply wp_ret.
  pose proof (backed_rows t (w_redis w) z ms vals Hwf Hc Hz (fun m Hm => proj1 (Hin m Hm)) Hvals) as Hall.
  destruct (agreed_head t (w_redis w) z ms Hc Hz Hne Hin Ha) as (v0 & rest & Hsort & Hhead).
  split; [by split_and!|]. eexists. split; [done|]. split; [|by rewrite Hz].
  by apply (backed_good t z ms _ v0 rest).
Qed.
End coherence.
