(* ===== verification/HistoryProps.v ===== *)
(** What the lists of submissions and contests and the times of the last submissions
    hold, with the cache of each between the calls. *)
From S2P Require Export HistoryTheory.
From S2P Require Import JsonTheory UserProps.

(** ** Keys *)

#[export] Instance submit_detail_key_inj : Inj (=) (=) submit_detail_key.
Proof. intros i j. unfold submit_detail_key. by intros H%(inj _). Qed.
#[export] Instance contest_detail_key_inj : Inj (=) (=) contest_detail_key.
Proof. intros i j. unfold contest_detail_key. by intros H%(inj _). Qed.
Lemma submit_keys_apart u i : submit_detail_key i <> submit_set_key u.
Proof. done. Qed.
Lemma contest_keys_apart u p i : contest_detail_key i <> contest_set_key u p.
Proof. done. Qed.

(** What each cache promises: members and rows of the table, under the keys of a user. *)
Definition submits_coherent `{Gob SubmitLog} (u : Z) (w : world core_db) : Prop :=
  coherent s_Time (submit_set_key u) submit_detail_key
    (fun s => bool_decide (u = -1) || bool_decide (s_UserID s = u)) (submits (w_db w)) (w_redis w).
Definition contests_coherent `{Gob ContestLog} (u : Z) (p : string) (w : world core_db) : Prop :=
  coherent c_Time (contest_set_key u p) contest_detail_key
    (fun c => (bool_decide (u = -1) || bool_decide (c_UserID c = u))
              && (bool_decide (p = "") || bool_decide (c_Platform c = p)))
    (contests (w_db w)) (w_redis w).

Section history_props.
Context `{Gob SubmitLog} `{Gob ContestLog}.

(** C13: a page of submissions is right whether it comes from the database or from the
    sorted set and the rows in Redis: it holds submissions before the cursor, of the user
    or of everybody, each once, newest first, at most as many as were asked for, and the
    newest of all leads it.  The call changes no row, and leaves the cache as faithful to
    the table as it was: members of the set are rows with their times, and under the key
    of a row lies that row. *)
Theorem submissions_page_right (u cursor limit : Z) (w : world core_db) :
  (forall v : SubmitLog, is_Some (GobEncoder v)) -> 0 < limit -> healthy w -> table_wf (submits (w_db w)) ->
  submits_coherent u w ->
  let before := if decide (cursor = -1) then far_future else cursor in
  wp (svc_GetSubmitLog u cursor limit) (fun o w' =>
      healthy w' /\ w_db w' = w_db w /\ submits_coherent u w' /\ exists l, o = Val (map submit_item l)
      /\ good_page s_Time (submits_before u before) limit (submits (w_db w)) l) w.
Proof.
  intros Henc Hlim Hw Hwf Hc before. unfold svc_GetSubmitLog. apply wp_bind, wp_map_err. unfold GetByUserId. fold before.
  eapply wp_mono; [apply (page_good s_Time no_submission (submit_set_key u) submit_detail_key
    (fun s => bool_decide (u = -1) || bool_decide (s_UserID s = u))); try done|].
  - by intros i j ?%(inj _).
  - intros v. unfold submits_before, of_user_or_all. rewrite andb_true_iff, (bool_decide_eq_true (_ < _)). done.
  - intros o w' [(Hw' & Hd & Hc') (l & -> & Hl & _)]. apply wp_ret. unfold submits_coherent. rewrite Hd.
    split_and!; [done..|]. by exists l.
Qed.

(** The history of a user's contests, on one platform or on all, is a right page in
    the same sense, from the database or from the cache. *)
Theorem contest_history_right (u cursor limit : Z) (p : string) (w : world core_db) :
  (forall v : ContestLog, is_Some (GobEncoder v)) -> 0 < limit -> healthy w -> table_wf (contests (w_db w)) ->
  contests_coherent u p w ->
  let before := if decide (cursor = 0) then far_future else cursor in
  wp (svc_GetUserContestHistory u cursor limit p) (fun o w' =>
      healthy w' /\ w_db w' = w_db w /\ contests_coherent u p w' /\ exists l, o = Val (map contest_item l)
      /\ good_page c_Time (contests_before u before p) limit (contests (w_db w)) l) w.
Proof.
  intros Henc Hlim Hw Hwf Hc before. unfold svc_GetUserContestHistory. apply wp_bind, wp_map_err.
  unfold GetContestByUserId. fold before.
  eapply wp_mono; [apply (page_good c_Time no_contest (contest_set_key u p) contest_detail_key
    (fun c => (bool_decide (u = -1) || bool_decide (c_UserID c = u))
              && (bool_decide (p = "") || bool_decide (c_Platform c = p)))); try done|].
  - by intros i j ?%(inj _).
  - intros v. unfold contests_before, of_user_or_all.
    rewrite !andb_true_iff, (bool_decide_eq_true (_ < _)). tauto.
  - intros o w' [(Hw' & Hd & Hc') (l & -> & Hl & _)]. apply wp_ret. unfold contests_coherent. rewrite Hd.
    split_and!; [done..|]. by exists l.
Qed.
End history_props.

(** ** Last submissions *)

Lemma last_submit_key_inj u v : last_submit_key u = last_submit_key v -> u = v.
Proof.
  unfold last_submit_key. intros He%(inj _). apply (f_equal bytes_of) in He. rewrite !app_bytes in He.
  apply app_inv_tail in He. apply (inj pretty). by rewrite <- (of_bytes_of (pretty u)), He, of_bytes_of.
Qed.

(** A time of a submission of the user that none of the user's passes. *)
Definition last_time (t : table SubmitLog) (u x : Z) : Prop :=
  (exists s, s ∈ rows t /\ s_UserID s = u /\ time_unix (s_Time s) = x)
  /\ forall s, s ∈ rows t -> s_UserID s = u -> time_unix (s_Time s) <= x.

Lemma last_time_unique t u x y : last_time t u x -> last_time t u y -> x = y.
Proof. intros [(s & Hs & Hu & <-) Hx] [(s' & Hs' & Hu' & <-) Hy]. pose proof (Hx s' Hs' Hu'). pose proof (Hy s Hs Hu). lia. Qed.

Lemma time_unix_mono x y : x <= y -> time_unix x <= time_unix y.
Proof. intros H. unfold time_unix. by apply Z.div_le_mono. Qed.

Lemma latest_of_spec d u x : latest_of d u = Some x <-> last_time (submits d) u x.
Proof.
  unfold latest_of. set (l := select _ _).
  assert (forall s, s ∈ l <-> s ∈ rows (submits d) /\ s_UserID s = u) as Hl.
  { intros s. unfold l. rewrite elem_of_select, bool_decide_eq_true. split; [by intros (? & _ & ?) | by intros []]. }
  pose proof (sorted_desc_by s_Time l) as Hs. pose proof (merge_sort_Permutation (desc_by s_Time) l) as Hp.
  destruct (merge_sort (desc_by s_Time) l) as [|s0 rest]; cbn [head mbind option_bind].
  - split; [done|]. intros [(s & Hs0 & Hu & _) _]. assert (s ∈ l) as Hin by by apply Hl.
    rewrite <- Hp in Hin. by apply not_elem_of_nil in Hin.
  - assert (last_time (submits d) u (time_unix (s_Time s0))) as Hlast.
    { split; [exists s0; assert (s0 ∈ l) as Hin by (rewrite <- Hp; apply list_elem_of_here); by apply Hl in Hin as []|].
      intros s Hs0 Hu. apply time_unix_mono. assert (s ∈ l) as Hin by by apply Hl.
      rewrite <- Hp in Hin. apply StronglySorted_inv in Hs as [_ Hall]. rewrite Forall_forall in Hall.
      apply elem_of_cons in Hin as [->|Hin]; [done | by apply Hall]. }
    split; [by intros [= <-]|]. intros Hx. f_equal. by eapply last_time_unique.
Qed.

Definition times_cached (w : world core_db) : Prop :=
  forall u s, w_redis w !! last_submit_key u = Some (RStr s) ->
    exists x, s = pretty x /\ in_int64 x /\ last_time (submits (w_db w)) u x.

(** A map of the users of a list, with the last time of each who has one. *)
Definition times_of (t : table SubmitLog) (us : list Z) (m : gmap Z Z) : Prop :=
  forall u x, m !! u = Some x <-> u ∈ us /\ last_time t u x.

Lemma lookup_foldl_insert {A K V} `{Countable K} (key : A -> K) (val : A -> V) (l : list A) : forall (m : gmap K V) k v,
  (forall a b, a ∈ l -> b ∈ l -> key a = key b -> val a = val b) ->
  (foldl (fun m a => <[key a := val a]> m) m l !! k = Some v <->
   (exists a, a ∈ l /\ key a = k /\ val a = v) \/ ((forall a, a ∈ l -> key a <> k) /\ m !! k = Some v)).
Proof.
  induction l as [|a l IH]; intros m k v Hfun; cbn [foldl].
  { split; [right; split; [|done]; by intros a Ha%not_elem_of_nil | intros [(a & Ha%not_elem_of_nil & _)|[_ ?]]; done]. }
  rewrite IH by (intros x y Hx Hy; apply Hfun; set_solver). split.
  - intros [(b & Hb & <- & <-)|[Hno Hm]]; [left; exists b; set_solver|].
    apply lookup_insert_Some in Hm as [[<- <-]|[Hne Hm]]; [left; exists a; set_solver | right; set_solver].
  - intros [(b & Hb & <- & <-)|[Hno Hm]].
    + destruct (decide (key b ∈ map key l)) as [(c & Hk & Hc)%list_elem_of_fmap|Hno].
      * left. exists c. split_and!; [done..|]. apply Hfun; set_solver.
      * right. split; [intros c Hc Hk; apply Hno; rewrite <- Hk; by apply list_elem_of_fmap_2|].
        apply elem_of_cons in Hb as [->|Hb]; [by rewrite lookup_insert_eq | by destruct Hno; apply list_elem_of_fmap_2].
    + right. split; [set_solver|]. rewrite lookup_insert_ne; [done|]. apply Hno, list_elem_of_here.
Qed.

(** The pass over the cached values. *)
Lemma cached_times_run (hit : Z -> option string) us :
  cached_times us (map hit us)
  = (where_ (fun u => negb (bool_decide (is_Some (hit u)))) us,
     foldl (fun m us => <[us.1 := parse_int64_lax us.2]> m) ∅ (omap (fun u => s ← hit u; Some (u, s)) us)).
Proof.
  unfold cached_times. set (missing := fun u => negb (bool_decide (is_Some (hit u)))).
  match goal with |- foldl ?f _ _ = _ => set (see := f) end.
  change (where_ missing us) with ([] ++ where_ missing us).
  generalize (@nil Z) (∅ : gmap Z Z). induction us as [|u us IH]; intros miss m; [by rewrite app_nil_r|].
  cbn [map zip_with foldl omap list_omap].
  assert (see (miss, m) (u, hit u)
          = match hit u with Some v => (miss, <[u := parse_int64_lax v]> m) | None => (miss ++ [u], m) end) as -> by done.
  unfold where_. cbn [List.filter]. fold (where_ missing us). unfold missing at 1.
  destruct (hit u) as [s|]; cbn [mbind option_bind]; rewrite IH; [done | by rewrite <- app_assoc].
Qed.

Lemma elem_of_latest us d u x : (u, x) ∈ latest_submits us d <-> u ∈ us /\ last_time (submits d) u x.
Proof.
  unfold latest_submits. rewrite list_elem_of_omap. split.
  - intros (v & Hv & Hx). destruct (latest_of d v) as [y|] eqn:E; [|done]. simpl in Hx. injection Hx as <- <-.
    rewrite merge_sort_Permutation, elem_of_remove_dups in Hv. by rewrite <- latest_of_spec.
  - intros [Hu Hx%latest_of_spec]. exists u. rewrite merge_sort_Permutation, elem_of_remove_dups, Hx. done.
Qed.

Section last_times.
Context (w : world core_db) (us : list Z).
Hypothesis cached : times_cached w.

Definition hit (u : Z) : option string :=
  match w_redis w !! last_submit_key u with Some (RStr s) => Some s | _ => None end.

Lemma hit_time u s : hit u = Some s -> last_time (submits (w_db w)) u (parse_int64_lax s).
Proof.
  unfold hit. destruct (w_redis w !! last_submit_key u) as [[s'|]|] eqn:E; [|done..]. intros [= ->].
  destruct (cached u s E) as (x & -> & Hx & Hl). by rewrite parse_int64_lax_pretty.
Qed.

(** The map of the cached times, completed with the latest of the others. *)
Lemma times_complete :
  let c := cached_times us (map hit us) in
  times_of (submits (w_db w)) us (foldl (fun m ut => <[ut.1 := ut.2]> m) c.2 (latest_submits c.1 (w_db w))).
Proof.
  intros c. unfold c. rewrite cached_times_run. cbn [fst snd]. set (missing := fun u => negb (bool_decide (is_Some (hit u)))).
  intros u x. rewrite lookup_foldl_insert.
  2:{ intros [a x1] [b x2] Ha Hb E. simpl in E. subst b. apply elem_of_latest in Ha as [_ Ha], Hb as [_ Hb].
      by eapply last_time_unique. }
  rewrite lookup_foldl_insert.
  2:{ intros [a s1] [b s2] (a' & _ & Ha)%list_elem_of_omap (b' & _ & Hb)%list_elem_of_omap E.
      destruct (hit a') eqn:E1; [|done]. destruct (hit b') eqn:E2; [|done]. simpl in *. simplify_eq. done. }
  split.
  - intros [([v y] & [Hv%elem_of_where Hl]%elem_of_latest & Hu & Hx)|[_ [([v s] & Hin & Hu & Hx)|[_ Hx]]]]; simpl in *; subst; [by destruct Hv| |done].
    apply list_elem_of_omap in Hin as (u' & Hu' & Hs). destruct (hit u') as [s'|] eqn:E; [|done]. simpl in Hs. simplify_eq.
    split; [done | by apply hit_time].
  - intros [Hu Hx]. destruct (hit u) as [s|] eqn:E.
    + right. split.
      * intros [v y] [Hv%elem_of_where _]%elem_of_latest. simpl. intros ->. destruct Hv as [_ Hv]. unfold missing in Hv.
        by rewrite E, bool_decide_true in Hv by done.
      * left. exists (u, s). split_and!; [|done|by eapply last_time_unique; [apply hit_time|]].
        apply list_elem_of_omap. exists u. by rewrite E.
    + left. exists (u, x). split_and!; [|done..]. apply elem_of_latest. split; [|done]. apply elem_of_where. split; [done|].
      unfold missing. by rewrite E, bool_decide_false by (intros [? [=]]).
Qed.

(** The cache stays right when the latest times are stored. *)
Lemma times_stored users : (forall s, s ∈ rows (submits (w_db w)) -> in_int64 (time_unix (s_Time s))) ->
  let r := foldl (fun r ut => <[last_submit_key ut.1 := RStr (pretty ut.2)]> r) (w_redis w) (latest_submits users (w_db w)) in
  forall u s, r !! last_submit_key u = Some (RStr s) ->
    exists x, s = pretty x /\ in_int64 x /\ last_time (submits (w_db w)) u x.
Proof.
  intros Hfit r u s Hr. unfold r in Hr.
  rewrite (lookup_foldl_insert (fun ut : Z * Z => last_submit_key ut.1) (fun ut => RStr (pretty ut.2))) in Hr.
  2:{ intros [a x1] [b x2] Ha Hb E%last_submit_key_inj. simpl in E. subst b. apply elem_of_latest in Ha as [_ Ha], Hb as [_ Hb].
      by rewrite (last_time_unique _ _ _ _ Ha Hb). }
  destruct Hr as [([v x] & [_ Hl]%elem_of_latest & Hu%last_submit_key_inj & Hx)|[_ Hs]]; [|by apply cached].
  simpl in Hu, Hx. subst v. injection Hx as <-. exists x. split_and!; [done| |done].
  destruct Hl as [(s' & Hs' & _ & <-) _]. by apply Hfit.
Qed.
End last_times.

(** The times of the last submissions are right: the reply has an entry for exactly
    the requested users that have submissions, repeated and unknown ones included, and it
    is the latest time among the user's rows, whether it was cached or not.  What the call
    caches is right again. *)
Theorem last_submits_right (us : list Z) (w : world core_db) :
  healthy w -> times_cached w -> (forall s, s ∈ rows (submits (w_db w)) -> in_int64 (time_unix (s_Time s))) ->
  wp (svc_LastSubmitTime us) (fun o w' =>
      healthy w' /\ w_db w' = w_db w /\ times_cached w' /\ exists m, o = Val m /\ times_of (submits (w_db w)) us m) w.
Proof.
  intros Hw Hc Hfit. pose proof (times_complete w us Hc) as Hm. cbv zeta in Hm.
  unfold svc_LastSubmitTime. apply wp_bind, wp_attempt. destruct us as [|u us].
  { unfold wp at 1, redis_mget. rewrite Hw. cbn. split_and!; [done..|]. exists ∅. split; [done|].
    intros u x. rewrite lookup_empty. split; [done | by intros [Hu%not_elem_of_nil _]]. }
  cbn [map]. apply wp_redis_mget; [done|].
  replace (map _ (last_submit_key u :: map last_submit_key us)) with (map (hit w) (u :: us)) by (cbn [map]; by rewrite map_map).
  destruct (cached_times (u :: us) (map (hit w) (u :: us))) as [miss m] eqn:Ht. cbn [fst snd] in Hm.
  destruct miss as [|v miss]; [apply wp_ret; split_and!; [done..|]; by exists m|].
  unfold or_fail. apply wp_bind, wp_map_err, wp_query; [done|]. change (w_db (tick w)) with (w_db w).
  destruct (latest_submits (v :: miss) (w_db w)) as [|p d] eqn:Hd.
  - cbv iota. apply wp_bind, wp_ret, wp_ret. split_and!; [done..|]. by eexists.
  - apply wp_bind, wp_ignore_err, wp_redis_exec; [done|]. apply wp_ret. rewrite <- Hd in *. split_and!; [done|done| |by eexists].
    intros a s Hs. exact (times_stored w Hc (v :: miss) Hfit a s Hs).
Qed.

(** ** Sample runs *)

(** A codec for any countable type: the binary digits of its number. *)
Fixpoint bits_text (p : positive) : string :=
  match p with
  | xH => "1"
  | xO p => String (byte_of 48) (bits_text p)
  | xI p => String (byte_of 49) (bits_text p)
  end.
Fixpoint text_bits (s : string) : positive :=
  match s with
  | "" => xH
  | String a "" => xH
  | String a s => if decide (a = byte_of 48) then xO (text_bits s) else xI (text_bits s)
  end.
Lemma text_bits_text p : text_bits (bits_text p) = p.
Proof.
  assert (forall p, exists a s, bits_text p = String a s) as Hne by (intros []; by eexists _, _).
  induction p as [p IH|p IH|]; [| |done]; destruct (Hne p) as (a & s & E); cbn [bits_text text_bits]; rewrite E; rewrite E in IH;
    [rewrite decide_False by done | rewrite decide_True by done]; by rewrite IH.
Qed.
Definition bits_codec {A} `{Countable A} : Gob A.
Proof.
  refine {| GobEncoder (v : A) := Some (bits_text (encode v));
            GobDecoder s := match decode (text_bits s) with Some v => Val (v : A) | None => Exn (Driver "EOF") end |}.
  intros a b E. injection E as <-. by rewrite text_bits_text, decode_encode.
Defined.

Lemma bits_encode {A} `{Countable A} (v : A) : is_Some (@GobEncoder A bits_codec v).
Proof. by eexists. Qed.

#[export] Instance SubmitLog_eq_dec : EqDecision SubmitLog.
Proof. solve_decision. Defined.
#[export] Instance ContestLog_eq_dec : EqDecision ContestLog.
Proof. solve_decision. Defined.
#[export] Instance SubmitLog_countable : Countable SubmitLog.
Proof.
  refine (inj_countable'
    (fun s => ((s_ID s, s_Platform s, s_UserID s, s_SubmitID s, s_Contest s), (s_Problem s, s_Lang s, s_Status s, s_Time s)))
    (fun x => let '((a, b, c, d, e), (f, g, h, i)) := x in Submission a b c d e f g h i) _).
  by intros [].
Defined.
#[export] Instance ContestLog_countable : Countable ContestLog.
Proof.
  refine (inj_countable'
    (fun c => ((c_ID c, c_Platform c, c_UserID c, c_ContestId c, c_ContestName c, c_ContestUrl c),
               (c_Rank c, c_TotalCount c, c_AcCount c, c_Time c, c_EndTime c)))
    (fun x => let '((a, b, c, d, e, f), (g, h, i, j, k)) := x in ContestRow a b c d e f g h i j k) _).
  by intros [].
Defined.
#[local] Existing Instance bits_codec.

(** Four submissions of user 7, at the seconds 400, 300, 200 and 100. *)
Definition at_second (id t : Z) : SubmitLog := Submission id "QOJ" 7 (pretty (10 + id)) "" "A" "C++" "AC" (t * second).
Definition four_rows : core_db :=
  CoreDb (Table [] 1) (Table [] 1) (Table [] 1)
    (Table [at_second 1 400; at_second 2 300; at_second 3 200; at_second 4 100] 5)
    (Table [] 1) (Table [] 1) (Table [] 1) (Table [] 1) [] ∅ zero_time.

(** A cached page may leave rows out.  The sorted set collects the rows of pages that
    do not adjoin, and only its first id is compared with the table: after the newest row
    and, from an older cursor, the fourth have been read, a page of two is the first and
    the fourth row, where the same request had answered the first and the second. *)
Theorem cached_page_skips_rows :
  let read cursor limit w := svc_GetSubmitLog 7 cursor limit w in
  let w1 := (read (-1) 1 (world_of four_rows)).2 in
  let w2 := (read 200 1 w1).2 in
  map sl_Time <$> (match (read (-1) 2 w1).1 with Val l => Some l | Exn _ => None end) = Some [400; 300]
  /\ map sl_Time <$> (match (read (-1) 2 w2).1 with Val l => Some l | Exn _ => None end) = Some [400; 100].
Proof. split; vm_compute; reflexivity. Qed.

Lemma four_rows_wf : table_wf (submits four_rows).
Proof. wf_table. Qed.

Lemma no_redis_coherent `{Gob SubmitLog} u d : submits_coherent u (world_of d).
Proof. split; intros ?; [done|]. by intros s. Qed.

Lemma submissions_page_right_witness :
  let w := (svc_GetSubmitLog 7 (-1) 3 (world_of four_rows)).2 in
  is_Some (w_redis w !! submit_set_key 7) /\
  wp (svc_GetSubmitLog 7 (-1) 2) (fun o w' =>
      healthy w' /\ w_db w' = w_db w /\ submits_coherent 7 w' /\ exists l, o = Val (map submit_item l)
      /\ good_page s_Time (submits_before 7 far_future) 2 (submits (w_db w)) l) w.
Proof.
  intros w. assert (healthy w /\ w_db w = four_rows /\ submits_coherent 7 w) as (Hw & Hd & Hc).
  { pose proof (submissions_page_right 7 (-1) 3 (world_of four_rows) bits_encode eq_refl
      (world_of_healthy four_rows) four_rows_wf (no_redis_coherent 7 four_rows)) as H. unfold wp in H. fold w in H.
    by destruct H as (Hw & Hd & Hc & _). }
  split; [vm_compute; by eexists|].
  exact (submissions_page_right 7 (-1) 2 w bits_encode eq_refl Hw (eq_ind_r _ four_rows_wf (f_equal submits Hd)) Hc).
Defined.

(** Two contests of user 7. *)
Definition contest_at (id t : Z) : ContestLog :=
  ContestRow id "QOJ" 7 (pretty id) "round" "" 1 2 1 (t * second) (t * second).
Definition two_contests : core_db :=
  CoreDb (Table [] 1) (Table [] 1) (Table [] 1) (Table [] 1)
    (Table [contest_at 1 100; contest_at 2 200] 3) (Table [] 1) (Table [] 1) (Table [] 1) [] ∅ zero_time.

Lemma two_contests_wf : table_wf (contests two_contests).
Proof. wf_table. Qed.

Lemma contest_history_right_witness :
  wp (svc_GetUserContestHistory 7 0 2 "QOJ") (fun o w' =>
      healthy w' /\ w_db w' = two_contests /\ contests_coherent 7 "QOJ" w' /\ exists l, o = Val (map contest_item l)
      /\ good_page c_Time (contests_before 7 far_future "QOJ") 2 (contests two_contests) l) (world_of two_contests).
Proof.
  apply (contest_history_right 7 0 2 "QOJ" (world_of two_contests)).
  - apply bits_encode.
  - done.
  - apply world_of_healthy.
  - apply two_contests_wf.
  - split; intros ?; [done|]. by intros s.
Defined.

Lemma last_submits_right_witness :
  let w := (svc_LastSubmitTime [7] (world_of four_rows)).2 in
  w_redis w !! last_submit_key 7 = Some (RStr "400") /\
  wp (svc_LastSubmitTime [7; 8]) (fun o w' =>
      healthy w' /\ w_db w' = w_db w /\ times_cached w'
      /\ exists m, o = Val m /\ times_of (submits (w_db w)) [7; 8] m) w.
Proof.
  intros w. assert (forall s, s ∈ rows (submits four_rows) -> in_int64 (time_unix (s_Time s))) as Hfit.
  { apply Forall_forall. by repeat constructor. }
  assert (healthy w /\ w_db w = four_rows /\ times_cached w) as (Hw & Hd & Hc).
  { pose proof (last_submits_right [7] (world_of four_rows) (world_of_healthy four_rows)) as H. unfold wp in H. fold w in H.
    by destruct H as (Hw & Hd & Hc & _); [|exact Hfit|]. }
  split; [vm_compute; reflexivity|]. apply last_submits_right; [done..|]. by rewrite Hd.
Defined.
