(* ===== verification/CoreHttp.v ===== *)
(** The routes of the core-data service that are registered with [srv.HandleFunc]:
    [internal/server/http.go].  The framework's middlewares, the check of the token's
    signature among them, are run by the generated handlers and not by these. *)
From S2P Require Export AuditService SnapshotService StatisticDal Token.

(** ** Requests and replies *)

(** [cr_Query] is [r.URL.Query().Get]; [cr_Auth] the header [Authorization]. *)
Record core_request := CoreRequest {
  cr_Method : string; cr_Path : string; cr_Query : string -> string; cr_Body : string; cr_Auth : string }.

Inductive core_body :=
  | BodyNone
  | BodyError (code : Z) (message : string)
  | BodyPlatformPeriod (l : list PlatformPeriodCount)
  | BodyTeamPeriod (r : TeamPeriodResponse)
  | BodyPlatformDetail (d : StatisticPlatformDetail)
  | BodySpiderAudit (l : list SpiderAuditItem)
  | BodyCacheClear (r : Z * Z)
  | BodyHealth (r : HealthReply)
  | BodyJob (r : CodeJobReply)
  | BodyRebuild (r : RebuildAllReply)
  | BodyLogs (r : list OperationLogItem * Z)
  | BodySnapshot (r : FeatureSnapshotResponse).
Record core_reply := CoreReply { cy_Status : Z; cy_Body : core_body }.

(** ** Parameters *)


Definition parseIntQuery (r : core_request) (key : string) (fallback : Z) : option Z :=
  let raw := cr_Query r key in if decide (raw = "") then Some fallback else parse_int64 raw.

(** The numbers of a list, each once; [None] is an error, and a number that is not
    positive ends the list with nothing and no error. *)
Fixpoint csv_values (seen : list Z) (parts : list string) : option (list Z) :=
  match parts with
  | [] => Some seen
  | part :: parts =>
      let part := trim_space part in
      if decide (part = "") then csv_values seen parts
      else match parse_int64 part with
           | None => None
           | Some value =>
               if value <=? 0 then Some []
               else if decide (value ∈ seen) then csv_values seen parts
               else csv_values (seen ++ [value]) parts
           end
  end.
Definition parseIntCSVQuery (r : core_request) (key : string) : option (list Z) :=
  let raw := trim_space (cr_Query r key) in
  if decide (raw = "") then Some [] else csv_values [] (split_by (byte_of 44) raw).

(** ** Bodies *)

(** A value and whether everything so far could be decoded; decoding goes on after a
    value of the wrong type. *)
Definition keep_or {A} (old : A) (x : option (option A)) (ok : bool) : A * bool :=
  match x with Some x => (default old x, ok) | None => (old, false) end.

Definition int_field (name : string) (acc : Z * bool) (kv : string * list Z) : Z * bool :=
  if equal_fold kv.1 name then keep_or acc.1 (decode_int kv.2) acc.2 else acc.
Definition decode_body {A} (step : A * bool -> string * list Z -> A * bool) (zero : A) (body : string) : A * bool :=
  match first_value body with
  | None => (zero, false)
  | Some v => match value_members v with
              | None => (zero, false)
              | Some kvs => foldl step (zero, true) kvs
              end
  end.

Definition snapshot_field (acc : SaveFeatureSnapshotRequest * bool) (kv : string * list Z)
    : SaveFeatureSnapshotRequest * bool :=
  let '(SaveSnapshot id kind hash payload, ok) := acc in
  if equal_fold kv.1 "userId" then
    let r := keep_or id (decode_int kv.2) ok in (SaveSnapshot r.1 kind hash payload, r.2)
  else if equal_fold kv.1 "kind" then
    let r := keep_or kind (decode_string kv.2) ok in (SaveSnapshot id r.1 hash payload, r.2)
  else if equal_fold kv.1 "sourceHash" then
    let r := keep_or hash (decode_string kv.2) ok in (SaveSnapshot id kind r.1 payload, r.2)
  else if equal_fold kv.1 "payload" then (SaveSnapshot id kind hash (bytes_string kv.2), ok)
  else acc.

(** ** Replies *)

(** [kerrors.FromError(err).Code] *)
Fixpoint error_code (e : goerr) : Z :=
  match e with Kratos c _ _ => c | Wrapped _ e => error_code e | _ => 500 end.
Definition writeHTTPError (statusCode : Z) (message : string) : core_reply :=
  CoreReply statusCode (BodyError statusCode message).
Definition writeHTTPJSON {A} (body : A -> core_body) (m : CM A) : CM core_reply :=
  r ← attempt m;
  mret (match r with
        | Val a => CoreReply 200 (body a)
        | Exn e => writeHTTPError (error_code e) (error_text e)
        end).

Definition MethodNotAllowed : CM core_reply := mret (CoreReply 405 BodyNone).
Definition only (method : string) (r : core_request) (m : CM core_reply) : CM core_reply :=
  if decide (cr_Method r = method) then m else MethodNotAllowed.
Definition with_int (x : option Z) (key : string) (k : Z -> CM core_reply) : CM core_reply :=
  match x with None => mret (writeHTTPError 400 (key +:+ "参数错误")) | Some z => k z end.

(** ** Routes *)

Section routes.
Context `{Jsonb} `{Collation} `{Gob (list PlatformPeriodCount)}.

Definition route_platform_period (r : core_request) : CM core_reply :=
  with_int (parseIntQuery r "userId" (-1)) "userId" (fun userId =>
    d ← attempt (PlatformPeriodCount_ userId);
    mret (match d with
          | Val l => CoreReply 200 (BodyPlatformPeriod l)
          | Exn e => writeHTTPError 500 (error_text e)
          end)).

Definition route_team_period (r : core_request) : CM core_reply :=
  match parseIntCSVQuery r "userIds" with
  | None | Some [] => mret (writeHTTPError 400 "userIds参数错误")
  | Some ((_ :: _) as userIds) =>
      if decide (100 < length userIds)%nat then mret (writeHTTPError 400 "团队成员数量过多")
      else writeHTTPJSON BodyTeamPeriod (svc_TeamPeriod userIds)
  end.

Definition route_platform_detail (r : core_request) : CM core_reply :=
  with_int (parseIntQuery r "userId" 0) "userId" (fun userId =>
  with_int (parseIntQuery r "page" 1) "page" (fun page =>
  with_int (parseIntQuery r "pageSize" 30) "pageSize" (fun pageSize =>
    writeHTTPJSON BodyPlatformDetail
      (svc_PlatformDetail userId (cr_Query r "platform") (cr_Query r "mode") page pageSize)))).

Definition route_snapshot (c : ctx) (r : core_request) : CM core_reply :=
  if decide (cr_Method r = "GET") then
    with_int (parseIntQuery r "userId" 0) "userId" (fun userId =>
      writeHTTPJSON BodySnapshot (svc_GetFeatureSnapshot c userId (cr_Query r "kind") (cr_Query r "sourceHash")))
  else if decide (cr_Method r = "POST") then
    let d := decode_body snapshot_field (SaveSnapshot 0 "" "" "") (cr_Body r) in
    if d.2 then writeHTTPJSON BodySnapshot (svc_SaveFeatureSnapshot c d.1)
    else mret (writeHTTPError 400 "请求参数错误")
  else MethodNotAllowed.

Definition route_audit (c : ctx) (r : core_request) : CM core_reply :=
  with_int (parseIntQuery r "userId" 0) "userId" (fun userId =>
    writeHTTPJSON BodySpiderAudit (svc_SpiderAudit c userId)).

(** An error of the decoder is dropped. *)
Definition route_cache_clear (c : ctx) (r : core_request) : CM core_reply :=
  writeHTTPJSON BodyCacheClear (svc_ClearCache c (decode_body (int_field "userId") 0 (cr_Body r)).1).

Definition route_health (c : ctx) (r : core_request) : CM core_reply := writeHTTPJSON BodyHealth (svc_Health c).

Definition route_retry (c : ctx) (r : core_request) : CM core_reply :=
  let d := decode_body (int_field "jobId") 0 (cr_Body r) in
  if d.2 then writeHTTPJSON BodyJob (svc_Retry c d.1) else mret (writeHTTPError 400 "请求参数错误").

Definition route_rebuild_all (c : ctx) (r : core_request) : CM core_reply :=
  writeHTTPJSON BodyRebuild (svc_RebuildAll c).

Definition route_operation_logs (c : ctx) (r : core_request) : CM core_reply :=
  with_int (parseIntQuery r "page" 1) "page" (fun page =>
  with_int (parseIntQuery r "pageSize" 30) "pageSize" (fun pageSize =>
    writeHTTPJSON BodyLogs (svc_CoreOperationLogs c page pageSize (cr_Query r "action")))).

(** The handler for a path and a caller, [None] for the paths of other handlers. *)
Definition core_http_as (c : ctx) (r : core_request) : option (CM core_reply) :=
  let path := cr_Path r in
  if decide (path = "/v1/core/statistic/platform-period") then Some (only "GET" r (route_platform_period r))
  else if decide (path = "/v1/core/statistic/team-period") then Some (only "GET" r (route_team_period r))
  else if decide (path = "/v1/core/statistic/platform-detail") then Some (only "GET" r (route_platform_detail r))
  else if decide (path = "/v1/core/spider/audit") then Some (only "GET" r (route_audit c r))
  else if decide (path = "/v1/core/statistic/cache-clear") then Some (only "POST" r (route_cache_clear c r))
  else if decide (path = "/v1/core/spider/health") then Some (only "GET" r (route_health c r))
  else if decide (path = "/v1/core/spider/retry") then Some (only "POST" r (route_retry c r))
  else if decide (path = "/v1/core/spider/rebuild-all") then Some (only "POST" r (route_rebuild_all c r))
  else if decide (path = "/v1/core/operation-logs") then Some (only "GET" r (route_operation_logs c r))
  else if decide (path = "/v1/core/snapshot") then Some (route_snapshot c r)
  else None.

(** The caller is the decoded payload of the token. *)
Definition core_http (r : core_request) : option (CM core_reply) := core_http_as (parsePayload (cr_Auth r)) r.
End routes.

(** ** What reaches the handlers *)

Lemma csv_values_spec parts : forall seen l, NoDup seen -> Forall (fun z => 0 < z) seen ->
  csv_values seen parts = Some l -> NoDup l /\ Forall (fun z => 0 < z) l.
Proof.
  induction parts as [|part parts IH]; intros seen l Hn Hp Hl; cbn [csv_values] in Hl; [by simplify_eq|].
  case_decide; [by apply (IH seen)|]. destruct (parse_int64 (trim_space part)) as [v|]; [|done].
  destruct (v <=? 0) eqn:Hv; [simplify_eq; split; constructor|]. apply Z.leb_gt in Hv.
  case_decide as Hin; [by apply (IH seen)|]. apply (IH (seen ++ [v])); [| |done].
  - apply NoDup_app. split_and!; [done | set_solver | apply NoDup_singleton].
  - apply Forall_app. split; [done|]. by repeat constructor.
Qed.

(** A team is between one and a hundred different users. *)
Lemma parseIntCSVQuery_spec r key l : parseIntCSVQuery r key = Some l -> NoDup l /\ Forall (fun z => 0 < z) l.
Proof.
  unfold parseIntCSVQuery. case_decide; [intros [= <-]; split; constructor|].
  apply csv_values_spec; constructor.
Qed.
