(* ===== verification/Worker.v ===== *)
(** The background side of the core-data service: the consumer of the queue of refresh
    events ([biz/service/consumer.go]) and the hourly task ([task/cron.go]). *)
From S2P Require Export CoreHttp.
From S2P Require Import TokenTheory.

(** ** Events on the queue *)

(** [json.Marshal] of a struct: the fields in the order they are declared. *)
Definition json_struct (kvs : list (string * json)) : string :=
  "{" +:+ join "," (map (fun kv => json_string kv.1 +:+ ":" +:+ json_value kv.2) kvs) +:+ "}".
Definition event_json (e : SpiderEvent) : string :=
  json_struct [("user_id", JInt (e_UserId e)); ("need_all", JBool (e_NeedAll e));
               ("job_id", JInt (e_JobId e)); ("platform", JString (e_Platform e))].

Definition decode_bool (v : list Z) : option (option bool) :=
  match v with
  | 110 :: _ => Some None
  | 116 :: _ => Some (Some true)
  | 102 :: _ => Some (Some false)
  | _ => None
  end.
Definition event_field (acc : SpiderEvent * bool) (kv : string * list Z) : SpiderEvent * bool :=
  let '(Event user needAll job platform, ok) := acc in
  if equal_fold kv.1 "user_id" then
    let r := keep_or user (decode_int kv.2) ok in (Event r.1 needAll job platform, r.2)
  else if equal_fold kv.1 "need_all" then
    let r := keep_or needAll (decode_bool kv.2) ok in (Event user r.1 job platform, r.2)
  else if equal_fold kv.1 "job_id" then
    let r := keep_or job (decode_int kv.2) ok in (Event user needAll r.1 platform, r.2)
  else if equal_fold kv.1 "platform" then
    let r := keep_or platform (decode_string kv.2) ok in (Event user needAll job r.1, r.2)
  else acc.

(** [json.Unmarshal] into a struct: the whole text has to be valid. *)
Definition unmarshal_struct {A} (field : A * bool -> string * list Z -> A * bool) (zero : A) (body : string) : option A :=
  if negb (json_valid body) then None
  else match value_members (skip_spaces (map code (bytes_of body))) with
       | None => None
       | Some kvs => let r := foldl field (zero, true) kvs in
                     if r.2 then Some r.1 else None
       end.
Definition unmarshal_event : string -> option SpiderEvent := unmarshal_struct event_field (Event 0 false 0 "").

(** ** The consumer *)

(** A delivery is acknowledged, or refused without being queued again. *)
Inductive delivery := Acked | Nacked.

Section consumer.
Context `{Fetchers}.

Definition consume (body : string) : CM delivery :=
  match unmarshal_event body with
  | None => mret Nacked
  | Some msg =>
      r ← attempt (LoadData (e_JobId msg) (e_UserId msg) (e_NeedAll msg) (e_Platform msg));
      mret (if is_val r then Acked else Nacked)
  end.

(** Message [i] of the queue is delivered; [None] when there is none.  Either way of
    settling takes it off the queue. *)
Definition deliver (i : nat) : CM (option delivery) := fun w =>
  match spider_queue (w_db w) !! i with
  | None => (Val None, w)
  | Some e => (r ← consume (event_json e); mret (Some r))
                (set_db (set_queue (delete i (spider_queue (w_db w))) (w_db w)) w)
  end.

(** The worker until the queue is empty, oldest message first. *)
Fixpoint drain (fuel : nat) : CM () :=
  match fuel with
  | O => mret ()
  | S fuel => r ← deliver 0; match r with None => mret () | Some _ => drain fuel end
  end.
End consumer.

(** ** The hourly task *)

(** The user service, as the task reaches it: whether call [n] connects, and what
    [GetList] with pages of a hundred answers to it: the total and the users. *)
Class ProfileLister := {
  cron_dial : nat -> outcome ();
  GetUsers : Z -> nat -> outcome (Z * list Z)
}.

Section cron.
Context `{ProfileLister} {D : Type}.

(** [for i := 2; i <= totalPage; i++]: a page that fails is left out. *)
Fixpoint more_pages (pages : list Z) : M D (list Z) :=
  match pages with
  | [] => mret []
  | i :: pages =>
      r ← attempt (remote (GetUsers i));
      rest ← more_pages pages;
      mret (match r with Val page => page.2 ++ rest | Exn _ => rest end)
  end.

Definition total_pages (total : Z) : Z := Z.quot (wrap_int64 (total + 99)) 100.

Definition getUserIds : M D (list Z) :=
  conn ← attempt (remote cron_dial);
  match conn with
  | Exn _ => mret []
  | Val _ =>
      r ← attempt (remote (GetUsers 1));
      match r with
      | Exn _ => mret []
      | Val (total, users) =>
          rest ← more_pages (map Z.of_nat (seq 2 (Z.to_nat (total_pages total - 1))));
          mret (map wrap_int64 (users ++ rest))
      end
  end.

End cron.

(** The task of minute 1 of every hour. *)
Definition cron_hourly `{ProfileLister} : CM () :=
  userIds ← getUserIds;
  for_each userIds (fun v => spider_Do v false "cron" 0 "";; mret ()).

(** ** The list of users is only read *)

Section reading.
Context `{ProfileLister}.

Lemma reads_more_pages {D} l : reads (D := D) (more_pages l).
Proof. induction l as [|i l IH]; simpl; solve_reads. Qed.
Lemma reads_getUserIds {D} : reads (D := D) getUserIds.
Proof.
  unfold getUserIds. apply reads_bind; [solve_reads|]. intros [_|e]; [|solve_reads].
  apply reads_bind; [solve_reads|]. intros [[total users]|e]; [|solve_reads].
  apply reads_bind; [apply reads_more_pages | solve_reads].
Qed.
End reading.

(** ** Messages are read as they were written *)

(** What JSON keeps of an event: 64-bit numbers and UTF-8. *)
Definition sendable (e : SpiderEvent) : Prop :=
  in_int64 (e_UserId e) /\ in_int64 (e_JobId e) /\ ValidString (e_Platform e) = true.

Lemma json_struct_codes kvs :
  codes (json_struct kvs) = 123 :: codes (join "," (map member kvs)) ++ [125].
Proof.
  assert (json_struct kvs = "{" +:+ join "," (map member kvs) +:+ "}") as -> by done.
  rewrite <- (object_codes kvs []). by rewrite app_nil_r.
Qed.

Lemma json_struct_valid kvs : json_valid (json_struct kvs) = true.
Proof.
  unfold json_valid. change (map code (bytes_of ?s)) with (codes s).
  rewrite json_struct_codes, scan_object; [by apply bool_decide_eq_true|].
  pose proof (members_length kvs). cbn [length]. rewrite length_app. cbn [length]. lia.
Qed.

Lemma json_struct_members kvs : Forall (fun kv => ValidString kv.1 = true) kvs ->
  value_members (skip_spaces (codes (json_struct kvs))) = Some (map (fun kv => (kv.1, codes (json_value kv.2))) kvs).
Proof.
  intros Hv. rewrite json_struct_codes. change (skip_spaces (123 :: ?x)) with (123 :: x). cbn [value_members].
  f_equal. apply object_members_marshalled; [|done].
  pose proof (members_length kvs). rewrite length_app. lia.
Qed.

Lemma decode_bool_marshalled b : decode_bool (codes (json_value (JBool b))) = Some (Some b).
Proof. by destruct b. Qed.

(** Whatever the platform's name, the numbers arrive. *)
Lemma event_read_any e : in_int64 (e_UserId e) -> in_int64 (e_JobId e) ->
  exists p, unmarshal_event (event_json e) = Some (Event (e_UserId e) (e_NeedAll e) (e_JobId e) p)
            /\ (ValidString (e_Platform e) = true -> p = e_Platform e).
Proof.
  intros Hu Hj. unfold unmarshal_event, unmarshal_struct, event_json. rewrite json_struct_valid. cbn [negb].
  change (map code (bytes_of ?s)) with (codes s).
  rewrite json_struct_members by (repeat (constructor; [vm_compute; reflexivity|]); constructor).
  destruct (json_string_reads (e_Platform e) []) as (l & Hl & _ & _ & Hv). rewrite app_nil_r in Hl.
  destruct e as [u n j p]. cbn [e_UserId e_NeedAll e_JobId e_Platform map fst snd foldl] in *.
  assert (decode_string (codes (json_string p)) = Some (Some (valid_utf8 (valid_utf8 p)))) as Hp.
  { rewrite Hl. cbn [decode_string]. by rewrite Hv. }
  unfold event_field. cbn [fst snd]. rewrite decode_bool_marshalled. cbn [json_value].
  repeat (fold_keys; rewrite ?Hp, ?decode_int_marshalled by done; cbn [keep_or fst snd default]).
  eexists. split; [done|]. intros Hs. by rewrite !(valid_utf8_id p Hs).
Qed.

Lemma event_read e : sendable e -> unmarshal_event (event_json e) = Some e.
Proof.
  intros (Hu & Hj & Hp). destruct (event_read_any e Hu Hj) as (p & -> & Hv). rewrite (Hv Hp). by destruct e.
Qed.
