(* ===== verification/Web.v ===== *)
(** What the scrapers need of [net/http], [net/url], [crypto/md5], [html] and
    [encoding/json]: requests and the pages they bring, escaped texts, digests, and
    nested values.  The sites themselves are a class. *)
From S2P Require Export Worker Platforms Regex TimeText JsonAny.

(** ** [crypto/md5]: a login sends the digest of the password *)

Module Md5.
(** Words are 32 bits wide. *)
Definition word (z : Z) : Z := z mod 2 ^ 32.
Definition rotate (k x : Z) : Z := Z.lor (word (Z.shiftl x k)) (Z.shiftr x (32 - k)).
Definition flip (x : Z) : Z := 2 ^ 32 - 1 - x.

(** The whole parts of [2^32 |sin i|]. *)
Definition sines : list Z :=
  [3614090360; 3905402710; 606105819; 3250441966; 4118548399; 1200080426; 2821735955; 4249261313;
   1770035416; 2336552879; 4294925233; 2304563134; 1804603682; 4254626195; 2792965006; 1236535329;
   4129170786; 3225465664; 643717713; 3921069994; 3593408605; 38016083; 3634488961; 3889429448;
   568446438; 3275163606; 4107603335; 1163531501; 2850285829; 4243563512; 1735328473; 2368359562;
   4294588738; 2272392833; 1839030562; 4259657740; 2763975236; 1272893353; 4139469664; 3200236656;
   681279174; 3936430074; 3572445317; 76029189; 3654602809; 3873151461; 530742520; 3299628645;
   4096336452; 1126891415; 2878612391; 4237533241; 1700485571; 2399980690; 4293915773; 2240044497;
   1873313359; 4264355552; 2734768916; 1309151649; 4149444226; 3174756917; 718787259; 3951481745].

(** A step: its function of three words, its word of the block, its rotation. *)
Definition round_mix (i b c d : Z) : Z :=
  if i <? 16 then Z.lor (Z.land b c) (Z.land (flip b) d)
  else if i <? 32 then Z.lor (Z.land d b) (Z.land (flip d) c)
  else if i <? 48 then Z.lxor (Z.lxor b c) d
  else Z.lxor c (Z.lor b (flip d)).
Definition round_word (i : Z) : Z :=
  if i <? 16 then i else if i <? 32 then (5 * i + 1) mod 16
  else if i <? 48 then (3 * i + 5) mod 16 else (7 * i) mod 16.
Definition round_shift (i : Z) : Z :=
  let shifts := if i <? 16 then [7; 12; 17; 22] else if i <? 32 then [5; 9; 14; 20]
                else if i <? 48 then [4; 11; 16; 23] else [6; 10; 15; 21] in
  default 0 (shifts !! Z.to_nat (i mod 4)).

Definition digest := (Z * Z * Z * Z)%type.
Definition md5_step (block : list Z) (st : digest) (ik : Z * Z) : digest :=
  let '(a, b, c, d) := st in
  let x := default 0 (block !! Z.to_nat (round_word ik.1)) in
  let f := word (round_mix ik.1 b c d + a + ik.2 + x) in
  (d, word (b + rotate (round_shift ik.1) f), b, c).
Definition md5_block (st : digest) (block : list Z) : digest :=
  let '(a, b, c, d) := st in
  let '(a', b', c', d') := foldl (md5_step block) st (zip (seqZ 0 64) sines) in
  (word (a + a'), word (b + b'), word (c + c'), word (d + d')).

Fixpoint little_endian (l : list Z) : list Z :=
  match l with
  | a :: b :: c :: d :: l => (a + 256 * (b + 256 * (c + 256 * d))) :: little_endian l
  | _ => []
  end.
Definition word_bytes (w : Z) : list Z := map (fun k => Z.shiftr w (8 * k) mod 256) [0; 1; 2; 3].

(** A bit, zeros up to eight bytes before the end of a block, and the length in bits. *)
Definition padded (l : list Z) : list Z :=
  let n := Z.of_nat (length l) in
  l ++ [128] ++ replicate (Z.to_nat ((55 - n) mod 64)) 0
    ++ word_bytes (word (8 * n)) ++ word_bytes (word (Z.shiftr (8 * n) 32)).
Fixpoint blocks (fuel : nat) (ws : list Z) : list (list Z) :=
  match fuel, ws with
  | O, _ | _, [] => []
  | S fuel, _ => take 16 ws :: blocks fuel (drop 16 ws)
  end.
Definition md5_sum (l : list Z) : list Z :=
  let ws := little_endian (padded l) in
  let '(a, b, c, d) := foldl md5_block (1732584193, 4023233417, 2562383102, 271733878) (blocks (length ws) ws) in
  concat (map word_bytes [a; b; c; d]).

(** [hex.EncodeToString] *)
Definition hex_lower (n : Z) : Ascii.ascii := byte_of (if n <? 10 then 48 + n else 87 + n).
Definition hex_text (l : list Z) : string := of_bytes (concat (map (fun b => [hex_lower (b / 16); hex_lower (b mod 16)]) l)).
Definition md5_hex (s : string) : string := hex_text (md5_sum (map code (bytes_of s))).

(** Two of the digests in RFC 1321. *)
Example md5_empty : md5_hex "" = "d41d8cd98f00b204e9800998ecf8427e".
Proof. vm_compute. reflexivity. Qed.
Example md5_letters : md5_hex "abcdefghijklmnopqrstuvwxyz" = "c3fcd3d76192e4007dfb496cca67e13b".
Proof. vm_compute. reflexivity. Qed.
End Md5.

(** ** Requests *)

Record web_request := WebRequest {
  wr_method : string; wr_url : string; wr_headers : list (string * string); wr_body : string }.
(** A page as far as its body can be read; [pg_broken] is what cut it off. *)
Record web_page := WebPage { pg_status : Z; pg_body : string; pg_broken : option goerr }.

(** A client with a cookie jar of its own; [default_client] has none. *)
Definition client := nat.
Definition default_client : client := 0%nat.
(** What request [n] brings.  Cookies and redirects are the client's business. *)
Class Web := { browse : client -> web_request -> nat -> outcome web_page }.

(** [html.UnescapeString]: the names of the entities are not listed here.  A text
    without an ampersand stays as it is. *)
Class Html := {
  UnescapeString : string -> string;
  UnescapeString_plain s : contains s "&" = false -> UnescapeString s = s
}.

Definition StatusOK : Z := 200.
Definition tracker_agent : list (string * string) :=
  [("User-Agent", "WUST-ACM-Tracker/1.1 (+https://github.com/WUSTACM/WUST-Algo-tracker)")].
Definition get_request (headers : list (string * string)) (url : string) : web_request :=
  WebRequest "GET" url headers "".

(** [resp, err := client.Do(req)] and [io.ReadAll(resp.Body)]: the status with the bytes
    read and the error of reading them. *)
Definition web_get `{Web} {D} (c : client) (r : web_request) : M D web_page := remote (browse c r).
Definition read_all {D} (p : web_page) : M D string :=
  match pg_broken p with Some e => throw e | None => mret (pg_body p) end.

(** Memory of the process is read and written without a call. *)
Definition peek {D A} (f : D -> A) : M D A := fun w => (Val (f (w_db w)), w).
Definition poke {D} (f : D -> D) : M D () := fun w => (Val (), set_db (f (w_db w)) w).

(** ** [net/url] *)

Definition query_byte (a : Ascii.ascii) : list Ascii.ascii :=
  if is_letter a || is_between 48 57 (code a) || bool_decide (code a ∈ [45; 95; 46; 126]) then [a]
  else if code a =? 32 then [byte_of 43]
  else [byte_of 37; hex_upper (code a / 16); hex_upper (code a mod 16)].
Definition QueryEscape (s : string) : string := of_bytes (concat (map query_byte (bytes_of s))).

Fixpoint unescape_query (l : list Z) : option (list Z) :=
  match l with
  | [] => Some []
  | 37 :: a :: b :: l =>
      if is_hex a && is_hex b then cons (hex_value a * 16 + hex_value b) <$> unescape_query l else None
  | 37 :: _ => None
  | 43 :: l => cons 32 <$> unescape_query l
  | c :: l => cons c <$> unescape_query l
  end.
Definition QueryUnescape (s : string) : option string := bytes_string <$> unescape_query (codes s).

(** [url.Values.Encode]: the keys are in increasing order already. *)
Definition encode_values (kvs : list (string * string)) : string :=
  join "&" (map (fun kv => QueryEscape kv.1 +:+ "=" +:+ QueryEscape kv.2) kvs).

(** Whether [url.Parse] takes what follows the host: no control characters, and every
    per cent sign of the path and of the fragment begins an escape. *)
Fixpoint escapes_ok (l : list Z) : bool :=
  match l with
  | 37 :: a :: b :: l => is_hex a && is_hex b && escapes_ok l
  | 37 :: _ => false
  | _ :: l => escapes_ok l
  | [] => true
  end.
Fixpoint cut_at (c : Z) (l : list Z) : list Z * list Z :=
  match l with
  | [] => ([], [])
  | b :: l => if b =? c then ([], l) else let r := cut_at c l in (b :: r.1, r.2)
  end.
Definition url_path_ok (s : string) : bool :=
  let l := codes s in
  let r := cut_at 35 l in
  forallb (fun c => (32 <=? c) && negb (c =? 127)) l
    && escapes_ok (cut_at 63 r.1).1 && escapes_ok r.2.

(** ** [encoding/json] *)

(** A nested struct: its fields are set on what is there; a [null] changes nothing. *)
Definition struct_value {A} (field : A * bool -> string * list Z -> A * bool) (old : A) (v : list Z)
    : option A :=
  kvs ← value_members v;
  let r := foldl field (old, true) kvs in
  if r.2 then Some r.1 else None.
(** A slice; a [null] is the empty one.  An element that is [null] keeps the zero value. *)
Definition array_value {A} (item : list Z -> option A) (v : list Z) : option (list A) :=
  match v with
  | 91 :: l => mapM item (array_items (length l) l)
  | 110 :: _ => Some []
  | _ => None
  end.
(** Decoding a whole text. *)
Definition unmarshal {A} (value : list Z -> option A) (body : string) : option A :=
  if json_valid body then value (skip_spaces (codes body)) else None.

(** A field in a list of fields: its name, and what a value does to the struct. *)
Definition json_field (A : Type) : Type := string * (A -> list Z -> option A).
Definition fields_of {A} (fs : list (json_field A)) (acc : A * bool) (kv : string * list Z) : A * bool :=
  match List.find (fun f => equal_fold kv.1 f.1) fs with
  | Some f => match f.2 acc.1 kv.2 with Some x => (x, acc.2) | None => (acc.1, false) end
  | None => acc
  end.
Definition int_member {A} (name : string) (set : Z -> A -> A) : json_field A :=
  (name, fun x v => (fun o => match o with Some z => set z x | None => x end) <$> decode_int v).
Definition string_member {A} (name : string) (set : string -> A -> A) : json_field A :=
  (name, fun x v => (fun o => match o with Some s => set s x | None => x end) <$> decode_string v).
Definition bool_member {A} (name : string) (set : bool -> A -> A) : json_field A :=
  (name, fun x v => (fun o => match o with Some b => set b x | None => x end) <$> decode_bool v).
(** A field that is decoded, so that its type matters, but never looked at. *)
Definition unused_int {A} (name : string) : json_field A := int_member name (fun _ x => x).
Definition unused_string {A} (name : string) : json_field A := string_member name (fun _ x => x).
Definition struct_member {A B} (name : string) (fs : list (json_field B)) (get : A -> B) (set : B -> A -> A)
    : json_field A :=
  (name, fun x v => (fun b => set b x) <$> struct_value (fields_of fs) (get x) v).
Definition array_member {A B} (name : string) (item : list Z -> option B) (set : list B -> A -> A)
    : json_field A :=
  (name, fun x v => (fun l => set l x) <$> array_value item v).

(** [json.Number]: a number, or a text that is one; it is kept as it is written. *)
Definition number_value (v : list Z) : option (option string) :=
  match v with
  | 110 :: _ => Some None
  | 34 :: _ =>
      match decode_string v with
      | Some (Some s) =>
          match scan_number (codes s) with Some [] => Some (Some s) | _ => None end
      | _ => None
      end
  | c :: _ => if is_digit c || (c =? 45) then Some (Some (bytes_string v)) else None
  | [] => None
  end.
Definition number_member {A} (name : string) (set : string -> A -> A) : json_field A :=
  (name, fun x v => (fun o => match o with Some s => set s x | None => x end) <$> number_value v).
