(* ===== verification/Discovery.v ===== *)
(** Where the gateway sends requests: targets and nodes ([gateway/client/target.go],
    [node.go], [factory.go]), the watch on the instances of a service
    ([client/servicewatch.go]), and the circuit breaker in front of them
    ([middleware/circuitbreaker]). *)
From S2P Require Export Web Proxy.

(** ** [net/url]: parsing *)

Module Url.
Record URL := Parsed { u_Scheme : string; u_Opaque : string; u_Host : string; u_Path : string; u_RawQuery : string }.

Definition url_letter (c : Z) : bool := is_between 65 90 c || is_between 97 122 c.
Definition host_byte (c : Z) : bool := url_letter c || is_digit c || one_of ("-_.~!$&'()*+,;=:[]<>" +:+ quote) c.
Definition user_byte (c : Z) : bool := url_letter c || is_digit c || one_of "-._:~!$&'()*+,;=%@" c.

(** The letters up to a colon; [None] when something else comes first. *)
Fixpoint scheme_prefix (first : bool) (l : list Z) : option (list Z * list Z) :=
  match l with
  | [] => None
  | c :: l =>
      if url_letter c || (negb first && (is_digit c || one_of "+-." c))
      then (fun r => (c :: r.1, r.2)) <$> scheme_prefix false l
      else if negb first && (c =? 58) then Some ([], l) else None
  end.
Definition getScheme (l : list Z) : option (list Z * list Z) :=
  match l with
  | 58 :: _ => None
  | _ => Some (default ([], l) (scheme_prefix true l))
  end.

Fixpoint unescape_path (l : list Z) : option (list Z) :=
  match l with
  | [] => Some []
  | 37 :: a :: b :: l =>
      if is_hex a && is_hex b then cons (hex_value a * 16 + hex_value b) <$> unescape_path l else None
  | 37 :: _ => None
  | c :: l => cons c <$> unescape_path l
  end.
(** In a host only bytes beyond ASCII may be escaped, and the per cent sign; in the zone
    of an address also what stands for itself. *)
Fixpoint unescape_host (zone : bool) (l : list Z) : option (list Z) :=
  match l with
  | [] => Some []
  | 37 :: a :: b :: l =>
      let v := hex_value a * 16 + hex_value b in
      if is_hex a && is_hex b
         && (if zone then (v =? 37) || (v =? 32) || (v <? 128) && host_byte v
             else (8 <=? hex_value a) || (v =? 37))
      then cons v <$> unescape_host zone l else None
  | 37 :: _ => None
  | c :: l => if (c <? 128) && negb (host_byte c) then None else cons c <$> unescape_host zone l
  end.

(** Before and after the last [c]; [None] when there is none. *)
Definition cut_last (c : Z) (l : list Z) : option (list Z * list Z) :=
  if decide (c ∈ l) then let r := cut_at c (rev l) in Some (rev r.2, rev r.1) else None.
(** Nothing, or a colon and digits. *)
Definition port_ok (l : list Z) : bool :=
  match l with [] => true | c :: l => (c =? 58) && forallb is_digit l end.

(** Where the zone of an address begins. *)
Fixpoint split_zone (l : list Z) : option (list Z * list Z) :=
  match l with
  | 37 :: 50 :: 53 :: _ => Some ([], l)
  | c :: l' => (fun r => (c :: r.1, r.2)) <$> split_zone l'
  | [] => None
  end.
Definition parse_host (l : list Z) : option (list Z) :=
  match l with
  | 91 :: _ =>
      r ← cut_last 93 l;
      if negb (port_ok r.2) then None
      else
        match split_zone r.1 with
        | Some z =>
            a ← unescape_host false z.1; b ← unescape_host true z.2; c ← unescape_host false (93 :: r.2);
            Some (a ++ b ++ c)
        | None => unescape_host false l
        end
  | _ =>
      match cut_last 58 l with
      | Some r => if port_ok (58 :: r.2) then unescape_host false l else None
      | None => unescape_host false l
      end
  end.
(** [user:password@host] *)
Definition parse_authority (l : list Z) : option (list Z) :=
  match cut_last 64 l with
  | None => parse_host l
  | Some r =>
      h ← parse_host r.2;
      if forallb user_byte r.1 && escapes_ok r.1 then Some h else None
  end.

(** Up to a byte, which stays with the rest. *)
Fixpoint before (c : Z) (l : list Z) : list Z * list Z :=
  match l with
  | b :: l' => if b =? c then ([], l) else let r := before c l' in (b :: r.1, r.2)
  | [] => ([], [])
  end.
Definition starts (s : string) (l : list Z) : bool := has_prefix (bytes_string l) s.

Definition parse_rest (scheme rest query : list Z) : option URL :=
  let url host path := Parsed (to_lower (bytes_string scheme)) "" (bytes_string host) (bytes_string path) (bytes_string query) in
  if negb (starts "/" rest) && negb (bool_decide (scheme = []))
  then Some (Parsed (to_lower (bytes_string scheme)) (bytes_string rest) "" "" (bytes_string query))
  else if negb (starts "/" rest) && bool_decide (58 ∈ (before 47 rest).1) then None
  else if (negb (bool_decide (scheme = [])) || negb (starts "///" rest)) && starts "//" rest
  then
    let r := before 47 (drop 2 rest) in
    host ← parse_authority r.1; path ← unescape_path r.2; Some (url host path)
  else path ← unescape_path rest; Some (url [] path).

(** [url.Parse] *)
Definition Parse (raw : string) : option URL :=
  let r := cut_at 35 (codes raw) in
  if existsb (fun c => (c <? 32) || (c =? 127)) r.1 || negb (escapes_ok r.2) then None
  else
    s ← getScheme r.1;
    let q := cut_at 63 s.2 in
    parse_rest s.1 q.1 q.2.

(** [u.Query().Get(key)]: pieces that can not be decoded, or hold a semicolon, are left out. *)
Definition query_piece (piece : string) : option (string * string) :=
  if bool_decide (piece = "") || contains piece ";" then None
  else
    let r := cut_at 61 (codes piece) in
    k ← QueryUnescape (bytes_string r.1); v ← QueryUnescape (bytes_string r.2); Some (k, v).
Definition query_get (u : URL) (key : string) : string :=
  default "" (snd <$> List.find (fun kv => bool_decide (kv.1 = key)) (omap query_piece (split_by (byte_of 38) (u_RawQuery u)))).

Example parse_full : Parse "HTTP://u:p@[fe80::1%25en0]:80/a%20b?x=1&isSecure=T#f" =
  Some (Parsed "http" "" "[fe80::1%en0]:80" "/a b" "x=1&isSecure=T").
Proof. vm_compute. reflexivity. Qed.
Example parse_bad : map Parse [":a"; "http://h:x/"; "a:b/c"; "//h%41/"; "1a:b"] =
  [None; None; Some (Parsed "a" "b/c" "" "" ""); None; None].
Proof. vm_compute. reflexivity. Qed.
End Url.
Import Url.

(** ** Targets ([target.go]) *)

Record Target := mkTarget { tg_Scheme : string; tg_Authority : string; tg_Endpoint : string }.
Definition bad_url : goerr := Driver "parse".
Definition parseTarget (endpoint : string) : outcome Target :=
  match Parse (if contains endpoint "://" then endpoint else "direct:///" +:+ endpoint) with
  | None => Exn bad_url
  | Some u => Val (mkTarget (u_Scheme u) (u_Host u)
                     (if decide (1 < String.length (u_Path u))%nat then bytes_string (drop 1 (codes (u_Path u))) else ""))
  end.

(** [strconv.ParseBool], with [false] for what is none *)
Definition IsSecure (u : URL) : bool :=
  bool_decide (query_get u "isSecure" ∈ ["1"; "t"; "T"; "true"; "TRUE"; "True"]).
Fixpoint parseEndpoint (endpoints : list string) (scheme : string) (isSecure : bool) : outcome string :=
  match endpoints with
  | [] => Val ""
  | e :: endpoints =>
      match Parse e with
      | None => Exn bad_url
      | Some u =>
          if bool_decide (u_Scheme u = scheme) && eqb (IsSecure u) isSecure then Val (u_Host u)
          else parseEndpoint endpoints scheme isSecure
      end
  end.

(** ** Nodes ([node.go]) *)

Inductive Protocol := UNSPECIFIED | HTTP | GRPC.
#[export] Instance Protocol_eq : EqDecision Protocol.
Proof. solve_decision. Defined.
(** In lower case. *)
Definition protocol_scheme (p : Protocol) : string :=
  match p with UNSPECIFIED => "unspecified" | HTTP => "http" | GRPC => "grpc" end.

(** The clients of the process, and those of the store, one for each configuration. *)
Inductive http_client := GlobalClient | H2CClient | HTTPSClient | StoredClient (name : string).
Definition tls_store : Type := gset string.
Definition GetClient (store : tls_store) (name : string) : http_client :=
  if decide (name = "") then GlobalClient
  else if decide (name ∈ store) then StoredClient name else HTTPSClient.

Record node := mkNode {
  nd_address : string; nd_name : string; nd_weight : option Z; nd_version : string;
  nd_metadata : gmap string string; nd_protocol : Protocol; nd_tls : bool; nd_client : http_client }.

(** [store]: that of the build context, which an empty context has not. *)
Definition node_client (store : option tls_store) (protocol : Protocol) (tls : bool) (config : string) : result http_client :=
  if tls then
    if decide (config = "") then Ok HTTPSClient
    else match store with
         | Some store => Ok (GetClient store config)
         | None => Panicked "invalid memory address or nil pointer dereference"
         end
  else Ok (if decide (protocol = GRPC) then H2CClient else GlobalClient).
Definition newNode (store : option tls_store) (addr : string) (protocol : Protocol) (weight : option Z)
    (md : gmap string string) (version name : string) (tls : bool) (config : string) : result node :=
  match node_client store protocol tls config with
  | Ok c => Ok (mkNode addr name weight version md protocol tls c)
  | Failed e => Failed e
  | Panicked s => Panicked s
  end.

(** ** Clients ([factory.go]) *)

Record Backend := mkBackend {
  bk_Target : string; bk_Weight : option Z; bk_Metadata : gmap string string; bk_Tls : bool; bk_TlsConfigName : string }.
Record ServiceInstance := Service {
  si_ID : string; si_Name : string; si_Version : string; si_Metadata : gmap string string; si_Endpoints : list string }.

(** The applier of a client; [ap_nodes] is what the picker was given last, from which it
    selects. *)
Record nodeApplier := Applier {
  ap_Protocol : Protocol; ap_Backends : list Backend; ap_store : option tls_store; ap_canceled : bool;
  ap_nodes : list node }.
Definition set_nodes (l : list node) (a : nodeApplier) : nodeApplier :=
  Applier (ap_Protocol a) (ap_Backends a) (ap_store a) (ap_canceled a) l.
Definition Cancel (a : nodeApplier) : nodeApplier :=
  Applier (ap_Protocol a) (ap_Backends a) (ap_store a) true (ap_nodes a).

Definition defaultWeight : Z := 10.
Definition nodeWeight (s : ServiceInstance) : Z :=
  match si_Metadata s !! "weight" with
  | Some w => let val := parse_int64_lax w in if decide (val <= 0) then defaultWeight else val
  | None => defaultWeight
  end.

(** The node of an instance: one without a usable address is left out. *)
Definition service_node (a : nodeApplier) (s : ServiceInstance) : option node :=
  match parseEndpoint (si_Endpoints s) (protocol_scheme (ap_Protocol a)) false with
  | Val addr =>
      if decide (addr = "") then None
      else Some (mkNode addr (si_Name s) (Some (nodeWeight s)) (si_Version s) (si_Metadata s) (ap_Protocol a) false
                   (if decide (ap_Protocol a = GRPC) then H2CClient else GlobalClient))
  | Exn _ => None
  end.

Definition ErrCancelWatch : goerr := ErrorText "cancel watch".
Definition Callback (services : list ServiceInstance) (a : nodeApplier) : outcome nodeApplier :=
  if ap_canceled a then Exn ErrCancelWatch
  else match services with
       | [] => Val a
       | _ => Val (set_nodes (omap (service_node a) services) a)
       end.
(** An error of the callback changes nothing. *)
Definition call_back (services : list ServiceInstance) (a : nodeApplier) : nodeApplier :=
  match Callback services a with Val a' => a' | Exn _ => a end.

(** ** The watch on services ([servicewatch.go]) *)

(** What the registry does: whether the [n]th watch can be set up, and the first answer of
    it; [None] when that fails or takes longer than the time for it. *)
Class Registry := {
  Watch : string -> nat -> option goerr;
  first_answer : string -> nat -> option (list ServiceInstance)
}.

(** The services that are watched, with the instances known; for each the appliers to
    tell, in the order in which they came; and all appliers there ever were. *)
Record watcher := Watcher {
  wa_selected : gmap string (list ServiceInstance); wa_appliers : gmap string (list nat);
  wa_clients : list nodeApplier; wa_watches : nat }.

Definition registered (endpoint : string) (w : watcher) : list nat := default [] (wa_appliers w !! endpoint).
Definition on_client (id : nat) (f : nodeApplier -> nodeApplier) (w : watcher) : watcher :=
  Watcher (wa_selected w) (wa_appliers w) (alter f id (wa_clients w)) (wa_watches w).
Definition setSelectedCache (endpoint : string) (l : list ServiceInstance) (w : watcher) : watcher :=
  Watcher (<[endpoint := l]> (wa_selected w)) (wa_appliers w) (wa_clients w) (wa_watches w).
Definition set_appliers (endpoint : string) (ids : list nat) (w : watcher) : watcher :=
  Watcher (wa_selected w) (<[endpoint := ids]> (wa_appliers w)) (wa_clients w) (wa_watches w).
Definition register (endpoint : string) (id : nat) (w : watcher) : watcher :=
  set_appliers endpoint (registered endpoint w ++ [id]) w.

Section watching.
Context `{Registry}.

(** An applier is registered whether or not the watch could be set up. *)
Definition Add (endpoint : string) (id : nat) (w : watcher) : bool * watcher :=
  match wa_selected w !! endpoint with
  | Some l => (true, register endpoint id (on_client id (call_back l) w))
  | None =>
      let n := wa_watches w in
      let w := Watcher (wa_selected w) (wa_appliers w) (wa_clients w) (S n) in
      match Watch endpoint n with
      | Some _ => (false, register endpoint id w)
      | None =>
          let services := default [] (first_answer endpoint n) in
          (false, register endpoint id (on_client id (call_back services) (setSelectedCache endpoint services w)))
      end
  end.

(** The backends of an endpoint in turn, with the nodes collected so far. *)
Fixpoint apply_backends (id : nat) (a : nodeApplier) (bs : list Backend) (nodes : list node) (w : watcher)
    : result () * watcher :=
  match bs with
  | [] => (Ok (), w)
  | b :: bs =>
      match parseTarget (bk_Target b) with
      | Exn e => (Failed e, w)
      | Val t =>
          if decide (tg_Scheme t = "direct") then
            match newNode (ap_store a) (bk_Target b) (ap_Protocol a) (bk_Weight b) (bk_Metadata b) "" ""
                    (bk_Tls b) (bk_TlsConfigName b) with
            | Ok n =>
                let nodes := nodes ++ [n] in
                apply_backends id a bs nodes (on_client id (set_nodes nodes) w)
            | Failed e => (Failed e, w)
            | Panicked s => (Panicked s, w)
            end
          else if decide (tg_Scheme t = "discovery")
          then apply_backends id a bs nodes (Add (tg_Endpoint t) id w).2
          else (Failed (ErrorText ("unknown scheme: " +:+ tg_Scheme t)), w)
      end
  end.

(** A client of an endpoint is the number of its applier. *)
Definition NewClient (protocol : Protocol) (store : option tls_store) (bs : list Backend) (w : watcher)
    : result nat * watcher :=
  let id := length (wa_clients w) in
  let a := Applier protocol bs store false [] in
  let w := Watcher (wa_selected w) (wa_appliers w) (wa_clients w ++ [a]) (wa_watches w) in
  match apply_backends id a bs [] w with
  | (Ok _, w') => (Ok id, w')
  | (Failed e, w') => (Failed e, w')
  | (Panicked s, w') => (Panicked s, w')
  end.
End watching.

Definition doCallback (endpoint : string) (services : list ServiceInstance) (w : watcher) : watcher :=
  foldl (fun w id => on_client id (call_back services) w) w (registered endpoint w).
(** An answer of the watch on a service: an empty one is passed over. *)
Definition receive (endpoint : string) (services : list ServiceInstance) (w : watcher) : watcher :=
  match services with
  | [] => w
  | _ => doCallback endpoint services (setSelectedCache endpoint services w)
  end.

Definition canceled (w : watcher) (id : nat) : bool :=
  match wa_clients w !! id with Some a => ap_canceled a | None => false end.
(** [doCleanup] goes through the services in the order of a map, and stops at the first
    one that has nothing to clean. *)
Fixpoint doCleanup (endpoints : list string) (w : watcher) : watcher :=
  match endpoints with
  | [] => w
  | e :: endpoints =>
      match where_ (canceled w) (registered e w) with
      | [] => w
      | _ => doCleanup endpoints (set_appliers e (where_ (fun id => negb (canceled w id)) (registered e w)) w)
      end
  end.

(** What can happen: a client is made or closed, a watch brings an answer, the appliers
    are cleaned up.  Which answers come, and whether any do, is up to the registry: a watch
    has the context of the client that set it up, and ends for good when that is closed. *)
Section watch_steps.
Context `{Registry}.
Inductive watch_step : watcher -> watcher -> Prop :=
  | step_new protocol store bs w : watch_step w (NewClient protocol store bs w).2
  | step_close id w : watch_step w (on_client id Cancel w)
  | step_receive e services w : is_Some (wa_selected w !! e) -> watch_step w (receive e services w)
  | step_cleanup order w : Permutation order (map fst (map_to_list (wa_appliers w))) -> watch_step w (doCleanup order w).
Definition newServiceWatcher : watcher := Watcher ∅ ∅ [] 0.
Definition watched : watcher -> Prop := rtc watch_step newServiceWatcher.
End watch_steps.

(** ** The circuit breaker ([middleware/circuitbreaker]) *)

(** Options of the SRE breaker of [aegis]; zero leaves its default. *)
Record sre_options := SreOptions { so_Bucket : Z; so_Request : Z; so_Success : string; so_Window : option Z }.
Inductive trigger := SuccessRatio (o : sre_options) | Ratio (r : Z) | NoTrigger.
Inductive break_action :=
  | BackupService (protocol : Protocol) (bs : list Backend)
  | ResponseData (status : Z) (headers : list (string * list string)) (body : string)
  | NoAction.

(** The SRE breaker, which decides by what it has been told (latest first), and the
    numbers drawn. *)
Class Breakers := {
  sre_allow : sre_options -> list bool -> bool;
  drawn : nat -> Z;
  drawn_range n : 0 <= drawn n < 10000
}.

Section circuitbreaker.
Context `{Breakers}.

(** [breaker.Allow()], asked for the [n]th time. *)
Definition Allow (t : trigger) (marks : list bool) (n : nat) : bool :=
  match t with
  | SuccessRatio o => sre_allow o marks
  | Ratio r => bool_decide (drawn n < r)
  | NoTrigger => true
  end.

(** Headers are set under their keys as they are written. *)
Definition onBreakHandler (backup : RoundTripper) (action : break_action) : RoundTripper := fun req =>
  match action with
  | BackupService _ _ => backup req
  | ResponseData status hs body =>
      mret (static_response status (Some (foldl (fun h kv => <[kv.1 := kv.2]> h) ∅ hs)) body)
  | NoAction => mret (static_response 503 (Some ∅) "")
  end.

(** One request: the answer, and what the breaker is told. *)
Definition breaker_trip (t : trigger) (action : break_action) (assertions : list Condition)
    (backup next : RoundTripper) (marks : list bool) (n : nat) (req : Request) : G (bool * outcome Response) :=
  if negb (Allow t marks n) then
    r ← round_trip (onBreakHandler backup action) req; mret (false, r)
  else
    r ← round_trip next req;
    match r with
    | Exn e => mret (false, Exn e)
    | Val resp => mret (JudgeConditons assertions resp true, Val resp)
    end.
End circuitbreaker.

(** ** Clients follow the registry *)

(** The service that a backend is looked up under. *)
Definition discovers (b : Backend) : option string :=
  match parseTarget (bk_Target b) with
  | Val t => if decide (tg_Scheme t = "discovery") then Some (tg_Endpoint t) else None
  | Exn _ => None
  end.
Definition watches_only (a : nodeApplier) (e : string) : Prop := exists b, ap_Backends a = [b] /\ discovers b = Some e.

(** The invariant, for all clients but one that is being made: who is told of a service
    uses it; a service is watched when somebody is to be told; and a client with one
    service has the nodes of the instances known. *)
Record watch_ok (making : option nat) (w : watcher) : Prop := {
  users_known e id : id ∈ registered e w ->
    exists a, wa_clients w !! id = Some a /\ e ∈ omap discovers (ap_Backends a);
  unwatched_empty e : wa_selected w !! e = None -> registered e w = [];
  nodes_current id a e : Some id <> making -> wa_clients w !! id = Some a -> watches_only a e -> ap_canceled a = false ->
    id ∈ registered e w /\ ap_nodes a = omap (service_node a) (default [] (wa_selected w !! e)) }.

(** A change that leaves alone what an applier was made with. *)
Record tame (f : nodeApplier -> nodeApplier) : Prop := {
  tame_backends a : ap_Backends (f a) = ap_Backends a;
  tame_protocol a : ap_Protocol (f a) = ap_Protocol a;
  tame_canceled a : ap_canceled (f a) = false -> ap_canceled a = false }.
Lemma tame_set_nodes l : tame (set_nodes l).
Proof. by split. Qed.
Lemma tame_Cancel : tame Cancel.
Proof. by split. Qed.
Lemma tame_call_back l : tame (call_back l).
Proof. split; intros a; unfold call_back, Callback; destruct (ap_canceled a) eqn:E, l; simpl; congruence. Qed.
#[local] Hint Resolve tame_set_nodes tame_Cancel tame_call_back : core.

Lemma service_node_protocol a a' : ap_Protocol a = ap_Protocol a' -> service_node a = service_node a'.
Proof. intros H. unfold service_node. by rewrite H. Qed.
Lemma watches_tame f a e : tame f -> watches_only (f a) e <-> watches_only a e.
Proof. intros Hf. unfold watches_only. by rewrite tame_backends. Qed.

(** Being told of instances. *)
Lemma call_back_nodes l a : ap_canceled a = false -> ap_nodes (call_back l a) =
  match l with [] => ap_nodes a | _ => omap (service_node a) l end.
Proof. unfold call_back, Callback. intros ->. by destruct l. Qed.
Lemma call_back_twice l a : call_back l (call_back l a) = call_back l a.
Proof.
  unfold call_back, Callback. destruct (ap_canceled a) eqn:E; [by rewrite E|].
  destruct l as [|s l]; [by rewrite E|]. cbn [ap_canceled set_nodes]. by rewrite E.
Qed.

Lemma registered_register e e' id w :
  registered e' (register e id w) = if decide (e' = e) then registered e w ++ [id] else registered e' w.
Proof.
  unfold register, set_appliers, registered. cbn [wa_appliers]. case_decide as Hd; [subst; by rewrite lookup_insert_eq|].
  by rewrite lookup_insert_ne.
Qed.

(** A client is changed, tamely. *)
Lemma on_client_lookup i id f w : wa_clients (on_client id f w) !! i =
  (if decide (i = id) then f else fun a => a) <$> wa_clients w !! i.
Proof.
  unfold on_client. cbn [wa_clients]. case_decide as Hd; [subst; apply list_lookup_alter_eq|].
  rewrite list_lookup_alter_ne by done. by destruct (wa_clients w !! i).
Qed.

(** A client is changed that is being made, or in a way that keeps its nodes right. *)
Lemma watch_ok_on_client making id f w : tame f -> watch_ok making w ->
  (forall a e, Some id <> making -> wa_clients w !! id = Some a -> watches_only a e -> ap_canceled (f a) = false ->
     ap_nodes (f a) = omap (service_node a) (default [] (wa_selected w !! e))) ->
  watch_ok making (on_client id f w).
Proof.
  intros Hf [Hk Hu Hc] Hn. split.
  - intros e i (a & Ha & He)%Hk. rewrite on_client_lookup, Ha. eexists. split; [done|].
    case_decide; [by rewrite tame_backends|done].
  - exact Hu.
  - intros i a' e Hm. rewrite on_client_lookup. destruct (wa_clients w !! i) as [a|] eqn:Ha; [|done].
    intros [= <-]. case_decide as Hi; [subst i|by apply Hc].
    rewrite watches_tame by done. intros Hw Hcan.
    rewrite (service_node_protocol (f a) a) by by apply tame_protocol.
    split; [|by apply Hn]. apply (Hc id a e Hm Ha Hw). by apply (tame_canceled f Hf).
Qed.

(** The instances of a service become known that nobody is to be told of yet. *)
Lemma watch_ok_select making e l w : registered e w = [] -> watch_ok making w -> watch_ok making (setSelectedCache e l w).
Proof.
  intros He [Hk Hu Hc]. split; [exact Hk| |].
  - intros e' H. cbn in H. apply Hu. apply lookup_insert_None in H. tauto.
  - intros id a e' Hm Ha Hw Hcan. destruct (Hc id a e' Hm Ha Hw Hcan) as [Hr Hn]. split; [exact Hr|].
    assert (e' <> e) as Hne by (intros ->; rewrite He in Hr; set_solver).
    cbn. by rewrite lookup_insert_ne.
Qed.

(** An applier is registered. *)
Lemma watch_ok_register making e id a w : wa_clients w !! id = Some a -> e ∈ omap discovers (ap_Backends a) ->
  is_Some (wa_selected w !! e) -> watch_ok making w -> watch_ok making (register e id w).
Proof.
  intros Ha He Hsel [Hk Hu Hc]. split.
  - intros e' i. rewrite registered_register. case_decide as Hd; [subst e'|apply Hk].
    intros [Hi| ->%list_elem_of_singleton]%elem_of_app; [by apply Hk|by exists a].
  - intros e' H. cbn in H. rewrite registered_register. case_decide as Hd; [subst e'|by apply Hu].
    rewrite H in Hsel. by destruct Hsel.
  - intros i a' e' Hm Ha' Hw Hcan. destruct (Hc i a' e' Hm Ha' Hw Hcan) as [Hr Hn]. split; [|exact Hn].
    rewrite registered_register. case_decide as Hd; [subst; set_solver|done].
Qed.

Section following.
Context `{Registry} (Hwatch : forall e n, Watch e n = None).

(** Adding a client that is being made to a service of its backends. *)
Lemma Add_ok e id a w : wa_clients w !! id = Some a -> e ∈ omap discovers (ap_Backends a) ->
  watch_ok (Some id) w -> watch_ok (Some id) (Add e id w).2 /\
  exists l, wa_clients (Add e id w).2 !! id = Some (call_back l a) /\ wa_selected (Add e id w).2 !! e = Some l
    /\ id ∈ registered e (Add e id w).2.
Proof.
  intros Ha He Hok. unfold Add. destruct (wa_selected w !! e) as [l|] eqn:Es.
  - split.
    + apply (watch_ok_register _ _ _ (call_back l a)); cbn; [|by rewrite tame_backends|by rewrite Es|].
      * change (wa_clients (on_client id (call_back l) w) !! id = Some (call_back l a)).
        rewrite on_client_lookup, Ha, decide_True by done. done.
      * apply watch_ok_on_client; [done..|naive_solver].
    + exists l. cbn. split_and!; [|done|].
      * change (wa_clients (on_client id (call_back l) w) !! id = Some (call_back l a)).
        rewrite on_client_lookup, Ha, decide_True by done. done.
      * rewrite registered_register, decide_True by done. set_solver.
  - rewrite Hwatch. set (l := default [] _). cbn [fst snd].
    set (w1 := Watcher (wa_selected w) (wa_appliers w) (wa_clients w) (S (wa_watches w))).
    assert (watch_ok (Some id) w1) as Hok1 by (destruct Hok as [Hk Hu Hc]; by split).
    assert (registered e w1 = []) as Hreg by (by apply (unwatched_empty _ _ Hok)).
    assert (wa_clients (on_client id (call_back l) (setSelectedCache e l w1)) !! id = Some (call_back l a)) as Hid
      by (rewrite on_client_lookup; cbn; by rewrite Ha, decide_True by done).
    split.
    + apply (watch_ok_register _ _ _ (call_back l a)); [done|by rewrite tame_backends|cbn; by rewrite lookup_insert_eq|].
      apply watch_ok_on_client; [done|by apply watch_ok_select|naive_solver].
    + exists l. split_and!; [done|cbn; by rewrite lookup_insert_eq|].
      rewrite registered_register, decide_True by done. set_solver.
Qed.

(** All backends of a client that is being made. *)
Lemma apply_backends_ok id a0 bs : forall nodes a w, wa_clients w !! id = Some a -> bs ⊆ ap_Backends a ->
  watch_ok (Some id) w -> watch_ok (Some id) (apply_backends id a0 bs nodes w).2 /\
  exists a', wa_clients (apply_backends id a0 bs nodes w).2 !! id = Some a' /\ ap_Backends a' = ap_Backends a.
Proof.
  induction bs as [|b bs IH]; intros nodes a w Ha Hsub Hok; [by eauto|]. cbn [apply_backends].
  assert (b ∈ ap_Backends a) as Hb by set_solver.
  destruct (parseTarget (bk_Target b)) as [t|e] eqn:Et; [|by eauto].
  case_decide as Hd.
  - destruct (newNode _ _ _ _ _ _ _ _ _) as [n|e|m]; [|by eauto..].
    apply (IH _ (set_nodes (nodes ++ [n]) a)); [by rewrite on_client_lookup, Ha, decide_True by done|set_solver|].
    apply watch_ok_on_client; [done..|naive_solver].
  - case_decide as Hd2; [|by eauto].
    destruct (Add_ok (tg_Endpoint t) id a w Ha) as (Hok' & l & Hl & _ & _); [|done|].
    { apply list_elem_of_omap. exists b. split; [done|]. unfold discovers. by rewrite Et, decide_True by done. }
    destruct (IH nodes (call_back l a) _ Hl) as (Hok2 & a' & Ha' & Hbk); [by rewrite tame_backends; set_solver|done|].
    split; [done|]. exists a'. split; [done|]. by rewrite Hbk, tame_backends.
Qed.

Lemma watch_ok_made id w : watch_ok (Some id) w ->
  (forall a e, wa_clients w !! id = Some a -> watches_only a e -> ap_canceled a = false ->
     id ∈ registered e w /\ ap_nodes a = omap (service_node a) (default [] (wa_selected w !! e))) ->
  watch_ok None w.
Proof.
  intros [Hk Hu Hc] Hid. split; [exact Hk|exact Hu|]. intros i a e _ Ha Hw Hcan.
  destruct (decide (i = id)) as [->|Hne]; [by apply Hid|]. apply Hc; [naive_solver|done..].
Qed.

Lemma NewClient_ok protocol store bs w : watch_ok None w -> watch_ok None (NewClient protocol store bs w).2.
Proof.
  intros Hok. unfold NewClient. set (id := length (wa_clients w)). set (a := Applier protocol bs store false []).
  set (w1 := Watcher _ _ _ _).
  assert (wa_clients w1 !! id = Some a) as Ha.
  { cbn. rewrite lookup_app_r by lia. unfold id. by rewrite Nat.sub_diag. }
  assert (watch_ok (Some id) w1) as Hok1.
  { destruct Hok as [Hk Hu Hc]. split; [|exact Hu|].
    - intros e i (a' & Ha' & He)%Hk. exists a'. split; [|done]. cbn. by apply lookup_app_l_Some.
    - intros i a' e Hm Ha' Hw Hcan. apply Hc; [done| |done..]. cbn in Ha'.
      apply lookup_app_Some in Ha' as [|[Hge Hsing]]; [done|].
      apply list_lookup_singleton_Some in Hsing as [Hi _]. exfalso. apply Hm. f_equal. lia. }
  assert (watch_ok None (apply_backends id a bs [] w1).2) as Hdone.
  { destruct (apply_backends_ok id a bs [] a w1 Ha) as (Hok2 & a' & Ha' & Hbk); [set_solver|done|].
    apply (watch_ok_made id); [done|]. intros a2 e Ha2 (b & Hb & Hd) Hcan.
    assert (a2 = a') as -> by congruence. rewrite Hbk in Hb. cbn [ap_Backends a] in Hb. subst bs.
    cbn [apply_backends] in *. unfold discovers in Hd. destruct (parseTarget (bk_Target b)) as [t|] eqn:Et; [|done].
    case_decide as Hs; [|done]. injection Hd as <-. rewrite decide_False in * by (rewrite Hs; done).
    cbn [fst snd] in *.
    destruct (Add_ok (tg_Endpoint t) id a w1 Ha) as (_ & l & Hl & Hsel & Hreg); [|done|].
    { apply list_elem_of_omap. exists b. split; [by left|]. unfold discovers. by rewrite Et, decide_True by done. }
    rewrite Hl in Ha2. injection Ha2 as <-. split; [done|]. rewrite Hsel. cbn [default].
    rewrite (service_node_protocol (call_back l a) a) by by apply tame_protocol.
    rewrite call_back_nodes by done. by destruct l. }
  by destruct (apply_backends id a bs [] w1) as [[]].
Qed.
End following.

(** Everybody who is to be told is told. *)
Lemma told_lookup l ids : forall w i, wa_clients (foldl (fun w id => on_client id (call_back l) w) w ids) !! i =
  (if decide (i ∈ ids) then call_back l else fun a => a) <$> wa_clients w !! i.
Proof.
  induction ids as [|id ids IH]; intros w i; cbn [foldl].
  - rewrite decide_False by apply not_elem_of_nil. by destruct (wa_clients w !! i).
  - rewrite IH, on_client_lookup. destruct (wa_clients w !! i) as [a|]; [|done]. cbn [fmap option_fmap option_map]. f_equal.
    destruct (decide (i = id)) as [->|Hne].
    + rewrite (decide_True (P := id ∈ id :: ids)) by by left. case_decide; [apply call_back_twice|done].
    + destruct (decide (i ∈ ids)); [by rewrite decide_True by by right|]. rewrite decide_False; [done|set_solver].
Qed.
Lemma told_same l ids : forall w, let w' := foldl (fun w id => on_client id (call_back l) w) w ids in
  wa_selected w' = wa_selected w /\ wa_appliers w' = wa_appliers w.
Proof. induction ids as [|id ids IH]; intros w; [done|]. cbn [foldl]. destruct (IH (on_client id (call_back l) w)) as [-> ->]. done. Qed.

Lemma receive_ok e l w : is_Some (wa_selected w !! e) -> watch_ok None w -> watch_ok None (receive e l w).
Proof.
  intros Hsel [Hk Hu Hc]. unfold receive. destruct l as [|s l]; [by split|]. set (ls := s :: l). unfold doCallback.
  set (w1 := setSelectedCache e ls w). set (w2 := foldl _ _ _).
  destruct (told_same ls (registered e w1) w1) as [Hs2 Ha2]. fold w2 in Hs2, Ha2.
  assert (forall e', registered e' w2 = registered e' w) as Hreg by (intros e'; unfold registered; by rewrite Ha2).
  assert (forall i, wa_clients w2 !! i = (if decide (i ∈ registered e w) then call_back ls else fun a => a) <$> wa_clients w !! i) as Hl.
  { intros i. unfold w2. rewrite told_lookup. done. }
  split.
  - intros e' i. rewrite Hreg. intros (a & Ha & He)%Hk. rewrite Hl, Ha. eexists. split; [done|].
    by case_decide; [rewrite tame_backends|].
  - intros e' H. rewrite Hreg. apply Hu. rewrite Hs2 in H. cbn in H. apply lookup_insert_None in H. tauto.
  - intros i a' e' Hm. rewrite Hl. destruct (wa_clients w !! i) as [a|] eqn:Ha; [|done]. intros [= <-] Hw Hcan.
    rewrite Hreg, Hs2. cbn [wa_selected w1 setSelectedCache].
    case_decide as Hin.
    + rewrite watches_tame in Hw by done. apply (tame_canceled _ (tame_call_back ls)) in Hcan.
      destruct (Hk e i Hin) as (a0 & Ha0 & He). assert (a0 = a) as -> by congruence.
      assert (e' = e) as ->.
      { destruct Hw as (b & Hb & Hd). rewrite Hb in He. cbn in He. rewrite Hd in He. set_solver. }
      split; [done|]. rewrite lookup_insert_eq. cbn [default].
      rewrite (service_node_protocol (call_back ls a) a) by by apply tame_protocol. by rewrite call_back_nodes.
    + destruct (Hc i a e' Hm Ha Hw Hcan) as [Hr Hn]. split; [done|].
      assert (e' <> e) as Hne by (by intros ->). by rewrite lookup_insert_ne.
Qed.

Lemma doCleanup_ok order : forall w, watch_ok None w -> watch_ok None (doCleanup order w).
Proof.
  induction order as [|e order IH]; intros w Hok; [done|]. cbn [doCleanup].
  destruct (where_ (canceled w) (registered e w)) as [|i0 rest]; [done|]. apply IH. destruct Hok as [Hk Hu Hc].
  set (kept := where_ _ _).
  assert (forall e', registered e' (set_appliers e kept w) = if decide (e' = e) then kept else registered e' w) as Hreg.
  { intros e'. unfold registered, set_appliers. cbn. case_decide; [subst; by rewrite lookup_insert_eq|by rewrite lookup_insert_ne]. }
  split.
  - intros e' i. rewrite Hreg. case_decide; [subst; intros [Hi _]%elem_of_where; by apply Hk|apply Hk].
  - intros e' H. rewrite Hreg. case_decide; [subst; unfold kept; by rewrite (Hu e H)|by apply Hu].
  - intros i a e' Hm Ha Hw Hcan. destruct (Hc i a e' Hm Ha Hw Hcan) as [Hr Hn]. split; [|done].
    rewrite Hreg. case_decide; [subst|done]. apply elem_of_where. split; [done|].
    unfold canceled. cbn in Ha. by rewrite Ha, Hcan.
Qed.

Lemma watch_step_ok `{Registry} w w' : (forall e n, Watch e n = None) -> watch_step w w' -> watch_ok None w -> watch_ok None w'.
Proof.
  intros Hwatch [protocol store bs w0|id w0|e l w0 Hs|order w0 _] Hok.
  - by apply NewClient_ok.
  - apply watch_ok_on_client; [done..|]. intros a e _ _ _ Hcan. done.
  - by apply receive_ok.
  - by apply doCleanup_ok.
Qed.
Lemma watched_ok `{Registry} w : (forall e n, Watch e n = None) -> watched w -> watch_ok None w.
Proof.
  intros Hwatch Hw. unfold watched in Hw. remember newServiceWatcher as w0 eqn:E.
  assert (watch_ok None w0) as Hok by (subst; split; intros; set_solver). clear E.
  induction Hw as [|w0 w1 w2 Hstep _ IH]; [done|]. by apply IH, (watch_step_ok w0).
Qed.


Definition instance_at (addr weight : string) : ServiceInstance :=
  Service addr "core" "v1" {[ "weight" := weight ]} ["grpc://" +:+ addr; "http://" +:+ addr +:+ "?isSecure=false"].
#[local] Instance sample_registry : Registry := {|
  Watch e n := None; first_answer e n := if decide (e = "core") then Some [instance_at "10.0.0.1:80" "5"] else None |}.
Definition core_backend : Backend := mkBackend "discovery:///core" None ∅ false "".
Definition two_clients : watcher :=
  (NewClient HTTP None [core_backend] (NewClient HTTP None [core_backend] newServiceWatcher).2).2.
Definition sample_watched : watcher :=
  doCleanup ["core"] (on_client 0 Cancel (receive "core" [instance_at "10.0.0.2:80" "x"; instance_at "10.0.0.3:80" "7"] two_clients)).
Definition node_at (addr weight : string) (n : Z) : node :=
  mkNode addr "core" (Some n) "v1" {[ "weight" := weight ]} HTTP false GlobalClient.

Lemma sample_watched_reached : watched sample_watched.
Proof.
  unfold watched, sample_watched.
  eapply rtc_l; [apply (step_new HTTP None [core_backend])|]. eapply rtc_l; [apply (step_new HTTP None [core_backend])|].
  eapply rtc_l; [apply (step_receive "core" [instance_at "10.0.0.2:80" "x"; instance_at "10.0.0.3:80" "7"]); vm_compute; by eexists|].
  eapply rtc_l; [apply (step_close 0)|].
  apply rtc_once, (step_cleanup ["core"]). vm_compute. reflexivity.
Qed.

(** Of two services of one client the last one that answers takes all its requests. *)
Definition user_backend : Backend := mkBackend "discovery:///user" None ∅ false "".
Example last_service_wins :
  map nd_address (default [] (ap_nodes <$>
    wa_clients (receive "user" [instance_at "10.0.9.9:80" "1"] (NewClient HTTP None [core_backend; user_backend] newServiceWatcher).2) !! 0%nat))
  = ["10.0.9.9:80"].
Proof. vm_compute. reflexivity. Qed.
(** A cleanup stops at a service that has nothing to clean: the closed client of the other
    stays registered. *)
Example cleanup_stops :
  let w := on_client 1 Cancel (NewClient HTTP None [user_backend] (NewClient HTTP None [core_backend] newServiceWatcher).2).2 in
  (registered "user" (doCleanup ["core"; "user"] w), registered "user" (doCleanup ["user"; "core"] w)) = ([1%nat], []).
Proof. vm_compute. reflexivity. Qed.

(** A watch that can not be set up leaves the first client without nodes when the next
    client brings it about. *)
Section late_watch.
#[local] Instance flaky_registry : Registry := {|
  Watch e n := if decide (n = 0%nat) then Some bad_url else None;
  first_answer e n := Some [instance_at "10.0.0.1:80" "5"] |}.
Example first_client_without_nodes :
  map (fun a => map nd_address (ap_nodes a))
    (wa_clients (NewClient HTTP None [core_backend] (NewClient HTTP None [core_backend] newServiceWatcher).2).2)
  = [[]; ["10.0.0.1:80"]].
Proof. vm_compute. reflexivity. Qed.
End late_watch.

(** ** What the breaker lets through *)

Section breaker_rules.
Context `{Breakers}.

(** While the breaker is open, nothing is sent unless there is a backup; when it is
    closed, the answer is the one of the service, and what the breaker is told is whether
    there was one that meets the assertions. *)
Lemma breaker_open t action assertions backup next marks n req w :
  (forall p bs, action <> BackupService p bs) -> Allow t marks n = false ->
  exists resp, breaker_trip t action assertions backup next marks n req w = (Ok (false, Val resp), w).
Proof.
  intros Ha Hn. unfold breaker_trip. rewrite Hn. destruct action as [p bs| |]; [by destruct (Ha p bs)|by eexists..].
Qed.
Lemma breaker_closed t action assertions backup next marks n req w r w' :
  Allow t marks n = true -> next req w = (Ok r, w') ->
  breaker_trip t action assertions backup next marks n req w = (Ok (JudgeConditons assertions r true, Val r), w').
Proof. intros Hn Hr. unfold breaker_trip. rewrite Hn. cbn [negb]. unfold mbind, G_bind, round_trip. by rewrite Hr. Qed.
(** Ratios are counted in ten thousandths. *)
Lemma ratio_bounds r marks n : (10000 <= r -> Allow (Ratio r) marks n = true) /\ (r <= 0 -> Allow (Ratio r) marks n = false).
Proof.
  pose proof (drawn_range n). unfold Allow. split; intros Hr; [apply bool_decide_eq_true|apply bool_decide_eq_false]; lia.
Qed.
End breaker_rules.
