(* ===== verification/ConfigLoader.v ===== *)
(** How the gateway comes by its configuration: the files that are loaded and watched
    ([gateway/config/config.go], the reload of [cmd/gateway/main.go]), and the control
    service that writes them ([config/config-loader/ctrl-loader.go]). *)
From S2P Require Export Discovery.

(** ** [crypto/sha256] *)

Module Sha256.
Definition word (z : Z) : Z := z mod 2 ^ 32.
Definition rotate (k x : Z) : Z := Z.lor (Z.shiftr x k) (word (Z.shiftl x (32 - k))).
(** The first bits of the fractional parts of cube roots of primes. *)
Definition constants : list Z :=
  [1116352408; 1899447441; 3049323471; 3921009573; 961987163; 1508970993; 2453635748; 2870763221;
   3624381080; 310598401; 607225278; 1426881987; 1925078388; 2162078206; 2614888103; 3248222580;
   3835390401; 4022224774; 264347078; 604807628; 770255983; 1249150122; 1555081692; 1996064986;
   2554220882; 2821834349; 2952996808; 3210313671; 3336571891; 3584528711; 113926993; 338241895;
   666307205; 773529912; 1294757372; 1396182291; 1695183700; 1986661051; 2177026350; 2456956037;
   2730485921; 2820302411; 3259730800; 3345764771; 3516065817; 3600352804; 4094571909; 275423344;
   430227734; 506948616; 659060556; 883997877; 958139571; 1322822218; 1537002063; 1747873779;
   1955562222; 2024104815; 2227730452; 2361852424; 2428436474; 2756734187; 3204031479; 3329325298].
Definition xor3 (a b c : Z) : Z := Z.lxor (Z.lxor a b) c.
Definition nth_word (l : list Z) (i : nat) : Z := default 0 (l !! i).

(** The schedule, latest word first. *)
Fixpoint extend (n : nat) (ws : list Z) : list Z :=
  match n with
  | O => ws
  | S n =>
      let w15 := nth_word ws 14 in let w2 := nth_word ws 1 in
      let s0 := xor3 (rotate 7 w15) (rotate 18 w15) (Z.shiftr w15 3) in
      let s1 := xor3 (rotate 17 w2) (rotate 19 w2) (Z.shiftr w2 10) in
      extend n (word (nth_word ws 15 + s0 + nth_word ws 6 + s1) :: ws)
  end.
Definition sha_step (st : list Z) (kw : Z * Z) : list Z :=
  match st with
  | [a; b; c; d; e; f; g; h] =>
      let t1 := h + xor3 (rotate 6 e) (rotate 11 e) (rotate 25 e)
                + Z.lxor (Z.land e f) (Z.land (2 ^ 32 - 1 - e) g) + kw.1 + kw.2 in
      let t2 := xor3 (rotate 2 a) (rotate 13 a) (rotate 22 a)
                + xor3 (Z.land a b) (Z.land a c) (Z.land b c) in
      [word (t1 + t2); a; b; c; word (d + t1); e; f; g]
  | _ => st
  end.
Definition sha_block (st block : list Z) : list Z :=
  zip_with (fun x y => word (x + y)) st (foldl sha_step st (zip constants (rev (extend 48 (rev block))))).

Fixpoint big_endian (l : list Z) : list Z :=
  match l with
  | a :: b :: c :: d :: l => (d + 256 * (c + 256 * (b + 256 * a))) :: big_endian l
  | _ => []
  end.
Definition word_bytes (w : Z) : list Z := map (fun k => Z.shiftr w (8 * k) mod 256) [3; 2; 1; 0].
Definition padded (l : list Z) : list Z :=
  let n := Z.of_nat (length l) in
  l ++ [128] ++ replicate (Z.to_nat ((55 - n) mod 64)) 0
    ++ word_bytes (word (Z.shiftr (8 * n) 32)) ++ word_bytes (word (8 * n)).
(** [sha256sum]: the digest in hexadecimal digits. *)
Definition sha256sum (s : string) : string :=
  let ws := big_endian (padded (codes s)) in
  Md5.hex_text (concat (map word_bytes (foldl sha_block
    [1779033703; 3144134277; 1013904242; 2773480762; 1359893119; 2600822924; 528734635; 1541459225]
    (Md5.blocks (length ws) ws)))).

(** Two of the digests in FIPS 180. *)
Example sha_abc : sha256sum "abc" = "ba7816bf8f01cfea414140de5dae2223b00361a396177a9cb410ff61f20015ad".
Proof. vm_compute. reflexivity. Qed.
Example sha_two_blocks : sha256sum "abcdbcdecdefdefgefghfghighijhijkijkljklmklmnlmnomnopnopq" =
  "248d6a61d20638b8e5c026930c3e6039a33ce45964ff2167f6ecedd419db06c1".
Proof. vm_compute. reflexivity. Qed.
End Sha256.
Import Sha256(sha256sum).

(** ** Files *)

(** [path.Clean], [path.Join] and [filepath.Ext]. *)
Fixpoint clean_relative (done : list string) (segs : list string) : list string :=
  match segs with
  | [] => rev done
  | s :: segs =>
      if decide (s = "" \/ s = ".") then clean_relative done segs
      else if decide (s = ".." /\ done <> [] /\ head done <> Some "..") then clean_relative (tail done) segs
      else clean_relative (s :: done) segs
  end.
Definition Clean (p : string) : string :=
  if has_prefix p "/" then clean_rooted p
  else let q := join "/" (clean_relative [] (split_by slash p)) in if decide (q = "") then "." else q.
Definition Join (a b : string) : string :=
  match where_ (fun s => negb (bool_decide (s = ""))) [a; b] with [] => "" | l => Clean (join "/" l) end.
Definition Ext (name : string) : string :=
  let base := default ([], codes name) (Url.cut_last 47 (codes name)) in
  match Url.cut_last 46 base.2 with Some r => "." +:+ bytes_string r.2 | None => "" end.

Record disk := Disk { dk_files : gmap string string; dk_dirs : gset string }.

(** Names in increasing order. *)
Definition name_le (x y : string) : Prop := string_lt y x = false.
#[export] Instance name_le_dec x y : Decision (name_le x y).
Proof. unfold name_le. apply _. Defined.
Definition in_dir (dir path : string) : option string :=
  let prefix := dir +:+ "/" in
  if has_prefix path prefix then
    let name := trim_prefix path prefix in
    if contains name "/" || bool_decide (name = "") then None else Some name
  else None.
(** [os.ReadDir]: the names with whether they are directories. *)
Definition list_dir (dir : string) (d : disk) : list (string * bool) :=
  let files := omap (in_dir dir) (map fst (map_to_list (dk_files d))) in
  let dirs := omap (in_dir dir) (elements (dk_dirs d)) in
  merge_sort (fun x y => name_le x.1 y.1) (map (fun n => (n, false)) files ++ map (fun n => (n, true)) dirs).

(** What the configuration is written in: YAML, and the messages of [protojson]. *)
Class ConfigFormat := {
  JSONToYAML : string -> option string;
  parse_gateway : string -> option GatewayCfg;
  parse_priority : string -> option (list Endpoint)
}.
Definition yaml_error : goerr := Driver "yaml".

(** ** State *)

(** [lastHash] is nil when the priority files could not be read. *)
Record FileLoader := mkFileLoader {
  fl_confPath : string; fl_priorityDirectory : string; fl_confSHA256 : string;
  fl_priorityConfigHash : option (gmap string string) }.
Record CtrlConfigLoader := mkCtrlLoader {
  ct_ctrlService : list string; ct_ctrlServiceIdx : nat; ct_nextCtrlService : bool;
  ct_dstPath : string; ct_dstPriorityConfigDir : string; ct_advertiseName : string; ct_advertiseAddr : string;
  ct_lastVersion : string; ct_lastPriorityVersion : option (gmap string string) }.
(** [cw_running]: the configuration that the proxy serves. *)
Record config_world := ConfigWorld {
  cw_disk : disk; cw_loader : FileLoader; cw_ctrl : CtrlConfigLoader; cw_features : gmap string bool;
  cw_running : option GatewayCfg }.
Definition FM : Type -> Type := M config_world.

Definition put_disk (d : disk) (s : config_world) : config_world :=
  ConfigWorld d (cw_loader s) (cw_ctrl s) (cw_features s) (cw_running s).
Definition put_loader (l : FileLoader) (s : config_world) : config_world :=
  ConfigWorld (cw_disk s) l (cw_ctrl s) (cw_features s) (cw_running s).
Definition put_ctrl (c : CtrlConfigLoader) (s : config_world) : config_world :=
  ConfigWorld (cw_disk s) (cw_loader s) c (cw_features s) (cw_running s).
Definition put_features (m : gmap string bool) (s : config_world) : config_world :=
  ConfigWorld (cw_disk s) (cw_loader s) (cw_ctrl s) m (cw_running s).
Definition put_running (c : GatewayCfg) (s : config_world) : config_world :=
  ConfigWorld (cw_disk s) (cw_loader s) (cw_ctrl s) (cw_features s) (Some c).

(** ** The calls of package [os] *)

Definition missing (path : string) : goerr := ErrorText (path +:+ ": no such file or directory").
Definition or_error {A} (e : goerr) (o : option A) : FM A := match o with Some a => mret a | None => throw e end.
Definition ReadFile (path : string) : FM string :=
  r ← query (fun s => dk_files (cw_disk s) !! path); or_error (missing path) r.
Definition ReadDir (dir : string) : FM (list (string * bool)) :=
  r ← query (fun s => if decide (dir ∈ dk_dirs (cw_disk s)) then Some (list_dir dir (cw_disk s)) else None);
  or_error (missing dir) r.
Definition write_file (path content : string) (d : disk) : disk := Disk (<[path := content]> (dk_files d)) (dk_dirs d).
Definition remove_file (path : string) (d : disk) : disk := Disk (delete path (dk_files d)) (dk_dirs d).
Definition WriteFile (path content : string) : FM () :=
  exec (fun s => ((), put_disk (write_file path content (cw_disk s)) s)).
Definition Rename (old new : string) : FM () :=
  r ← exec (fun s =>
    match dk_files (cw_disk s) !! old with
    | Some content => (Some (), put_disk (write_file new content (remove_file old (cw_disk s))) s)
    | None => (None, s)
    end);
  or_error (missing old) r.
Definition Remove (path : string) : FM () :=
  r ← exec (fun s =>
    match dk_files (cw_disk s) !! path with
    | Some _ => (Some (), put_disk (remove_file path (cw_disk s)) s)
    | None => (None, s)
    end);
  or_error (missing path) r.
Definition MkdirAll (dir : string) : FM () :=
  exec (fun s => ((), put_disk (Disk (dk_files (cw_disk s)) ({[dir]} ∪ dk_dirs (cw_disk s))) s)).

(** ** The file loader ([config.go]) *)

Definition confPath (s : config_world) : string := fl_confPath (cw_loader s).
Definition priorityDirectory (s : config_world) : string := fl_priorityDirectory (cw_loader s).

Section file_loader.
Context `{ConfigFormat}.

Definition is_yaml (entry : string * bool) : bool := negb entry.2 && bool_decide (Ext entry.1 = ".yaml").

Fixpoint hash_files (dir : string) (names : list string) (out : gmap string string) : FM (gmap string string) :=
  match names with
  | [] => mret out
  | name :: names =>
      configData ← ReadFile (Join dir name);
      hash_files dir names (<[name := sha256sum configData]> out)
  end.
Definition priorityConfigSHA256 : FM (gmap string string) :=
  dir ← peek priorityDirectory;
  if decide (dir = "") then mret ∅
  else
    entrys ← ReadDir dir;
    hash_files dir (map fst (where_ is_yaml entrys)) ∅.
(** The priority files may fail to be read: their hashes are nil then. *)
Definition configSHA256 : FM (string * option (gmap string string)) :=
  path ← peek confPath;
  configData ← ReadFile path;
  ph ← attempt priorityConfigSHA256;
  mret (sha256sum configData, match ph with Val m => Some m | Exn _ => None end).

Definition parsePriorityConfig (cfgPath : string) : FM (list Endpoint) :=
  configData ← ReadFile cfgPath;
  or_error yaml_error (parse_priority configData).
(** A file that can not be read or parsed is skipped. *)
Fixpoint priority_files (dir : string) (names : list string) : FM (list (list Endpoint)) :=
  match names with
  | [] => mret []
  | name :: names =>
      r ← attempt (parsePriorityConfig (Join dir name));
      rest ← priority_files dir names;
      mret (match r with Val es => es :: rest | Exn _ => rest end)
  end.
Definition FileLoader_mergePriorityConfig (dst : GatewayCfg) : FM GatewayCfg :=
  dir ← peek priorityDirectory;
  if decide (dir = "") then mret dst
  else
    entrys ← ReadDir dir;
    files ← priority_files dir (map fst (where_ is_yaml entrys));
    mret (mergePriorityConfig files dst).
(** When the directory can not be read, the configuration goes without it. *)
Definition FileLoader_Load : FM GatewayCfg :=
  path ← peek confPath;
  configData ← ReadFile path;
  out ← or_error yaml_error (parse_gateway configData);
  r ← attempt (FileLoader_mergePriorityConfig out);
  mret (match r with Val cfg => cfg | Exn _ => out end).

Definition set_hashes (h : string * option (gmap string string)) (f : FileLoader) : FileLoader :=
  mkFileLoader (fl_confPath f) (fl_priorityDirectory f) h.1 h.2.
Definition initialize : FM () :=
  dir ← peek priorityDirectory;
  (if decide (dir = "") then mret () else MkdirAll dir);;
  h ← configSHA256;
  poke (fun s => put_loader (set_hashes h (cw_loader s)) s).

(** Every handler runs; the error is that of the last one that fails. *)
Fixpoint executeLoader (handlers : list (FM ())) (chained : option goerr) : FM () :=
  match handlers with
  | [] => match chained with Some e => throw e | None => mret () end
  | fn :: handlers =>
      r ← attempt fn;
      executeLoader handlers (match r with Exn e => Some (ErrorText (error_text e)) | Val _ => chained end)
  end.

(** One round of [watchproc]. *)
Definition watch_round (handlers : list (FM ())) : FM () :=
  r ← attempt configSHA256;
  match r with
  | Exn _ => mret ()
  | Val h =>
      f ← peek cw_loader;
      if decide (h.1 <> fl_confSHA256 f \/ h.2 <> fl_priorityConfigHash f) then
        r ← attempt (executeLoader handlers None);
        match r with
        | Exn _ => mret ()
        | Val _ => poke (fun s => put_loader (set_hashes h (cw_loader s)) s)
        end
      else mret ()
  end.

(** ** The process ([cmd/gateway/main.go]) *)

(** [p.Update]: the proxy takes the configuration or says why it does not. *)
Context (update : GatewayCfg -> outcome ()).
Definition load_and_update : FM () :=
  bc ← FileLoader_Load;
  match update bc with
  | Exn e => throw e
  | Val _ => poke (put_running bc)
  end.
Definition reloader : FM () := load_and_update.
(** Until the configuration is watched. *)
Definition start_gateway : FM () := initialize;; load_and_update.
End file_loader.

(** ** The control service ([ctrl-loader.go]) *)

Record PriorityConfigItem := PriorityItem { pi_Key : string; pi_Config : string; pi_Version : string }.
Record LoadResponse := mkLoadResponse {
  lr_Config : string; lr_Version : string; lr_PriorityConfigs : list (option PriorityConfigItem) }.

Definition item_fields : list (json_field PriorityConfigItem) :=
  [string_member "key" (fun s i => PriorityItem s (pi_Config i) (pi_Version i));
   string_member "config" (fun s i => PriorityItem (pi_Key i) s (pi_Version i));
   string_member "version" (fun s i => PriorityItem (pi_Key i) (pi_Config i) s)].
(** A pointer is nil for a [null]. *)
Definition pointer_value {A} (value : list Z -> option A) (v : list Z) : option (option A) :=
  match v with 110 :: _ => Some None | _ => Some <$> value v end.
Definition item_value : list Z -> option (option PriorityConfigItem) :=
  pointer_value (struct_value (fields_of item_fields) (PriorityItem "" "" "")).
Definition response_fields : list (json_field LoadResponse) :=
  [string_member "config" (fun s r => mkLoadResponse s (lr_Version r) (lr_PriorityConfigs r));
   string_member "version" (fun s r => mkLoadResponse (lr_Config r) s (lr_PriorityConfigs r));
   array_member "priorityConfigs" item_value (fun l r => mkLoadResponse (lr_Config r) (lr_Version r) l)].
Definition unmarshal_response : string -> option (option LoadResponse) :=
  unmarshal (pointer_value (struct_value (fields_of response_fields) (mkLoadResponse "" "" []))).
(** [map[string]bool] *)
Fixpoint bool_map (kvs : list (string * list Z)) (m : gmap string bool) : option (gmap string bool) :=
  match kvs with
  | [] => Some m
  | kv :: kvs => b ← decode_bool kv.2; bool_map kvs (<[kv.1 := default false b]> m)
  end.
Definition features_fields : list (json_field (gmap string bool)) :=
  [unused_string "gateway"; ("features", fun m v => kvs ← value_members v; bool_map kvs m)].
Definition unmarshal_features : string -> option (option (gmap string bool)) :=
  unmarshal (pointer_value (struct_value (fields_of features_fields) ∅)).

(** [%!] of a path that is written out. *)
Definition path_text_byte (a : Ascii.ascii) : list Ascii.ascii :=
  if Url.url_letter (code a) || is_digit (code a) || one_of "-_.~$&+,/:;=@" (code a) then [a]
  else [byte_of 37; hex_upper (code a / 16); hex_upper (code a mod 16)].
(** [u.String()] for a URL with a host, and without user and fragment. *)
Definition url_text (u : Url.URL) : string :=
  (if decide (Url.u_Scheme u = "") then "" else Url.u_Scheme u +:+ ":") +:+ "//" +:+ Url.u_Host u
    +:+ (if has_prefix (Url.u_Path u) "/" || bool_decide (Url.u_Path u = "") then "" else "/")
    +:+ of_bytes (concat (map path_text_byte (bytes_of (Url.u_Path u))))
    +:+ (if decide (Url.u_RawQuery u = "") then "" else "?" +:+ Url.u_RawQuery u).

Definition priority_feature : string := "gw:PriorityConfig".
(** Every assignment replaces the one before: the version of the last key of the map goes
    out, which is any. *)
Definition encodeLastPriorityVersion (enabled : bool) (versions : option (gmap string string)) : list (string * string) :=
  if negb enabled then []
  else match last (map_to_list (default ∅ versions)) with
       | Some kv => [("lastPriorityVersions", kv.1 +:+ "=" +:+ kv.2)]
       | None => []
       end.

Section ctrl_loader.
Context `{Web} `{ConfigFormat}.

(** [prepareCtrlService]: the services that parse, in the order they are shuffled into;
    they are kept as they are written, since their [String] is only parsed again. *)
Definition prepareCtrlService (parts : string) (shuffle : list string -> list string) : list string :=
  shuffle (where_ (fun p => match Url.Parse p with Some _ => true | None => false end) (split_by (byte_of 44) parts)).

Definition set_choice (i : nat) (next : bool) (c : CtrlConfigLoader) : CtrlConfigLoader :=
  mkCtrlLoader (ct_ctrlService c) i next (ct_dstPath c) (ct_dstPriorityConfigDir c) (ct_advertiseName c)
    (ct_advertiseAddr c) (ct_lastVersion c) (ct_lastPriorityVersion c).
Definition set_version (v : string) (c : CtrlConfigLoader) : CtrlConfigLoader :=
  mkCtrlLoader (ct_ctrlService c) (ct_ctrlServiceIdx c) (ct_nextCtrlService c) (ct_dstPath c)
    (ct_dstPriorityConfigDir c) (ct_advertiseName c) (ct_advertiseAddr c) v (ct_lastPriorityVersion c).
Definition set_priority_versions (m : gmap string string) (c : CtrlConfigLoader) : CtrlConfigLoader :=
  mkCtrlLoader (ct_ctrlService c) (ct_ctrlServiceIdx c) (ct_nextCtrlService c) (ct_dstPath c)
    (ct_dstPriorityConfigDir c) (ct_advertiseName c) (ct_advertiseAddr c) (ct_lastVersion c) (Some m).
Definition poke_ctrl (f : CtrlConfigLoader -> CtrlConfigLoader) : FM () :=
  poke (fun s => put_ctrl (f (cw_ctrl s)) s).

(** A panic is not an error: nothing below returns it as one, so that it ends the process. *)
Definition panic (msg : string) : goerr := Wrapped "panic" (Driver msg).
Definition is_panic (e : goerr) : bool := match e with Wrapped prefix _ => bool_decide (prefix = "panic") | _ => false end.
Definition attempt_call {A} (m : FM A) : FM (outcome A) :=
  r ← attempt m;
  match r with
  | Exn e => if is_panic e then throw e else mret r
  | Val _ => mret r
  end.

(** Without a service the division by their number panics, or the index is out of range. *)
Definition no_service : goerr := panic "index out of range".
Definition choseCtrlService : FM string :=
  c ← peek cw_ctrl;
  let n := length (ct_ctrlService c) in
  if decide (n = 0%nat) then throw no_service
  else if ct_nextCtrlService c then
    let i := (S (ct_ctrlServiceIdx c) mod n)%nat in
    poke_ctrl (set_choice i false);; or_error no_service (ct_ctrlService c !! i)
  else or_error no_service (ct_ctrlService c !! ct_ctrlServiceIdx c).
Definition urlfor (upath : string) (params : list (string * string)) : FM string :=
  service ← choseCtrlService;
  u ← or_error bad_url (Url.Parse service);
  mret (url_text (Url.Parsed (Url.u_Scheme u) "" (Url.u_Host u) (Join (Url.u_Path u) upath) (encode_values params))).

Definition errNotModified : goerr := ErrorText "config not modified".
(** The body of a good answer. *)
Definition ctrl_get (api : string) : FM string :=
  resp ← web_get default_client (get_request [] api);
  if decide (pg_status resp = 304) then throw errNotModified
  else if decide (pg_status resp = StatusOK) then read_all resp
  else throw (ErrorText ("invalid status code: " +:+ pretty (pg_status resp))).
Definition ctrl_load : FM string :=
  c ← peek cw_ctrl;
  fs ← peek cw_features;
  let enabled := default false (fs !! priority_feature) in
  api ← urlfor "/v1/control/gateway/release"
    ([("gateway", ct_advertiseName c); ("ip_addr", ct_advertiseAddr c)]
     ++ encodeLastPriorityVersion enabled (ct_lastPriorityVersion c)
     ++ [("last_version", ct_lastVersion c)] ++ (if enabled then [("supportPriorityConfig", "1")] else []));
  ctrl_get api.
Definition loadFeatures : FM string :=
  c ← peek cw_ctrl;
  api ← urlfor "/v1/control/gateway/features" [("gateway", ct_advertiseName c); ("ip_addr", ct_advertiseAddr c)];
  ctrl_get api.

Definition nil_item : goerr := panic "invalid memory address or nil pointer dereference".
Fixpoint write_items (dir : string) (items : list (option PriorityConfigItem)) (versions : gmap string string)
    : FM (gmap string string) :=
  match items with
  | [] => mret versions
  | None :: _ => throw nil_item
  | Some item :: items =>
      yamlBytes ← or_error yaml_error (JSONToYAML (pi_Config item));
      let tmpPath := Join dir (pi_Key item +:+ ".yaml.tmp") in
      WriteFile tmpPath yamlBytes;;
      Rename tmpPath (Join dir (pi_Key item +:+ ".yaml"));;
      write_items dir items (<[pi_Key item := pi_Version item]> versions)
  end.
Fixpoint remove_expired (dir : string) (versions : gmap string string) (names : list string) : FM () :=
  match names with
  | [] => mret ()
  | name :: names =>
      (if decide (is_Some (versions !! trim_suffix name ".yaml")) then mret ()
       else ignore_err (Remove (Join dir name)));;
      remove_expired dir versions names
  end.
Definition cleanUpPriorityConfigs (versions : gmap string string) : FM () :=
  c ← peek cw_ctrl;
  let dir := ct_dstPriorityConfigDir c in
  r ← attempt (ReadDir dir);
  match r with
  | Exn _ => mret ()
  | Val entrys => remove_expired dir versions (map fst (where_ is_yaml entrys))
  end.
Definition writePriorityConfigs (resp : LoadResponse) : FM () :=
  c ← peek cw_ctrl;
  if decide (ct_dstPriorityConfigDir c = "") then mret ()
  else
    versions ← write_items (ct_dstPriorityConfigDir c) (lr_PriorityConfigs resp) ∅;
    cleanUpPriorityConfigs versions;;
    poke_ctrl (set_priority_versions versions).

(** [uuid]: what makes the name of the temporary file. *)
Definition ctrl_store (uuid : string) (cfgBytes : string) : FM () :=
  c ← peek cw_ctrl;
  resp ← or_error (Driver "json") (unmarshal_response cfgBytes);
  resp ← or_error nil_item resp;
  yamlBytes ← or_error yaml_error (JSONToYAML (lr_Config resp));
  let tmpPath := ct_dstPath c +:+ "." +:+ uuid +:+ ".tmp" in
  WriteFile tmpPath yamlBytes;;
  Rename tmpPath (ct_dstPath c);;
  poke_ctrl (set_version (lr_Version resp));;
  attempt_call (writePriorityConfigs resp);;
  mret ().
(** After an error the next request goes to the next service. *)
Definition Ctrl_Load (uuid : string) : FM () :=
  r ← attempt_call (cfgBytes ← ctrl_load; ctrl_store uuid cfgBytes);
  match r with
  | Val _ => mret ()
  | Exn e =>
      if decide (e = errNotModified) then mret ()
      else poke_ctrl (fun c => set_choice (ct_ctrlServiceIdx c) true c);; throw e
  end.
Definition LoadFeatures : FM () :=
  featureBytes ← loadFeatures;
  resp ← or_error (Driver "json") (unmarshal_features featureBytes);
  fs ← or_error nil_item resp;
  poke (fun s => put_features (fs ∪ cw_features s) s).

(** [Run], for so many rounds; [None] when it goes on.  [done n] says whether the context
    is over at call [n]; it is asked only after a load that succeeds. *)
Fixpoint Ctrl_Run (fuel : nat) (uuids : nat -> string) (done : nat -> bool) : FM (option ()) :=
  match fuel with
  | O => mret None
  | S fuel =>
      n ← (fun w => (Val (w_calls w), w));
      r ← attempt_call (Ctrl_Load (uuids n));
      match r with
      | Exn _ => Ctrl_Run fuel uuids done
      | Val _ =>
          attempt_call LoadFeatures;;
          n ← (fun w => (Val (w_calls w), w));
          if done n then mret (Some ()) else Ctrl_Run fuel uuids done
      end
  end.
End ctrl_loader.

(** ** What is read of the files *)

(** A computation that only looks at the files under the paths of the loader, when no call
    fails. *)
Definition view (s : config_world) : disk * string * string := (cw_disk s, confPath s, priorityDirectory s).
Definition viewing {A} (m : FM A) : Prop := forall w, healthy w ->
  w_db (m w).2 = w_db w /\ healthy (m w).2 /\
  forall w', healthy w' -> view (w_db w) = view (w_db w') -> (m w).1 = (m w').1.

Section viewing_rules.
Lemma viewing_ret {A} (a : A) : viewing (mret a).
Proof. done. Qed.
Lemma viewing_throw {A} e : viewing (A := A) (throw e).
Proof. done. Qed.
Lemma viewing_found {A} e (o : option A) : viewing (or_error e o).
Proof. by destruct o. Qed.
Lemma viewing_peek {A} (f : config_world -> A) : (forall s s', view s = view s' -> f s = f s') -> viewing (peek f).
Proof. intros Hf w Hw. split_and!; [done..|]. intros w' Hw' Hv. unfold peek. simpl. f_equal. by apply Hf. Qed.
Lemma viewing_query {A} (f : config_world -> A) : (forall s s', view s = view s' -> f s = f s') -> viewing (query f).
Proof.
  intros Hf w Hw. unfold query. rewrite (Hw (w_calls w)). split_and!; [done..|].
  intros w' Hw' Hv. rewrite (Hw' (w_calls w')). simpl. f_equal. by apply Hf.
Qed.
Lemma viewing_attempt {A} (m : FM A) : viewing m -> viewing (attempt m).
Proof. intros Hm w Hw. destruct (Hm w Hw) as (H1 & H2 & H3). split_and!; [done..|]. intros w' Hw' Hv. simpl. f_equal. by apply H3. Qed.
Lemma viewing_bind {A B} (m : FM A) (f : A -> FM B) : viewing m -> (forall a, viewing (f a)) -> viewing (m ≫= f).
Proof.
  intros Hm Hf w Hw. unfold mbind, M_bind. destruct (Hm w Hw) as (H1 & H2 & H3).
  destruct (m w) as [[a|e] w1] eqn:E; simpl in *.
  - destruct (Hf a w1 H2) as (H4 & H5 & H6). split_and!; [congruence|done|]. intros w' Hw' Hv.
    specialize (H3 w' Hw' Hv). destruct (Hm w' Hw') as (H1' & H2' & _). destruct (m w') as [o w2]. simpl in *. subst o.
    apply H6; [done|]. by rewrite H1, H1'.
  - split_and!; [done..|]. intros w' Hw' Hv. specialize (H3 w' Hw' Hv). destruct (m w') as [o w2]. simpl in *. by subst o.
Qed.
End viewing_rules.

Ltac viewed := repeat first
  [ apply viewing_ret | apply viewing_throw | apply viewing_found | apply viewing_attempt
  | apply viewing_bind; [|intros ?]
  | apply viewing_query; intros ? ? [= ? ? ?]; congruence
  | apply viewing_peek; intros ? ? [= ? ? ?]; congruence
  | match goal with |- viewing (if ?x then _ else _) => destruct x end
  | match goal with |- viewing (match ?x with _ => _ end) => destruct x end ].

Section watching_files.
Context `{ConfigFormat} (update : GatewayCfg -> outcome ()).

Lemma viewing_ReadFile path : viewing (ReadFile path).
Proof. unfold ReadFile. viewed. Qed.
Lemma viewing_ReadDir dir : viewing (ReadDir dir).
Proof.
  apply viewing_bind; [|intros; viewed]. apply viewing_query. intros s s' Hv.
  assert (cw_disk s = cw_disk s') as -> by (unfold view in Hv; congruence). done.
Qed.
Lemma viewing_hash_files dir names : forall out, viewing (hash_files dir names out).
Proof. induction names as [|n names IH]; intros out; cbn [hash_files]; [viewed|]. apply viewing_bind; [apply viewing_ReadFile|done]. Qed.
Lemma viewing_dir : viewing (peek priorityDirectory).
Proof. apply viewing_peek. unfold view. congruence. Qed.
Lemma viewing_path : viewing (peek confPath).
Proof. apply viewing_peek. unfold view. congruence. Qed.
Lemma viewing_configSHA256 : viewing configSHA256.
Proof.
  apply viewing_bind; [apply viewing_path|]. intros path. apply viewing_bind; [apply viewing_ReadFile|]. intros data.
  apply viewing_bind; [|intros; viewed]. apply viewing_attempt, viewing_bind; [apply viewing_dir|]. intros dir.
  case_decide; [viewed|]. apply viewing_bind; [apply viewing_ReadDir|]. intros es. apply viewing_hash_files.
Qed.
Lemma viewing_priority_files dir names : viewing (priority_files dir names).
Proof.
  induction names as [|n names IH]; cbn [priority_files]; [viewed|]. apply viewing_bind; [|intros; apply viewing_bind; [done|intros; viewed]].
  apply viewing_attempt, viewing_bind; [apply viewing_ReadFile|intros; viewed].
Qed.
Lemma viewing_Load : viewing FileLoader_Load.
Proof.
  apply viewing_bind; [apply viewing_path|]. intros path. apply viewing_bind; [apply viewing_ReadFile|]. intros data.
  apply viewing_bind; [viewed|]. intros out. apply viewing_bind; [|intros; viewed].
  apply viewing_attempt, viewing_bind; [apply viewing_dir|]. intros dir. case_decide; [viewed|].
  apply viewing_bind; [apply viewing_ReadDir|]. intros es. apply viewing_bind; [apply viewing_priority_files|intros; viewed].
Qed.

(** What files hold: the digest of them, and the configuration they make up. *)
Definition calm (s : config_world) : world config_world := World s ∅ 0 (fun _ => None) (fun _ => 0).
Definition digest_of (s : config_world) : outcome (string * option (gmap string string)) := (configSHA256 (calm s)).1.
Definition config_of (s : config_world) : outcome GatewayCfg := (FileLoader_Load (calm s)).1.
Definition recorded (s : config_world) : string * option (gmap string string) :=
  (fl_confSHA256 (cw_loader s), fl_priorityConfigHash (cw_loader s)).

(** The proxy serves the configuration of files whose digest is the one recorded. *)
Definition in_sync (s : config_world) : Prop := exists d c,
  digest_of (put_disk d s) = Val (recorded s) /\ config_of (put_disk d s) = Val c /\
  update c = Val () /\ cw_running s = Some c.

Lemma digest_view s s' : view s = view s' -> digest_of s = digest_of s'.
Proof. intros Hv. by apply (viewing_configSHA256 (calm s)). Qed.
Lemma config_view s s' : view s = view s' -> config_of s = config_of s'.
Proof. intros Hv. by apply (viewing_Load (calm s)). Qed.

Lemma load_and_update_run w : healthy w ->
  (load_and_update update w).1 = match config_of (w_db w) with Exn e => Exn e | Val c => update c end /\
  w_db (load_and_update update w).2 = match config_of (w_db w) with
    | Val c => match update c with Val _ => put_running c (w_db w) | Exn _ => w_db w end
    | Exn _ => w_db w end /\
  healthy (load_and_update update w).2.
Proof.
  intros Hw. unfold load_and_update, mbind, M_bind. destruct (viewing_Load w Hw) as (Hdb & Hh & Hr).
  specialize (Hr (calm (w_db w)) (fun _ => eq_refl) eq_refl). fold (config_of (w_db w)) in Hr.
  destruct (FileLoader_Load w) as [[c|e] w1]; simpl in *; rewrite <- Hr; [|done].
  destruct (update c) as [[]|e]; simpl; by rewrite Hdb.
Qed.

(** A round without failing calls: nothing is done for the digest that is recorded; else
    the files are loaded, and recorded when the proxy took them. *)
Lemma watch_round_run w : healthy w -> w_db (watch_round [reloader update] w).2 =
  match digest_of (w_db w) with
  | Exn _ => w_db w
  | Val h =>
      if decide (h = recorded (w_db w)) then w_db w
      else match config_of (w_db w) with
           | Val c => match update c with
                      | Val _ => put_loader (set_hashes h (cw_loader (w_db w))) (put_running c (w_db w))
                      | Exn _ => w_db w
                      end
           | Exn _ => w_db w
           end
  end.
Proof.
  intros Hw. unfold watch_round, attempt at 1. unfold mbind, M_bind. simpl.
  destruct (viewing_configSHA256 w Hw) as (Hdb & Hh & Hr).
  specialize (Hr (calm (w_db w)) (fun _ => eq_refl) eq_refl). fold (digest_of (w_db w)) in Hr.
  destruct (configSHA256 w) as [[h|e] w1]; simpl in *; rewrite <- Hr; [|done]. rewrite Hdb.
  destruct (decide (h = recorded (w_db w))) as [->|Hne].
  - rewrite decide_False; [done|]. unfold recorded. simpl. tauto.
  - rewrite decide_True.
    2:{ unfold recorded in Hne. destruct h as [h1 h2]. simpl. destruct (decide (h1 = fl_confSHA256 (cw_loader (w_db w)))); [right|by left].
        intros ->. apply Hne. by subst. }
    destruct (load_and_update_run w1 Hh) as (H1 & H2 & H3). rewrite Hdb in H1, H2.
    unfold reloader, attempt. cbn [executeLoader]. unfold mbind, M_bind. cbn [fst snd].
    destruct (load_and_update update w1) as [o w2]. simpl in *. subst o.
    destruct (config_of (w_db w)) as [c|e]; [|done]. destruct (update c) as [[]|e]; [|done].
    simpl. unfold poke. simpl. by rewrite H2.
Qed.

Lemma recorded_set_hashes h f s : recorded (put_loader (set_hashes h f) s) = h.
Proof. by destruct h. Qed.

(** The steps of a gateway: files and everything else about the control service change in
    any way, but not between a look at their digests and the loading of them; and the files
    are looked at. *)
Inductive config_step : config_world -> config_world -> Prop :=
  | step_files d c fs s : config_step s (ConfigWorld d (cw_loader s) c fs (cw_running s))
  | step_round w : healthy w -> config_step (w_db w) (w_db (watch_round [reloader update] w).2).
(** A gateway that has started. *)
Definition started (s : config_world) : Prop :=
  exists w, healthy w /\ (start_gateway update w).1 = Val () /\ s = w_db (start_gateway update w).2.

Lemma in_sync_now s h c : digest_of s = Val h -> config_of s = Val c -> update c = Val () ->
  forall s', view s' = view s -> recorded s' = h -> cw_running s' = Some c -> in_sync s'.
Proof.
  intros Hd Hc Hu s' Hv Hr Hrun. exists (cw_disk s'), c.
  assert (view (put_disk (cw_disk s') s') = view s) as Hv' by done.
  rewrite (digest_view _ _ Hv'), (config_view _ _ Hv'), Hr. done.
Qed.
Lemma in_sync_kept s s' : in_sync s -> confPath s' = confPath s -> priorityDirectory s' = priorityDirectory s ->
  recorded s' = recorded s -> cw_running s' = cw_running s -> in_sync s'.
Proof.
  intros (d & c & H1 & H2 & H3 & H4) Hp Hq Hr Hrun. exists d, c.
  assert (view (put_disk d s') = view (put_disk d s)) as Hv.
  { unfold view. change (confPath (put_disk d s')) with (confPath s'). change (priorityDirectory (put_disk d s')) with (priorityDirectory s').
    by rewrite Hp, Hq. }
  rewrite (digest_view _ _ Hv), (config_view _ _ Hv), Hr, Hrun. done.
Qed.
Lemma round_in_sync w : healthy w -> in_sync (w_db w) -> in_sync (w_db (watch_round [reloader update] w).2).
Proof.
  intros Hw Hs. rewrite watch_round_run by done. destruct (digest_of (w_db w)) as [h|e] eqn:Ed; [|done].
  case_decide; [done|]. destruct (config_of (w_db w)) as [c|e] eqn:Ec; [|done].
  destruct (update c) as [[]|e] eqn:Eu; [|done]. apply (in_sync_now (w_db w) h c); [done..| |done].
  apply recorded_set_hashes.
Qed.
Lemma step_in_sync s s' : config_step s s' -> in_sync s -> in_sync s'.
Proof. intros [d c fs s0|w Hw] Hs; [by apply (in_sync_kept s0)|by apply round_in_sync]. Qed.

Lemma started_in_sync s : started s -> in_sync s.
Proof.
  intros (w & Hw & Hr & ->). unfold start_gateway, initialize in *. unfold mbind, M_bind in Hr |- *.
  cbn [peek] in *.
  set (w0 := if decide (priorityDirectory (w_db w) = "") then w else
               set_db (put_disk (Disk (dk_files (cw_disk (w_db w))) ({[priorityDirectory (w_db w)]} ∪ dk_dirs (cw_disk (w_db w)))) (w_db w)) (tick w)).
  match goal with |- context [(if decide (priorityDirectory (w_db w) = "") then ?x else ?y) w] =>
    assert ((if decide (priorityDirectory (w_db w) = "") then x else y) w = (Val (), w0)) as E0 end.
  { unfold w0. case_decide; [done|]. unfold MkdirAll, exec. by rewrite (Hw (w_calls w)). }
  rewrite E0 in Hr |- *. assert (healthy w0) as Hw0 by (unfold w0; by case_decide).
  destruct (viewing_configSHA256 w0 Hw0) as (Hdb & Hh & Hd). specialize (Hd (calm (w_db w0)) (fun _ => eq_refl) eq_refl).
  fold (digest_of (w_db w0)) in Hd. destruct (configSHA256 w0) as [[h|e] w1]; [|done]. cbn [fst snd] in *. unfold poke in Hr |- *.
  set (w2 := set_db (put_loader (set_hashes h (cw_loader (w_db w1))) (w_db w1)) w1) in *.
  assert (healthy w2) as Hw2 by exact Hh. destruct (load_and_update_run w2 Hw2) as (H1 & H2 & _).
  assert (view (w_db w2) = view (w_db w0)) as Hv by (unfold w2; simpl; by rewrite Hdb).
  rewrite (config_view _ _ Hv) in H1, H2. rewrite Hr in H1. rewrite H2.
  destruct (config_of (w_db w0)) as [c|e] eqn:Ec; [|done]. rewrite <- H1.
  apply (in_sync_now (w_db w0) h c); [done..| |done]. apply recorded_set_hashes.
Qed.
End watching_files.

(** C35: The proxy follows its configuration files: once the gateway has started, whatever happens to the
    files and to the control service, it serves the configuration of files whose digest is the one
    recorded; and a look at files with another digest either makes the proxy serve exactly what
    they hold and records them, or, when the proxy refuses them, changes nothing, so that they are
    tried again; provided files can be read. *)
Theorem config_followed `{ConfigFormat} (update : GatewayCfg -> outcome ()) (s0 s : config_world) :
  started update s0 -> rtc (config_step update) s0 s ->
  in_sync update s /\
  forall w h c, healthy w -> w_db w = s -> digest_of s = Val h -> h <> recorded s -> config_of s = Val c ->
    let s' := w_db (watch_round [reloader update] w).2 in
    match update c with
    | Val _ => cw_running s' = Some c /\ recorded s' = h /\ cw_disk s' = cw_disk s
    | Exn _ => s' = s
    end.
Proof.
  intros Hstart Hsteps. split.
  - apply started_in_sync in Hstart. induction Hsteps as [|s0 s1 s2 Hstep _ IH]; [done|].
    by apply IH, (step_in_sync update s0).
  - intros w h c Hw <- Hd Hne Hc. cbv zeta. rewrite watch_round_run by done. rewrite Hd, decide_False, Hc by done.
    destruct (update c) as [[]|e]; [|done]. split_and!; [done| |done]. apply recorded_set_hashes.
Qed.

(** Texts that stand for configurations with one endpoint. *)
Definition sample_endpoint (path : string) : Endpoint := EndpointCfg path "GET" "" false false None None [].
#[local] Instance sample_format : ConfigFormat := {|
  JSONToYAML s := if decide (s = "{}") then Some "gateway /a" else Some s;
  parse_gateway s := if has_prefix s "gateway " then Some (GatewayConfig [sample_endpoint (trim_prefix s "gateway ")] []) else None;
  parse_priority s := if has_prefix s "priority " then Some [sample_endpoint (trim_prefix s "priority ")] else None |}.
Definition any_config (c : GatewayCfg) : outcome () := Val ().
Definition sample_disk (conf : string) : disk := Disk {[ "conf.yaml" := conf; "prio/x.yaml" := "priority /x"; "prio/x.tmp" := "" ]} {[ "prio" ]}.
Definition sample_state : config_world :=
  ConfigWorld (sample_disk "gateway /a") (mkFileLoader "conf.yaml" "prio" "" None)
    (mkCtrlLoader ["http://ctrl:8000/base"] 0 false "conf.yaml" "prio" "gw" "10.0.0.9" "v1" None) ∅ None.
Definition sample_started : config_world := w_db (start_gateway any_config (calm sample_state)).2.
Definition sample_changed : config_world :=
  ConfigWorld (sample_disk "gateway /b") (cw_loader sample_started) (cw_ctrl sample_started) ∅ (cw_running sample_started).
Definition serves_paths (s : config_world) : option (list string) := (fun c => map ep_Path (gc_Endpoints c)) <$> cw_running s.

Lemma config_followed_witness : in_sync any_config sample_changed /\
  forall w h c, healthy w -> w_db w = sample_changed -> digest_of sample_changed = Val h -> h <> recorded sample_changed ->
    config_of sample_changed = Val c ->
    let s' := w_db (watch_round [reloader any_config] w).2 in
    match any_config c with
    | Val _ => cw_running s' = Some c /\ recorded s' = h /\ cw_disk s' = cw_disk sample_changed
    | Exn _ => s' = sample_changed
    end.
Proof.
  apply (config_followed any_config sample_started).
  - exists (calm sample_state). split; [done|]. split; [vm_compute; reflexivity|done].
  - apply rtc_once, step_files.
Defined.
Example reloaded : (serves_paths sample_started, serves_paths (w_db (watch_round [reloader any_config] (calm sample_changed)).2))
  = (Some ["/x"; "/a"], Some ["/x"; "/b"]).
Proof. vm_compute. reflexivity. Qed.

(** When the directory of the priority files can not be read while the configuration is
    loaded, the proxy serves it without them, and the digest says that all is loaded: the next
    look does nothing. *)
Example priority_lost :
  let bad := World sample_changed ∅ 0 (fun n => if decide (n = 4%nat) then Some "EIO" else None) (fun _ => 0) in
  let s1 := w_db (watch_round [reloader any_config] bad).2 in
  (serves_paths s1, serves_paths (w_db (watch_round [reloader any_config] (calm s1)).2)) = (Some ["/b"], Some ["/b"]).
Proof. vm_compute. reflexivity. Qed.

(** ** What the control service brings about *)

Section ctrl_rules.
Context `{Web} `{ConfigFormat}.

Lemma call_fails {A} (m : FM A) w e w1 : m w = (Exn e, w1) -> is_panic e = false -> attempt_call m w = (Val (Exn e), w1).
Proof. intros E He. unfold attempt_call, attempt, mbind, M_bind. by rewrite E; cbn [fst snd]; rewrite He. Qed.
(** No service answers, whichever is asked. *)
Definition unreachable : Prop := forall r n, exists e,
  browse default_client r n = Exn e /\ e <> errNotModified /\ is_panic e = false.
Definition services_ok (s : config_world) : Prop :=
  (ct_ctrlServiceIdx (cw_ctrl s) < length (ct_ctrlService (cw_ctrl s)))%nat.
Lemma chose_service (w : world config_world) : services_ok (w_db w) ->
  exists service w1, choseCtrlService w = (Val service, w1) /\ services_ok (w_db w1).
Proof.
  intros Hw. unfold services_ok in Hw. set (c := cw_ctrl (w_db w)) in *.
  unfold choseCtrlService, mbind, M_bind. cbn [peek]. fold c. rewrite decide_False by lia.
  destruct (ct_nextCtrlService c) eqn:E.
  - set (i := (S (ct_ctrlServiceIdx c) mod length (ct_ctrlService c))%nat).
    assert (i < length (ct_ctrlService c))%nat as Hi by (apply Nat.mod_upper_bound; lia).
    destruct (lookup_lt_is_Some_2 _ _ Hi) as [x Hx]. rewrite Hx. by do 2 eexists.
  - destruct (lookup_lt_is_Some_2 _ _ Hw) as [x Hx]. rewrite Hx. by do 2 eexists.
Qed.
Lemma ctrl_load_fails (w : world config_world) : unreachable -> services_ok (w_db w) ->
  exists e w1, ctrl_load w = (Exn e, w1) /\ e <> errNotModified /\ is_panic e = false /\ services_ok (w_db w1).
Proof.
  intros Hb Hw. destruct (chose_service w Hw) as (service & w1 & E & Hw1).
  unfold ctrl_load, urlfor, mbind, M_bind. cbn [peek]. rewrite E. unfold or_error. destruct (Url.Parse service) as [u|].
  - unfold ctrl_get, mbind, M_bind, web_get, remote, mret, M_ret.
    match goal with |- context [browse default_client ?r ?n] => destruct (Hb r n) as (e & -> & He & Hp) end. by exists e, (tick w1).
  - by exists bad_url, w1.
Qed.
(** The next load asks the next service. *)
Lemma load_fails uuid (w : world config_world) : unreachable -> services_ok (w_db w) ->
  exists e w1, Ctrl_Load uuid w = (Exn e, w1) /\ is_panic e = false /\ services_ok (w_db w1) /\
    ct_nextCtrlService (cw_ctrl (w_db w1)) = true.
Proof.
  intros Hb Hw. destruct (ctrl_load_fails w Hb Hw) as (e & w1 & E & Hne & Hp & Hw1).
  unfold Ctrl_Load. unfold mbind at 1, M_bind. rewrite (call_fails _ _ e w1); [| |done].
  - rewrite decide_False by done. by do 2 eexists.
  - unfold mbind, M_bind. by rewrite E.
Qed.

(** [Run] does not end while requests fail, as they do once its context is over; there is no
    pause between the rounds either. *)
Lemma run_never_ends uuids done : unreachable ->
  forall fuel (w : world config_world), services_ok (w_db w) -> (Ctrl_Run fuel uuids done w).1 = Val None.
Proof.
  intros Hb. induction fuel as [|fuel IH]; intros w Hw; [done|]. cbn [Ctrl_Run].
  destruct (load_fails (uuids (w_calls w)) w Hb Hw) as (e & w1 & E & Hp & Hw1 & _).
  unfold mbind, M_bind. rewrite (call_fails _ _ _ _ E Hp). by apply IH.
Qed.

Lemma write_file_run path content (w : world config_world) : healthy w ->
  WriteFile path content w = (Val (), set_db (put_disk (write_file path content (cw_disk (w_db w))) (w_db w)) (tick w)).
Proof. intros Hw. unfold WriteFile, exec. by rewrite (Hw (w_calls w)). Qed.
Lemma rename_run old new content (w : world config_world) : healthy w -> dk_files (cw_disk (w_db w)) !! old = Some content ->
  Rename old new w =
    (Val (), set_db (put_disk (write_file new content (remove_file old (cw_disk (w_db w)))) (w_db w)) (tick w)).
Proof. intros Hw Hold. unfold Rename, exec, mbind, M_bind. rewrite (Hw (w_calls w)), Hold. done. Qed.

(** A release that arrives is written, and its version is what the next request names. *)
Lemma release_stored uuid body resp yaml (w : world config_world) : healthy w ->
  unmarshal_response body = Some (Some resp) -> JSONToYAML (lr_Config resp) = Some yaml ->
  ct_dstPriorityConfigDir (cw_ctrl (w_db w)) = "" ->
  wp (ctrl_store uuid body) (fun o w' => o = Val () /\
    dk_files (cw_disk (w_db w')) !! ct_dstPath (cw_ctrl (w_db w)) = Some yaml /\
    ct_lastVersion (cw_ctrl (w_db w')) = lr_Version resp) w.
Proof.
  intros Hw Hresp Hyaml Hdir. unfold ctrl_store. rewrite Hresp. unfold wp, mbind, M_bind, or_error, mret, M_ret.
  cbv beta iota. rewrite Hyaml. cbn [peek]. rewrite write_file_run by done.
  rewrite (rename_run _ _ yaml) by (done || (cbn; apply lookup_insert_eq)). cbn.
  unfold attempt_call, attempt, writePriorityConfigs, mbind, M_bind. cbn. rewrite Hdir. cbn. split_and!; [done| |done].
  apply lookup_insert_eq.
Qed.
End ctrl_rules.

(** When the priority files of a release can not be written, its version is recorded all the
    same, so that it is not asked for again. *)
Section lost_release.
Definition release_body : string :=
  of_bytes (map (fun a => if code a =? 39 then byte_of 34 else a)
    (bytes_of "{'config':'{}','version':'v2','priorityConfigs':[{'key':'y','config':'priority /y','version':'1'}]}")).
#[local] Instance sample_ctrl : Web := {| browse c r n := Val (WebPage StatusOK release_body None) |}.
Example release_lost :
  let bad := World sample_state ∅ 0 (fun n => if decide (n = 3%nat) then Some "EIO" else None) (fun _ => 0) in
  let s1 := w_db (Ctrl_Load "u" bad).2 in
  (ct_lastVersion (cw_ctrl s1), dk_files (cw_disk s1) !! "prio/y.yaml", ct_lastPriorityVersion (cw_ctrl s1)) = ("v2", None, None).
Proof. vm_compute. reflexivity. Qed.
(** Without the fault the old priority file goes and the new one is there. *)
Example release_taken :
  let s1 := w_db (Ctrl_Load "u" (calm sample_state)).2 in
  (dk_files (cw_disk s1) !! "prio/y.yaml", dk_files (cw_disk s1) !! "prio/x.yaml") = (Some "priority /y", None).
Proof. vm_compute. reflexivity. Qed.
End lost_release.
