(* ===== verification/Scrapers.v ===== *)
(** The scrapers of the judges without a public interface: QOJ and LuoGu, which need a
    session, and NowCoder ([internal/spider/platform/qoj.go], [luogu.go],
    [nowcoder.go]).  Pauses between requests take no time. *)
From S2P Require Export Web.

(** ** What a scraper keeps between calls *)

(** A client that has logged in, and when it did. *)
Record session := Session { se_client : option client; se_lastUsed : Z }.
Record atCoderContestMeta := AtcMeta { am_Title : string; am_Start : Z; am_End : Z }.
Record scraper_state := ScraperState {
  st_luogu : session; st_qoj : session; st_atcoder : gmap string atCoderContestMeta }.
Definition SM : Type -> Type := M scraper_state.

(** [&http.Client{Jar: jar}] *)
Definition new_client : SM client := fun w => (Val (S (w_calls w)), w).

Definition set_luogu (s : session) (st : scraper_state) : scraper_state :=
  ScraperState s (st_qoj st) (st_atcoder st).
Definition set_qoj (s : session) (st : scraper_state) : scraper_state :=
  ScraperState (st_luogu st) s (st_atcoder st).

Definition session_time : Z := 30 * minute.
Definition max_logins : nat := 20.

Section sessions.
(** The session of a platform, whether it is still valid, and how to log in. *)
Context (get : scraper_state -> session) (put : session -> scraper_state -> scraper_state).
Context (isSessionValid : client -> SM bool) (login : SM client).

(** The time is asked for whether or not there is a client. *)
Definition cached_client : SM (option client) :=
  s ← peek get;
  t ← now;
  match se_client s with
  | Some c =>
      if decide (time_sub t (se_lastUsed s) < session_time) then
        ok ← isSessionValid c; mret (if ok : bool then Some c else None)
      else mret None
  | None => mret None
  end.
(** The check that is made again under the lock. *)
Definition locked_client : SM (option client) :=
  s ← peek get;
  match se_client s with
  | Some c =>
      t ← now;
      if decide (time_sub t (se_lastUsed s) < session_time) then
        ok ← isSessionValid c; mret (if ok : bool then Some c else None)
      else mret None
  | None => mret None
  end.
Definition getClient : SM client :=
  r ← cached_client;
  match r with
  | Some c => mret c
  | None =>
      r ← locked_client;
      match r with
      | Some c => mret c
      | None =>
          c ← login;
          t ← now;
          poke (put (Session (Some c) t));;
          mret c
      end
  end.
End sessions.

(** [for attempt := 1; attempt <= maxRetry; attempt++]: one attempt logs in, or it does
    not, or it fails for good. *)
Fixpoint login_attempts (more : nat) (attempt_login : SM bool) (c : client) : SM client :=
  match more with
  | O => throw (ErrorText "login failed after 20 retries")
  | S more =>
      ok ← attempt_login;
      if ok : bool then mret c else login_attempts more attempt_login c
  end.

Section scrapers.
Context `{Web}.

(** ** QOJ ([qoj.go]) *)

Definition browser_headers : list (string * string) :=
  [("User-Agent", "Mozilla/5.0 (Windows NT 10.0; Win64; x64) AppleWebKit/537.36 (KHTML, like Gecko) Chrome/124.0.0.0 Safari/537.36");
   ("Accept", "text/html,application/xhtml+xml,application/xml;q=0.9,image/avif,image/webp,image/apng,*/*;q=0.8,application/signed-exchange;v=b3;q=0.7");
   ("Accept-Language", "zh-CN,zh;q=0.9,en;q=0.8");
   ("Sec-Ch-Ua", quote +:+ "Chromium" +:+ quote +:+ ";v=" +:+ quote +:+ "124" +:+ quote +:+ ", "
      +:+ quote +:+ "Google Chrome" +:+ quote +:+ ";v=" +:+ quote +:+ "124" +:+ quote +:+ ", "
      +:+ quote +:+ "Not-A.Brand" +:+ quote +:+ ";v=" +:+ quote +:+ "99" +:+ quote);
   ("Sec-Ch-Ua-Mobile", "?0"); ("Sec-Ch-Ua-Platform", quote +:+ "Windows" +:+ quote);
   ("Sec-Fetch-Dest", "document"); ("Sec-Fetch-Mode", "navigate"); ("Sec-Fetch-Site", "same-origin");
   ("Sec-Fetch-User", "?1"); ("Upgrade-Insecure-Requests", "1"); ("Connection", "keep-alive")].

(** The token of a form, in quotes. *)
Definition token_re : pattern :=
  lit "_token" ++ zero_or_more re_space ++ lit ":" ++ zero_or_more re_space ++ lit quote
    ++ captured (one_or_more (none_of quote)) ++ lit quote.

Definition qoj_doLogin (username password : string) (c : client) : SM bool :=
  let loginURL := "https://qoj.ac/login" in
  page ← wrap "GET login page failed" (web_get c (get_request browser_headers loginURL));
  pageContent ← wrap "read login page failed" (read_all page);
  match FindSubmatch token_re pageContent with
  | None => throw (ErrorText "failed to extract _token from page, might be blocked by Cloudflare")
  | Some f =>
      let form := encode_values [("_token", group1 f); ("login", ""); ("password", Md5.md5_hex password);
                                 ("trust", ""); ("username", username)] in
      answer ← wrap "POST login failed" (web_get c (WebRequest "POST" loginURL
        (browser_headers ++ [("Content-Type", "application/x-www-form-urlencoded");
                             ("Origin", "https://qoj.ac"); ("Referer", "https://qoj.ac/login")]) form));
      body ← wrap "read POST response failed" (read_all answer);
      mret (bool_decide (trim_space body = "ok"))
  end.
Definition qoj_login (username password : string) : SM client :=
  c ← new_client;
  login_attempts max_logins (qoj_doLogin username password c) c.

Definition qoj_isSessionValid (c : client) : SM bool :=
  r ← attempt (page ← web_get c (get_request browser_headers "https://qoj.ac/"); read_all page);
  mret match r with Val body => contains body "/logout?_token=" | Exn _ => false end.

Definition qoj_getClient : SM client :=
  getClient st_qoj set_qoj qoj_isSessionValid (qoj_login "sanenchen" "Sanenchen123").

(** [(?s)<[^>]*>], [(?s)<tbody>(.*?)</tbody>], [(?s)<tr>(.*?)</tr>] and
    [(?s)<td[^>]*>(.*?)</td>] *)
Definition tag_re : pattern := lit "<" ++ zero_or_more (none_of ">") ++ lit ">".
Definition tbody_re : pattern := lit "<tbody>" ++ captured (lazy_more any_rune) ++ lit "</tbody>".
Definition row_re : pattern := lit "<tr>" ++ captured (lazy_more any_rune) ++ lit "</tr>".
Definition cell_re : pattern :=
  lit "<td" ++ zero_or_more (none_of ">") ++ lit ">" ++ captured (lazy_more any_rune) ++ lit "</td>".

Definition stripTags (s : string) : string := trim_space (RemoveAll tag_re s).

Fixpoint trim_left_byte (c : Z) (l : list Ascii.ascii) : list Ascii.ascii :=
  match l with a :: l' => if code a =? c then trim_left_byte c l' else l | [] => [] end.
(** [strings.TrimLeft(s, "#")] *)
Definition trim_hashes (s : string) : string := of_bytes (trim_left_byte 35 (bytes_of s)).

Definition qoj_time_error (submitID : string) : goerr :=
  Wrapped ("解析 QOJ 提交时间失败 submitID=" +:+ submitID) (Driver "parsing time").

(** One row: [None] when it has fewer than nine cells. *)
Definition qoj_row (userId : Z) (row : string) : outcome (option SubmitLog) :=
  match map group1 (FindAll cell_re row) with
  | c0 :: c1 :: _ :: c3 :: _ :: _ :: c6 :: _ :: c8 :: _ =>
      let submitID := trim_hashes (stripTags c0) in
      match parse_time date_time shanghai (stripTags c8) with
      | None => Exn (qoj_time_error submitID)
      | Some t =>
          Val (Some (Submission 0 "QOJ" userId submitID "" (stripTags c1) (stripTags c6)
                       (normalizeQOJStatus (stripTags c3)) t))
      end
  | _ => Val None
  end.
Fixpoint qoj_rows (userId : Z) (rows : list string) : outcome (list SubmitLog) :=
  match rows with
  | [] => Val []
  | row :: rows =>
      match qoj_row userId row with
      | Exn e => Exn e
      | Val o =>
          match qoj_rows userId rows with
          | Exn e => Exn e
          | Val res => Val (option_list o ++ res)
          end
      end
  end.

(** The rows of a page; [None] when there is no table or nothing in it. *)
Definition qoj_table (html : string) : option (list string) :=
  match FindSubmatch tbody_re html with
  | None => None
  | Some f => match map group1 (FindAll row_re (group1 f)) with [] => None | rows => Some rows end
  end.

Definition next_page (page : Z) : string := "page=" +:+ pretty (page + 1).

(** [fuel] bounds the number of pages; [None] when they do not end within it. *)
Fixpoint qoj_pages (fuel : nat) (c : client) (baseUrl : string) (userId : Z) (needAll : bool) (page : Z)
    (res : list SubmitLog) : SM (option (list SubmitLog)) :=
  match fuel with
  | O => mret None
  | S fuel =>
      answer ← web_get c (get_request (browser_headers ++ [("Referer", "https://qoj.ac/")])
                                      (baseUrl +:+ pretty page));
      html ← read_all answer;
      if negb (pg_status answer =? StatusOK) then
        throw (ErrorText ("QOJ 第 " +:+ pretty page +:+ " 页请求响应码错误 " +:+ pretty (pg_status answer)
                 +:+ ", " +:+ html))
      else
        match qoj_table html with
        | None => mret (Some res)
        | Some rows =>
            match qoj_rows userId rows with
            | Exn e => throw e
            | Val new =>
                let res := res ++ new in
                if negb needAll || negb (contains html (next_page page)) then mret (Some res)
                else qoj_pages fuel c baseUrl userId needAll (page + 1) res
            end
        end
  end.

Definition qoj_url (username : string) : string :=
  "https://qoj.ac/submissions?submitter=" +:+ QueryEscape username +:+ "&page=".
Definition qoj_FetchSubmitLog (fuel : nat) (userId : Z) (username : string) (needAll : bool)
    : SM (option (list SubmitLog)) :=
  let username := trim_space username in
  if decide (username = "") then throw (ErrorText "QOJ 用户名不能为空")
  else
    c ← qoj_getClient;
    qoj_pages fuel c (qoj_url username) userId needAll 1 [].

(** ** LuoGu ([luogu.go]) *)

Definition LuoGu : string := "LuoGu".

(** The picture is the one file of the form that is sent; the boundary of the form is
    random. *)
Definition ocrImage (c : client) (url img : string) : SM string :=
  page ← web_get c (WebRequest "POST" url [("Content-Type", "multipart/form-data")] img);
  read_all page.

Definition quoted (s : string) : string := quote +:+ s +:+ quote.
Definition luogu_doLogin (c : client) (url username password captcha : string) : SM bool :=
  let payload := "{" +:+ quoted "username" +:+ ":" +:+ quoted username +:+ ","
    +:+ quoted "password" +:+ ":" +:+ quoted password +:+ ","
    +:+ quoted "captcha" +:+ ":" +:+ quoted captcha +:+ "}" in
  page ← web_get c (WebRequest "POST" url [("Content-Type", "application/json")] payload);
  body ← read_all page;
  mret (negb (contains body "errorCode")).

Definition luogu_attempt (username password : string) (c : client) : SM bool :=
  page ← web_get c (get_request [] "https://www.luogu.com.cn/lg4/captcha");
  img ← read_all page;
  code ← ocrImage c "https://api.alistgo.com/ocr/file" img;
  luogu_doLogin c "https://www.luogu.com.cn/do-auth/password" username password (trim_space code).
Definition luogu_login (username password : string) : SM client :=
  c ← new_client;
  login_attempts max_logins (luogu_attempt username password c) c.

Definition luogu_isSessionValid (c : client) : SM bool :=
  r ← attempt (web_get c (get_request [] "https://www.luogu.com.cn/api/user/search?user=sanenchen"));
  mret match r with
       | Exn _ => false
       | Val page => negb (bool_decide (pg_status page ∈ [301; 302; 307]))
       end.
Definition luogu_getClient : SM client :=
  getClient st_luogu set_luogu luogu_isSessionValid (luogu_login "sanenchen" "sanenchen123").

Record luogu_record := LuoguRecord {
  lr_ID : Z; lr_SubmitTime : Z; lr_Status : Z; lr_Language : Z; lr_Pid : string; lr_Title : string }.
Record Injection := Inject { in_Result : list luogu_record; in_PerPage : Z; in_Count : Z }.

Definition problem_fields : list (json_field luogu_record) :=
  [string_member "pid" (fun s r => LuoguRecord (lr_ID r) (lr_SubmitTime r) (lr_Status r) (lr_Language r) s (lr_Title r));
   string_member "title" (fun s r => LuoguRecord (lr_ID r) (lr_SubmitTime r) (lr_Status r) (lr_Language r) (lr_Pid r) s);
   unused_int "difficulty"].
Definition record_fields : list (json_field luogu_record) :=
  [int_member "id" (fun z r => LuoguRecord z (lr_SubmitTime r) (lr_Status r) (lr_Language r) (lr_Pid r) (lr_Title r));
   int_member "submitTime" (fun z r => LuoguRecord (lr_ID r) z (lr_Status r) (lr_Language r) (lr_Pid r) (lr_Title r));
   int_member "status" (fun z r => LuoguRecord (lr_ID r) (lr_SubmitTime r) z (lr_Language r) (lr_Pid r) (lr_Title r));
   unused_int "score"; unused_int "time"; unused_int "memory";
   int_member "language" (fun z r => LuoguRecord (lr_ID r) (lr_SubmitTime r) (lr_Status r) z (lr_Pid r) (lr_Title r));
   struct_member "problem" problem_fields id (fun r _ => r)].
Definition luogu_item : list Z -> option luogu_record :=
  struct_value (fields_of record_fields) (LuoguRecord 0 0 0 0 "" "").
Definition records_fields : list (json_field Injection) :=
  [array_member "result" luogu_item (fun l i => Inject l (in_PerPage i) (in_Count i));
   int_member "perPage" (fun z i => Inject (in_Result i) z (in_Count i));
   int_member "count" (fun z i => Inject (in_Result i) (in_PerPage i) z)].
Definition injection_fields : list (json_field Injection) :=
  [unused_int "code";
   struct_member "currentData" [struct_member "records" records_fields id (fun r _ => r)] id (fun r _ => r)].
Definition unmarshal_injection : string -> option Injection :=
  unmarshal (struct_value (fields_of injection_fields) (Inject [] 0 0)).

(** The text that a script of the page decodes. *)
Definition injection_re : pattern :=
  lit "window._feInjection" ++ zero_or_more re_space ++ lit "=" ++ zero_or_more re_space
    ++ lit ("JSON.parse(decodeURIComponent(" +:+ quote) ++ captured (lazy_one_or_more dot)
    ++ lit (quote +:+ "))").
Definition parseLuoGuHTML (html : string) : outcome Injection :=
  match FindSubmatch injection_re html with
  | None => Exn (ErrorText "未找到 _feInjection")
  | Some f =>
      match QueryUnescape (group1 f) with
      | None => Exn (Driver "invalid URL escape")
      | Some decoded =>
          match unmarshal_injection decoded with Some inj => Val inj | None => Exn (Driver "json") end
      end
  end.

Definition luogu_url (username : string) : string :=
  "https://www.luogu.com.cn/record/list?user=" +:+ QueryEscape username +:+ "&page=".
(** A body that breaks off is taken as it is. *)
Definition luogu_page (c : client) (baseUrl : string) (i : Z) (bad_status : Z -> string -> goerr)
    : SM Injection :=
  page ← web_get c (get_request [] (baseUrl +:+ pretty i));
  if negb (pg_status page =? StatusOK) then throw (bad_status (pg_status page) (pg_body page))
  else match parseLuoGuHTML (pg_body page) with Val inj => mret inj | Exn e => throw e end.

(** [for i := 2; i <= totalPages; i++] up to the first page without records. *)
Fixpoint luogu_more (c : client) (baseUrl : string) (pages : list Z) : SM (list luogu_record) :=
  match pages with
  | [] => mret []
  | i :: pages =>
      inj ← luogu_page c baseUrl i (fun status body => ErrorText ("LuoGu 第 " +:+ pretty i
              +:+ " 页请求响应码错误 " +:+ pretty status +:+ ", " +:+ body));
      if decide (in_Result inj = []) then mret []
      else
        rest ← luogu_more c baseUrl pages;
        mret (in_Result inj ++ rest)
  end.
Definition luogu_totalPages (count perPage : Z) : Z :=
  Z.quot (wrap_int64 (count + perPage - 1)) perPage.

Definition luogu_submission (userId : Z) (sub : luogu_record) : SubmitLog :=
  Submission 0 LuoGu userId (pretty (lr_ID sub)) "" (lr_Pid sub +:+ " " +:+ lr_Title sub)
    (if decide (lr_Language sub = 34) then "C++" else "Others") (normalizeLuoGuStatus (lr_Status sub))
    (lr_SubmitTime sub * second).

Definition luogu_FetchSubmitLog (userId : Z) (username : string) (needAll : bool) : SM (list SubmitLog) :=
  let username := trim_space username in
  if decide (username = "") then throw (ErrorText "LuoGu 用户编号不能为空")
  else
    let baseUrl := luogu_url username in
    c ← luogu_getClient;
    inj ← luogu_page c baseUrl 1 (fun status body =>
            ErrorText ("LuoGu 请求响应码错误 " +:+ pretty status +:+ ", " +:+ body));
    subs ← (if negb needAll then mret (in_Result inj)
            else if decide (in_PerPage inj <= 0)
            then throw (ErrorText ("LuoGu 返回非法分页大小: " +:+ pretty (in_PerPage inj)))
            else
              rest ← luogu_more c baseUrl
                       (seqZ 2 (luogu_totalPages (in_Count inj) (in_PerPage inj) - 1));
              mret (in_Result inj ++ rest));
    mret (map (luogu_submission userId) subs).
End scrapers.
