(* ===== verification/NowCoder.v ===== *)
(** The scraper of NowCoder ([internal/spider/platform/nowcoder.go]): the practice pages
    of a profile, the history of its training ground, and the contests joined. *)
From S2P Require Export Scrapers ContestService.

(** [goquery]: a selection is a list of elements. *)
Class Goquery := {
  selection : Type;
  NewDocument : string -> option selection;
  nothing_selected : selection;
  Find : string -> selection -> selection;
  Each : selection -> list selection;
  Text : selection -> string;
  Attr : string -> selection -> option string
}.

Section goquery.
Context `{Goquery}.
Definition Length (s : selection) : nat := length (Each s).
Definition Eq (i : nat) (s : selection) : selection := default nothing_selected (Each s !! i).
Definition First (s : selection) : selection := Eq 0 s.
End goquery.

Record submission_row := SubmissionRow {
  nr_RunID : string; nr_ProblemID : string; nr_Problem : string; nr_Result : string;
  nr_Language : string; nr_SubmitTime : string }.

Record training_record := TrainingRecord {
  tr_QuestionNum : string; tr_Title : string; tr_ID : Z; tr_CreatedDate : Z; tr_Language : string;
  tr_Desc : string }.
Record training_page := TrainingPage { tp_Success : bool; tp_TotalPage : Z; tp_Records : list training_record }.

(** [/acm/problem/([^/?#]+)] *)
Definition problem_path_re : pattern := lit "/acm/problem/" ++ captured (one_or_more (none_of "/?#")).
(** [^\d+$] *)
Definition numeric_re : pattern := one_or_more re_digit.

(** ** The history of the training ground *)

Definition question_fields : list (json_field training_record) :=
  [string_member "questionNum" (fun s r => TrainingRecord s (tr_Title r) (tr_ID r) (tr_CreatedDate r) (tr_Language r) (tr_Desc r));
   string_member "title" (fun s r => TrainingRecord (tr_QuestionNum r) s (tr_ID r) (tr_CreatedDate r) (tr_Language r) (tr_Desc r))].
Definition submission_fields : list (json_field training_record) :=
  [int_member "id" (fun z r => TrainingRecord (tr_QuestionNum r) (tr_Title r) z (tr_CreatedDate r) (tr_Language r) (tr_Desc r));
   int_member "createdDate" (fun z r => TrainingRecord (tr_QuestionNum r) (tr_Title r) (tr_ID r) z (tr_Language r) (tr_Desc r))].
Definition training_fields : list (json_field training_record) :=
  [struct_member "problem" question_fields id (fun r _ => r);
   struct_member "submission" submission_fields id (fun r _ => r);
   string_member "language" (fun s r => TrainingRecord (tr_QuestionNum r) (tr_Title r) (tr_ID r) (tr_CreatedDate r) s (tr_Desc r));
   struct_member "status"
     [string_member "desc" (fun s r => TrainingRecord (tr_QuestionNum r) (tr_Title r) (tr_ID r) (tr_CreatedDate r) (tr_Language r) s)]
     id (fun r _ => r)].
Definition training_item : list Z -> option training_record :=
  struct_value (fields_of training_fields) (TrainingRecord "" "" 0 0 "" "").
Definition training_data_fields : list (json_field training_page) :=
  [int_member "totalPage" (fun z p => TrainingPage (tp_Success p) z (tp_Records p));
   array_member "records" training_item (fun l p => TrainingPage (tp_Success p) (tp_TotalPage p) l)].
Definition training_page_fields : list (json_field training_page) :=
  [bool_member "success" (fun b p => TrainingPage b (tp_TotalPage p) (tp_Records p));
   struct_member "data" training_data_fields id (fun p _ => p)].
Definition unmarshal_training : string -> option training_page :=
  unmarshal (struct_value (fields_of training_page_fields) (TrainingPage false 0 [])).

Definition training_api : string :=
  "https://gw-c.nowcoder.com/api/sparta/user/question-training/submission-history".

Definition training_submission (userId : Z) (username : string) (it : training_record) : SubmitLog :=
  Submission 0 NowCoder userId (pretty (tr_ID it)) ("main|" +:+ username)
    (normalizeNowCoderProblem (tr_QuestionNum it) (tr_Title it)) (tr_Language it) (tr_Desc it)
    (Z.quot (tr_CreatedDate it) 1000 * second).

Section training.
Context `{Web} (userId : Z) (username : string).

(** [doReq] *)
Definition training_request (page : Z) : SM training_page :=
  answer ← web_get default_client (WebRequest "POST" training_api [("Content-Type", "application/json")]
    (json_object [("pageNo", JInt page); ("pageSize", JInt 50); ("userId", JString username)]));
  if negb (pg_status answer =? StatusOK) then
    throw (ErrorText ("nowcoder training api http " +:+ pretty (pg_status answer) +:+ ": " +:+ pg_body answer))
  else
    bs ← read_all answer;
    match unmarshal_training bs with
    | None => throw (Driver "json")
    | Some r =>
        if tp_Success r then mret r
        else throw (ErrorText ("nowcoder training api success=false page=" +:+ pretty page))
    end.

(** [handle]: what has been collected, and whether to go on.  The limit is checked after
    each record; there is none when everything is wanted. *)
Fixpoint handle (limit : option nat) (result : list SubmitLog) (records : list training_record)
    : list SubmitLog * bool :=
  match records with
  | [] => (result, true)
  | it :: records =>
      let result := result ++ [training_submission userId username it] in
      match limit with
      | Some n => if decide (n <= length result)%nat then (result, false) else handle limit result records
      | None => handle limit result records
      end
  end.

Fixpoint training_more (limit : option nat) (result : list SubmitLog) (pages : list Z) : SM (list SubmitLog) :=
  match pages with
  | [] => mret result
  | page :: pages =>
      r ← training_request page;
      match tp_Records r with
      | [] => mret result
      | records =>
          let h := handle limit result records in
          if h.2 then training_more limit h.1 pages else mret h.1
      end
  end.

Definition training_limit : nat := 150.
Definition fetchSub (needAll : bool) : SM (list SubmitLog) :=
  if negb (MatchWhole numeric_re username) then mret []
  else
    let limit := if needAll then None else Some training_limit in
    first ← training_request 1;
    let h := handle limit [] (tp_Records first) in
    if h.2 then training_more limit h.1 (seqZ 2 (tp_TotalPage first - 1)) else mret h.1.
End training.

(** ** The practice pages *)

Section practice.
Context `{Web} `{Goquery}.

Definition extractNowCoderProblemID (problemCell : selection) : string :=
  match Attr "href" (First (Find "a" problemCell)) with
  | None => ""
  | Some href => match FindSubmatch problem_path_re href with Some f => group1 f | None => "" end
  end.

Definition getSubLogResp (url : string) : SM selection :=
  r ← attempt (web_get default_client (get_request [] url));
  match r with
  | Exn e => throw (ErrorText ("发起http请求失败: " +:+ error_text e))
  | Val page =>
      if negb (pg_status page =? StatusOK) then
        throw (ErrorText ("请求响应码错误 " +:+ pretty (pg_status page) +:+ ", " +:+ pg_body page))
      else
        match pg_broken page, NewDocument (pg_body page) with
        | None, Some doc => mret doc
        | _, _ => throw (ErrorText "解析html失败")
        end
  end.

Definition cell_text (tds : selection) (i : nat) : string := trim_space (Text (Eq i tds)).
(** A row of fewer than nine cells is skipped. *)
Definition practice_row (tr : selection) : option submission_row :=
  let tds := Find "td" tr in
  if decide (Length tds < 9)%nat then None
  else Some (SubmissionRow (cell_text tds 0) (extractNowCoderProblemID (Eq 1 tds)) (cell_text tds 1)
               (cell_text tds 2) (cell_text tds 7) (cell_text tds 8)).
Definition analysisSubs (doc : selection) : list submission_row :=
  omap practice_row (Each (Find "table.table-hover tbody tr" doc)).

(** The last of the numbers under the label. *)
Definition total_submit (doc : selection) : string :=
  foldl (fun total s =>
    if decide (trim_space (Text (Find "span" s)) = "次提交") then trim_space (Text (Find ".state-num" s))
    else total) "" (Each (Find ".my-state-item" doc)).

Definition practice_url (username : string) (page : Z) : string :=
  "https://ac.nowcoder.com/acm/contest/profile/" +:+ QueryEscape username
    +:+ "/practice-coding?pageSize=100&page=" +:+ pretty page.

Definition practice_pages (totalS : Z) (firstPage : nat) : Z :=
  let totPage := if decide (0 < totalS) then Z.quot (wrap_int64 (totalS + 99)) 100 else 0 in
  if decide (totPage = 0 /\ firstPage = 100%nat) then 10000 else totPage.

Fixpoint practice_more (username : string) (pages : list Z) : SM (list submission_row) :=
  match pages with
  | [] => mret []
  | i :: pages =>
      doc ← getSubLogResp (practice_url username i);
      match analysisSubs doc with
      | [] => mret []
      | subs => rest ← practice_more username pages; mret (subs ++ rest)
      end
  end.

Definition practice_submission (userId : Z) (v : submission_row) (t : Z) : SubmitLog :=
  Submission 0 NowCoder userId (nr_RunID v) "" (normalizeNowCoderProblem (nr_ProblemID v) (nr_Problem v))
    (nr_Language v) (nr_Result v) t.
Fixpoint practice_logs (userId : Z) (subs : list submission_row) : outcome (list SubmitLog) :=
  match subs with
  | [] => Val []
  | v :: subs =>
      match parse_time date_time shanghai (nr_SubmitTime v) with
      | None => Exn (Wrapped ("解析 NowCoder 提交时间失败 runID=" +:+ nr_RunID v) (Driver "parsing time"))
      | Some t =>
          match practice_logs userId subs with
          | Exn e => Exn e
          | Val res => Val (practice_submission userId v t :: res)
          end
      end
  end.

Definition nowcoder_FetchSubmitLog (userId : Z) (username : string) (needAll : bool) : SM (list SubmitLog) :=
  let username := trim_space username in
  if decide (username = "") then throw (ErrorText "NowCoder 用户 ID 不能为空")
  else
    doc ← getSubLogResp (practice_url username 1);
    let totalS := parse_int64_lax (total_submit doc) in
    let subs := analysisSubs doc in
    rest ← (if negb needAll then mret []
            else practice_more username (seqZ 2 (practice_pages totalS (length subs) - 1)));
    match practice_logs userId (subs ++ rest) with
    | Exn e => throw e
    | Val res =>
        trainingLogs ← fetchSub userId username needAll;
        mret (res ++ trainingLogs)
    end.

(** ** Contests *)

Record history_item := HistoryItem {
  hi_ContestId : string; hi_ContestName : string; hi_Rank : Z; hi_TotalCount : Z; hi_AcCount : Z;
  hi_StartTime : string; hi_EndTime : string }.
Record history_page := HistoryPage {
  hp_Msg : string; hp_Code : Z; hp_DataList : list history_item; hp_PageCount : Z }.

Definition history_fields : list (json_field history_item) :=
  [number_member "contestId" (fun s i => HistoryItem s (hi_ContestName i) (hi_Rank i) (hi_TotalCount i) (hi_AcCount i) (hi_StartTime i) (hi_EndTime i));
   string_member "contestName" (fun s i => HistoryItem (hi_ContestId i) s (hi_Rank i) (hi_TotalCount i) (hi_AcCount i) (hi_StartTime i) (hi_EndTime i));
   int_member "rank" (fun z i => HistoryItem (hi_ContestId i) (hi_ContestName i) z (hi_TotalCount i) (hi_AcCount i) (hi_StartTime i) (hi_EndTime i));
   int_member "problemCount" (fun z i => HistoryItem (hi_ContestId i) (hi_ContestName i) (hi_Rank i) z (hi_AcCount i) (hi_StartTime i) (hi_EndTime i));
   int_member "acceptedCount" (fun z i => HistoryItem (hi_ContestId i) (hi_ContestName i) (hi_Rank i) (hi_TotalCount i) z (hi_StartTime i) (hi_EndTime i));
   number_member "rating" (fun _ i => i); number_member "changeValue" (fun _ i => i);
   number_member "startTime" (fun s i => HistoryItem (hi_ContestId i) (hi_ContestName i) (hi_Rank i) (hi_TotalCount i) (hi_AcCount i) s (hi_EndTime i));
   number_member "endTime" (fun s i => HistoryItem (hi_ContestId i) (hi_ContestName i) (hi_Rank i) (hi_TotalCount i) (hi_AcCount i) (hi_StartTime i) s);
   number_member "colorLevel" (fun _ i => i)].
Definition history_item_value : list Z -> option history_item :=
  struct_value (fields_of history_fields) (HistoryItem "" "" 0 0 0 "" "").

Context `{Float64}.
(** A map of any values: a [null] or an object whose numbers are in range. *)
Definition any_map_member {A} (name : string) : json_field A :=
  (name, fun x v => match decode_any (length v) 1 v with Some (AObject _) | Some ANull => Some x | _ => None end).
Definition page_info_fields : list (json_field history_page) :=
  [int_member "pageCount" (fun z p => HistoryPage (hp_Msg p) (hp_Code p) (hp_DataList p) z);
   unused_int "pageSize"; unused_int "elementCount"; unused_int "totalCount"; unused_int "pageCurrent"].
Definition history_data_fields : list (json_field history_page) :=
  [array_member "dataList" history_item_value (fun l p => HistoryPage (hp_Msg p) (hp_Code p) l (hp_PageCount p));
   struct_member "pageInfo" page_info_fields id (fun p _ => p);
   any_map_member "basicInfo"].
Definition history_page_fields : list (json_field history_page) :=
  [string_member "msg" (fun s p => HistoryPage s (hp_Code p) (hp_DataList p) (hp_PageCount p));
   int_member "code" (fun z p => HistoryPage (hp_Msg p) z (hp_DataList p) (hp_PageCount p));
   struct_member "data" history_data_fields id (fun p _ => p)].
Definition unmarshal_history : string -> option history_page :=
  unmarshal (struct_value (fields_of history_page_fields) (HistoryPage "" 0 [] 0)).

(** Times are milliseconds; a number that is none, or out of range, is what [Int64]
    returns with its error. *)
Definition nowcoder_contest (userId : Z) (item : history_item) : ContestLog :=
  let contestId := parse_int64_lax (hi_ContestId item) in
  ContestRow 0 NowCoder userId (pretty contestId) (hi_ContestName item)
    ("https://ac.nowcoder.com/acm/contest/" +:+ pretty contestId) (hi_Rank item) (hi_TotalCount item)
    (hi_AcCount item) (Z.quot (parse_int64_lax (hi_StartTime item)) 1000 * second)
    (Z.quot (parse_int64_lax (hi_EndTime item)) 1000 * second).

Definition history_url (username : string) (page : Z) : string :=
  "https://ac.nowcoder.com/acm-heavy/acm/contest/profile/contest-joined-history?token=&uid=" +:+ username
    +:+ "&page=" +:+ pretty page
    +:+ "&onlyJoinedFilter=true&searchContestName=&onlyRatingFilter=false&contestEndFilter=true".

(** The status of the answer is not looked at. *)
Definition history_request (username : string) (page : Z) : SM history_page :=
  answer ← web_get default_client (get_request [] (history_url username page));
  respData ← read_all answer;
  match unmarshal_history respData with
  | None => throw (Driver "json")
  | Some r =>
      if decide (hp_Code r = 0) then mret r
      else throw (ErrorText ("nowcoder api error: code=" +:+ pretty (hp_Code r) +:+ ", msg=" +:+ hp_Msg r))
  end.

(** [fuel] bounds the number of pages: every answer says anew how many there are. *)
Fixpoint history_pages (fuel : nat) (userId : Z) (username : string) (needAll : bool) (page : Z)
    (result : list ContestLog) : SM (option (list ContestLog)) :=
  match fuel with
  | O => mret None
  | S fuel =>
      r ← history_request username page;
      let result := result ++ map (nowcoder_contest userId) (hp_DataList r) in
      if negb needAll || bool_decide (hp_PageCount r <= page) then mret (Some result)
      else history_pages fuel userId username needAll (page + 1) result
  end.
Definition nowcoder_FetchContestLog (fuel : nat) (userId : Z) (username : string) (needAll : bool)
    : SM (option (list ContestLog)) :=
  history_pages fuel userId username needAll 1 [].
End practice.
