(* ===== verification/Judges.v ===== *)
(** The scrapers of Codeforces and AtCoder ([internal/spider/platform/codeforces.go],
    [atcoder.go]) from the requests on; the paging loops are in [Platforms]. *)
From S2P Require Export NowCoder.

Section judges.
Context `{Web}.

(** ** Codeforces *)

Definition codeforcesAPIBaseURL : string := "https://codeforces.com/api/user.status".
(** [env] is [CODEFORCES_API_BASE_URL]; a base has no query of its own. *)
Definition currentCodeforcesAPIBaseURL (env : string) : string :=
  let baseURL := trim_space env in
  if decide (baseURL = "") then codeforcesAPIBaseURL else baseURL.

Definition cf_problem_fields : list (json_field codeforcesMatrixProblem) :=
  [int_member "contestId" (fun z p => StandingsProblem z (sp_ProblemsetName p) (sp_Index p) (sp_Name p));
   string_member "problemsetName" (fun s p => StandingsProblem (sp_ContestID p) s (sp_Index p) (sp_Name p));
   string_member "index" (fun s p => StandingsProblem (sp_ContestID p) (sp_ProblemsetName p) s (sp_Name p));
   string_member "name" (fun s p => StandingsProblem (sp_ContestID p) (sp_ProblemsetName p) (sp_Index p) s)].
Definition cf_row_fields : list (json_field cfJson) :=
  [int_member "id" (fun z r => CfRow z (cf_ContestID r) (cf_Problem r) (cf_Language r) (cf_Verdict r) (cf_CreationTimeSeconds r));
   int_member "contestId" (fun z r => CfRow (cf_ID r) z (cf_Problem r) (cf_Language r) (cf_Verdict r) (cf_CreationTimeSeconds r));
   struct_member "problem" cf_problem_fields cf_Problem (fun p r => CfRow (cf_ID r) (cf_ContestID r) p (cf_Language r) (cf_Verdict r) (cf_CreationTimeSeconds r));
   string_member "programmingLanguage" (fun s r => CfRow (cf_ID r) (cf_ContestID r) (cf_Problem r) s (cf_Verdict r) (cf_CreationTimeSeconds r));
   string_member "verdict" (fun s r => CfRow (cf_ID r) (cf_ContestID r) (cf_Problem r) (cf_Language r) s (cf_CreationTimeSeconds r));
   int_member "creationTimeSeconds" (fun z r => CfRow (cf_ID r) (cf_ContestID r) (cf_Problem r) (cf_Language r) (cf_Verdict r) z)].
Definition no_cf_row : cfJson := CfRow 0 0 (StandingsProblem 0 "" "" "") "" "" 0.

Record CFResponse := CfAnswer { cr_Status : string; cr_Comment : string; cr_Result : list cfJson }.
Definition cf_answer_fields : list (json_field CFResponse) :=
  [string_member "status" (fun s a => CfAnswer s (cr_Comment a) (cr_Result a));
   string_member "comment" (fun s a => CfAnswer (cr_Status a) s (cr_Result a));
   array_member "result" (struct_value (fields_of cf_row_fields) no_cf_row)
     (fun l a => CfAnswer (cr_Status a) (cr_Comment a) l)].
Definition unmarshal_cf : string -> option CFResponse :=
  unmarshal (struct_value (fields_of cf_answer_fields) (CfAnswer "" "" [])).

Definition cf_page_url (base username : string) (from count : nat) : string :=
  base +:+ "?" +:+ encode_values [("count", nat_text count); ("from", nat_text from); ("handle", username)].

Definition fetchCodeforcesPageOnce (base username : string) (from n : nat) : fetch_error + list cfJson :=
  match browse default_client (get_request tracker_agent (cf_page_url base username from codeforcesPageSize)) n with
  | Exn e => inl (APIError 0 ("发起http请求失败: " +:+ error_text e))
  | Val page =>
      if negb (pg_status page =? StatusOK) then inl (APIError (pg_status page) (trim_space (pg_body page)))
      else
        match pg_broken page with
        | Some e => inl (PlainError ("解析body错误: " +:+ error_text e))
        | None =>
            match unmarshal_cf (pg_body page) with
            | None => inl (PlainError "解析json错误：")
            | Some answer =>
                if decide (cr_Status answer = "OK") then inr (cr_Result answer)
                else
                  let comment := trim_space (cr_Comment answer) in
                  inl (APIError 0 ("API status error: " +:+ cr_Status answer +:+ ", "
                                   +:+ (if decide (comment = "") then cr_Status answer else comment)))
            end
        end
  end.

(** [waitCodeforcesRateLimit]: how long a request waits that arrives at [t], when the
    last one was sent at [last]. *)
Definition codeforcesMinInterval : Z := 2200 * (second / 1000).
Definition rate_limit_wait (last t : Z) : Z :=
  if time_is_zero last then 0 else Z.max 0 (codeforcesMinInterval - time_sub t last).

(** The contests of a profile. *)
(** [strings.Trim(s, "/")] *)
Definition trim_both_slashes (s : string) : string :=
  of_bytes (rev (trim_left_byte 47 (rev (trim_left_byte 47 (bytes_of s))))).

Context `{Goquery}.
Definition cf_contest_row (userId : Z) (s : selection) : ContestLog :=
  let td i := Eq i (Find "td" s) in
  let aNode := Find "a" (td 1%nat) in
  let link := match Attr "href" aNode with
              | None => ("", "")
              | Some href =>
                  match split_by (byte_of 47) (trim_both_slashes href) with
                  | _ :: id :: _ => (id, "https://codeforces.com" +:+ href)
                  | _ => ("", "")
                  end
              end in
  let timeStr := trim_space (Text (Find ".format-time" (td 2%nat))) in
  let number i := parse_int64_lax (trim_space (Text (Find "a" (td i)))) in
  ContestRow 0 "Codeforces" userId link.1 (trim_space (Text aNode)) link.2 (number 3%nat) 0 (number 4%nat)
    (default zero_time (parse_time month_date_time moscow timeStr)) zero_time.

(** A name that makes no URL leaves the request [nil], and setting its header panics. *)
Definition nil_request : goerr := Driver "invalid memory address or nil pointer dereference".
Definition cf_FetchContestLog (userId : Z) (username : string) (needAll : bool) : SM (list ContestLog) :=
  if negb (url_path_ok username) then throw nil_request
  else
    page ← web_get default_client (get_request
      [("User-Agent", "Mozilla/5.0 (Windows NT 10.0; Win64; x64) AppleWebKit/537.36")]
      ("https://codeforces.com/contests/with/" +:+ username +:+ "?type=all"));
    if negb (pg_status page =? StatusOK) then throw (ErrorText ("Network Error: " +:+ pretty (pg_status page)))
    else
      body ← read_all page;
      if contains body "Just a moment..." then throw (ErrorText "blocked by Cloudflare protection")
      else
        match NewDocument body with
        | None => throw (Driver "html")
        | Some doc =>
            let rows := Each (Find "table.user-contests-table tbody tr" doc) in
            mret (map (cf_contest_row userId) (if needAll then rows else take 1 rows))
        end.

(** ** AtCoder *)

Definition atCoderAPIBaseURL : string :=
  "https://atc.luckysan.top/atcoder/atcoder-api/v3/user/submissions".
Definition atCoderContestBaseURL : string := "https://atcoder.jp/contests".

Definition atc_fields : list (json_field atcJson) :=
  [int_member "id" (fun z r => AtcRow z (at_EpochSecond r) (at_ProblemID r) (at_ContestID r) (at_Language r) (at_Result r));
   int_member "epoch_second" (fun z r => AtcRow (at_ID r) z (at_ProblemID r) (at_ContestID r) (at_Language r) (at_Result r));
   string_member "problem_id" (fun s r => AtcRow (at_ID r) (at_EpochSecond r) s (at_ContestID r) (at_Language r) (at_Result r));
   string_member "contest_id" (fun s r => AtcRow (at_ID r) (at_EpochSecond r) (at_ProblemID r) s (at_Language r) (at_Result r));
   unused_string "user_id";
   string_member "language" (fun s r => AtcRow (at_ID r) (at_EpochSecond r) (at_ProblemID r) (at_ContestID r) s (at_Result r));
   string_member "result" (fun s r => AtcRow (at_ID r) (at_EpochSecond r) (at_ProblemID r) (at_ContestID r) (at_Language r) s);
   unused_int "execution_time"].
Definition unmarshal_atc : string -> option (list atcJson) :=
  unmarshal (array_value (struct_value (fields_of atc_fields) (AtcRow 0 0 "" "" "" ""))).

Definition fetchAtCoderLog (username : string) (fromSecond : Z) (n : nat) : fetch_error + list atcJson :=
  match browse default_client (get_request tracker_agent (atCoderAPIBaseURL +:+ "?" +:+
          encode_values [("from_second", pretty fromSecond); ("user", username)])) n with
  | Exn e => inl (PlainError ("发起http请求失败: " +:+ error_text e))
  | Val page =>
      if negb (pg_status page =? StatusOK) then
        inl (PlainError ("请求响应码错误 " +:+ pretty (pg_status page) +:+ ", " +:+ pg_body page))
      else
        match pg_broken page with
        | Some e => inl (PlainError ("解析body错误: " +:+ error_text e))
        | None =>
            match unmarshal_atc (pg_body page) with
            | None => inl (PlainError "解析json错误：")
            | Some atc => inr atc
            end
        end
  end.

(** The title and the times of a contest's page. *)
Definition attr_quote : Z -> bool := one_of ("'" +:+ quote).
Definition not_quote : Z -> bool := none_of ("'" +:+ quote).
Definition class_re (tag name : string) : pattern :=
  lit ("<" +:+ tag) ++ one_or_more (none_of ">") ++ lit "class=" ++ [One attr_quote]
    ++ zero_or_more not_quote ++ lit name ++ zero_or_more not_quote ++ [One attr_quote]
    ++ zero_or_more (none_of ">") ++ lit ">" ++ captured (one_or_more (none_of "<")) ++ lit ("</" +:+ tag +:+ ">").
Definition atCoderContestTitleRe : pattern := class_re "a" "contest-title".
Definition atCoderContestTimeRe : pattern := class_re "time" "fixtime-full".

Context `{Html}.
Definition page_time (times : list found) (i : nat) : Z :=
  match times !! i with
  | Some f => default zero_time (parse_time date_time_zone 0 (trim_space (group1 f)))
  | None => zero_time
  end.
Definition page_meta (contestID raw : string) : atCoderContestMeta :=
  let times := FindAll atCoderContestTimeRe raw in
  AtcMeta (match FindSubmatch atCoderContestTitleRe raw with
           | Some f => trim_space (UnescapeString (group1 f))
           | None => contestID
           end) (page_time times 0) (page_time times 1).

Definition remember_meta (contestID : string) (m : atCoderContestMeta) (st : scraper_state) : scraper_state :=
  ScraperState (st_luogu st) (st_qoj st) (<[contestID := m]> (st_atcoder st)).
Definition fetchAtCoderContestMeta (contestID : string) : SM atCoderContestMeta :=
  let contestID := trim_space contestID in
  if decide (contestID = "") then throw (ErrorText "AtCoder contest_id 为空")
  else
    cached ← peek (fun st => st_atcoder st !! contestID);
    match cached with
    | Some m => mret m
    | None =>
        page ← web_get default_client (get_request tracker_agent
                 (atCoderContestBaseURL +:+ "/" +:+ path_escape contestID));
        if negb (pg_status page =? StatusOK) then
          throw (ErrorText ("AtCoder contest 页面响应码错误 " +:+ pretty (pg_status page)))
        else
          raw ← read_all page;
          let m := page_meta contestID raw in
          if time_is_zero (am_Start m) then
            throw (ErrorText ("AtCoder contest " +:+ contestID +:+ " 未解析到开始时间"))
          else poke (remember_meta contestID m);; mret m
    end.

(** What is collected about a contest. *)
Record contestAgg := Agg { ag_log : ContestLog; ag_submitted : gset string; ag_accepted : gset string }.

(** A row outside a contest's known window is an upsolve. *)
Definition outside (m : outcome atCoderContestMeta) (t : Z) : bool :=
  match m with
  | Val m => negb (time_is_zero (am_End m)) && (bool_decide (t < am_Start m) || negb (bool_decide (t < am_End m)))
  | Exn _ => false
  end.
Definition new_agg (userId : Z) (contestID : string) (m : outcome atCoderContestMeta) (t : Z) : contestAgg :=
  Agg (ContestRow 0 AtCoder userId contestID (match m with Val m => am_Title m | Exn _ => contestID end)
         ("https://atcoder.jp/contests/" +:+ contestID) 0 0 0 (match m with Val m => am_Start m | Exn _ => t end)
         zero_time) ∅ ∅.
Definition set_contest_time (t : Z) (c : ContestLog) : ContestLog :=
  ContestRow (c_ID c) (c_Platform c) (c_UserID c) (c_ContestId c) (c_ContestName c) (c_ContestUrl c)
    (c_Rank c) (c_TotalCount c) (c_AcCount c) t (c_EndTime c).
Definition add_row (userId : Z) (contestID problemID : string) (m : outcome atCoderContestMeta) (row : atcJson)
    (aggs : gmap string contestAgg) : gmap string contestAgg :=
  let t := at_EpochSecond row * second in
  if outside m t then aggs
  else
    let agg := default (new_agg userId contestID m t) (aggs !! contestID) in
    <[contestID := Agg
        (match m with
         | Exn _ => if decide (at_EpochSecond row < time_unix (c_Time (ag_log agg)))
                    then set_contest_time t (ag_log agg) else ag_log agg
         | Val _ => ag_log agg
         end)
        ({[problemID]} ∪ ag_submitted agg)
        (if equal_fold (trim_space (at_Result row)) "AC" then {[problemID]} ∪ ag_accepted agg
         else ag_accepted agg)]> aggs.

(** The page of a contest is asked for once in a pass over the rows. *)
Definition known_metas : Type := gmap string (outcome atCoderContestMeta).
Definition getMeta (contestID : string) (known : known_metas) : SM (outcome atCoderContestMeta * known_metas) :=
  match known !! contestID with
  | Some m => mret (m, known)
  | None =>
      m ← attempt (fetchAtCoderContestMeta contestID);
      mret (m, <[contestID := m]> known)
  end.
Fixpoint aggregate (userId : Z) (rows : list atcJson) (known : known_metas) (aggs : gmap string contestAgg)
    : SM (gmap string contestAgg) :=
  match rows with
  | [] => mret aggs
  | row :: rows =>
      let contestID := trim_space (at_ContestID row) in
      let problemID := trim_space (at_ProblemID row) in
      if decide (contestID = "" \/ problemID = "") then aggregate userId rows known aggs
      else
        r ← getMeta contestID known;
        aggregate userId rows r.2 (add_row userId contestID problemID r.1 row aggs)
  end.

Definition finish_agg (agg : contestAgg) (m : outcome atCoderContestMeta) : ContestLog :=
  let c := ag_log agg in
  let named := match m with
               | Val m => (am_Title m, am_Start m, am_End m)
               | Exn _ => (c_ContestName c, c_Time c, c_EndTime c)
               end in
  ContestRow (c_ID c) (c_Platform c) (c_UserID c) (c_ContestId c) named.1.1 (c_ContestUrl c) (c_Rank c)
    (Z.of_nat (size (ag_submitted agg))) (Z.of_nat (size (ag_accepted agg))) named.1.2 named.2.
Fixpoint finish_aggs (aggs : list contestAgg) : SM (list ContestLog) :=
  match aggs with
  | [] => mret []
  | agg :: aggs =>
      m ← attempt (fetchAtCoderContestMeta (c_ContestId (ag_log agg)));
      rest ← finish_aggs aggs;
      mret (finish_agg agg m :: rest)
  end.

(** The requests of [fetchAtCoderRows], which are at most [fuel]. *)
Definition atcoder_rows (fuel : nat) (username : string) (needAll : bool) : SM (option (list atcJson)) := fun w =>
  let n := w_calls w in
  let w' := World (w_db w) (w_redis w) (n + fuel) (w_fault w) (w_clock w) in
  match fetchAtCoderRows (fetchAtCoderLog (trim_space username)) username fuel needAll (w_clock w n) n with
  | None => (Val None, w')
  | Some (inl e) => (Exn (ErrorText (fetch_error_text e)), w')
  | Some (inr rows) => (Val (Some rows), w')
  end.

Definition atcoder_FetchSubmitLog (fuel : nat) (userId : Z) (username : string) (needAll : bool)
    : SM (option (list SubmitLog)) :=
  rows ← atcoder_rows fuel username needAll;
  mret (atCoderRowsToSubmitLogs userId <$> rows).

(** The contests come in the order in which a Go map is gone through, which is any. *)
Definition atcoder_FetchContestLog (fuel : nat) (userId : Z) (username : string) (needAll : bool)
    : SM (option (list ContestLog)) :=
  rows ← atcoder_rows fuel username needAll;
  match rows with
  | None => mret None
  | Some rows =>
      aggs ← aggregate userId rows ∅ ∅;
      logs ← finish_aggs (map snd (map_to_list aggs));
      mret (Some logs)
  end.
End judges.
