(* ===== verification/ContestMeta.v ===== *)
(** What the contest pages of the judges say, with the caches in front of them:
    [service/contest_meta_cache.go], the [fetch] functions of
    [service/contest_matrix.go] and [service/contest_official_rank.go]. *)
From S2P Require Export Judges.

(** ** Caches with a time to live *)

Definition ttl_cache (A : Type) : Type := gmap string (A * Z).
Record meta_caches := MetaCaches {
  mc_AtCoder : ttl_cache contestMeta; mc_Codeforces : ttl_cache contestMeta;
  mc_Standings : ttl_cache codeforcesStandings; mc_NowCoder : ttl_cache contestMeta;
  mc_History : ttl_cache (list (Z * string)); mc_Ranks : ttl_cache (gmap string Z) }.
Definition MM : Type -> Type := M meta_caches.

(** Which of the caches, as it is read and replaced. *)
Record cache_ref (A : Type) := CacheRef {
  cache_of : meta_caches -> ttl_cache A; put_cache : ttl_cache A -> meta_caches -> meta_caches }.
Arguments CacheRef {A} _ _.
Arguments cache_of {A} _ _.
Arguments put_cache {A} _ _ _.
Definition atcoder_cache : cache_ref contestMeta := CacheRef mc_AtCoder (fun c m =>
  MetaCaches c (mc_Codeforces m) (mc_Standings m) (mc_NowCoder m) (mc_History m) (mc_Ranks m)).
Definition codeforces_cache : cache_ref contestMeta := CacheRef mc_Codeforces (fun c m =>
  MetaCaches (mc_AtCoder m) c (mc_Standings m) (mc_NowCoder m) (mc_History m) (mc_Ranks m)).
Definition standings_cache : cache_ref codeforcesStandings := CacheRef mc_Standings (fun c m =>
  MetaCaches (mc_AtCoder m) (mc_Codeforces m) c (mc_NowCoder m) (mc_History m) (mc_Ranks m)).
Definition nowcoder_cache : cache_ref contestMeta := CacheRef mc_NowCoder (fun c m =>
  MetaCaches (mc_AtCoder m) (mc_Codeforces m) (mc_Standings m) c (mc_History m) (mc_Ranks m)).
Definition history_cache : cache_ref (list (Z * string)) := CacheRef mc_History (fun c m =>
  MetaCaches (mc_AtCoder m) (mc_Codeforces m) (mc_Standings m) (mc_NowCoder m) c (mc_Ranks m)).
Definition rank_cache : cache_ref (gmap string Z) := CacheRef mc_Ranks (fun c m =>
  MetaCaches (mc_AtCoder m) (mc_Codeforces m) (mc_Standings m) (mc_NowCoder m) (mc_History m) c).

Definition cache_ttl : Z := 6 * hour.
Section cache.
Context {A : Type} (r : cache_ref A).
(** An entry that has expired is taken out. *)
Definition cache_get (key : string) : MM (option A) :=
  entry ← peek (fun m => cache_of r m !! key);
  match entry with
  | None => mret None
  | Some (value, expiresAt) =>
      t ← now;
      if decide (expiresAt < t) then poke (fun m => put_cache r (delete key (cache_of r m)) m);; mret None
      else mret (Some value)
  end.
Definition cache_set_ttl (key : string) (value : A) (ttl : Z) : MM () :=
  t ← now;
  poke (fun m => put_cache r (<[key := (value, t + if decide (ttl <= 0) then cache_ttl else ttl)]> (cache_of r m)) m).
Definition cache_set (key : string) (value : A) : MM () := cache_set_ttl key value cache_ttl.

(** The pattern of every [fetch] function: the value that is cached, or what [load]
    brings, which stores it. *)
Definition cached (key : string) (load : MM A) : MM A :=
  hit ← cache_get key;
  match hit with Some value => mret value | None => load end.
End cache.

Definition empty_contest_id : goerr := ErrorText "empty contest id".

Section pages.
Context `{Web} `{Html}.

Definition fetchContestHTML (pageURL : string) : MM string :=
  page ← web_get default_client (get_request tracker_agent pageURL);
  if negb (pg_status page =? StatusOK) then
    throw (ErrorText ("contest metadata status " +:+ pretty (pg_status page)))
  else read_all page.

(** ** AtCoder *)

Definition fetchAtCoderContestPage (contestID pageURL : string) : MM atCoderContestMeta :=
  raw ← fetchContestHTML pageURL;
  let m := page_meta contestID raw in
  if time_is_zero (am_Start m) then throw (ErrorText "missing contest start time") else mret m.

(** A link to a task: its name in the path, and its title. *)
Definition atCoderTaskLinkRe : pattern :=
  lit "<a" ++ one_or_more (none_of ">") ++ lit "href=" ++ [One attr_quote] ++ lit "/contests/"
    ++ one_or_more not_quote ++ lit "/tasks/" ++ captured (one_or_more not_quote) ++ [One attr_quote]
    ++ zero_or_more (none_of ">") ++ lit ">" ++ captured (one_or_more (none_of "<")) ++ lit "</a>".
Definition add_task (contestID : string) (tasks : list contestProblemMeta) (f : found) : list contestProblemMeta :=
  let key := trim_space (UnescapeString (group1 f)) in
  let title := trim_space (UnescapeString (group2 f)) in
  if decide (key = "" \/ title = "" \/ key ∈ map pm_Key tasks) then tasks
  else tasks ++ [ProblemMeta key (deriveProblemIndex AtCoder contestID key (length tasks)) title
                   (atCoderProblemURL contestID key) []].
Definition fetchAtCoderTaskPage (tasksURL contestID : string) : MM (list contestProblemMeta) :=
  body ← fetchContestHTML tasksURL;
  mret (foldl (add_task contestID) [] (FindAll atCoderTaskLinkRe body)).

(** The page of the tasks may fail: the contest then has none. *)
Definition fetchAtCoderMatrixMeta (contestID : string) : MM contestMeta :=
  let contestID := trim_space contestID in
  if decide (contestID = "") then throw empty_contest_id
  else
    let cacheKey := to_lower contestID in
    cached atcoder_cache cacheKey (
      let baseURL := "https://atcoder.jp/contests/" +:+ path_escape contestID in
      m ← fetchAtCoderContestPage contestID baseURL;
      tasks ← attempt (fetchAtCoderTaskPage (baseURL +:+ "/tasks") contestID);
      let meta := ContestMeta (am_Title m) (am_Start m) (am_End m)
                    (match tasks with Val l => l | Exn _ => [] end) in
      cache_set atcoder_cache cacheKey meta;; mret meta).

(** ** Codeforces *)

Record standings_answer := StandingsAnswer {
  sa_Status : string; sa_Comment : string; sa_Standings : codeforcesStandings }.
Definition set_standings (s : codeforcesStandings) (a : standings_answer) : standings_answer :=
  StandingsAnswer (sa_Status a) (sa_Comment a) s.
Definition contest_fields : list (json_field codeforcesStandings) :=
  [unused_int "id";
   string_member "name" (fun x s => Standings x (cs_StartTime s) (cs_DurationSeconds s) (cs_Problems s) (cs_Rows s));
   int_member "startTimeSeconds" (fun z s => Standings (cs_Name s) z (cs_DurationSeconds s) (cs_Problems s) (cs_Rows s));
   int_member "durationSeconds" (fun z s => Standings (cs_Name s) (cs_StartTime s) z (cs_Problems s) (cs_Rows s))].
Definition member_value : list Z -> option string :=
  struct_value (fields_of [string_member "handle" (fun s _ => s)]) "".
Definition rank_row_value : list Z -> option (Z * list string) :=
  struct_value (fields_of
    [int_member "rank" (fun z (r : Z * list string) => (z, r.2));
     struct_member "party" [array_member "members" member_value (fun l _ => l)] snd (fun l r => (r.1, l))]) (0, []).
Definition standings_result_fields : list (json_field codeforcesStandings) :=
  [struct_member "contest" contest_fields id (fun s _ => s);
   array_member "problems" (struct_value (fields_of cf_problem_fields) (StandingsProblem 0 "" "" ""))
     (fun l s => Standings (cs_Name s) (cs_StartTime s) (cs_DurationSeconds s) l (cs_Rows s));
   array_member "rows" rank_row_value
     (fun l s => Standings (cs_Name s) (cs_StartTime s) (cs_DurationSeconds s) (cs_Problems s) l)].
Definition standings_fields : list (json_field standings_answer) :=
  [string_member "status" (fun x a => StandingsAnswer x (sa_Comment a) (sa_Standings a));
   string_member "comment" (fun x a => StandingsAnswer (sa_Status a) x (sa_Standings a));
   struct_member "result" standings_result_fields sa_Standings set_standings].
Definition unmarshal_standings : string -> option standings_answer :=
  unmarshal (struct_value (fields_of standings_fields) (StandingsAnswer "" "" (Standings "" 0 0 [] []))).

(** A minute until ten minutes after the end. *)
Definition codeforcesStandingsTTL (parsed : codeforcesStandings) : MM Z :=
  if decide (cs_StartTime parsed <= 0 \/ cs_DurationSeconds parsed <= 0) then mret minute
  else
    let fin := cs_StartTime parsed * second + wrap_int64 (cs_DurationSeconds parsed * second) in
    t ← now;
    mret (if decide (t < fin + 10 * minute) then minute else cache_ttl).

Definition fetchCodeforcesStandings (contestID : string) : MM codeforcesStandings :=
  let contestID := trim_space contestID in
  if decide (contestID = "") then throw empty_contest_id
  else
    let cacheKey := to_lower contestID in
    cached standings_cache cacheKey (
      page ← web_get default_client (get_request tracker_agent
               ("https://codeforces.com/api/contest.standings?contestId=" +:+ QueryEscape contestID));
      body ← read_all page;
      if negb (pg_status page =? StatusOK) then
        throw (ErrorText ("codeforces standings status " +:+ pretty (pg_status page) +:+ ": " +:+ trim_space body))
      else
        match unmarshal_standings body with
        | None => throw (Driver "json")
        | Some parsed =>
            if decide (sa_Status parsed = "OK") then
              ttl ← codeforcesStandingsTTL (sa_Standings parsed);
              cache_set_ttl standings_cache cacheKey (sa_Standings parsed) ttl;;
              mret (sa_Standings parsed)
            else throw (ErrorText ("codeforces standings failed: " +:+ sa_Comment parsed))
        end).
Definition cf_matrix_meta (contestID : string) : MM contestMeta :=
  let contestID := trim_space contestID in
  if decide (contestID = "") then throw empty_contest_id
  else
    let cacheKey := to_lower contestID in
    cached codeforces_cache cacheKey (
      parsed ← fetchCodeforcesStandings contestID;
      let meta := codeforcesStandingsToMeta contestID parsed in
      cache_set codeforces_cache cacheKey meta;; mret meta).

Definition fetchCodeforcesOfficialRankMap (contestID : string) : MM (gmap string Z) :=
  let cacheKey := to_lower (trim_space contestID) in
  cached rank_cache cacheKey (
    standings ← fetchCodeforcesStandings contestID;
    let rankByHandle := rank_map (cs_Rows standings) in
    ttl ← codeforcesStandingsTTL standings;
    cache_set_ttl rank_cache cacheKey rankByHandle ttl;; mret rankByHandle).

(** ** NowCoder *)

Definition number_re (name : string) : pattern :=
  lit (quoted name) ++ zero_or_more re_space ++ lit ":" ++ zero_or_more re_space ++ captured (one_or_more re_digit).
Definition nowCoderStartTimeRe : pattern := number_re "startTime".
Definition nowCoderEndTimeRe : pattern := number_re "endTime".
Definition nowCoderNameRe : pattern :=
  lit (quoted "name") ++ zero_or_more re_space ++ lit ":" ++ zero_or_more re_space ++ lit quote
    ++ captured (one_or_more (none_of quote)) ++ lit quote.
(** A letter, then letters, digits, [_], [+] and [-]. *)
Definition nowCoderProblemIndexRe : pattern :=
  One re_letter :: zero_or_more (fun r => re_letter r || re_digit r || one_of "_+-" r).
(** A link to a problem: the path, in it the contest and the index, and the title. *)
Definition nowCoderProblemLinkRe : pattern :=
  lit "<a" ++ one_or_more (none_of ">") ++ lit "href=" ++ [One attr_quote]
    ++ captured (lit "/acm/contest/" ++ captured (one_or_more re_digit) ++ lit "/"
              ++ captured (one_or_more (none_of ("'/?#" +:+ quote))))
    ++ [One attr_quote] ++ zero_or_more (none_of ">") ++ lit ">" ++ captured (zero_or_more (none_of "<")) ++ lit "</a>".
(** Its groups, of which the second and the third lie in the first. *)
Definition link_path (f : found) : string := submatch f 0 5.
Definition link_contest (f : found) : string := submatch f 1 2.
Definition link_index (f : found) : string := submatch f 3 4.
Definition link_title (f : found) : string := submatch f 6 7.

(** The problems with the indices as they are written in the links. *)
Definition add_link (contestID : string) (st : list (string * contestProblemMeta)) (f : found)
    : list (string * contestProblemMeta) :=
  if negb (bool_decide (trim_space (link_contest f) = contestID)) then st
  else
    let index := trim_space (UnescapeString (link_index f)) in
    if negb (MatchWhole nowCoderProblemIndexRe index) then st
    else
      let title := trim_space (UnescapeString (link_title f)) in
      let title := if decide (title = "") then index else title in
      let key := if decide (title = "" \/ title = index) then index else title in
      if decide (index ∈ map fst st) then st
      else st ++ [(index, ProblemMeta key (to_upper index) title
                            ("https://ac.nowcoder.com" +:+ trim_space (link_path f))
                            (nowCoderProblemAliases index title))].
Definition parseNowCoderProblems (raw contestID : string) : list contestProblemMeta :=
  let contestID := trim_space contestID in
  if decide (contestID = "") then []
  else merge_sort may_precede (map snd (foldl (add_link contestID) [] (FindAll nowCoderProblemLinkRe raw))).

(** Milliseconds; a number out of range, or that is not positive, leaves the zero time. *)
Definition millis (re : pattern) (raw : string) : Z :=
  match FindSubmatch re raw with
  | None => zero_time
  | Some f =>
      match parse_int64 (group1 f) with
      | Some ms => if decide (0 < ms) then Z.quot ms 1000 * second else zero_time
      | None => zero_time
      end
  end.
Definition fetchNowCoderMatrixMeta (contestID : string) : MM contestMeta :=
  let contestID := trim_space contestID in
  if decide (contestID = "") then throw empty_contest_id
  else
    let cacheKey := to_lower contestID in
    cached nowcoder_cache cacheKey (
      raw ← fetchContestHTML ("https://ac.nowcoder.com/acm/contest/" +:+ path_escape contestID);
      let meta := ContestMeta
        (match FindSubmatch nowCoderNameRe raw with
         | Some f => trim_space (UnescapeString (group1 f))
         | None => contestID
         end) (millis nowCoderStartTimeRe raw) (millis nowCoderEndTimeRe raw)
        (parseNowCoderProblems raw contestID) in
      if time_is_zero (cm_Start meta) || time_is_zero (cm_End meta)
      then throw (ErrorText "missing nowcoder contest window")
      else cache_set nowcoder_cache cacheKey meta;; mret meta).

(** ** Official ranks of AtCoder *)

Definition history_item_fields : list (json_field (Z * string)) :=
  [int_member "Place" (fun z h => (z, h.2)); string_member "ContestScreenName" (fun s h => (h.1, s));
   unused_string "ContestName"; unused_string "EndTime"].
Definition unmarshal_user_history : string -> option (list (Z * string)) :=
  unmarshal (array_value (struct_value (fields_of history_item_fields) (0, ""))).
Definition fetchAtCoderUserHistory (username : string) : MM (list (Z * string)) :=
  let cacheKey := to_lower (trim_space username) in
  cached history_cache cacheKey (
    page ← web_get default_client (get_request tracker_agent
             ("https://atcoder.jp/users/" +:+ path_escape username +:+ "/history/json"));
    body ← read_all page;
    if negb (pg_status page =? StatusOK) then
      throw (ErrorText ("history status " +:+ pretty (pg_status page) +:+ ": " +:+ trim_space body))
    else
      match unmarshal_user_history body with
      | None => throw (Driver "json")
      | Some history => cache_set history_cache cacheKey history;; mret history
      end).
End pages.
