(* ===== verification/ScraperTheory.v ===== *)
(** What the scrapers find in the pages of the judges: a table that is written as HTML
    is read back row by row and cell by cell, sessions are used while they last, and
    the pages of an answer are collected to the last one. *)
From S2P Require Export ContestMeta.

(** ** Tags between texts *)

Definition ascii_text (s : string) : Prop := Forall (fun a => code a < 128) (bytes_of s).

Lemma chunks_tag a t b : ascii_text t -> t <> "" ->
  chunks_of (a +:+ t +:+ b) = chunks_of a ++ chunks_of t ++ chunks_of b.
Proof.
  intros Ht Hne. unfold chunks_of. rewrite !app_bytes, <- (chunks_ascii_app (bytes_of t)) by done.
  apply chunks_app. destruct t as [|x t]; [done|]. unfold ascii_text in Ht. simpl in *. by inversion Ht.
Qed.
Lemma chunks_tag_first t b : ascii_text t -> chunks_of (t +:+ b) = chunks_of t ++ chunks_of b.
Proof. intros Ht. unfold chunks_of. rewrite app_bytes. by apply chunks_ascii_app. Qed.

(** A text without tags, and a text in which no cell, row or table ends. *)
Definition plain (s : string) : Prop := Forall (fun c => rune c <> 60) (chunks_of s).
Definition attributes (s : string) : Prop := Forall (fun c => rune c <> 60 /\ rune c <> 62) (chunks_of s).
Definition inside (s : string) : Prop := cut (runes "</t") (chunks_of s) = None.

Lemma cut_skip h t x y : Forall (fun c => rune c <> h) x ->
  cut (h :: t) (x ++ y) = (fun r => (x ++ r.1, r.2)) <$> cut (h :: t) y.
Proof.
  induction 1 as [|c x Hc Hx IH]; [cbn [app]; by destruct (cut (h :: t) y) as [[]|]|].
  cbn [app cut strip]. destruct (h =? rune c) eqn:E; [apply Z.eqb_eq in E; congruence|].
  rewrite IH. by destruct (cut (h :: t) y) as [[]|].
Qed.

Lemma find_open_skip f x y : (forall c l, rune c <> 60 -> f (c :: l) = None) ->
  Forall (fun c => rune c <> 60) x -> find_open f (x ++ y) = find_open f y.
Proof. intros Hf. induction 1 as [|c x Hc Hx IH]; [done|]. cbn [app find_open]. by rewrite Hf. Qed.
Lemma find_open_none f x : (forall c l, rune c <> 60 -> f (c :: l) = None) -> f [] = None ->
  Forall (fun c => rune c <> 60) x -> find_open f x = None.
Proof. intros Hf Hn. induction 1 as [|c x Hc Hx IH]; cbn [find_open]; [by rewrite Hn|]. by rewrite Hf. Qed.
Lemma find_open_cut rs l : find_open (strip rs) l = snd <$> cut rs l.
Proof.
  induction l as [|c l IH]; cbn [find_open cut]; destruct (strip rs _); try done.
  rewrite IH. by destruct (cut rs l) as [[]|].
Qed.

Lemma strip_head r rs c l : rune c <> r -> strip (r :: rs) (c :: l) = None.
Proof. intros H. cbn [strip]. destruct (r =? rune c) eqn:E; [apply Z.eqb_eq in E; congruence|done]. Qed.

Lemma strip_own s y : strip (runes s) (chunks_of s ++ y) = Some y.
Proof.
  unfold runes. induction (chunks_of s) as [|c l IH]; [done|]. cbn [map app strip]. by rewrite Z.eqb_refl.
Qed.
Lemma find_open_here f l r : f l = Some r -> find_open f l = Some r.
Proof. intros H. destruct l; cbn [find_open]; by rewrite H. Qed.

(** ** Tables *)

Record html_cell := HtmlCell { hc_gap : string; hc_attrs : string; hc_content : string }.
Record html_row := HtmlRow { hr_gap : string; hr_cells : list html_cell; hr_end : string }.

Definition cell_html (c : html_cell) (rest : string) : string :=
  hc_gap c +:+ "<td" +:+ hc_attrs c +:+ ">" +:+ hc_content c +:+ "</td>" +:+ rest.
Definition row_inner (r : html_row) : string := foldr cell_html (hr_end r) (hr_cells r).
Definition row_html (r : html_row) (rest : string) : string :=
  hr_gap r +:+ "<tr>" +:+ row_inner r +:+ "</tr>" +:+ rest.
Record html_page := HtmlPage {
  hp_before : string; hp_rows : list html_row; hp_end : string; hp_after : string }.
Definition table_inner (p : html_page) : string := foldr row_html (hp_end p) (hp_rows p).
Definition page_html (p : html_page) : string :=
  hp_before p +:+ "<tbody>" +:+ table_inner p +:+ "</tbody>" +:+ hp_after p.

Record cell_ok (c : html_cell) : Prop := {
  gap_ok : plain (hc_gap c); attrs_ok : attributes (hc_attrs c); content_ok : inside (hc_content c) }.
Record row_ok (r : html_row) : Prop := {
  row_gap_ok : plain (hr_gap r); cells_ok : Forall cell_ok (hr_cells r); row_end_ok : plain (hr_end r) }.
Record page_ok (p : html_page) : Prop := {
  before_ok : cut (runes "<tbody>") (chunks_of (hp_before p)) = None;
  rows_ok : Forall row_ok (hp_rows p); table_end_ok : plain (hp_end p) }.

Ltac ascii := unfold ascii_text; repeat constructor.

Lemma cell_chunks c rest : chunks_of (cell_html c rest) =
  chunks_of (hc_gap c) ++ chunks_of "<td" ++ chunks_of (hc_attrs c) ++ chunks_of ">"
    ++ chunks_of (hc_content c) ++ chunks_of "</td>" ++ chunks_of rest.
Proof. unfold cell_html. by rewrite chunks_tag, chunks_tag, chunks_tag by (done || ascii). Qed.
Lemma row_chunks r rest : chunks_of (row_html r rest) =
  chunks_of (hr_gap r) ++ chunks_of "<tr>" ++ chunks_of (row_inner r) ++ chunks_of "</tr>" ++ chunks_of rest.
Proof. unfold row_html. by rewrite chunks_tag, chunks_tag by (done || ascii). Qed.
Lemma page_chunks p : chunks_of (page_html p) =
  chunks_of (hp_before p) ++ chunks_of "<tbody>" ++ chunks_of (table_inner p) ++ chunks_of "</tbody>"
    ++ chunks_of (hp_after p).
Proof. unfold page_html. by rewrite chunks_tag, chunks_tag by (done || ascii). Qed.

(** *** Cells *)

Definition td_open : list chunk -> option (list chunk) := tag_open (runes "<td").

Lemma td_skip c l : rune c <> 60 -> td_open (c :: l) = None.
Proof. intros H. unfold td_open, tag_open. change (runes "<td") with [60; 116; 100]. by rewrite strip_head. Qed.

Lemma attributes_close a y : attributes a -> cut (runes ">") (chunks_of a ++ chunks_of ">" ++ y) = Some (chunks_of a, y).
Proof.
  intros Ha. apply (cut_before 62 []); [set_solver| |done|done].
  apply cut_absent. eapply Forall_impl; [exact Ha|]. by intros c [_ H].
Qed.

Lemma element_cell c rest : cell_ok c ->
  element td_open "</td>" (chunks_of (cell_html c rest)) = Some (chunks_of (hc_content c), chunks_of rest).
Proof.
  intros [Hg Ha Hc]. rewrite cell_chunks. unfold element. rewrite find_open_skip by (done || apply td_skip).
  rewrite (find_open_here _ _ (chunks_of (hc_content c) ++ chunks_of "</td>" ++ chunks_of rest)).
  2:{ unfold td_open, tag_open. rewrite strip_own. cbn [mbind option_bind]. by rewrite attributes_close. }
  cbn [mbind option_bind].
  apply (cut_before 60 [47; 116; 100; 62]); [set_solver| |done|done].
  by apply (cut_longer (runes "</t") [100; 62]).
Qed.

Lemma elements_cells cells rest : Forall cell_ok cells -> plain rest -> forall fuel, (length cells < fuel)%nat ->
  all_elements td_open "</td>" fuel (chunks_of (foldr cell_html rest cells)) = map hc_content cells.
Proof.
  intros Hc Hr. induction Hc as [|c cells Hc Hcs IH]; intros [|fuel] Hf; simpl in Hf; try lia; cbn [all_elements foldr map].
  - unfold element. rewrite find_open_none; [done|apply td_skip|done|done].
  - rewrite element_cell by done. cbn [fst snd]. by rewrite of_chunks_of, IH by lia.
Qed.

Lemma cells_length cells rest : (length cells <= length (chunks_of (foldr cell_html rest cells)))%nat.
Proof.
  induction cells as [|c cells IH]; [simpl; lia|]. cbn [foldr length]. rewrite cell_chunks, !length_app.
  change (length (chunks_of "</td>")) with 5%nat. lia.
Qed.

(** The cells of a row. *)
Lemma row_cells r : row_ok r -> map group1 (FindAll cell_re (row_inner r)) = map hc_content (hr_cells r).
Proof.
  intros [Hg Hc He]. unfold FindAll, row_inner.
  assert (cell_re = (lit "<td" ++ zero_or_more (none_of ">") ++ lit ">") ++ captured (lazy_more any_rune) ++ lit "</td>") as ->.
  { unfold cell_re. by rewrite <- !app_assoc. }
  rewrite (search_all_elements _ td_open "</td>"); [|apply opens_tag|apply tag_forward].
  apply elements_cells; [done..|]. pose proof (cells_length (hr_cells r) (hr_end r)). lia.
Qed.

(** *** Rows *)

Section closing.
(** The end of a row or of a table. *)
Context (k : Z) (t : list Z) (Hk : k <> 100) (Ht : 60 ∉ k :: t).
Let close : list Z := 60 :: 47 :: 116 :: k :: t.

Lemma close_skips_open y : cut close y = None -> cut close (chunks_of "<td" ++ y) = None.
Proof. intros H. change (chunks_of "<td") with (map one_byte (bytes_of "<td")). simpl. by rewrite H. Qed.
Lemma close_skips_end y : cut close y = None -> cut close (chunks_of "</td>" ++ y) = None.
Proof.
  intros H. change (chunks_of "</td>") with (map one_byte (bytes_of "</td>")). simpl.
  match goal with |- context[k =? ?c] => change c with 100 end.
  destruct (k =? 100) eqn:E; [apply Z.eqb_eq in E; congruence|]. by rewrite H.
Qed.
Lemma close_skips_plain x y : Forall (fun c => rune c <> 60) x -> cut close y = None -> cut close (x ++ y) = None.
Proof. intros Hx H. unfold close in *. by rewrite cut_skip, H. Qed.

Lemma no_close_cells cells rest : Forall cell_ok cells -> plain rest ->
  cut close (chunks_of (foldr cell_html rest cells)) = None.
Proof.
  intros Hc Hr. induction Hc as [|c cells [Hg Ha Hi] Hcs IH]; cbn [foldr]; [by apply cut_absent|].
  rewrite cell_chunks. apply close_skips_plain; [done|]. apply close_skips_open.
  apply close_skips_plain; [eapply Forall_impl; [exact Ha|]; by intros ? []|].
  apply (close_skips_plain (chunks_of ">")); [by repeat constructor|].
  apply (cut_none_app 60 (47 :: 116 :: k :: t)).
  - set_solver.
  - by apply (cut_longer (runes "</t") (k :: t)).
  - by apply close_skips_end.
  - done.
Qed.
End closing.

Definition tr_open : list chunk -> option (list chunk) := strip (runes "<tr>").
Lemma tr_skip c l : rune c <> 60 -> tr_open (c :: l) = None.
Proof. intros H. unfold tr_open. change (runes "<tr>") with [60; 116; 114; 62]. by rewrite strip_head. Qed.

Lemma element_row r rest : row_ok r ->
  element tr_open "</tr>" (chunks_of (row_html r rest)) = Some (chunks_of (row_inner r), chunks_of rest).
Proof.
  intros [Hg Hc He]. rewrite row_chunks. unfold element. rewrite find_open_skip by (done || apply tr_skip).
  rewrite (find_open_here _ _ (chunks_of (row_inner r) ++ chunks_of "</tr>" ++ chunks_of rest)) by apply strip_own.
  cbn [mbind option_bind]. apply (cut_before 60 [47; 116; 114; 62]); [set_solver| |done|done].
  apply (no_close_cells 114 [62]); [done|set_solver|done|done].
Qed.

Lemma elements_rows rows rest : Forall row_ok rows -> plain rest -> forall fuel, (length rows < fuel)%nat ->
  all_elements tr_open "</tr>" fuel (chunks_of (foldr row_html rest rows)) = map row_inner rows.
Proof.
  intros Hc Hr. induction Hc as [|r rows Hrow Hrows IH]; intros [|fuel] Hf; simpl in Hf; try lia; cbn [all_elements foldr map].
  - unfold element. rewrite find_open_none; [done|apply tr_skip|done|done].
  - rewrite element_row by done. cbn [fst snd]. by rewrite of_chunks_of, IH by lia.
Qed.

Lemma rows_length rows rest : (length rows <= length (chunks_of (foldr row_html rest rows)))%nat.
Proof.
  induction rows as [|r rows IH]; [simpl; lia|]. cbn [foldr length]. rewrite row_chunks, !length_app.
  change (length (chunks_of "</tr>")) with 5%nat. lia.
Qed.

Lemma table_rows rows rest : Forall row_ok rows -> plain rest ->
  map group1 (FindAll row_re (foldr row_html rest rows)) = map row_inner rows.
Proof.
  intros Hc Hr. unfold FindAll, row_re.
  rewrite (search_all_elements _ tr_open "</tr>"); [|apply opens_lit|apply strip_forward].
  apply elements_rows; [done..|]. pose proof (rows_length rows rest). lia.
Qed.

(** *** The table *)

Lemma no_close_rows rows rest : Forall row_ok rows -> plain rest ->
  cut (runes "</tbody>") (chunks_of (foldr row_html rest rows)) = None.
Proof.
  intros Hc Hr. change (runes "</tbody>") with [60; 47; 116; 98; 111; 100; 121; 62].
  induction Hc as [|r rows [Hg Hcs He] Hrows IH]; cbn [foldr]; [by apply cut_absent|].
  rewrite row_chunks. rewrite cut_skip by done.
  assert (forall y, cut [60; 47; 116; 98; 111; 100; 121; 62] y = None ->
            cut [60; 47; 116; 98; 111; 100; 121; 62] (chunks_of "<tr>" ++ y) = None) as Hopen.
  { intros y H. change (chunks_of "<tr>") with (map one_byte (bytes_of "<tr>")). simpl. by rewrite H. }
  rewrite Hopen; [done|]. apply (cut_none_app 60 [47; 116; 98; 111; 100; 121; 62]); [set_solver| | |done].
  - apply (no_close_cells 98 [111; 100; 121; 62]); [done|set_solver|done|done].
  - change (chunks_of "</tr>") with (map one_byte (bytes_of "</tr>")). simpl. by rewrite IH.
Qed.

(** The rows of a page: none is lost or made up. *)
Lemma qoj_table_html p : page_ok p ->
  qoj_table (page_html p) = match map row_inner (hp_rows p) with [] => None | rows => Some rows end.
Proof.
  intros [Hb Hr He]. unfold qoj_table, FindSubmatch.
  assert (finding <$> search tbody_re (chunks_of (page_html p)) =
          Some (table_inner p, chunks_of (hp_after p))) as H.
  { unfold tbody_re. rewrite (search_element _ (strip (runes "<tbody>")) "</tbody>"); [|apply opens_lit|apply strip_forward].
    unfold element. rewrite find_open_cut, page_chunks.
    change (runes "<tbody>") with [60; 116; 98; 111; 100; 121; 62].
    change (runes "</tbody>") with [60; 47; 116; 98; 111; 100; 121; 62].
    rewrite (cut_before 60 [116; 98; 111; 100; 121; 62] ltac:(set_solver) _ _ (chunks_of (table_inner p) ++ chunks_of "</tbody>" ++ chunks_of (hp_after p)));
      [|done|done|apply (strip_own "<tbody>")].
    cbn [fmap option_fmap option_map snd mbind option_bind].
    rewrite (cut_before 60 [47; 116; 98; 111; 100; 121; 62] ltac:(set_solver) _ _ (chunks_of (hp_after p)));
      [|by apply no_close_rows|done|apply (strip_own "</tbody>")].
    unfold content_of. simpl. by rewrite of_chunks_of. }
  destruct (search tbody_re (chunks_of (page_html p))) as [f|]; [|done]. simpl in H. unfold finding in H.
  injection H as Hg _. rewrite Hg. unfold table_inner. by rewrite table_rows.
Qed.

(** ** Submissions on QOJ *)

(** A submission as the site knows it; the time in seconds. *)
Record listed := Listed {
  li_ID : string; li_Problem : string; li_Status : string; li_Lang : string; li_Time : Z }.
(** What a reader sees in a cell. *)
Definition visible (r : html_row) (i : nat) : option string :=
  (fun c => stripTags (hc_content c)) <$> hr_cells r !! i.
Record shows (r : html_row) (x : listed) : Prop := {
  shows_ok : row_ok r;
  shows_id : visible r 0 = Some ("#" +:+ li_ID x) /\ has_prefix (li_ID x) "#" = false;
  shows_problem : visible r 1 = Some (li_Problem x);
  shows_status : visible r 3 = Some (li_Status x);
  shows_lang : visible r 6 = Some (li_Lang x);
  shows_time : visible r 8 = Some (format_date_time shanghai (li_Time x * second));
  shows_year : near (year_of ((li_Time x + shanghai) / 86400)) }.

Definition qoj_submission (userId : Z) (x : listed) : SubmitLog :=
  Submission 0 "QOJ" userId (li_ID x) "" (li_Problem x) (li_Lang x) (normalizeQOJStatus (li_Status x))
    (li_Time x * second).

Lemma trim_hashes_id s : has_prefix s "#" = false -> trim_hashes ("#" +:+ s) = s.
Proof.
  intros H. unfold trim_hashes. rewrite app_bytes. change (bytes_of "#") with [byte_of 35]. cbn [app trim_left_byte].
  change (code (byte_of 35) =? 35) with true. cbn [trim_left_byte].
  destruct s as [|a s]; [done|]. cbn [bytes_of String.list_ascii_of_string trim_left_byte].
  destruct (code a =? 35) eqn:E; [|apply (of_bytes_of (String a s))].
  apply Z.eqb_eq in E. exfalso. unfold has_prefix in H. cbn in H.
  assert (a = byte_of 35) as -> by (rewrite <- (byte_of_code a), E; done). done.
Qed.

Lemma qoj_row_shows userId r x : shows r x -> qoj_row userId (row_inner r) = Val (Some (qoj_submission userId x)).
Proof.
  intros [Hok [H0 Hid] H1 H3 H6 H8 Hy]. unfold qoj_row. rewrite row_cells by done. unfold visible in *.
  destruct (hr_cells r) as [|c0 [|c1 [|c2 [|c3 [|c4 [|c5 [|c6 [|c7 [|c8 cs]]]]]]]]]; try done. cbn [map].
  injection H0 as H0. injection H1 as H1. injection H3 as H3. injection H6 as H6. injection H8 as H8.
  rewrite H8, time_round_trip by done.
  rewrite H0, H1, H3, H6, trim_hashes_id by done. done.
Qed.
Lemma qoj_rows_show userId rows xs : Forall2 shows rows xs ->
  qoj_rows userId (map row_inner rows) = Val (map (qoj_submission userId) xs).
Proof.
  induction 1 as [|r x rows xs Hrx Hall IH]; [done|]. cbn [map qoj_rows].
  by rewrite (qoj_row_shows userId r x), IH.
Qed.

Section qoj_site.
Context `{Web} (c : client) (username : string).

(** One page of the list, with the submissions on it. *)
Record list_page := ListPage { lp_html : html_page; lp_listed : list listed }.
Definition list_page_ok (p : list_page) : Prop :=
  page_ok (lp_html p) /\ Forall2 shows (hp_rows (lp_html p)) (lp_listed p).

Definition list_request (i : Z) : web_request :=
  get_request (browser_headers ++ [("Referer", "https://qoj.ac/")]) (qoj_url username +:+ pretty i).

(** The pages from page [i] on: each but the last has rows, and names the next. *)
Fixpoint serves (i : Z) (pages : list list_page) : Prop :=
  match pages with
  | [] => False
  | p :: rest =>
      list_page_ok p /\
      (forall n, browse c (list_request i) n = Val (WebPage StatusOK (page_html (lp_html p)) None)) /\
      contains (page_html (lp_html p)) (next_page i) = negb (bool_decide (rest = [])) /\
      (rest <> [] -> lp_listed p <> [] /\ serves (i + 1) rest)
  end.

Lemma qoj_pages_complete userId pages : forall i fuel res (w : world scraper_state),
  serves i pages -> (length pages <= fuel)%nat ->
  (qoj_pages fuel c (qoj_url username) userId true i res w).1 =
    Val (Some (res ++ map (qoj_submission userId) (concat (map lp_listed pages)))).
Proof.
  induction pages as [|p pages IH]; intros i [|fuel] res w Hs Hf; simpl in Hf; try done; try lia.
  destruct Hs as ([Hok Hrows] & Hb & Hnext & Hrest). cbn [qoj_pages]. unfold web_get.
  unfold mbind, M_bind, remote. fold (list_request i). rewrite Hb. cbn [read_all pg_broken pg_body pg_status].
  unfold mret, M_ret. rewrite Z.eqb_refl. cbn [negb]. rewrite qoj_table_html by done.
  cbn [map concat]. destruct (map row_inner (hp_rows (lp_html p))) as [|r rs] eqn:E.
  - apply map_eq_nil in E. rewrite E in Hrows. apply Forall2_nil_inv_l in Hrows.
    destruct pages as [|q pages]; [|by destruct (Hrest ltac:(done)) as [[]]].
    rewrite Hrows. simpl. by rewrite app_nil_r.
  - rewrite <- E. rewrite (qoj_rows_show userId _ (lp_listed p)) by done. rewrite Hnext. cbn [negb orb].
    destruct pages as [|q pages].
    + rewrite bool_decide_true by done. simpl. by rewrite app_nil_r.
    + rewrite bool_decide_false by done. cbn [negb].
      rewrite IH; [|by destruct (Hrest ltac:(done))|simpl in *; lia].
      rewrite map_app, <- app_assoc. done.
Qed.
End qoj_site.

(** ** Sessions *)

Section web_rules.
Context {D : Type}.
Implicit Types (w : world D).

Lemma bind_val {A B} (m : M D A) (f : A -> M D B) w a w' : m w = (Val a, w') -> (m ≫= f) w = f a w'.
Proof. intros H. unfold mbind, M_bind. by rewrite H. Qed.

Lemma wpv_remote {A} (f : nat -> outcome A) (Q : A -> world D -> Prop) w :
  (forall a, f (w_calls w) = Val a -> Q a (tick w)) -> wpv (remote f) Q w.
Proof. intros H a w' [= Hf <-]. by apply H. Qed.
Lemma wpv_peek {A} (f : D -> A) (Q : A -> world D -> Prop) w : Q (f (w_db w)) w -> wpv (peek f) Q w.
Proof. intros H a w' [= <- <-]. done. Qed.
Lemma wpv_poke (f : D -> D) (Q : () -> world D -> Prop) w : Q () (set_db (f (w_db w)) w) -> wpv (poke f) Q w.
Proof. intros H a w' [= <- <-]. done. Qed.
Lemma wpv_read_all p (Q : string -> world D -> Prop) w : (pg_broken p = None -> Q (pg_body p) w) -> wpv (read_all p) Q w.
Proof.
  intros H. unfold read_all. destruct (pg_broken p) as [e|]; [apply wpv_throw|]. by apply wpv_ret, H.
Qed.

(** A computation makes at most [k] calls. *)
Definition costs {A} (k : nat) (m : M D A) : Prop := forall w, (w_calls (m w).2 <= w_calls w + k)%nat.

Lemma costs_bind {A B} a b (m : M D A) (f : A -> M D B) :
  costs a m -> (forall x, costs b (f x)) -> costs (a + b) (m ≫= f).
Proof.
  intros Hm Hf w. unfold mbind, M_bind. specialize (Hm w). destruct (m w) as [[x|e] w']; simpl in *; [|lia].
  specialize (Hf x w'). lia.
Qed.
Lemma costs_more {A} a b (m : M D A) : costs a m -> (a <= b)%nat -> costs b m.
Proof. intros H Hle w. specialize (H w). lia. Qed.
Lemma costs_ret {A} (a : A) : costs 0 (mret a).
Proof. intros w. simpl. lia. Qed.
Lemma costs_throw {A} e : costs (A := A) 0 (throw e).
Proof. intros w. simpl. lia. Qed.
Lemma costs_remote {A} (f : nat -> outcome A) : costs 1 (remote f).
Proof. intros w. simpl. lia. Qed.
Lemma costs_now : costs 1 now.
Proof. intros w. simpl. lia. Qed.
Lemma costs_peek {A} (f : D -> A) : costs 0 (peek f).
Proof. intros w. simpl. lia. Qed.
Lemma costs_poke (f : D -> D) : costs 0 (poke f).
Proof. intros w. simpl. lia. Qed.
Lemma costs_map_err {A} g k (m : M D A) : costs k m -> costs k (map_err g m).
Proof. intros H w. specialize (H w). unfold map_err. by destruct (m w) as [[]]. Qed.
Lemma costs_attempt {A} k (m : M D A) : costs k m -> costs k (attempt m).
Proof. intros H w. apply H. Qed.
Lemma costs_read_all p : costs 0 (read_all p).
Proof. unfold read_all. destruct (pg_broken p); [apply costs_throw|apply costs_ret]. Qed.
End web_rules.

(** Goes through a computation call by call. *)
Ltac count_calls := repeat first
  [ apply costs_remote | apply costs_now | apply costs_peek | apply costs_poke | apply costs_read_all
  | apply costs_ret | apply costs_throw | apply costs_map_err | apply costs_attempt
  | match goal with |- costs _ (match ?x with _ => _ end) => destruct x end
  | match goal with |- costs _ (if ?x then _ else _) => destruct x end ].

Section session_rules.
Context (get : scraper_state -> session) (put : session -> scraper_state -> scraper_state)
  (isSessionValid : client -> SM bool) (login : SM client).

(** A client that is kept has been found valid, less than half an hour after its login. *)
Definition kept (w : world scraper_state) (c : client) : Prop :=
  se_client (get (w_db w)) = Some c /\
  exists n w1, time_sub (w_clock w n) (se_lastUsed (get (w_db w))) < session_time
            /\ (isSessionValid c w1).1 = Val true.

Lemma cached_client_kept (w : world scraper_state) : wpv (cached_client get isSessionValid)
  (fun r w' => forall c, r = Some c -> kept w c) w.
Proof.
  unfold cached_client. apply wpv_bind, wpv_peek, wpv_bind, wpv_now.
  destruct (se_client (get (w_db w))) as [c|] eqn:E; [|by apply wpv_ret].
  case_decide as Ht; [|by apply wpv_ret].
  apply wpv_bind. intros ok w' Hok. apply wpv_ret. intros c' Hc'. destruct ok; simplify_eq.
  split; [done|]. exists (w_calls w), (tick w). by rewrite Hok.
Qed.
Lemma locked_client_kept (w : world scraper_state) : wpv (locked_client get isSessionValid)
  (fun r w' => forall c, r = Some c -> kept w c) w.
Proof.
  unfold locked_client. apply wpv_bind, wpv_peek.
  destruct (se_client (get (w_db w))) as [c|] eqn:E; [|by apply wpv_ret]. apply wpv_bind, wpv_now.
  case_decide as Ht; [|by apply wpv_ret].
  apply wpv_bind. intros ok w' Hok. apply wpv_ret. intros c' Hc'. destruct ok; simplify_eq.
  split; [done|]. exists (w_calls w), (tick w). by rewrite Hok.
Qed.

(** Asking whether a session is valid changes neither memory nor clock. *)
Definition leaves (m : SM bool) : Prop := forall w, w_db (m w).2 = w_db w /\ w_clock (m w).2 = w_clock w.
Context (Hvalid : forall c, leaves (isSessionValid c)).

Lemma cached_leaves (w : world scraper_state) : let w' := (cached_client get isSessionValid w).2 in
  w_db w' = w_db w /\ w_clock w' = w_clock w.
Proof.
  unfold cached_client, mbind, M_bind, peek, now. destruct (se_client (get (w_db w))) as [c|]; [|done].
  case_decide; [|done]. pose proof (Hvalid c (tick w)) as Hl.
  destruct (isSessionValid c (tick w)) as [[[]|e] w']; done.
Qed.

(** The client is kept, or a login has just given it. *)
Lemma getClient_kept (w : world scraper_state) : wpv (getClient get put isSessionValid login)
  (fun c w' => kept w c \/ exists w1, (login w1).1 = Val c) w.
Proof.
  unfold getClient. apply wpv_bind. intros r w1 Hr.
  pose proof (cached_client_kept w _ _ Hr) as Hk. destruct r as [c|]; [apply wpv_ret; left; by apply Hk|].
  apply wpv_bind. intros r w2 Hr2. pose proof (locked_client_kept w1 _ _ Hr2) as Hk2. destruct r as [c|].
  - apply wpv_ret. left. destruct (cached_leaves w) as [Hdb Hc]. rewrite Hr in Hdb, Hc. simpl in *.
    destruct (Hk2 c eq_refl) as (Hs & n & w3 & Ht & Hv). unfold kept. rewrite <- Hdb, <- Hc. by eauto.
  - apply wpv_bind. intros c w3 Hlogin. apply wpv_bind, wpv_now, wpv_bind, wpv_poke, wpv_ret.
    right. exists w2. by rewrite Hlogin.
Qed.

Lemma getClient_costs k : (forall c, costs 1 (isSessionValid c)) -> costs k login ->
  costs (k + 5) (getClient get put isSessionValid login).
Proof.
  intros Hv Hl. unfold getClient. apply (costs_more (2 + (2 + (k + (1 + (0 + 0)))))); [|lia].
  apply costs_bind.
  { unfold cached_client. apply (costs_bind 0 2); [count_calls|]. intros s. apply (costs_bind 1 1); [count_calls|].
    intros t. destruct (se_client s) as [c|]; [|eapply costs_more; [apply costs_ret|lia]].
    case_decide; [|eapply costs_more; [apply costs_ret|lia]].
    apply (costs_bind 1 0); [apply Hv|]. intros ok. by destruct ok; apply costs_ret. }
  intros [c|]; [eapply costs_more; [apply costs_ret|lia]|]. apply costs_bind.
  { unfold locked_client. apply (costs_bind 0 2); [count_calls|]. intros s.
    destruct (se_client s) as [c|]; [|eapply costs_more; [apply costs_ret|lia]].
    apply (costs_bind 1 1); [count_calls|]. intros t. case_decide; [|eapply costs_more; [apply costs_ret|lia]].
    apply (costs_bind 1 0); [apply Hv|]. intros ok. by destruct ok; apply costs_ret. }
  intros [c|]; [eapply costs_more; [apply costs_ret|lia]|].
  apply costs_bind; [done|]. intros c. apply costs_bind; [count_calls|]. intros t.
  apply costs_bind; [count_calls|]. intros []. count_calls.
Qed.
End session_rules.

(** Logging in: some attempt was accepted, and there are at most so many. *)
Lemma login_attempts_accepted k m c (w : world scraper_state) : wpv (login_attempts k m c)
  (fun c' w' => c' = c /\ exists w1, (m w1).1 = Val true) w.
Proof.
  revert w. induction k as [|k IH]; intros w; [apply wpv_throw|]. simpl. apply wpv_bind. intros ok w1 Hok.
  destruct ok; [|apply IH]. apply wpv_ret. split; [done|]. exists w. by rewrite Hok.
Qed.
Lemma login_attempts_costs n k m c : costs n m -> costs (k * n) (login_attempts k m c).
Proof.
  intros Hm. induction k as [|k IH]; simpl; [apply costs_throw|]. apply costs_bind; [done|].
  intros []; [|done]. eapply costs_more; [apply costs_ret|lia].
Qed.

Section qoj_session.
Context `{Web}.

(** The site says that the client is logged in, or takes its name and password. *)
Definition qoj_knows (c : client) : Prop := exists n page,
  browse c (get_request browser_headers "https://qoj.ac/") n = Val page /\
  contains (pg_body page) "/logout?_token=" = true.
Definition qoj_takes (username password : string) (c : client) : Prop := exists n headers form page,
  browse c (WebRequest "POST" "https://qoj.ac/login" headers form) n = Val page /\
  trim_space (pg_body page) = "ok" /\
  exists token, form = encode_values [("_token", token); ("login", ""); ("password", Md5.md5_hex password);
                                      ("trust", ""); ("username", username)].

Lemma qoj_valid_knows c (w : world scraper_state) : (qoj_isSessionValid c w).1 = Val true -> qoj_knows c.
Proof.
  unfold qoj_isSessionValid, attempt, mbind, M_bind, web_get, remote.
  destruct (browse c _ (w_calls w)) as [page|e] eqn:E; [|done]. unfold read_all.
  destruct (pg_broken page); [done|]. intros Hc. exists (w_calls w), page. split; [done|]. by injection Hc.
Qed.
Lemma qoj_valid_leaves c : leaves (qoj_isSessionValid c).
Proof.
  intros w. unfold qoj_isSessionValid, attempt, mbind, M_bind, web_get, remote.
  destruct (browse c _ (w_calls w)) as [page|e]; [|done]. unfold read_all. by destruct (pg_broken page).
Qed.
Lemma qoj_valid_costs c : costs 1 (qoj_isSessionValid c).
Proof.
  unfold qoj_isSessionValid. apply (costs_bind 1 0); [|intros; count_calls].
  apply costs_attempt, (costs_bind 1 0); [|intros]; count_calls.
Qed.

Lemma qoj_doLogin_takes username password c (w : world scraper_state) :
  wpv (qoj_doLogin username password c) (fun ok w' => ok = true -> qoj_takes username password c) w.
Proof.
  unfold qoj_doLogin. apply wpv_bind, wpv_wrap. intros page w1 _. apply wpv_bind, wpv_wrap. intros content w2 _.
  destruct (FindSubmatch token_re content) as [f|]; [|apply wpv_throw].
  apply wpv_bind, wpv_wrap, wpv_remote. intros answer Ha. apply wpv_bind, wpv_wrap, wpv_read_all. intros _.
  apply wpv_ret. intros Hok. apply bool_decide_eq_true in Hok. eexists _, _, _, answer. by eauto.
Qed.
Lemma qoj_doLogin_costs username password c : costs 2 (qoj_doLogin username password c).
Proof.
  unfold qoj_doLogin. apply (costs_bind 1 1); [count_calls|]. intros page. apply (costs_bind 0 1); [count_calls|].
  intros content. destruct (FindSubmatch token_re content); [|eapply costs_more; [apply costs_throw|lia]].
  apply (costs_bind 1 0); [count_calls|]. intros answer. apply (costs_bind 0 0); [count_calls|].
  intros body. count_calls.
Qed.

Lemma qoj_login_takes username password (w : world scraper_state) :
  wpv (qoj_login username password) (fun c w' => qoj_takes username password c) w.
Proof.
  unfold qoj_login. apply wpv_bind. intros c w1 _. eapply wpv_mono; [apply login_attempts_accepted|].
  intros c' w2 [-> [w3 Hok]]. destruct (qoj_doLogin username password c w3) as [o w4] eqn:E. simpl in Hok. subst o.
  by apply (qoj_doLogin_takes username password c w3 true w4 E).
Qed.
Lemma qoj_getClient_costs : costs 45 qoj_getClient.
Proof.
  unfold qoj_getClient. apply (getClient_costs _ _ _ _ 40); [apply qoj_valid_costs|].
  unfold qoj_login. apply (costs_bind 0 40); [intros w; simpl; lia|]. intros c.
  apply (login_attempts_costs 2 20). apply qoj_doLogin_costs.
Qed.
End qoj_session.
