(* ===== verification/JudgeTheory.v ===== *)
(** What the scrapers of LuoGu, NowCoder and AtCoder bring: every record of an archive,
    the newest ones of it, and the contests that the submissions of a user make up; and
    what the caches in front of the contest pages keep. *)
From S2P Require Export ScraperTheory.

Lemma sm_bind {A B} (m : SM A) (f : A -> SM B) w a w' : m w = (Val a, w') -> (m ≫= f) w = f a w'.
Proof. apply bind_val. Qed.

(** ** LuoGu: pages of one list *)

(** Page [i] of a list that is cut into pages of [per]. *)
Definition slice {A} (per i : Z) (l : list A) : list A :=
  take (Z.to_nat per) (drop (Z.to_nat ((i - 1) * per)) l).

Lemma slice_next per i : 0 < per -> 1 <= i -> (Z.to_nat ((i - 1) * per) + Z.to_nat per = Z.to_nat (i * per))%nat.
Proof. intros Hp Hi. rewrite <- Z2Nat.inj_add by nia. f_equal. lia. Qed.

Lemma take_slice {A} per i (l : list A) : 0 < per -> 1 <= i ->
  take (Z.to_nat ((i - 1) * per)) l ++ slice per i l = take (Z.to_nat (i * per)) l.
Proof.
  intros Hp Hi. unfold slice. rewrite take_take_drop. f_equal. by apply slice_next.
Qed.
Lemma slice_nil {A} per i (l : list A) : 0 < per -> 1 <= i ->
  slice per i l = [] <-> Z.of_nat (length l) <= (i - 1) * per.
Proof.
  intros Hp Hi. rewrite <- length_zero_iff_nil. unfold slice. rewrite length_take, length_drop.
  assert (0 <= (i - 1) * per) by nia. lia.
Qed.

Section luogu_archive.
Context `{Web} (c : client) (username : string) (records : list luogu_record) (per : Z).

(** The list is served in pages, whose number of records is told with each of them. *)
Definition luogu_serves : Prop := forall i n, 1 <= i -> exists html,
  browse c (get_request [] (luogu_url username +:+ pretty i)) n = Val (WebPage StatusOK html None) /\
  parseLuoGuHTML html = Val (Inject (slice per i records) per (Z.of_nat (length records))).

Lemma luogu_page_served i bad (w : world scraper_state) : luogu_serves -> 1 <= i ->
  luogu_page c (luogu_url username) i bad w =
    (Val (Inject (slice per i records) per (Z.of_nat (length records))), tick w).
Proof.
  intros Hs Hi. destruct (Hs i (w_calls w) Hi) as (html & Hb & Hp).
  unfold luogu_page, mbind, M_bind, web_get, remote. rewrite Hb. cbn [pg_status pg_body].
  rewrite Z.eqb_refl. cbn [negb]. by rewrite Hp.
Qed.

(** The pages from the second to page [k]. *)
Lemma luogu_more_served : luogu_serves -> 0 < per -> forall n i (w : world scraper_state), 1 <= i ->
  exists w', luogu_more c (luogu_url username) (seqZ i (Z.of_nat n)) w =
    (Val (take (Z.to_nat (Z.of_nat n * per)) (drop (Z.to_nat ((i - 1) * per)) records)), w').
Proof.
  intros Hs Hp. induction n as [|n IH]; intros i w Hi.
  - exists w. change (seqZ i (Z.of_nat 0)) with (@nil Z). cbn [luogu_more]. by rewrite Z.mul_0_l.
  - rewrite seqZ_cons by lia. cbn [luogu_more]. erewrite sm_bind by (by apply luogu_page_served).
    cbn [in_Result]. destruct (decide (slice per i records = [])) as [He|Hne].
    + exists (tick w). apply slice_nil in He; [|done|done]. unfold mret, M_ret.
      f_equal. f_equal. rewrite drop_ge by lia. by rewrite take_nil.
    + destruct (IH (Z.succ i) (tick w)) as [w' Hw']; [lia|]. replace (Z.pred (Z.of_nat (S n))) with (Z.of_nat n) by lia.
      exists w'. erewrite sm_bind by exact Hw'. unfold mret, M_ret. f_equal. f_equal.
      unfold slice. replace (Z.succ i - 1) with i by lia.
      rewrite <- (slice_next per i) by lia. rewrite <- drop_drop, take_take_drop. f_equal.
      rewrite <- Z2Nat.inj_add by nia. f_equal. lia.
Qed.

Lemma luogu_total (n per0 : Z) : 0 < per0 -> 0 <= n -> n + per0 < 2 ^ 63 ->
  n <= luogu_totalPages n per0 * per0 /\ 0 <= luogu_totalPages n per0.
Proof.
  intros Hp Hn Hb. unfold luogu_totalPages. rewrite wrap_int64_id by (unfold in_int64; lia).
  rewrite Z.quot_div_nonneg by lia. pose proof (Z.div_mod (n + per0 - 1) per0 ltac:(lia)).
  pose proof (Z.mod_pos_bound (n + per0 - 1) per0 Hp). split; [nia|apply Z.div_pos; lia].
Qed.

Lemma luogu_complete userId (w w' : world scraper_state) : luogu_serves -> 0 < per ->
  Z.of_nat (length records) + per < 2 ^ 63 -> trim_space username = username -> username <> "" ->
  luogu_getClient w = (Val c, w') ->
  (luogu_FetchSubmitLog userId username true w).1 = Val (map (luogu_submission userId) records).
Proof.
  intros Hs Hp Hb Ht Hne Hc. unfold luogu_FetchSubmitLog. rewrite Ht, decide_False by done.
  erewrite sm_bind by exact Hc. erewrite sm_bind by (by apply luogu_page_served). cbn [negb in_PerPage in_Count in_Result].
  rewrite decide_False by lia. destruct (luogu_total (Z.of_nat (length records)) per) as [Ht1 Ht2]; [done|lia|done|].
  set (total := luogu_totalPages (Z.of_nat (length records)) per) in *.
  destruct (decide (total <= 1)) as [Hle|Hgt].
  - assert (seqZ 2 (total - 1) = []) as -> by (apply seqZ_nil; lia). cbn [luogu_more].
    unfold mbind, M_bind, mret, M_ret. simpl. rewrite app_nil_r. f_equal. f_equal.
    unfold slice. rewrite drop_0. apply take_ge. nia.
  - destruct (luogu_more_served Hs Hp (Z.to_nat (total - 1)) 2 (tick w') ltac:(lia)) as [w2 Hw2].
    rewrite Z2Nat.id in Hw2 by lia. erewrite sm_bind.
    2:{ erewrite sm_bind by exact Hw2. done. }
    unfold mret, M_ret. cbn [fst]. f_equal. f_equal. unfold slice. cbn [Z.sub Z.mul Z.to_nat Z.opp Z.add Z.pos_sub].
    rewrite drop_0. replace ((2 - 1) * per) with per by lia. rewrite take_take_drop. apply take_ge. nia.
Qed.
End luogu_archive.

(** ** NowCoder: the newest records of the training ground *)

Section handle_rules.
Context (userId : Z) (username : string).
Let sub := training_submission userId username.

Lemma handle_all records : forall result, handle userId username None result records = (result ++ map sub records, true).
Proof.
  induction records as [|it records IH]; intros result; cbn [handle map]; [by rewrite app_nil_r|].
  rewrite IH. by rewrite <- app_assoc.
Qed.

(** With a limit: the result up to the limit, and whether it has been reached. *)
Lemma handle_limit n records : forall result, (length result < n)%nat ->
  handle userId username (Some n) result records =
    (take n (result ++ map sub records), bool_decide (length result + length records < n)%nat).
Proof.
  induction records as [|it records IH]; intros result Hl; cbn [handle map length].
  - rewrite app_nil_r, take_ge by lia. by rewrite bool_decide_true by lia.
  - fold sub. rewrite length_app. cbn [length]. case_decide as Hd.
    + rewrite bool_decide_false by lia. f_equal.
      assert (length result + 1 = n)%nat as <- by lia.
      change (sub it :: map sub records) with ([sub it] ++ map sub records). rewrite app_assoc.
      by rewrite take_app_le, take_ge by (rewrite length_app; simpl; lia).
    + rewrite IH by (rewrite length_app; simpl; lia). rewrite <- app_assoc. f_equal.
      rewrite length_app. cbn [length]. apply bool_decide_ext. lia.
Qed.

Context `{Web}.

Lemma training_more_bound n pages : forall result (w : world scraper_state), (length result <= n)%nat -> (0 < n)%nat ->
  (length result = n -> pages = []) ->
  wpv (training_more userId username (Some n) result pages) (fun l _ => (length l <= n)%nat) w.
Proof.
  induction pages as [|page pages IH]; intros result w Hl Hn Hfull; cbn [training_more]; [by apply wpv_ret|].
  apply wpv_bind. intros r w1 _. destruct (tp_Records r) as [|it its]; [by apply wpv_ret|].
  assert (length result < n)%nat as Hlt.
  { destruct (decide (length result = n)) as [He|]; [by apply Hfull in He|lia]. }
  rewrite handle_limit by done. cbn [fst snd]. case_bool_decide as Hd.
  - apply IH; [rewrite length_take; lia|done|].
    rewrite length_take, length_app, length_map. cbn [length] in *. lia.
  - apply wpv_ret. rewrite length_take. lia.
Qed.

(** An update brings at most so many records, whatever the site answers. *)
Lemma fetchSub_bound (w : world scraper_state) :
  wpv (fetchSub userId username false) (fun l _ => (length l <= training_limit)%nat) w.
Proof.
  unfold fetchSub. destruct (negb _); [apply wpv_ret; unfold training_limit; simpl; lia|].
  apply wpv_bind. intros first w1 _. rewrite handle_limit by (unfold training_limit; simpl; lia).
  cbn [fst snd app length]. case_bool_decide as Hd.
  - apply training_more_bound; [rewrite length_take; lia|unfold training_limit; lia|].
    rewrite length_take, length_map. lia.
  - apply wpv_ret. rewrite length_take. lia.
Qed.

(** The pages of the history, none but the first of them empty; each tells how many
    there are. *)
Definition training_serves (history : list (list training_record)) : Prop :=
  (forall i records (n : nat), history !! i = Some records -> exists body,
     browse default_client (WebRequest "POST" training_api [("Content-Type", "application/json")]
       (json_object [("pageNo", JInt (Z.of_nat i + 1)); ("pageSize", JInt 50); ("userId", JString username)])) n
       = Val (WebPage StatusOK body None) /\
     unmarshal_training body = Some (TrainingPage true (Z.of_nat (length history)) records))
  /\ (forall i, history !! i = Some [] -> i = 0%nat).

Lemma training_request_served history i records (w : world scraper_state) : training_serves history ->
  history !! i = Some records ->
  training_request username (Z.of_nat i + 1) w =
    (Val (TrainingPage true (Z.of_nat (length history)) records), tick w).
Proof.
  intros [Hs _] Hi. destruct (Hs i records (w_calls w) Hi) as (body & Hb & Hu).
  unfold training_request, mbind, M_bind, web_get, remote. rewrite Hb. cbn [pg_status].
  rewrite Z.eqb_refl. cbn [negb read_all pg_broken pg_body]. unfold mret, M_ret. by rewrite Hu.
Qed.

Definition take_limit {A} (limit : option nat) (l : list A) : list A :=
  match limit with Some n => take n l | None => l end.
(** The limit has not been reached. *)
Definition below (limit : option nat) (n : nat) : Prop := match limit with Some m => (n < m)%nat | None => True end.

Lemma handle_both limit result records : below limit (length result) ->
  (handle userId username limit result records).1 = take_limit limit (result ++ map sub records) /\
  ((handle userId username limit result records).2 = true <-> below limit (length result + length records)).
Proof.
  destruct limit as [n|]; intros Hl.
  - rewrite handle_limit by done. split; [done|]. apply bool_decide_eq_true.
  - by rewrite handle_all.
Qed.

Lemma training_more_served history limit : training_serves history -> forall rest i result (w : world scraper_state),
  drop i history = rest -> (0 < i)%nat -> below limit (length result) ->
  exists w', training_more userId username limit result (seqZ (Z.of_nat i + 1) (Z.of_nat (length rest))) w =
    (Val (take_limit limit (result ++ map sub (concat rest))), w').
Proof.
  intros Hs. induction rest as [|records rest IH]; intros i result w Hd Hi Hl.
  - exists w. change (seqZ (Z.of_nat i + 1) (Z.of_nat (length []))) with (@nil Z). cbn [training_more concat map].
    rewrite app_nil_r. destruct limit as [n|]; [|done]. simpl in *. by rewrite take_ge by lia.
  - assert (history !! i = Some records) as Hlook.
    { apply (f_equal (lookup 0%nat)) in Hd. rewrite lookup_drop, Nat.add_0_r in Hd. done. }
    cbn [length]. rewrite seqZ_cons by lia. cbn [training_more].
    erewrite sm_bind by (by eapply training_request_served). cbn [tp_Records].
    assert (records <> []) as Hne by (intros ->; apply Hs in Hlook; lia).
    destruct records as [|it its]; [done|]. set (records := it :: its) in *. cbn [concat]. rewrite map_app, app_assoc.
    destruct (handle_both limit result records Hl) as [H1 H2].
    destruct (handle userId username limit result records) as [res go]. cbn [fst snd] in *. subst res.
    destruct go.
    + assert (below limit (length result + length records)) as Hb by (by apply H2).
      destruct (IH (S i) (result ++ map sub records) (tick w)) as [w' Hw'].
      * replace (S i) with (i + 1)%nat by lia.
        rewrite <- drop_drop, Hd. done.
      * lia.
      * by rewrite length_app, length_map.
      * exists w'. replace (Z.succ (Z.of_nat i + 1)) with (Z.of_nat (S i) + 1) by lia.
        replace (Z.pred (Z.of_nat (S (length rest)))) with (Z.of_nat (length rest)) by lia.
        rewrite <- Hw'. f_equal. destruct limit as [n|]; [|done]. cbn [take_limit below] in *.
        rewrite take_ge; [done|]. rewrite length_app, length_map. lia.
    + exists (tick w). unfold mret, M_ret. f_equal. f_equal.
      destruct limit as [n|]; cbn [take_limit below] in *; [|discriminate (proj2 H2 I)].
      assert (~ (length result + length records < n)%nat) by (intros Hn; by apply H2 in Hn).
      rewrite (take_app_le (result ++ map sub records)); [done|]. rewrite length_app, length_map. lia.
Qed.

Lemma fetchSub_served history needAll (w : world scraper_state) : training_serves history -> history <> [] ->
  MatchWhole numeric_re username = true ->
  (fetchSub userId username needAll w).1 =
    Val (take_limit (if needAll then None else Some training_limit) (map sub (concat history))).
Proof.
  intros Hs Hne Hn. unfold fetchSub. rewrite Hn. cbn [negb]. set (limit := if needAll then None else _).
  destruct history as [|first rest]; [done|].
  erewrite sm_bind by (by apply (training_request_served (first :: rest) 0 first)). cbn [tp_Records tp_TotalPage].
  assert (below limit (length (@nil SubmitLog))) as Hl by (subst limit; destruct needAll; simpl; unfold training_limit; lia).
  destruct (handle_both limit [] first Hl) as [H1 H2].
  destruct (handle userId username limit [] first) as [res go]. cbn [fst snd app length Nat.add] in *. subst res.
  cbn [concat]. rewrite map_app. destruct go.
  - assert (below limit (length first)) as Hb by (by apply H2).
    destruct (training_more_served (first :: rest) limit Hs rest 1 (map sub first) (tick w)) as [w' Hw'];
      [done|lia|by rewrite length_map|].
    replace (Z.of_nat (S (length rest)) - 1) with (Z.of_nat (length rest)) by lia.
    replace (take_limit limit (map sub first)) with (map sub first).
    + change (Z.of_nat 1 + 1) with 2 in Hw'. by rewrite Hw'.
    + destruct limit as [n|]; [|done]. simpl in *. by rewrite take_ge by (rewrite length_map; lia).
  - unfold mret, M_ret. cbn [fst]. f_equal. destruct limit as [n|]; simpl in *; [|discriminate (proj2 H2 I)].
    assert (~ (length first < n)%nat) by (intros Hx; by apply H2 in Hx).
    by rewrite take_app_le by (rewrite length_map; lia).
Qed.
End handle_rules.

(** ** AtCoder: the contests that submissions make up *)

Section atcoder_contests.
Context `{Web} `{Html} (pages : string -> outcome web_page).

(** The page of a contest does not change while it is being looked at. *)
Definition steady_pages : Prop := forall contestID n,
  browse default_client (get_request tracker_agent (atCoderContestBaseURL +:+ "/" +:+ path_escape contestID)) n
    = pages contestID.

(** What the page of a contest says. *)
Definition meta_of (contestID : string) : outcome atCoderContestMeta :=
  match pages contestID with
  | Exn e => Exn e
  | Val page =>
      if negb (pg_status page =? StatusOK) then
        Exn (ErrorText ("AtCoder contest 页面响应码错误 " +:+ pretty (pg_status page)))
      else
        match pg_broken page with
        | Some e => Exn e
        | None =>
            let m := page_meta contestID (pg_body page) in
            if time_is_zero (am_Start m)
            then Exn (ErrorText ("AtCoder contest " +:+ contestID +:+ " 未解析到开始时间")) else Val m
        end
  end.
(** The process remembers nothing else of the contests. *)
Definition remembers (st : scraper_state) : Prop := forall contestID m,
  st_atcoder st !! contestID = Some m -> meta_of contestID = Val m.
Definition a_contest (contestID : string) : Prop := trim_space contestID = contestID /\ contestID <> "".

Lemma fetch_meta contestID (w : world scraper_state) : steady_pages -> remembers (w_db w) -> a_contest contestID ->
  exists w', attempt (fetchAtCoderContestMeta contestID) w = (Val (meta_of contestID), w') /\ remembers (w_db w').
Proof.
  intros Hs Hr [Ht Hne]. unfold attempt, fetchAtCoderContestMeta. rewrite Ht, decide_False by done.
  unfold mbind, M_bind, peek. destruct (st_atcoder (w_db w) !! contestID) as [m|] eqn:E.
  { exists w. by rewrite (Hr _ _ E). }
  unfold web_get, remote. rewrite Hs. unfold meta_of at 1. destruct (pages contestID) as [page|e] eqn:Ep; [|by eexists].
  destruct (negb (pg_status page =? StatusOK)) eqn:En; [by eexists|]. unfold read_all.
  destruct (pg_broken page) as [e|] eqn:Eb; [by eexists|]. unfold mret, M_ret.
  destruct (time_is_zero (am_Start (page_meta contestID (pg_body page)))) eqn:Ez; [by eexists|].
  eexists. split; [done|]. cbn [poke w_db set_db tick remember_meta st_atcoder snd].
  intros cid m Hm. cbn in Hm. apply lookup_insert_Some in Hm as [[<- <-]|[_ Hm]]; [|by apply Hr].
  unfold meta_of. by rewrite Ep, En, Eb, Ez.
Qed.

Definition consistent (known : known_metas) : Prop := forall contestID m, known !! contestID = Some m -> m = meta_of contestID.

Lemma getMeta_of contestID known (w : world scraper_state) : steady_pages -> remembers (w_db w) -> consistent known ->
  a_contest contestID -> exists w' known', getMeta contestID known w = (Val (meta_of contestID, known'), w')
    /\ remembers (w_db w') /\ consistent known'.
Proof.
  intros Hs Hr Hk Hc. unfold getMeta. destruct (known !! contestID) as [m|] eqn:E.
  - exists w, known. by rewrite (Hk _ _ E).
  - destruct (fetch_meta contestID w Hs Hr Hc) as (w' & Hw & Hr'). exists w', (<[contestID := meta_of contestID]> known).
    erewrite sm_bind by exact Hw. split_and!; [done..|]. intros cid m Hm.
    unfold known_metas in *. apply lookup_insert_Some in Hm as [[<- <-]|[_ Hm]]; [done|by apply Hk].
Qed.

(** What a row adds, with the contest's page known. *)
Definition row_step (userId : Z) (aggs : gmap string contestAgg) (row : atcJson) : gmap string contestAgg :=
  let contestID := trim_space (at_ContestID row) in
  let problemID := trim_space (at_ProblemID row) in
  if decide (contestID = "" \/ problemID = "") then aggs
  else add_row userId contestID problemID (meta_of contestID) row aggs.

Lemma aggregate_steps userId rows : steady_pages -> forall known aggs (w : world scraper_state),
  remembers (w_db w) -> consistent known ->
  exists w', aggregate userId rows known aggs w = (Val (foldl (row_step userId) aggs rows), w') /\ remembers (w_db w').
Proof.
  intros Hs. induction rows as [|row rows IH]; intros known aggs w Hr Hk; [by exists w|]. cbn [aggregate foldl].
  unfold row_step at 2. case_decide as Hd; [by apply (IH known)|].
  assert (trim_space (at_ContestID row) <> "") as Hc by tauto.
  destruct (getMeta_of (trim_space (at_ContestID row)) known w) as (w1 & known' & Hg & Hr1 & Hk1); [done..| |].
  { split; [apply trim_space_idem|done]. }
  erewrite sm_bind by exact Hg. by apply IH.
Qed.

(** The rows that count for a contest: those of its window, when that is known. *)
Definition counts (contestID : string) (row : atcJson) : bool :=
  negb (bool_decide (contestID = "")) && bool_decide (trim_space (at_ContestID row) = contestID) && negb (bool_decide (trim_space (at_ProblemID row) = ""))
  && negb (outside (meta_of contestID) (at_EpochSecond row * second)).
Definition counted (contestID : string) (rows : list atcJson) : list atcJson := where_ (counts contestID) rows.
Definition solved (row : atcJson) : bool := equal_fold (trim_space (at_Result row)) "AC".
Definition problems_of (rows : list atcJson) : gset string :=
  list_to_set (map (fun r => trim_space (at_ProblemID r)) rows).
Definition earliest (rows : list atcJson) : Z :=
  match rows with
  | [] => 0
  | r :: rows => foldl (fun t r => Z.min t (at_EpochSecond r)) (at_EpochSecond r) rows
  end.

(** The contest of a user, from the rows that count. *)
Definition contest_log (userId : Z) (contestID : string) (rows : list atcJson) : ContestLog :=
  let said := match meta_of contestID with
              | Val m => (am_Title m, am_Start m, am_End m)
              | Exn _ => (contestID, earliest rows * second, zero_time)
              end in
  ContestRow 0 AtCoder userId contestID said.1.1 ("https://atcoder.jp/contests/" +:+ contestID) 0
    (Z.of_nat (size (problems_of rows))) (Z.of_nat (size (problems_of (where_ solved rows)))) said.1.2 said.2.

(** The entry of a contest so far. *)
Definition entry_ok (userId : Z) (contestID : string) (rows : list atcJson) (o : option contestAgg) : Prop :=
  match o with
  | None => rows = []
  | Some agg => rows <> [] /\ a_contest contestID /\ ag_submitted agg = problems_of rows
      /\ ag_accepted agg = problems_of (where_ solved rows)
      /\ ag_log agg = ContestRow 0 AtCoder userId contestID
           (match meta_of contestID with Val m => am_Title m | Exn _ => contestID end)
           ("https://atcoder.jp/contests/" +:+ contestID) 0 0 0
           (match meta_of contestID with Val m => am_Start m | Exn _ => earliest rows * second end) zero_time
  end.

Lemma where_single {A} (p : A -> bool) x : where_ p [x] = if p x then [x] else [].
Proof. done. Qed.
Lemma problems_snoc rows row : problems_of (rows ++ [row]) = {[trim_space (at_ProblemID row)]} ∪ problems_of rows.
Proof. unfold problems_of. rewrite map_app, list_to_set_app_L. simpl. set_solver. Qed.
Lemma earliest_snoc rows row : rows <> [] -> earliest (rows ++ [row]) = Z.min (earliest rows) (at_EpochSecond row).
Proof. destruct rows as [|r rows]; [done|]. intros _. simpl. by rewrite foldl_app. Qed.
Lemma time_unix_second (t : Z) : time_unix (t * second) = t.
Proof. unfold time_unix. by rewrite Z.div_mul. Qed.

Lemma counts_other contestID row : trim_space (at_ContestID row) <> contestID -> counts contestID row = false.
Proof. intros Hn. unfold counts. rewrite (bool_decide_false _ Hn). by rewrite andb_false_r. Qed.
Lemma counts_blank contestID row : trim_space (at_ContestID row) = "" \/ trim_space (at_ProblemID row) = "" ->
  counts contestID row = false.
Proof.
  intros [Hb|Hb].
  - destruct (decide (contestID = "")) as [->|Hn]; [done|]. apply counts_other. congruence.
  - unfold counts. rewrite (bool_decide_true _ Hb). by rewrite andb_false_r.
Qed.
Lemma counts_own row : trim_space (at_ContestID row) <> "" -> trim_space (at_ProblemID row) <> "" ->
  counts (trim_space (at_ContestID row)) row
    = negb (outside (meta_of (trim_space (at_ContestID row))) (at_EpochSecond row * second)).
Proof. intros Hc Hp. unfold counts. rewrite (bool_decide_false _ Hc), (bool_decide_true _ eq_refl), (bool_decide_false _ Hp). done. Qed.

(** A row that counts extends the entry of its contest. *)
Lemma entry_extends userId row rows o : let c := trim_space (at_ContestID row) in
  a_contest c -> entry_ok userId c rows o ->
  entry_ok userId c (rows ++ [row]) (Some (
    let agg := default (new_agg userId c (meta_of c) (at_EpochSecond row * second)) o in
    Agg (match meta_of c with
         | Exn _ => if decide (at_EpochSecond row < time_unix (c_Time (ag_log agg)))
                    then set_contest_time (at_EpochSecond row * second) (ag_log agg) else ag_log agg
         | Val _ => ag_log agg
         end)
        ({[trim_space (at_ProblemID row)]} ∪ ag_submitted agg)
        (if solved row then {[trim_space (at_ProblemID row)]} ∪ ag_accepted agg else ag_accepted agg))).
Proof.
  intros c Hc Ho. cbn [entry_ok ag_submitted ag_accepted ag_log]. split; [by destruct rows|]. split; [done|].
  rewrite problems_snoc, where_app, (where_single solved). destruct o as [agg|].
  - destruct Ho as (Hne & _ & Hsub & Hacc & Hlog). cbn [from_option id]. rewrite Hsub, Hacc. split; [done|]. split.
    { destruct (solved row); [by rewrite problems_snoc|by rewrite app_nil_r]. }
    rewrite Hlog. cbn [c_Time]. destruct (meta_of c) as [m|e]; [done|].
    rewrite time_unix_second, earliest_snoc by done. case_decide as Hd; unfold set_contest_time; cbn.
    + by rewrite Z.min_r by lia.
    + by rewrite Z.min_l by lia.
  - simpl in Ho. subst rows. cbn [from_option new_agg ag_submitted ag_accepted ag_log c_Time].
    split; [done|]. split; [destruct (solved row); unfold problems_of; simpl; set_solver|].
    destruct (meta_of c) as [m|e]; [done|]. rewrite time_unix_second, decide_False by lia. done.
Qed.

Lemma row_step_ok userId rows row aggs : (forall cid, entry_ok userId cid (counted cid rows) (aggs !! cid)) ->
  forall cid, entry_ok userId cid (counted cid (rows ++ [row])) (row_step userId aggs row !! cid).
Proof.
  intros Hall cid. specialize (Hall cid) as Hcid. unfold counted in *. rewrite where_app, (where_single (counts cid)).
  unfold row_step. case_decide as Hd; [by rewrite counts_blank, app_nil_r|].
  assert (trim_space (at_ContestID row) <> "" /\ trim_space (at_ProblemID row) <> "") as [Hc Hp] by tauto. unfold add_row.
  destruct (decide (trim_space (at_ContestID row) = cid)) as [<-|Hn].
  - rewrite counts_own by done. destruct (outside _ _); cbn [negb]; [by rewrite app_nil_r|].
    rewrite lookup_insert_eq. apply entry_extends; [|done]. split; [apply trim_space_idem|done].
  - rewrite counts_other by done. rewrite app_nil_r.
    destruct (outside _ _); [done|]. by rewrite lookup_insert_ne.
Qed.

Lemma steps_ok userId rows : forall cid,
  entry_ok userId cid (counted cid rows) (foldl (row_step userId) ∅ rows !! cid).
Proof.
  induction rows as [|row rows IH] using rev_ind; [done|]. rewrite foldl_app. by apply row_step_ok.
Qed.

Lemma finish_steps (l : list (string * contestAgg)) : steady_pages -> forall (w : world scraper_state),
  remembers (w_db w) -> Forall (fun ca => a_contest ca.1 /\ c_ContestId (ag_log ca.2) = ca.1) l ->
  exists w', finish_aggs (map snd l) w = (Val (map (fun ca => finish_agg ca.2 (meta_of ca.1)) l), w').
Proof.
  intros Hs. induction l as [|[c agg] l IH]; intros w Hr Hl; [by exists w|].
  apply Forall_cons in Hl as [[Hc He] Hl]. cbn [map finish_aggs fst snd] in *. rewrite He.
  destruct (fetch_meta c w Hs Hr Hc) as (w1 & Hw & Hr1). erewrite sm_bind by exact Hw.
  destruct (IH w1 Hr1 Hl) as [w2 Hw2]. exists w2. by erewrite sm_bind by exact Hw2.
Qed.

Lemma finish_entry userId cid rows agg : entry_ok userId cid rows (Some agg) ->
  finish_agg agg (meta_of cid) = contest_log userId cid rows.
Proof.
  intros (Hne & Hc & Hsub & Hacc & Hlog). unfold finish_agg, contest_log. rewrite Hsub, Hacc, Hlog. cbn.
  by destruct (meta_of cid).
Qed.

(** The logs are those of the contests that have a row that counts, each once. *)
Lemma contests_collected userId rows (w : world scraper_state) : steady_pages -> remembers (w_db w) ->
  exists logs, ((aggs ← aggregate userId rows ∅ ∅; finish_aggs (map snd (map_to_list aggs))) w).1 = Val logs /\
    NoDup (map c_ContestId logs) /\
    forall log, log ∈ logs <-> exists cid, counted cid rows <> [] /\ log = contest_log userId cid (counted cid rows).
Proof.
  intros Hs Hr. destruct (aggregate_steps userId rows Hs ∅ ∅ w Hr) as (w1 & Hw1 & Hr1); [by intros cid m Hm|].
  erewrite sm_bind by exact Hw1. set (aggs := foldl (row_step userId) ∅ rows) in *.
  pose proof (steps_ok userId rows) as Hok. fold aggs in Hok.
  assert (forall cid agg, (cid, agg) ∈ map_to_list aggs -> entry_ok userId cid (counted cid rows) (Some agg)) as Hin.
  { intros cid agg Hi. apply elem_of_map_to_list in Hi. by rewrite <- Hi. }
  destruct (finish_steps (map_to_list aggs) Hs w1 Hr1) as [w2 Hw2].
  { apply Forall_forall. intros [cid agg] Hi. destruct (Hin _ _ Hi) as (_ & Hc & _ & _ & Hlog). cbn. by rewrite Hlog. }
  rewrite Hw2. eexists. split; [done|].
  assert (map (fun ca : string * contestAgg => finish_agg ca.2 (meta_of ca.1)) (map_to_list aggs)
          = map (fun ca : string * contestAgg => contest_log userId ca.1 (counted ca.1 rows)) (map_to_list aggs)) as ->.
  { apply map_ext_in. intros [cid agg] Hi. apply list_elem_of_In in Hi. by apply finish_entry, Hin. }
  split.
  - rewrite map_map. cbn. apply NoDup_fst_map_to_list.
  - intros log. rewrite list_elem_of_fmap. split.
    + intros ([cid agg] & -> & Hi). exists cid. split; [by apply (Hin _ _ Hi)|done].
    + intros (cid & Hne & ->). specialize (Hok cid). destruct (aggs !! cid) as [agg|] eqn:E; [|done].
      exists (cid, agg). split; [done|]. by apply elem_of_map_to_list.
Qed.
End atcoder_contests.

(** ** Caches of contest pages *)

Lemma mm_bind {A B} (m : MM A) (f : A -> MM B) w a w' : m w = (Val a, w') -> (m ≫= f) w = f a w'.
Proof. apply bind_val. Qed.

Section cache_rules.
Context {A : Type} (r : cache_ref A).

(** An entry that has not expired is the answer, and nothing else is asked. *)
Lemma cached_hit key (load : MM A) value expires (w : world meta_caches) :
  cache_of r (w_db w) !! key = Some (value, expires) -> w_clock w (w_calls w) <= expires ->
  cached r key load w = (Val value, tick w).
Proof.
  intros He Ht. unfold cached, cache_get, mbind, M_bind, peek. rewrite He. unfold now.
  by rewrite decide_False by lia.
Qed.
Lemma cached_miss key (load : MM A) (w : world meta_caches) : cache_of r (w_db w) !! key = None ->
  cached r key load w = load w.
Proof. intros He. unfold cached, cache_get, mbind, M_bind, peek. by rewrite He. Qed.
(** What is stored is read, as it was, while it lasts. *)
Lemma cache_set_read key value ttl (w w' : world meta_caches) :
  (forall c m, cache_of r (put_cache r c m) = c) -> cache_set_ttl r key value ttl w = (Val (), w') ->
  cache_of r (w_db w') !! key =
    Some (value, w_clock w (w_calls w) + if decide (ttl <= 0) then cache_ttl else ttl).
Proof.
  intros Hr. unfold cache_set_ttl, mbind, M_bind, now, poke. intros [= <-]. cbn. rewrite Hr.
  unfold ttl_cache. apply lookup_insert_eq.
Qed.
End cache_rules.

Section atcoder_tasks.
Context `{Web} `{Html} (contestID : string).
Let baseURL := "https://atcoder.jp/contests/" +:+ path_escape contestID.

(** A request for a page that does not bring it. *)
Definition page_fails (url : string) (n : nat) : Prop :=
  match browse default_client (get_request tracker_agent url) n with
  | Exn _ => True
  | Val page => pg_status page <> StatusOK \/ pg_broken page <> None
  end.

Lemma fetch_fails url (w : world meta_caches) : page_fails url (w_calls w) ->
  exists e, attempt (fetchContestHTML url) w = (Val (Exn e), tick w).
Proof.
  unfold page_fails, attempt, fetchContestHTML, mbind, M_bind, web_get, remote.
  destruct (browse default_client _ (w_calls w)) as [page|e]; [|by eexists].
  destruct (Z.eqb_spec (pg_status page) StatusOK) as [He|]; cbn [negb]; [|by eexists].
  unfold read_all. destruct (pg_broken page); [by eexists|]. naive_solver.
Qed.

Lemma tasks_lost (m : atCoderContestMeta) (page : web_page) (w : world meta_caches) :
  trim_space contestID = contestID -> contestID <> "" ->
  mc_AtCoder (w_db w) !! to_lower contestID = None ->
  browse default_client (get_request tracker_agent baseURL) (w_calls w) = Val page ->
  pg_status page = StatusOK -> pg_broken page = None -> page_meta contestID (pg_body page) = m ->
  time_is_zero (am_Start m) = false -> page_fails (baseURL +:+ "/tasks") (S (w_calls w)) ->
  exists w', fetchAtCoderMatrixMeta contestID w = (Val (ContestMeta (am_Title m) (am_Start m) (am_End m) []), w') /\
    forall w2, mc_AtCoder (w_db w2) = mc_AtCoder (w_db w') ->
      w_clock w2 (w_calls w2) <= w_clock w (S (S (w_calls w))) + cache_ttl ->
      fetchAtCoderMatrixMeta contestID w2 = (Val (ContestMeta (am_Title m) (am_Start m) (am_End m) []), tick w2).
Proof.
  intros Ht Hne Hmiss Hb Hst Hbr Hm Hz Hf. unfold fetchAtCoderMatrixMeta. rewrite Ht, !decide_False by done.
  fold baseURL. rewrite cached_miss by done.
  assert (fetchAtCoderContestPage contestID baseURL w = (Val m, tick w)) as Hpage.
  { unfold fetchAtCoderContestPage, fetchContestHTML, mbind, M_bind, web_get, remote. rewrite Hb, Hst, Z.eqb_refl.
    cbn [negb]. unfold read_all. rewrite Hbr. unfold mret, M_ret. by rewrite Hm, Hz. }
  erewrite mm_bind by exact Hpage.
  destruct (fetch_fails (baseURL +:+ "/tasks") (tick w)) as [e He]; [done|].
  assert (attempt (fetchAtCoderTaskPage (baseURL +:+ "/tasks") contestID) (tick w) = (Val (Exn e), tick (tick w))) as Htasks.
  { unfold fetchAtCoderTaskPage, attempt in *. unfold mbind, M_bind. injection He as He1 He2.
    by destruct (fetchContestHTML (baseURL +:+ "/tasks") (tick w)) as [o w1]; simpl in *; subst. }
  erewrite mm_bind by exact Htasks.
  unfold cache_set, cache_set_ttl, mbind, M_bind, now, poke, mret, M_ret. cbn [w_calls tick w_clock set_db w_db].
  eexists. split; [done|]. intros w2 Hdb Hclock.
  apply (cached_hit atcoder_cache _ _ _ (w_clock w (S (S (w_calls w))) + cache_ttl)); [|done].
  cbn [cache_of atcoder_cache]. rewrite Hdb. cbn. unfold ttl_cache. apply lookup_insert_eq.
Qed.
End atcoder_tasks.
