(* ===== verification/ScraperProps.v ===== *)
(** The properties of the scrapers, each with an instance on pages of a site. *)
From S2P Require Import JudgeTheory.

(** A process that has fetched nothing yet, at one moment. *)
Definition no_session : session := Session None zero_time.
Definition idle {D} (d : D) : world D := World d ∅ 0 (fun _ => None) (fun _ => 1700000000 * second).
(** Closes a decidable statement by computing it. *)
Ltac computes := apply (bool_decide_unpack _); vm_compute; exact I.

(** ** QOJ *)


Definition sample_cell (text : string) : html_cell := HtmlCell "" "" text.
Definition sample_row (x : listed) : html_row :=
  HtmlRow (of_bytes [byte_of 10])
    [HtmlCell " " " class=id" ("<a href=/submission/1>#" +:+ li_ID x +:+ "</a>");
     sample_cell ("<a>" +:+ li_Problem x +:+ "</a> "); sample_cell "someone"; sample_cell (li_Status x);
     sample_cell "12ms"; sample_cell "3MB"; sample_cell (li_Lang x); sample_cell "1b";
     sample_cell (format_date_time shanghai (li_Time x * second))] "  ".
Definition sample_listed : list (list listed) :=
  [[Listed "31" "7. Sums" "AC ✓" "C++17" 1700000000; Listed "30" "7. Sums" "WA" "C++17" 1699990000];
   [Listed "29" "1. A &amp; B" "100" "Python" 1699000001]].
(** Only the first page links to the second. *)
Definition sample_page (i : nat) (xs : list listed) : list_page :=
  ListPage (HtmlPage "<html><table><thead></thead>" (map sample_row xs) " "
              (if decide (i = 0%nat) then "</table><a href=?page=2>2</a></html>" else "</table></html>")) xs.
Definition sample_pages : list list_page := imap sample_page sample_listed.

Definition ok_page (body : string) : outcome web_page := Val (WebPage StatusOK body None).
Definition not_found : outcome web_page := Val (WebPage 404 "" None).

(** A site that knows client 7 and lists the sample to it. *)
#[local] Instance qoj_sample_site : Web := {|
  browse c r n :=
    if decide (c = 7%nat) then
      if decide (wr_url r = "https://qoj.ac/") then ok_page "<a href=/logout?_token=x>"
      else match list_find (fun ip => wr_url r = qoj_url "ann" +:+ pretty (Z.of_nat ip.1 + 1)) (imap pair sample_pages) with
           | Some (_, (_, p)) => ok_page (page_html (lp_html p))
           | None => not_found
           end
    else not_found |}.
Definition qoj_logged_in : scraper_state := ScraperState no_session (Session (Some 7%nat) (1700000000 * second)) ∅.

(** Every fact about the sample is found by computing it. *)
Ltac fact := lazymatch goal with
  | |- _ /\ _ => split; fact
  | |- shows _ _ => apply Build_shows; fact
  | |- row_ok _ => apply Build_row_ok; fact
  | |- cell_ok _ => apply Build_cell_ok; fact
  | |- Forall cell_ok _ => repeat (apply Forall_cons_2; [fact|]); apply Forall_nil_2
  | |- plain _ => unfold plain; computes
  | |- attributes _ => unfold attributes; computes
  | |- near _ => unfold near; computes
  | |- inside _ => vm_compute; reflexivity
  | |- Forall row_ok _ => repeat (apply Forall_cons_2; [fact|]); apply Forall_nil_2
  | |- Forall2 shows _ _ => repeat (apply Forall2_cons_2; [fact|]); apply Forall2_nil_2
  | |- page_ok _ => apply Build_page_ok; fact
  | |- list_page_ok _ => split; fact
  | |- forall n, _ = _ => intros ?; vm_compute; reflexivity
  | |- _ = _ => vm_compute; reflexivity
  end.

Lemma sample_served : serves 7%nat "ann" 1 sample_pages.
Proof.
  split; [fact|]. do 2 (split; [fact|]). intros _. split; [done|].
  split; [fact|]. do 2 (split; [fact|]). done.
Qed.


(** A client that is kept but no longer known to the site is not used. *)
Lemma qoj_forgotten_client_replaced :
  (qoj_getClient (idle (ScraperState no_session (Session (Some 3%nat) (1700000000 * second)) ∅))).1
    <> Val 3%nat.
Proof. by vm_compute. Qed.

(** ** LuoGu *)

(** C23: A full refresh of a LuoGu account brings every record of its list, in order: when each page of
    the list holds its slice of the records, the page size and their number, in the script that
    the page decodes, the scraper asks for as many pages as the records fill and returns all of
    them, none twice. *)
Theorem luogu_collects_all `{Web} (c : client) (username : string) (records : list luogu_record) (per : Z)
    (userId : Z) (w w' : world scraper_state) :
  luogu_serves c username records per -> 0 < per -> Z.of_nat (length records) + per < 2 ^ 63 ->
  trim_space username = username -> username <> "" -> luogu_getClient w = (Val c, w') ->
  (luogu_FetchSubmitLog userId username true w).1 = Val (map (luogu_submission userId) records).
Proof. apply luogu_complete. Qed.

(** Text written with single quotes for double ones. *)
Definition double_quoted (s : string) : string :=
  of_bytes (map (fun a => if code a =? 39 then byte_of 34 else a) (bytes_of s)).
Definition luogu_text (r : luogu_record) : string :=
  double_quoted ("{'id':" +:+ pretty (lr_ID r) +:+ ",'submitTime':" +:+ pretty (lr_SubmitTime r) +:+ ",'status':"
    +:+ pretty (lr_Status r) +:+ ",'score':100,'language':" +:+ pretty (lr_Language r) +:+ ",'problem':{'pid':'"
    +:+ lr_Pid r +:+ "','title':'" +:+ lr_Title r +:+ "'},'user':null}").
Definition luogu_sample : list luogu_record :=
  [LuoguRecord 903 1700000000 12 28 "P1001" "A+B Problem"; LuoguRecord 902 1699990000 6 28 "P1002" "过河卒";
   LuoguRecord 901 1699980000 7 27 "P1001" "A+B Problem"].
Definition luogu_html (i : Z) : string :=
  double_quoted ("<script>window._feInjection = JSON.parse(decodeURIComponent('" +:+ QueryEscape (double_quoted
    ("{'code':200,'currentData':{'records':{'result':["
       +:+ join "," (map luogu_text (slice 2 i luogu_sample)) +:+ "],'perPage':2,'count':3}}}"))
    +:+ "'));</script>").
(** A site with two pages; the later ones are empty. *)
#[local] Instance luogu_sample_site : Web := {|
  browse c r n :=
    if decide (wr_url r = luogu_url "ann" +:+ "1") then ok_page (luogu_html 1)
    else if decide (wr_url r = luogu_url "ann" +:+ "2") then ok_page (luogu_html 2)
    else ok_page (luogu_html 3) |}.
Definition luogu_logged_in : scraper_state := ScraperState (Session (Some 7%nat) (1700000000 * second)) no_session ∅.

Lemma luogu_sample_served : luogu_serves 7%nat "ann" luogu_sample 2.
Proof.
  intros i n Hi. destruct (decide (i = 1)) as [->|H1]; [by exists (luogu_html 1)|].
  destruct (decide (i = 2)) as [->|H2]; [by exists (luogu_html 2)|].
  exists (luogu_html 3). split.
  - cbn [browse luogu_sample_site get_request wr_url].
    rewrite !decide_False; [done|intros Hu..]; apply (inj (String.append _)) in Hu;
      [exact (H2 (inj pretty i 2 Hu))|exact (H1 (inj pretty i 1 Hu))].
  - assert (slice 2 i luogu_sample = []) as ->; [apply slice_nil; cbn; lia|by vm_compute].
Qed.
Lemma luogu_collects_all_witness :
  (luogu_FetchSubmitLog 5 "ann" true (idle luogu_logged_in)).1 = Val (map (luogu_submission 5) luogu_sample).
Proof.
  eapply (luogu_collects_all 7%nat "ann" luogu_sample 2 5 (idle luogu_logged_in));
    [apply luogu_sample_served|done|done|fact|done|vm_compute; reflexivity].
Defined.

(** ** NowCoder *)

(** C24: Updating the training history of a NowCoder user agrees with a full refresh of it: when the
    site serves the pages of the history, a full refresh brings every record and an update brings
    the first 150 of the same list; and an update never brings more, whatever the site answers. *)
Theorem training_update_agrees `{Web} (userId : Z) (username : string) (history : list (list training_record))
    (w w' : world scraper_state) :
  training_serves username history -> history <> [] -> MatchWhole numeric_re username = true ->
  exists all, (fetchSub userId username true w).1 = Val all /\
    all = map (training_submission userId username) (concat history) /\
    (fetchSub userId username false w').1 = Val (take 150 all) /\
    forall w2, wpv (fetchSub userId username false) (fun l _ => (length l <= 150)%nat) w2.
Proof.
  intros Hs Hne Hn. eexists. split; [by apply (fetchSub_served userId username history true)|]. split; [done|].
  split; [by apply (fetchSub_served userId username history false)|apply fetchSub_bound].
Qed.

Definition training_text (r : training_record) : string :=
  double_quoted ("{'problem':{'questionNum':'" +:+ tr_QuestionNum r +:+ "','title':'" +:+ tr_Title r +:+ "'},'submission':{'id':"
    +:+ pretty (tr_ID r) +:+ ",'createdDate':" +:+ pretty (tr_CreatedDate r) +:+ "},'language':'" +:+ tr_Language r
    +:+ "','status':{'desc':'" +:+ tr_Desc r +:+ "'}}").
Definition training_sample : list (list training_record) :=
  [[TrainingRecord "NC1" "Lists" 71 1700000000123 "C++" "答案正确"; TrainingRecord "NC2" "Trees" 70 1699990000000 "C++" "答案错误"];
   [TrainingRecord "NC1" "Lists" 69 1699980000999 "Go" "答案正确"]].
Definition training_html (records : list training_record) : string :=
  double_quoted ("{'success':true,'data':{'totalPage':2,'records':[" +:+ join "," (map training_text records) +:+ "]}}").
Definition training_body (username : string) (i : Z) : string :=
  json_object [("pageNo", JInt i); ("pageSize", JInt 50); ("userId", JString username)].
#[local] Instance training_sample_site : Web := {|
  browse c r n :=
    if decide (wr_url r = training_api) then
      if decide (wr_body r = training_body "42" 1) then ok_page (training_html (default [] (training_sample !! 0%nat)))
      else if decide (wr_body r = training_body "42" 2) then ok_page (training_html (default [] (training_sample !! 1%nat)))
      else not_found
    else not_found |}.
Lemma training_sample_served : training_serves "42" training_sample.
Proof.
  split; intros i.
  - intros records n Hi. destruct i as [|[|i]]; [..|done]; injection Hi as <-;
      (match goal with |- context[TrainingPage _ _ ?l] => exists (training_html l) end; split; [by vm_compute|by vm_compute]).
  - destruct i as [|[|i]]; done.
Qed.
Lemma training_update_agrees_witness : exists all,
  (fetchSub 5 "42" true (idle (ScraperState no_session no_session ∅))).1 = Val all /\
  all = map (training_submission 5 "42") (concat training_sample) /\
  (fetchSub 5 "42" false (idle (ScraperState no_session no_session ∅))).1 = Val (take 150 all) /\
  forall w2, wpv (fetchSub 5 "42" false) (fun l _ => (length l <= 150)%nat) w2.
Proof. apply (training_update_agrees 5 "42" training_sample); [apply training_sample_served|done|by vm_compute]. Defined.

(** ** AtCoder *)

(** C25: The contest logs of an AtCoder user follow the rows of submissions: there is one log for each
    contest of which a row counts, and no other; a row counts when it names a contest and a
    problem and is not known to lie outside the contest's window; the log counts the distinct
    problems submitted and those among them with a row accepted, and carries the title and the
    times of the contest's page, or the earliest of the rows when the page is not to be had. *)
Theorem atcoder_contests_right `{Web} `{Html} (pages : string -> outcome web_page) (fuel : nat) (userId : Z)
    (username : string) (needAll : bool) (rows : list atcJson) (w w' : world scraper_state) :
  steady_pages pages -> atcoder_rows fuel username needAll w = (Val (Some rows), w') ->
  remembers pages (w_db w') ->
  exists logs, (atcoder_FetchContestLog fuel userId username needAll w).1 = Val (Some logs) /\
    NoDup (map c_ContestId logs) /\
    forall log, log ∈ logs <->
      exists cid, counted pages cid rows <> [] /\ log = contest_log pages userId cid (counted pages cid rows).
Proof.
  intros Hs Hrows Hr. unfold atcoder_FetchContestLog. erewrite sm_bind by exact Hrows.
  destruct (contests_collected pages userId rows w' Hs Hr) as (logs & Hl & Hrest). exists logs. split; [|done].
  revert Hl. unfold mbind, M_bind. destruct (aggregate userId rows ∅ ∅ w') as [[aggs|e] w1]; [|done].
  by destruct (finish_aggs (map snd (map_to_list aggs)) w1) as [[l|e] w2]; [intros [= <-]|].
Qed.

Definition atc_text (r : atcJson) : string :=
  double_quoted ("{'id':" +:+ pretty (at_ID r) +:+ ",'epoch_second':" +:+ pretty (at_EpochSecond r) +:+ ",'problem_id':'"
    +:+ at_ProblemID r +:+ "','contest_id':'" +:+ at_ContestID r +:+ "','user_id':'ann','language':'"
    +:+ at_Language r +:+ "','point':100.0,'length':20,'result':'" +:+ at_Result r +:+ "','execution_time':null}").
(** The third row is an upsolve, after the end of the contest. *)
Definition atc_sample : list atcJson :=
  [AtcRow 1 1700000100 "abc001_a" "abc001" "Go" "WA"; AtcRow 2 1700000200 "abc001_a" "abc001" "Go" "AC";
   AtcRow 3 1700900000 "abc001_b" "abc001" "Go" "AC"; AtcRow 4 1690000000 "x_a" "gone" "Go" "RE"].
Definition abc_page : string :=
  double_quoted ("<a class='contest-title' href='/contests/abc001'>ABC 001</a><time class='fixtime fixtime-full'>"
    +:+ "2023-11-15 07:10:00+0900</time> <time class='fixtime fixtime-full'>2023-11-15 08:50:00+0900</time>").
#[local] Instance plain_html : Html := {| UnescapeString s := s; UnescapeString_plain s _ := eq_refl |}.
#[local] Instance atc_sample_site : Web := {|
  browse c r n :=
    if decide (wr_url r = "https://atcoder.jp/contests/abc001") then ok_page abc_page
    else if has_prefix (wr_url r) atCoderAPIBaseURL then ok_page ("[" +:+ join "," (map atc_text atc_sample) +:+ "]")
    else not_found |}.
Definition atc_pages (contestID : string) : outcome web_page :=
  browse default_client (get_request tracker_agent (atCoderContestBaseURL +:+ "/" +:+ path_escape contestID)) 0.
Definition stateless : world scraper_state := idle (ScraperState no_session no_session ∅).
Lemma atcoder_contests_right_witness : exists logs,
  (atcoder_FetchContestLog 2 5 "ann" true stateless).1 = Val (Some logs) /\ NoDup (map c_ContestId logs) /\
  forall log, log ∈ logs <-> exists cid, counted atc_pages cid atc_sample <> [] /\
    log = contest_log atc_pages 5 cid (counted atc_pages cid atc_sample).
Proof.
  eapply (atcoder_contests_right atc_pages 2 5 "ann" true atc_sample stateless);
    [done|vm_compute; reflexivity|by intros cid m Hm].
Defined.
(** The upsolve is not counted, and the contest without a page is named by its id. *)
Lemma atcoder_sample_logs :
  match (atcoder_FetchContestLog 2 5 "ann" true stateless).1 with
  | Val (Some logs) => map (fun c => (c_ContestName c, c_TotalCount c, c_AcCount c)) logs
  | _ => []
  end = [("gone", 1, 0); ("ABC 001", 1, 1)].
Proof. by vm_compute. Qed.

(** ** Contest pages that are cached *)

(** C26: When the page of an AtCoder contest loads but the list of its tasks does not, the contest is
    taken to have no problems, no error is reported, and the empty list is kept: for six hours
    every later call gets it from the cache without asking the site again. *)
Theorem lost_tasks_kept `{Web} `{Html} (contestID : string) (page : web_page) (w : world meta_caches) :
  let baseURL := "https://atcoder.jp/contests/" +:+ path_escape contestID in
  let m := page_meta contestID (pg_body page) in
  let empty := ContestMeta (am_Title m) (am_Start m) (am_End m) [] in
  trim_space contestID = contestID -> contestID <> "" -> mc_AtCoder (w_db w) !! to_lower contestID = None ->
  browse default_client (get_request tracker_agent baseURL) (w_calls w) = Val page ->
  pg_status page = StatusOK -> pg_broken page = None -> time_is_zero (am_Start m) = false ->
  page_fails (baseURL +:+ "/tasks") (S (w_calls w)) ->
  exists w', fetchAtCoderMatrixMeta contestID w = (Val empty, w') /\
    forall w2, mc_AtCoder (w_db w2) = mc_AtCoder (w_db w') ->
      w_clock w2 (w_calls w2) <= w_clock w (S (S (w_calls w))) + 6 * hour ->
      fetchAtCoderMatrixMeta contestID w2 = (Val empty, tick w2).
Proof. intros baseURL m empty Ht Hne Hm Hb Hst Hbr Hz Hf. by apply (tasks_lost contestID m page). Qed.
Definition no_caches : world meta_caches := idle (MetaCaches ∅ ∅ ∅ ∅ ∅ ∅).
Lemma abc_meta : page_meta "abc001" abc_page = AtcMeta "ABC 001" (1699999800 * second) (1700005800 * second).
Proof. fact. Qed.
Lemma lost_tasks_kept_witness :
  let m := page_meta "abc001" abc_page in
  let empty := ContestMeta (am_Title m) (am_Start m) (am_End m) [] in
  exists w', fetchAtCoderMatrixMeta "abc001" no_caches = (Val empty, w') /\
    forall w2, mc_AtCoder (w_db w2) = mc_AtCoder (w_db w') ->
      w_clock w2 (w_calls w2) <= w_clock no_caches 2 + 6 * hour ->
      fetchAtCoderMatrixMeta "abc001" w2 = (Val empty, tick w2).
Proof.
  apply (lost_tasks_kept "abc001" (WebPage StatusOK abc_page None) no_caches);
    [fact|done|fact|fact|done|done|fact|left; by vm_compute].
Defined.
