(* ===== verification/AgentChat.v ===== *)
(** Conversations of the agent with the language model: [agent/internal/agent/chat.go],
    and the tools the model may call, [agent/tool]. *)
From S2P Require Export Worker Calendar JsonAny.

(** ** State *)

Record mail := Mail { ml_From : string; ml_To : string; ml_Subject : string; ml_Body : string }.

Record tool_call := ToolCall { tc_ID : string; tc_Type : string; tc_Name : string; tc_Arguments : string }.
Record message := ChatMessage {
  cm_Role : string; cm_Content : string; cm_ReasoningContent : string;
  cm_ToolCalls : list tool_call; cm_ToolCallID : string }.
(** A tool is named; its description is a constant of the tool. *)
Record chat_request := ChatRequest { aq_Model : string; aq_Messages : list message; aq_Tools : list string }.
Record choice := Choice { ch_FinishReason : string; ch_Message : message }.
Record chat_response := ChatResponse { ar_Choices : list choice; ar_Error : option (string * string) }.

(** The queue of summary events and the deliveries that are not settled, both as the
    texts of the messages; what has been asked of the model, and the mails that went out. *)
Record agent_db := AgentDb {
  summary_queue : list string; unsettled : list string; asked : list chat_request; mails : list mail }.
Notation AM := (M agent_db).

Definition set_queue_of (q : list string) (d : agent_db) : agent_db := AgentDb q (unsettled d) (asked d) (mails d).
Definition set_unsettled (u : list string) (d : agent_db) : agent_db := AgentDb (summary_queue d) u (asked d) (mails d).
Definition add_asked (r : chat_request) (d : agent_db) : agent_db :=
  AgentDb (summary_queue d) (unsettled d) (asked d ++ [r]) (mails d).
Definition add_mail (m : mail) (d : agent_db) : agent_db :=
  AgentDb (summary_queue d) (unsettled d) (asked d) (mails d ++ [m]).
(** What a call leaves behind outside the process. *)
Definition note (f : agent_db -> agent_db) : AM () := fun w => (Val (), set_db (f (w_db w)) w).

(** ** Configuration *)

Record chat_cfg := ChatCfg { cc_apiKey : string; cc_model : string; cc_url : string }.

Fixpoint firstNonEmpty (values : list string) : string :=
  match values with
  | [] => ""
  | v :: values => if decide (trim_space v = "") then firstNonEmpty values else trim_space v
  end.
Fixpoint drop_slashes (l : list Ascii.ascii) : list Ascii.ascii :=
  match l with
  | a :: l' => if decide (a = byte_of 47) then drop_slashes l' else l
  | [] => []
  end.
(** [strings.TrimRight(s, "/")] *)
Definition trim_slashes (s : string) : string := of_bytes (rev (drop_slashes (rev (bytes_of s)))).
Definition chatCompletionsURL (baseURL : string) : string :=
  let baseURL := trim_slashes (trim_space baseURL) in
  if has_suffix baseURL "/chat/completions" then baseURL else baseURL +:+ "/chat/completions".
(** [cfg] is the model and the secret of the configuration file. *)
Definition NewChat (getenv : string -> string) (cfg : option (string * string)) : chat_cfg :=
  let configured := default ("", "") cfg in
  ChatCfg (firstNonEmpty [getenv "AI_API_KEY"; getenv "DEEPSEEK_API_KEY"; configured.2])
    (firstNonEmpty [getenv "AI_MODEL"; getenv "DEEPSEEK_MODEL"; configured.1])
    (chatCompletionsURL (firstNonEmpty [getenv "AI_BASE_URL"; getenv "DEEPSEEK_BASE_URL"; "https://api.deepseek.com"])).

(** ** The model *)

(** What the server of the model answers to call [n]: the status, the body, and what the
    body is decoded to. *)
Class ChatServer := {
  chat_post : string -> chat_request -> nat -> outcome (Z * string * outcome chat_response)
}.

Definition createChatCompletion `{ChatServer} (c : chat_cfg) (req : chat_request) : AM chat_response :=
  if decide (cc_apiKey c = "") then throw (ErrorText "AI_API_KEY/DEEPSEEK_API_KEY 未配置")
  else if decide (aq_Model req = "") then throw (ErrorText "AI_MODEL/DEEPSEEK_MODEL 未配置")
  else
    note (add_asked req);;
    r ← remote (chat_post (cc_url c) req);
    let '(status, body, resp) := r in
    match resp with
    | Exn e => throw (ErrorText ("解析模型响应失败: " +:+ error_text e +:+ ", body=" +:+ body))
    | Val resp =>
        if (status <? 200) || (300 <=? status) then
          match ar_Error resp with
          | Some (type, text) =>
              if decide (text = "") then throw (ErrorText ("模型请求失败: status=" +:+ pretty status +:+ " body=" +:+ body))
              else throw (ErrorText ("模型请求失败: status=" +:+ pretty status +:+ " type=" +:+ type +:+ " message=" +:+ text))
          | None => throw (ErrorText ("模型请求失败: status=" +:+ pretty status +:+ " body=" +:+ body))
          end
        else mret resp
    end.

(** ** Tools *)

(** [AgentToolFactory]: the name of the description, and [AiInterface]. *)
Record agent_tool := AgentTool { at_Name : string; at_AiInterface : string -> AM string }.

(** The other services and the mail server, as the tools reach them: the JSON of a reply,
    or the error of the call. *)
Class ToolServices := {
  heatmap_json : string -> string -> Z -> nat -> outcome string;
  profile_json : Z -> nat -> outcome string;
  submits_json : Z -> Z -> Z -> nat -> outcome string;
  period_json : Z -> nat -> outcome string;
  dial_and_send : mail -> nat -> outcome ()
}.

Definition string_or (name : string) (old : string) (acc : bool) (kv : string * list Z) : string * bool :=
  if equal_fold kv.1 name then keep_or old (decode_string kv.2) acc else (old, acc).
Definition int_or (name : string) (old : Z) (acc : bool) (kv : string * list Z) : Z * bool :=
  if equal_fold kv.1 name then keep_or old (decode_int kv.2) acc else (old, acc).

(** [AiInterface] of a tool that answers with a text or fails. *)
Definition answer (failed : goerr -> string) (m : AM string) : AM string :=
  r ← attempt m;
  mret (match r with Val s => s | Exn e => failed e end).
Definition query_failed (e : goerr) : string := "查询失败" +:+ error_text e.

(** [redis_set] *)
Record RedisSetParams := RedisSetArgs { rp_Key : string; rp_Value : string }.
Definition redis_set_field (acc : RedisSetParams * bool) (kv : string * list Z) : RedisSetParams * bool :=
  let '(RedisSetArgs key value, ok) := acc in
  let k := string_or "key" key ok kv in
  let v := string_or "value" value k.2 kv in
  (RedisSetArgs k.1 v.1, v.2).
Definition redis_set_Handle (key value : string) : AM string :=
  redis_set key value;;
  mret ("成功写入Redis: key=" +:+ key +:+ ", value=" +:+ value).
Definition NewRedisSet : agent_tool := AgentTool "redis_set" (fun args =>
  match unmarshal_struct redis_set_field (RedisSetArgs "" "") args with
  | None => mret "参数错误"
  | Some p => answer (fun _ => "写入Redis失败") (redis_set_Handle (rp_Key p) (rp_Value p))
  end).

(** [send_email] *)
Record SendEmailParams := EmailArgs { ep_To : string; ep_Subject : string; ep_Body : string }.
Definition email_field (acc : SendEmailParams * bool) (kv : string * list Z) : SendEmailParams * bool :=
  let '(EmailArgs to subject body, ok) := acc in
  let t := string_or "to" to ok kv in
  let s := string_or "subject" subject t.2 kv in
  let b := string_or "body" body s.2 kv in
  (EmailArgs t.1 s.1 b.1, b.2).
Record smtp_cfg := Smtp { sm_Host : string; sm_From : string }.

Section tools.
Context `{ToolServices}.

Definition email_Handle (c : smtp_cfg) (to subject body : string) : AM () :=
  if decide (sm_Host c = "") then throw (ErrorText "SMTP服务器未配置")
  else
    let m := Mail (sm_From c) to subject body in
    map_err (Wrapped "发送邮件失败") (remote (dial_and_send m));;
    note (add_mail m).
Definition NewSendEmail (c : smtp_cfg) : agent_tool := AgentTool "send_email" (fun args =>
  match unmarshal_struct email_field (EmailArgs "" "" "") args with
  | None => mret "邮件发送失败：参数格式错误"
  | Some p =>
      if decide (ep_To p = "") then mret "邮件发送失败：收件人地址不能为空"
      else if decide (ep_Subject p = "") then mret "邮件发送失败：邮件标题不能为空"
      else if decide (ep_Body p = "") then mret "邮件发送失败：邮件内容不能为空"
      else answer (fun e => "邮件发送失败：" +:+ error_text e)
             (email_Handle c (ep_To p) (ep_Subject p) (ep_Body p);; mret "邮件发送成功")
  end).

(** [submit_cnt] *)
Record SubmitCntParms := SubmitCntArgs { sp_StartDate : string; sp_EndDate : string; sp_UserId : Z }.
Definition submit_cnt_field (acc : SubmitCntParms * bool) (kv : string * list Z) : SubmitCntParms * bool :=
  let '(SubmitCntArgs start finish user, ok) := acc in
  let s := string_or "startDate" start ok kv in
  let e := string_or "endDate" finish s.2 kv in
  let u := int_or "userId" user e.2 kv in
  (SubmitCntArgs s.1 e.1 u.1, u.2).
Definition submit_cnt_Handle (startDate endDate : string) (userId : Z) : AM string :=
  respJson ← remote (heatmap_json startDate endDate userId);
  mret ("用户id为" +:+ pretty userId +:+ "的提交记录如下" +:+ respJson).
Definition NewSubmitCnt : agent_tool := AgentTool "submit_cnt" (fun args =>
  match unmarshal_struct submit_cnt_field (SubmitCntArgs "" "" 0) args with
  | None => mret "参数错误"
  | Some p => answer query_failed (submit_cnt_Handle (sp_StartDate p) (sp_EndDate p) (sp_UserId p))
  end).

(** [get_profile_by_user_id] *)
Definition user_id_field (acc : Z * bool) (kv : string * list Z) : Z * bool := int_or "userId" acc.1 acc.2 kv.
Definition get_profile_Handle (userId : Z) : AM string :=
  if decide (userId = 0) then throw (ErrorText "用户id不可以为0")
  else
    respJson ← remote (profile_json userId);
    mret ("用户id为" +:+ pretty userId +:+ "的资料信息是" +:+ respJson).
Definition NewGetProfileById : agent_tool := AgentTool "get_profile_by_user_id" (fun args =>
  match unmarshal_struct user_id_field 0 args with
  | None => mret "参数错误"
  | Some u => answer query_failed (get_profile_Handle u)
  end).

(** [statistic_period] *)
Definition statistic_period_Handle (userId : Z) : AM string :=
  respJson ← remote (period_json userId);
  mret ("用户id为" +:+ pretty userId +:+ "的统计数据如下" +:+ respJson).
Definition NewStatisticPeriod : agent_tool := AgentTool "statistic_period" (fun args =>
  match unmarshal_struct user_id_field 0 args with
  | None => mret "参数错误"
  | Some u => answer query_failed (statistic_period_Handle u)
  end).

(** [submit_log]: the submissions before the end of a day of UTC. *)
Record SubmitLogParms := SubmitLogArgs { lp_StartDate : string; lp_EndDate : string; lp_UserId : Z; lp_Limit : Z }.
Definition submit_log_field (acc : SubmitLogParms * bool) (kv : string * list Z) : SubmitLogParms * bool :=
  let '(SubmitLogArgs start finish user limit, ok) := acc in
  let s := string_or "startDate" start ok kv in
  let e := string_or "endDate" finish s.2 kv in
  let u := int_or "userId" user e.2 kv in
  let l := int_or "limit" limit u.2 kv in
  (SubmitLogArgs s.1 e.1 u.1 l.1, l.2).
(** [time.Parse("20060102", s)], as a day. *)
Definition parse_compact (s : string) : option Z :=
  let l := map code (bytes_of s) in
  if bool_decide (length l = 8%nat) then
    n ← digits_value l;
    let y := n / 10000 in let m := n / 100 mod 100 in let d := n mod 100 in
    if is_between 1 12 m && (1 <=? d) && (month_start y m + d - 1 <? month_start y (m + 1))
    then Some (month_start y m + d - 1) else None
  else None.
Definition submit_log_Handle (endDate : string) (userId limit : Z) : AM string :=
  match parse_compact endDate with
  | None => throw (ErrorText "时间解析错误")
  | Some z =>
      respJson ← remote (submits_json userId ((z + 1) * 86400) limit);
      mret ("用户id为" +:+ pretty userId +:+ "在" +:+ endDate +:+ "之前的最近" +:+ pretty limit
            +:+ "条提交记录数据如下" +:+ respJson)
  end.
Definition NewSubmitLog : agent_tool := AgentTool "submit_log" (fun args =>
  match unmarshal_struct submit_log_field (SubmitLogArgs "" "" 0 0) args with
  | None => mret "参数错误"
  | Some p => answer query_failed (submit_log_Handle (lp_EndDate p) (lp_UserId p) (lp_Limit p))
  end).
End tools.

(** ** The conversation *)

Definition toCompatMessages (texts : list string) : list message :=
  map (fun t => ChatMessage "user" t "" [] "") texts.
Definition find_tool (name : string) (tools : list agent_tool) : option agent_tool :=
  head (where_ (fun t => bool_decide (at_Name t = name)) tools).
Definition tool_message (id text : string) : message := ChatMessage "tool" text "" [] id.

(** [for _, toolCall := range msg.ToolCalls] *)
Fixpoint run_tools (tools : list agent_tool) (calls : list tool_call) : AM (list message) :=
  match calls with
  | [] => mret []
  | c :: calls =>
      match find_tool (tc_Name c) tools with
      | None => throw (ErrorText ("模型请求了未注册工具: " +:+ tc_Name c))
      | Some t =>
          toolMsg ← at_AiInterface t (tc_Arguments c);
          rest ← run_tools tools calls;
          mret (tool_message (tc_ID c) toolMsg :: rest)
      end
  end.

(** [for { .. }]: [None] when the model still asks for tools after [fuel] requests. *)
Section chat.
Context `{ChatServer} (c : chat_cfg) (tools : list agent_tool).

Fixpoint chat_loop (fuel : nat) (messages : list message) (finalResp : string) : AM (option string) :=
  match fuel with
  | O => mret None
  | S fuel =>
      resp ← createChatCompletion c (ChatRequest (cc_model c) messages (map at_Name tools));
      match ar_Choices resp with
      | [] => throw (ErrorText "模型返回空")
      | first :: _ =>
          let msg := ch_Message first in
          let finalResp := if decide (cm_Content msg = "") then finalResp else cm_Content msg in
          if decide (ch_FinishReason first <> "tool_calls" \/ cm_ToolCalls msg = []) then mret (Some finalResp)
          else
            replies ← run_tools tools (cm_ToolCalls msg);
            chat_loop fuel (messages ++ [msg] ++ replies) finalResp
      end
  end.
Definition Chat (fuel : nat) (texts : list string) : AM (option string) := chat_loop fuel (toCompatMessages texts) "".
End chat.
