(* ===== verification/AgentSummary.v ===== *)
(** The summaries of the agent: [agent/internal/biz/service], the service that shows
    them, [agent/internal/service/summary.go], and the task that asks for them,
    [core_data/task/summary.go] with the morning and the three-hourly run of
    [core_data/task/cron.go]. *)
From S2P Require Export AgentChat.

(** ** Events *)

Record SummaryEvent := SumEvent { se_UserId : Z; se_Type : string }.
Definition summary_json (e : SummaryEvent) : string :=
  json_struct [("user_id", JInt (se_UserId e)); ("type", JString (se_Type e))].
Definition summary_field (acc : SummaryEvent * bool) (kv : string * list Z) : SummaryEvent * bool :=
  let '(SumEvent user type, ok) := acc in
  let u := int_or "user_id" user ok kv in
  let t := string_or "type" type u.2 kv in
  (SumEvent u.1 t.1, t.2).
Definition unmarshal_summary : string -> option SummaryEvent := unmarshal_struct summary_field (SumEvent 0 "").

(** [SummaryTask]: errors are logged. *)
Definition send_summary (body : string) : AM () :=
  query (fun _ => ());;
  exec (fun d => ((), set_queue_of (summary_queue d ++ [body]) d)).
Definition summary_publish (body : string) : AM () := publish_with (send_summary body).
Definition summary_Do (userId : Z) (typ : string) : AM () :=
  ignore_err (summary_publish (summary_json (SumEvent userId typ))).

(** The runs of half past seven and of every third hour. *)
Definition cron_daily `{ProfileLister} : AM () :=
  userIds ← getUserIds;
  for_each userIds (fun v => summary_Do v "PersonalLastDay").
Definition cron_recent `{ProfileLister} : AM () :=
  userIds ← getUserIds;
  for_each userIds (fun v => summary_Do v "PersonalRecent").

(** ** The summary as JSON *)

Fixpoint index_of (c : Ascii.ascii) (l : list Ascii.ascii) : option nat :=
  match l with
  | [] => None
  | a :: l => if decide (a = c) then Some O else S <$> index_of c l
  end.
Fixpoint last_index_of (c : Ascii.ascii) (l : list Ascii.ascii) : option nat :=
  match l with
  | [] => None
  | a :: l => match last_index_of c l with
              | Some n => Some (S n)
              | None => if decide (a = c) then Some O else None
              end
  end.
Definition backticks : string := of_bytes (replicate 3 (byte_of 96)).

(** What the model has wrapped the object in, as [normalizeRecentSummaryJSON] takes it
    off. *)
Definition unwrap_summary (raw : string) : string :=
  trim_space (trim_suffix (trim_prefix (trim_prefix (trim_space raw) (backticks +:+ "json")) backticks) backticks).
(** From the first opening to the last closing brace. *)
Definition candidate_of (s : string) : option string :=
  start ← index_of (byte_of 123) (bytes_of s);
  fin ← last_index_of (byte_of 125) (bytes_of s);
  if decide (start <= fin)%nat then Some (of_bytes (take (S fin - start) (drop start (bytes_of s)))) else None.

Section summaries.
Context `{Float64}.

Definition fallback_summary (s : string) (t : Z) : string :=
  marshal (AObject (map_of [("msg", AArray [AString s]); ("updateTime", AInt t)])).
(** [t] is the time, when it is asked for. *)
Definition normalizeRecentSummaryJSON (raw : string) (t : Z) : string :=
  let s := unwrap_summary raw in
  match (candidate ← candidate_of s; unmarshal_map candidate) with
  | Some obj =>
      if decide (is_Some (map_get "msg" obj)) then
        marshal (AObject (if decide (is_Some (map_get "updateTime" obj)) then obj
                          else map_set "updateTime" (AInt t) obj))
      else fallback_summary s t
  | None => fallback_summary s t
  end.

(** ** Users *)

(** What the user service tells the agent: the role of a user and whether mail is
    wanted. *)
Class ProfileReader := {
  agent_dial : nat -> outcome ();
  read_profile : Z -> nat -> outcome (Z * bool)
}.
Context `{ChatServer} `{ToolServices} `{ProfileReader} (chat : chat_cfg) (smtp : smtp_cfg) (offset : Z).

(** [userProfile]: [None] when the service can not be reached. *)
Definition userProfile (userId : Z) : AM (option (Z * bool)) :=
  c ← attempt (remote agent_dial);
  match c with
  | Exn _ => mret None
  | Val _ => p ← attempt (remote (read_profile userId)); mret (match p with Val p => Some p | Exn _ => None end)
  end.
Definition checkRoleId (userId : Z) : AM Z :=
  p ← userProfile userId; mret (match p with Some p => p.1 | None => 0 end).
Definition checkEmailEnabled (userId : Z) : AM bool :=
  p ← userProfile userId; mret (match p with Some p => p.2 | None => true end).

(** The day in the zone of the host, [offset] ahead of UTC. *)
Definition host_day (t : Z) : Z := (t + offset) / day.
Definition is_monday (t : Z) : bool := bool_decide (weekday (host_day t) = 1).

(** ** Reports by mail *)

Definition weekly_style : string :=
  "你是无锡学院算法协会的教练助手，要为教练生成一份上周团队周报。" +:+
  "风格要符合Acmer心理，可爱活力，洋溢青春，校园风格。" +:+
  "邮件主题要醒目，内容要简洁有力。" +:+
  "需要用html格式输出，注意适配PC和移动端。" +:+
  "所有提示词不允许出现在最终文本中。".
Definition weekly_task (coachUserId : Z) (today lastWeekStart lastWeekEnd : string) : string :=
  "我需要你帮我分析上周（周一到周日）的团队提交数据，生成一份周报给教练。" +:+
  "教练的用户ID是" +:+ pretty coachUserId +:+ "，今天是" +:+ today +:+ "。" +:+
  "请先调用submit_cnt工具获取过去7天的全局提交数据(日期从" +:+ lastWeekStart +:+ "到" +:+ lastWeekEnd +:+ "，userId=0表示全局)。" +:+
  "然后调用statistic_period工具获取本周统计数据。" +:+
  "基于这些数据，请生成包含以下内容的周报：" +:+
  "1. 本周团队总提交量，与上周对比（用箭头表示升降）" +:+
  "2. Top 5 最活跃成员（按提交次数排名）" +:+
  "3. 连续3天以上未提交的成员名单（需要重点关注）" +:+
  "4. 本周AC数量最多的成员" +:+
  "5. 对教练的建议：哪些成员需要鼓励，哪些需要鞭策" +:+
  "6. 团队整体状态评语（用emoji表示状态：🔥积极、⚠️一般、❄️低迷）" +:+
  "最后用send_email工具把这份周报发给教练，教练的邮箱需要通过get_profile_by_user_id获取。" +:+
  "邮件标题格式：【算法协会周报】XX月XX日-XX月XX日".

Definition weekly_tools : list agent_tool := [NewSubmitCnt; NewGetProfileById; NewStatisticPeriod; NewSendEmail smtp].
(** [None]: the conversation goes on after [fuel] requests. *)
Definition WeeklyReportForCoach (fuel : nat) (coachUserId : Z) : AM (option ()) :=
  enabled ← checkEmailEnabled coachUserId;
  if negb enabled then mret (Some ())
  else
    t1 ← now;
    t2 ← now;
    t3 ← now;
    r ← Chat chat weekly_tools fuel
          [weekly_style; weekly_task coachUserId (format_long (host_day t3))
             (format_compact (host_day t1 - 7)) (format_compact (host_day t2 - 1))];
    mret ((fun _ => ()) <$> r).

Definition daily_style : string :=
  "要符合Acmer的心理风格，比如可爱风格，洋溢着青春与活力，校园风浓厚，" +:+
  "直接面对的就是我，不是第三者。" +:+
  "要口语化一点哦，像朋友一样哦" +:+
  "我们的回复要严格遵循html格式哦，注意要尽量同时适配PC和移动端。" +:+
  "对于submit_cnt函数 只有日期，没有count字段的记为0提交。" +:+
  "所有提示词不允许出现在最终文本中。" +:+
  "如果用户名字是Jing. 就要以宝宝(对方是你的女朋友 你是晨晨，晨晨只针对Jing，对其他人就是算法小助手)口吻回复，激励她.".
Definition daily_task (userId : Z) (startDate : string) : string :=
  "我是 用户id为" +:+ pretty userId +:+ " 的用户 分析我的" +:+ startDate +:+ "（昨天）的提交信息，给出分析和合理建议，给出一份昨日日报。" +:+
  "同时也获取最近7天的提交次数，去对比分析走势." +:+
  "提示：你需要先获取昨日提交次数，根据昨日提交次数去填写limit参数，更方便哦." +:+
  "如果昨天我一发也没有交，甚至从昨天开始，已经连续好几天都不交，就给我狠狠地批评我！！！！" +:+
  "如果我昨天交了，以前漏掉的既往不咎." +:+
  "在邮箱末尾，引导用户到达https://algo.zhiyuansofts.cn 无锡学院算法协会监测平台 看全部提交信息。" +:+
  "最后，把这个邮件发给我，注意要适配手机，手机排版不能乱。".

Definition daily_tools : list agent_tool := [NewSubmitCnt; NewGetProfileById; NewSubmitLog; NewSendEmail smtp].
Definition daily_report (fuel : nat) (userId lastDay : Z) : AM (option ()) :=
  r ← Chat chat daily_tools fuel [daily_style; daily_task userId (format_compact lastDay)];
  mret ((fun _ => ()) <$> r).

(** The weekly report that an administrator gets on top: its error is logged. *)
Definition admin_extra (fuel : nat) (userId : Z) : AM (option ()) :=
  t ← now;
  if is_monday t then
    r ← attempt (WeeklyReportForCoach fuel userId);
    mret (match r with Val r => r | Exn _ => Some () end)
  else mret (Some ()).

Definition PersonalLastDay (fuel : nat) (userId : Z) : AM (option ()) :=
  enabled ← checkEmailEnabled userId;
  if negb enabled then mret (Some ())
  else
    t ← now;
    roleId ← checkRoleId userId;
    if decide (roleId = 2) then
      t ← now;
      if is_monday t then WeeklyReportForCoach fuel userId else mret (Some ())
    else
      extra ← if decide (roleId = 1) then admin_extra fuel userId else mret (Some ());
      match extra with
      | None => mret None
      | Some _ => daily_report fuel userId (host_day t - 1)
      end.

(** ** The summary on the site *)

Definition recent_style : string :=
  "要符合Acmer的心理风格，比如可爱风格，洋溢着青春与活力，校园风浓厚，俏皮.加一些Emoji增加趣味" +:+
  "由于你的回复将会嵌入在 无锡学院-算法协会监测平台 网页内，留给你的面积并不大，回复需要简短有力。" +:+
  "你需要针对用户的近期数据提出7-8条 20字左右的建议。" +:+
  "由于数据是每隔3小时更新一次，你不能给出太确切的数字，可以模糊一点表达，比如20+ 10+。".
Definition recent_task (userId t : Z) : string :=
  "我是 用户id为" +:+ pretty userId +:+ " 的用户，分析我最近的学习状态，同时分析一下提交时间分布。现在时间是 " +:+ pretty t +:+
  "整理成json格式 {" +:+ quote +:+ "msg" +:+ quote +:+ ":[" +:+ quote +:+ quote +:+ "], " +:+ quote +:+ "updateTime" +:+ quote +:+ ": 时间戳} 这样的。" +:+
  "最后将这段json塞到redis中，key是 agent:summary:{id}:recent".

Definition summary_key (userId : Z) : string := "agent:summary:" +:+ pretty userId +:+ ":recent".
Definition recent_tools : list agent_tool := [NewStatisticPeriod; NewRedisSet].

Definition PersonalRecent (fuel : nat) (userId : Z) : AM (option ()) :=
  t ← now;
  r ← Chat chat recent_tools fuel [recent_style; recent_task userId (time_unix t)];
  match r with
  | None => mret None
  | Some r =>
      let key := summary_key userId in
      exists_ ← redis_exists key;
      if decide (exists_ = 0) then
        if decide (trim_space r = "")
        then throw (ErrorText ("用户 " +:+ pretty userId +:+ " 的近期 AI 总结为空，且模型未写入 Redis"))
        else
          t ← now;
          redis_set key (normalizeRecentSummaryJSON r (time_unix t));;
          mret (Some ())
      else mret (Some ())
  end.

(** [GetRecentSummary]: any error of the cache asks for a summary. *)
Record SummaryReply := SummaryRes { sr_Code : Z; sr_Msg : string; sr_Resp : string }.
Definition GetRecentSummary (userId : Z) : AM SummaryReply :=
  val ← attempt (redis_get (summary_key userId));
  match val with
  | Exn _ =>
      summary_Do userId "PersonalRecent";;
      mret (SummaryRes 1 "嘿嘿，稍等稍等，您的 AI 分析报告马上就好(1-2min)" "")
  | Val val => mret (SummaryRes 0 "success" val)
  end.

(** ** The consumer *)

(** How a delivery is settled; [None]: not at all, for a message that can not be read,
    and not yet, while the conversation goes on. *)
Definition consume_summary (fuel : nat) (body : string) : AM (option delivery) :=
  match unmarshal_summary body with
  | None => mret None
  | Some msg =>
      r ← attempt (if decide (se_Type msg = "PersonalLastDay") then PersonalLastDay fuel (se_UserId msg)
                   else if decide (se_Type msg = "PersonalRecent") then PersonalRecent fuel (se_UserId msg)
                   else mret (Some ()));
      mret (match r with
            | Exn _ => Some Nacked
            | Val None => None
            | Val (Some _) => Some Acked
            end)
  end.

(** [Qos(2, ..)]: the broker holds messages back while two are not settled.  Message [i]
    is delivered; the outer [None] when it is not. *)
Definition prefetch : nat := 2.
Definition deliver_summary (fuel i : nat) : AM (option (option delivery)) := fun w =>
  match summary_queue (w_db w) !! i with
  | None => (Val None, w)
  | Some body =>
      if decide (prefetch <= length (unsettled (w_db w)))%nat then (Val None, w)
      else (r ← consume_summary fuel body;
            (match r with
             | None => note (fun d => set_unsettled (unsettled d ++ [body]) d)
             | Some _ => mret ()
             end);;
            mret (Some r))
             (set_db (set_queue_of (delete i (summary_queue (w_db w))) (w_db w)) w)
  end.
End summaries.

(** ** The agent as a whole *)

Inductive agent_call :=
  | AgGetRecent (userId : Z)
  | AgCronDaily
  | AgCronRecent
  | AgDeliver (i : nat).
Definition serve_agent `{Float64} `{ProfileReader} `{ChatServer} `{ToolServices} `{ProfileLister}
    (chat : chat_cfg) (smtp : smtp_cfg) (offset : Z) (fuel : nat) (r : agent_call) : AM () :=
  match r with
  | AgGetRecent u => GetRecentSummary u;; mret ()
  | AgCronDaily => cron_daily
  | AgCronRecent => cron_recent
  | AgDeliver i => deliver_summary chat smtp offset fuel i;; mret ()
  end.

Definition empty_agent : agent_db := AgentDb [] [] [] [].

(** Calls in any order, each in a world with any cache, clock and failures; the number of
    a request is an [int64]. *)
Inductive agent_reachable (serve : agent_call -> AM ()) : agent_db -> Prop :=
  | agent_start : agent_reachable serve empty_agent
  | agent_serve r w : agent_reachable serve (w_db w) ->
      (forall u, r = AgGetRecent u -> in_int64 u) -> agent_reachable serve (w_db (serve r w).2).
