(* ===== verification/AgentTheory.v ===== *)
(** What the conversations and the summaries of the agent leave behind. *)
From S2P Require Export AgentSummary.
From S2P Require Import TokenTheory.

(** ** Objects *)

Section objects.
Context {A : Type}.

Lemma map_get_set_eq k (v : A) m : map_get k (map_set k v m) = Some v.
Proof.
  induction m as [|[k' v'] m IH]; cbn [map_set map_get]; [by rewrite decide_True|].
  destruct (decide (k = k')) as [->|Hne]; [cbn; by rewrite decide_True|].
  case_match; cbn [map_get]; [by rewrite decide_True | by rewrite decide_False].
Qed.
Lemma map_get_set_ne k k' (v : A) m : k <> k' -> map_get k (map_set k' v m) = map_get k m.
Proof.
  intros Hne. induction m as [|[k2 v2] m IH]; cbn [map_set map_get]; [by rewrite decide_False|].
  destruct (decide (k' = k2)) as [->|Hk]; [cbn; by rewrite !decide_False|].
  case_match; cbn [map_get]; [by rewrite (decide_False (P := k = k'))|]. case_decide; [done | apply IH].
Qed.
End objects.

Section summary_text.
Context `{Float64}.

Lemma fits_map_set k v kvs : fits 1 v -> fits 0 (AObject kvs) -> fits 0 (AObject (map_set k v kvs)).
Proof.
  intros Hv [Hd Hf%foldr_and]. split; [done|]. apply foldr_and. by apply (Forall_map_set (fits 1)).
Qed.

(** The stored text is an object with the two members the page reads. *)
Definition summary_object (kvs : list (string * any)) : Prop :=
  fits 0 (AObject kvs) /\ is_Some (map_get "msg" kvs) /\ is_Some (map_get "updateTime" kvs).

Lemma fallback_object s t : exists kvs, fallback_summary s t = marshal (AObject kvs) /\ summary_object kvs.
Proof.
  eexists. split; [reflexivity|]. split; [|by split; eexists].
  split; [by apply Nat.ltb_lt|]. apply foldr_and. repeat constructor; by apply Nat.ltb_lt.
Qed.

Lemma normalized_object raw t : exists kvs, normalizeRecentSummaryJSON raw t = marshal (AObject kvs) /\ summary_object kvs
  /\ forall candidate obj, candidate_of (unwrap_summary raw) = Some candidate -> unmarshal_map candidate = Some obj ->
       is_Some (map_get "msg" obj) -> forall k v, map_get k obj = Some v -> map_get k kvs = Some v.
Proof.
  unfold normalizeRecentSummaryJSON. destruct (candidate_of (unwrap_summary raw)) as [c|]; cbn [mbind option_bind].
  2:{ destruct (fallback_object (unwrap_summary raw) t) as (kvs & -> & Hk). by exists kvs. }
  destruct (unmarshal_map c) as [obj|] eqn:Hobj.
  2:{ destruct (fallback_object (unwrap_summary raw) t) as (kvs & -> & Hk). exists kvs. split_and!; [done..|].
      intros c' obj [= <-] Ho. congruence. }
  pose proof (unmarshal_fits c obj Hobj) as Hfit. destruct (decide (is_Some (map_get "msg" obj))) as [Hm|Hm].
  2:{ destruct (fallback_object (unwrap_summary raw) t) as (kvs & -> & Hk). exists kvs. split_and!; [done..|].
      intros c' obj' [= <-] Ho Hm'. congruence. }
  destruct (decide (is_Some (map_get "updateTime" obj))) as [Hu|Hu].
  - exists obj. split_and!; [done..|]. intros c' obj' [= <-] Ho _ k v Hk. congruence.
  - exists (map_set "updateTime" (AInt t) obj). split_and!; [done| |].
    + split_and!; [by apply fits_map_set | by rewrite map_get_set_ne | by rewrite map_get_set_eq; eexists].
    + intros c' obj' [= <-] Ho _ k v Hk. assert (obj' = obj) as -> by congruence.
      rewrite map_get_set_ne; [done|]. intros ->. destruct Hu. by eexists.
Qed.
End summary_text.

(** ** What a call does to the world around it *)

(** [m] moves the world along [R]. *)
Definition follows {D A} (R : relation (world D)) (m : M D A) : Prop := forall w, R w (m w).2.

Section follows_rules.
Context {D : Type} (R : relation (world D)) `{!PreOrder R}.
Hypothesis R_tick : forall w, R w (tick w).

Lemma follows_ret {A} (a : A) : follows R (mret a).
Proof. intros w. reflexivity. Qed.
Lemma follows_throw {A} e : follows R (throw (A := A) e).
Proof. intros w. reflexivity. Qed.
Lemma follows_now : follows R now.
Proof. intros w. apply R_tick. Qed.
Lemma follows_remote {A} (f : nat -> outcome A) : follows R (remote f).
Proof. intros w. apply R_tick. Qed.
Lemma follows_exists k : follows R (redis_exists k).
Proof. intros w. unfold redis_exists. case_match; apply R_tick. Qed.
Lemma follows_bind {A B} (m : M D A) (f : A -> M D B) : follows R m -> (forall a, follows R (f a)) -> follows R (m ≫= f).
Proof.
  intros Hm Hf w. unfold mbind, M_bind. pose proof (Hm w) as H1. destruct (m w) as [[a|e] w']; simpl in *; [|done].
  etransitivity; [exact H1 | apply Hf].
Qed.
Lemma follows_map_err {A} g (m : M D A) : follows R m -> follows R (map_err g m).
Proof. intros Hm w. unfold map_err. specialize (Hm w). by destruct (m w) as [[a|e] w']. Qed.
Lemma follows_attempt {A} (m : M D A) : follows R m -> follows R (attempt m).
Proof. done. Qed.
End follows_rules.

(** What a conversation may do: ask the model what satisfies [P], send mails, and write
    texts to Redis.  No key goes away, and none becomes a sorted set. *)
Definition talks (P : chat_request -> Prop) (w w' : world agent_db) : Prop :=
  w_fault w' = w_fault w /\ w_clock w' = w_clock w
  /\ summary_queue (w_db w') = summary_queue (w_db w) /\ unsettled (w_db w') = unsettled (w_db w)
  /\ (forall k, is_Some (w_redis w !! k) -> is_Some (w_redis w' !! k))
  /\ (forall k z, w_redis w' !! k = Some (RZset z) -> w_redis w !! k = Some (RZset z))
  /\ exists reqs, asked (w_db w') = asked (w_db w) ++ reqs /\ Forall P reqs.

#[export] Instance talks_preorder P : PreOrder (talks P).
Proof.
  split.
  - intros w. split_and!; try done. exists []. by rewrite app_nil_r.
  - intros w1 w2 w3 (Ha & Hb & Hc & Hd & He & Hf & r1 & Hr1 & Hp1) (Ha' & Hb' & Hc' & Hd' & He' & Hf' & r2 & Hr2 & Hp2).
    split_and!; try congruence; [auto|auto|]. exists (r1 ++ r2). rewrite Hr2, Hr1, <- app_assoc. split; [done|]. by apply Forall_app.
Qed.

Lemma talks_weaken (P Q : chat_request -> Prop) w w' : (forall r, P r -> Q r) -> talks P w w' -> talks Q w w'.
Proof.
  intros Himp (Ha & Hb & Hc & Hd & He & Hf & r & Hr & Hp). split_and!; try done. exists r. split; [done|].
  eapply Forall_impl; eauto.
Qed.

Section talking.
Context (P : chat_request -> Prop).

Lemma talks_tick w : talks P w (tick w).
Proof. split_and!; try done. exists []. by rewrite app_nil_r. Qed.
Lemma talks_set k v : follows (talks P) (redis_set k v).
Proof.
  intros w. unfold redis_set. case_match; [apply talks_tick|]. split_and!; try done; cbn.
  - intros k' Hk. destruct (decide (k = k')) as [->|Hne]; [rewrite lookup_insert_eq; by eexists | by rewrite lookup_insert_ne].
  - intros k' z. destruct (decide (k = k')) as [->|Hne]; [by rewrite lookup_insert_eq | by rewrite lookup_insert_ne].
  - exists []. by rewrite app_nil_r.
Qed.
Lemma talks_mail m : follows (talks P) (note (add_mail m)).
Proof. intros w. split_and!; try done. exists []. by rewrite app_nil_r. Qed.
Lemma talks_asked r : P r -> follows (talks P) (note (add_asked r)).
Proof. intros Hr w. split_and!; try done. exists [r]. split; [done | by repeat constructor]. Qed.
End talking.

Create HintDb talks.
#[export] Hint Resolve talks_set talks_mail talks_asked : talks.
Ltac follows_step :=
  lazymatch goal with
  | |- forall _, _ => intros ?
  | |- follows _ (mret _) => apply follows_ret, _
  | |- follows _ (throw _) => apply follows_throw, _
  | |- follows _ now => apply follows_now, talks_tick
  | |- follows _ (remote _) => apply follows_remote, talks_tick
  | |- follows _ (redis_exists _) => apply follows_exists, talks_tick
  | |- follows _ (mbind _ _) => apply follows_bind; [apply _| |]
  | |- follows _ (map_err _ _) => apply follows_map_err
  | |- follows _ (attempt _) => apply follows_attempt
  | |- follows _ (match _ with _ => _ end) => case_match
  | |- follows _ ?m => first [solve [eauto with talks] | unfold_head m; cbn zeta beta]
  end.
Ltac solve_follows := repeat follows_step.

(** ** Conversations *)

Definition tools_talk (P : chat_request -> Prop) (tools : list agent_tool) : Prop :=
  forall t, t ∈ tools -> forall args, follows (talks P) (at_AiInterface t args).

Lemma find_tool_in name tools t : find_tool name tools = Some t -> t ∈ tools.
Proof.
  unfold find_tool. intros Ht. assert (t ∈ where_ (fun t => bool_decide (at_Name t = name)) tools) as Hin.
  { destruct (where_ _ tools); [done|]. injection Ht as ->. set_solver. }
  by apply elem_of_where in Hin as [].
Qed.

(** A request of a conversation that began with these texts. *)
Definition begun (texts : list string) (r : chat_request) : Prop :=
  exists more, aq_Messages r = toCompatMessages texts ++ more.

Section conversations.
Context `{ChatServer} (c : chat_cfg) (tools : list agent_tool).

Lemma talks_create P req : P req -> follows (talks P) (createChatCompletion c req).
Proof. intros Hr. unfold createChatCompletion. solve_follows. Qed.

Lemma talks_run_tools P calls : tools_talk P tools -> follows (talks P) (run_tools tools calls).
Proof.
  intros Ht. induction calls as [|x calls IH]; cbn [run_tools]; [solve_follows|].
  destruct (find_tool (tc_Name x) tools) as [t|] eqn:E; [|solve_follows]. apply find_tool_in in E.
  apply follows_bind; [apply _|by apply Ht|]. intros m. apply follows_bind; [apply _|exact IH|]. solve_follows.
Qed.

Lemma talks_loop P fuel : forall messages final, tools_talk P tools ->
  (forall req, (exists more, aq_Messages req = messages ++ more) -> P req) ->
  follows (talks P) (chat_loop c tools fuel messages final).
Proof.
  induction fuel as [|fuel IH]; intros messages final Ht Hp; cbn [chat_loop]; [solve_follows|].
  apply follows_bind; [apply _|apply talks_create, Hp; exists []; by rewrite app_nil_r|]. intros resp.
  destruct (ar_Choices resp) as [|first rest]; [solve_follows|]. cbv zeta. case_decide; [solve_follows|].
  apply follows_bind; [apply _|by apply talks_run_tools|]. intros replies. apply IH; [done|].
  intros req [more Hm]. apply Hp. rewrite Hm, <- app_assoc. by eexists.
Qed.

Lemma talks_chat fuel texts : tools_talk (begun texts) tools -> follows (talks (begun texts)) (Chat c tools fuel texts).
Proof. intros Ht. unfold Chat. by apply talks_loop. Qed.

(** More fuel changes nothing once the conversation has ended. *)
Lemma chat_more_fuel fuel : forall fuel' messages final w, (fuel <= fuel')%nat ->
  (chat_loop c tools fuel messages final w).1 <> Val None ->
  chat_loop c tools fuel' messages final w = chat_loop c tools fuel messages final w.
Proof.
  induction fuel as [|fuel IH]; intros fuel' messages final w Hle Hend; [done|].
  destruct fuel' as [|fuel']; [lia|]. cbn [chat_loop] in *. unfold mbind, M_bind in *.
  destruct (createChatCompletion c _ w) as [[resp|e] w1]; [|done].
  destruct (ar_Choices resp) as [|first rest]; [done|]. cbv zeta in *. case_decide; [done|].
  destruct (run_tools tools _ w1) as [[replies|e] w2]; [|done]. apply IH; [lia | done].
Qed.

(** The turns of the model in which it asked for tools. *)
Definition tool_turns (messages : list message) : nat :=
  length (where_ (fun m => negb (bool_decide (cm_ToolCalls m = []))) messages).
(** After [n] of them it answers. *)
Definition concise (n : nat) : Prop := forall url req k status body resp first rest,
  (n <= tool_turns (aq_Messages req))%nat -> chat_post url req k = Val (status, body, Val resp) ->
  ar_Choices resp = first :: rest ->
  ch_FinishReason first <> "tool_calls" \/ cm_ToolCalls (ch_Message first) = [].

Lemma create_posted req w resp w' : createChatCompletion c req w = (Val resp, w') ->
  exists url k status body, chat_post url req k = Val (status, body, Val resp).
Proof.
  unfold createChatCompletion. repeat case_decide; [done..|].
  unfold mbind, M_bind, note, remote. cbn [fst snd]. intros Hr.
  destruct (chat_post (cc_url c) req _) as [[[status body] o]|e] eqn:E; [|done].
  destruct o as [r|e]; [|done]. repeat case_match; try done. cbv in Hr. simplify_eq. by repeat eexists.
Qed.

Lemma tool_turns_app l1 l2 : tool_turns (l1 ++ l2) = (tool_turns l1 + tool_turns l2)%nat.
Proof. unfold tool_turns, where_. by rewrite List.filter_app, length_app. Qed.
Lemma tool_turns_one m rest : cm_ToolCalls m <> [] -> tool_turns (m :: rest) = S (tool_turns rest).
Proof. intros Hm. unfold tool_turns, where_. cbn [List.filter]. by rewrite bool_decide_false. Qed.

Lemma chat_answers n : concise n -> forall fuel messages final w, (n <= fuel + tool_turns messages)%nat ->
  (chat_loop c tools (S fuel) messages final w).1 <> Val None.
Proof.
  intros Hn fuel. induction fuel as [|fuel IH]; intros messages final w Hf; cbn [chat_loop]; unfold mbind, M_bind;
    destruct (createChatCompletion c (ChatRequest (cc_model c) messages (map at_Name tools)) w) as [[resp|e] w1] eqn:E; try done;
    (destruct (ar_Choices resp) as [|first rest] eqn:Hc; [done|]); cbv zeta; case_decide as Hd; try done.
  - exfalso. apply Hd. destruct (create_posted _ _ _ _ E) as (url & k & st & body & Hp).
    refine (Hn _ _ _ _ _ _ _ _ _ Hp Hc). exact Hf.
  - destruct (run_tools tools _ w1) as [[replies|e] w2]; [|done]. apply IH.
    rewrite tool_turns_app. cbn [app]. rewrite tool_turns_one; [lia|]. intros Hm. apply Hd. by right.
Qed.
End conversations.

(** ** Tools *)

Section tools_of_summaries.
Context `{ToolServices} (P : chat_request -> Prop) (smtp : smtp_cfg).

Lemma talks_answer failed m : follows (talks P) m -> follows (talks P) (answer failed m).
Proof. intros Hm. unfold answer. solve_follows. Qed.

Ltac tool_case := intros args;
  unfold NewSubmitCnt, NewGetProfileById, NewStatisticPeriod, NewSubmitLog, NewSendEmail, NewRedisSet;
  cbn [at_AiInterface]; solve_follows.
Lemma talks_submit_cnt args : follows (talks P) (at_AiInterface NewSubmitCnt args).
Proof. revert args. tool_case. Qed.
Lemma talks_profile args : follows (talks P) (at_AiInterface NewGetProfileById args).
Proof. revert args. tool_case. Qed.
Lemma talks_period args : follows (talks P) (at_AiInterface NewStatisticPeriod args).
Proof. revert args. tool_case. Qed.
Lemma talks_submit_log args : follows (talks P) (at_AiInterface NewSubmitLog args).
Proof. revert args. tool_case. Qed.
Lemma talks_email args : follows (talks P) (at_AiInterface (NewSendEmail smtp) args).
Proof. revert args. tool_case. Qed.
Lemma talks_redis_set args : follows (talks P) (at_AiInterface NewRedisSet args).
Proof. revert args. tool_case. Qed.

Ltac each_tool := intros t Ht args; repeat (apply elem_of_cons in Ht as [->|Ht]; [auto using
  talks_submit_cnt, talks_profile, talks_period, talks_submit_log, talks_email, talks_redis_set|]);
  by apply not_elem_of_nil in Ht.
Lemma weekly_talk : tools_talk P (weekly_tools smtp).
Proof. each_tool. Qed.
Lemma daily_talk : tools_talk P (daily_tools smtp).
Proof. each_tool. Qed.
Lemma recent_talk : tools_talk P recent_tools.
Proof. each_tool. Qed.
End tools_of_summaries.

(** ** Reports *)

Section reports.
Context `{ChatServer} `{ToolServices} `{ProfileReader} (chat : chat_cfg) (smtp : smtp_cfg) (offset : Z).

(** The worlds differ by the requests, the first of which satisfies [P]. *)
Definition asks (P : chat_request -> Prop) (w w' : world agent_db) : Prop :=
  exists r reqs, asked (w_db w') = asked (w_db w) ++ r :: reqs /\ P r.
Definition configured : Prop := cc_apiKey chat <> "" /\ cc_model chat <> "".

Lemma create_asks req w : configured -> aq_Model req = cc_model chat ->
  asked (w_db (createChatCompletion chat req w).2) = asked (w_db w) ++ [req].
Proof.
  intros [Hk Hm] Hreq. unfold createChatCompletion. rewrite !decide_False by congruence.
  unfold mbind, M_bind, note, remote. cbn [fst snd]. repeat case_match; simplify_eq/=; done.
Qed.

Lemma chat_asks tools fuel texts w : tools_talk (begun texts) tools -> configured -> (0 < fuel)%nat ->
  asks (begun texts) w (Chat chat tools fuel texts w).2.
Proof.
  intros Ht Hc Hf. destruct fuel as [|fuel]; [lia|]. unfold Chat. cbn [chat_loop]. set (req := ChatRequest _ _ _).
  pose proof (create_asks req w Hc eq_refl) as Ha. unfold mbind at 1, M_bind at 1.
  destruct (createChatCompletion chat req w) as [[resp|e] w1]; cbn [snd] in Ha.
  2:{ exists req, []. split; [done|]. exists []. by rewrite app_nil_r. }
  match goal with |- asks _ _ (?m w1).2 => set (next := m); assert (follows (talks (begun texts)) next) as Hm end.
  { unfold next. destruct (ar_Choices resp) as [|first rest]; [solve_follows|]. cbv zeta. case_decide; [solve_follows|].
    apply follows_bind; [apply _|by apply talks_run_tools|]. intros replies.
    apply talks_loop; [done|]. intros r [more Hr]. rewrite <- app_assoc in Hr. by eexists. }
  clearbody next. destruct (Hm w1) as (_ & _ & _ & _ & _ & _ & reqs & Hr & _).
  unfold asks. rewrite Hr, Ha, <- app_assoc. exists req, reqs. split; [done|]. exists []. by rewrite app_nil_r.
Qed.

Lemma asks_in P w w' : asks P w w' -> exists r, r ∈ asked (w_db w') /\ P r.
Proof. intros (r & reqs & -> & Hr). exists r. split; [set_solver | done]. Qed.
Lemma asked_stays P w w' r : talks P w w' -> r ∈ asked (w_db w) -> r ∈ asked (w_db w').
Proof. intros (_ & _ & _ & _ & _ & _ & reqs & -> & _) Hr. set_solver. Qed.

(** What the user service says of the user, whenever it is asked, and the day. *)
Context (u role z : Z) (enabled : bool).
Hypothesis dials : forall n, agent_dial n = Val ().
Hypothesis profile : forall n, read_profile u n = Val (role, enabled).

Definition weekly_texts : list string :=
  [weekly_style; weekly_task u (format_long z) (format_compact (z - 7)) (format_compact (z - 1))].
Definition daily_texts : list string := [daily_style; daily_task u (format_compact (z - 1))].

Lemma userProfile_known w : userProfile u w = (Val (Some (role, enabled)), tick (tick w)).
Proof. unfold userProfile, mbind, M_bind, attempt, remote. rewrite dials. cbn. by rewrite profile. Qed.
Lemma enabled_known w : checkEmailEnabled u w = (Val enabled, tick (tick w)).
Proof. unfold checkEmailEnabled, mbind, M_bind. by rewrite userProfile_known. Qed.
Lemma role_known w : checkRoleId u w = (Val role, tick (tick w)).
Proof. unfold checkRoleId, mbind, M_bind. by rewrite userProfile_known. Qed.

Definition this_day (w : world agent_db) : Prop := forall n, host_day offset (w_clock w n) = z.

Lemma weekly_run fuel w : enabled = true -> this_day w ->
  let w0 := Nat.iter 5 tick w in
  (WeeklyReportForCoach chat smtp offset fuel u w).2 = (Chat chat (weekly_tools smtp) fuel weekly_texts w0).2.
Proof.
  intros He Hz w0. unfold WeeklyReportForCoach. unfold mbind at 1, M_bind at 1. rewrite enabled_known, He. cbn [negb].
  unfold mbind, M_bind, now. cbn [fst snd].
  change (w_clock (tick (tick (tick (tick w))))) with (w_clock w). change (w_clock (tick (tick (tick w)))) with (w_clock w).
  change (w_clock (tick (tick w))) with (w_clock w). rewrite !Hz. fold weekly_texts.
  change (tick (tick (tick (tick (tick w))))) with w0. by destruct (Chat _ _ _ _ w0) as [[]].
Qed.
Lemma talks_ticks P n w : talks P w (Nat.iter n tick w).
Proof. induction n as [|n IH]; [reflexivity|]. etransitivity; [exact IH|]. apply talks_tick. Qed.
Lemma this_day_ticks n w : this_day w -> this_day (Nat.iter n tick w).
Proof. intros Hz. by induction n. Qed.
Lemma this_day_talks P w w' : talks P w w' -> this_day w -> this_day w'.
Proof. intros (_ & Hc & _) Hz n. rewrite Hc. apply Hz. Qed.

Lemma weekly_talks fuel w : enabled = true -> this_day w ->
  talks (begun weekly_texts) w (WeeklyReportForCoach chat smtp offset fuel u w).2.
Proof.
  intros He Hz. rewrite weekly_run by done. etransitivity; [apply (talks_ticks _ 5)|]. apply talks_chat, weekly_talk.
Qed.
Lemma weekly_asks fuel w : enabled = true -> this_day w -> configured -> (0 < fuel)%nat ->
  asks (begun weekly_texts) w (WeeklyReportForCoach chat smtp offset fuel u w).2.
Proof.
  intros He Hz Hc Hf. rewrite weekly_run by done.
  exact (chat_asks (weekly_tools smtp) fuel weekly_texts (Nat.iter 5 tick w) (weekly_talk _ _) Hc Hf).
Qed.

Lemma daily_run fuel w : (daily_report chat smtp fuel u (z - 1) w).2 = (Chat chat (daily_tools smtp) fuel daily_texts w).2.
Proof. unfold daily_report, mbind, M_bind. fold daily_texts. by destruct (Chat _ _ _ _ w) as [[]]. Qed.

Lemma extra_run fuel w : this_day w -> admin_extra chat smtp offset fuel u w
  = if decide (weekday z = 1)
    then (Val (match (WeeklyReportForCoach chat smtp offset fuel u (tick w)).1 with Val r => r | Exn _ => Some () end),
          (WeeklyReportForCoach chat smtp offset fuel u (tick w)).2)
    else (Val (Some ()), tick w).
Proof.
  intros Hz. unfold admin_extra, is_monday, mbind, M_bind, now. cbn [fst snd]. rewrite Hz.
  case_decide; [rewrite bool_decide_true by done | by rewrite bool_decide_false by done]. done.
Qed.

Lemma daily_talks fuel w : talks (begun daily_texts) w (daily_report chat smtp fuel u (z - 1) w).2.
Proof. rewrite daily_run. apply talks_chat, daily_talk. Qed.
Lemma daily_asks fuel w : configured -> (0 < fuel)%nat -> asks (begun daily_texts) w (daily_report chat smtp fuel u (z - 1) w).2.
Proof. intros Hc Hf. rewrite daily_run. by apply chat_asks; [apply daily_talk| |]. Qed.

(** What an administrator gets on top. *)
Lemma extra_talks fuel w : enabled = true -> this_day w ->
  talks (fun req => weekday z = 1 /\ begun weekly_texts req) w (admin_extra chat smtp offset fuel u w).2
  /\ (configured -> (0 < fuel)%nat -> weekday z = 1 ->
      exists req, req ∈ asked (w_db (admin_extra chat smtp offset fuel u w).2) /\ begun weekly_texts req).
Proof.
  intros He Hz. assert (this_day (tick w)) as Hz' by exact Hz. rewrite extra_run by done. case_decide as Hm; cbn [snd].
  - split.
    + etransitivity; [apply talks_tick|]. eapply talks_weaken; [|by apply weekly_talks]. done.
    + intros Hc Hf _. eapply asks_in. by apply weekly_asks.
  - split; [apply talks_tick | done].
Qed.

(** The report of the morning, step by step. *)
Lemma last_day_run fuel w : this_day w -> PersonalLastDay chat smtp offset fuel u w
  = if enabled then
      if decide (role = 2) then
        if decide (weekday z = 1) then WeeklyReportForCoach chat smtp offset fuel u (Nat.iter 6 tick w)
        else (Val (Some ()), Nat.iter 6 tick w)
      else
        let e := if decide (role = 1) then admin_extra chat smtp offset fuel u (Nat.iter 5 tick w)
                 else (Val (Some ()), Nat.iter 5 tick w) in
        match e.1 with
        | Exn err => (Exn err, e.2)
        | Val None => (Val None, e.2)
        | Val (Some _) => daily_report chat smtp fuel u (z - 1) e.2
        end
    else (Val (Some ()), Nat.iter 2 tick w).
Proof.
  intros Hz. pose proof role_known as Hrole. unfold PersonalLastDay. unfold mbind at 1, M_bind at 1.
  rewrite enabled_known. clear profile. destruct enabled; [|done].
  cbn [negb]. unfold mbind at 1, M_bind at 1, now. unfold mbind at 1, M_bind at 1. rewrite Hrole.
  change (w_clock (tick (tick w))) with (w_clock w). rewrite Hz. case_decide.
  - unfold mbind, M_bind, now, is_monday.
    change (w_clock (tick (tick (tick (tick (tick w)))))) with (w_clock w). rewrite Hz.
    case_decide; [by rewrite bool_decide_true by done | by rewrite bool_decide_false by done].
  - unfold mbind, M_bind. change (tick (tick (tick (tick (tick w))))) with (Nat.iter 5 tick w).
    case_decide; [|done]. by destruct (admin_extra _ _ _ _ _ _) as [[[[]|]|]].
Qed.
End reports.

(** ** Events *)

Lemma summary_read u t : in_int64 u -> ValidString t = true -> unmarshal_summary (summary_json (SumEvent u t)) = Some (SumEvent u t).
Proof.
  intros Hu Ht. unfold unmarshal_summary, unmarshal_struct, summary_json. rewrite json_struct_valid. cbn [negb].
  change (map code (bytes_of ?s)) with (codes s).
  rewrite json_struct_members by (repeat (constructor; [vm_compute; reflexivity|]); constructor).
  destruct (json_string_reads t []) as (l & Hl & _ & _ & Hv). rewrite app_nil_r in Hl.
  cbn [se_UserId se_Type map fst snd foldl].
  assert (decode_string (codes (json_string t)) = Some (Some t)) as Hp.
  { rewrite Hl. cbn [decode_string]. by rewrite Hv, !(valid_utf8_id t Ht). }
  unfold summary_field, int_or, string_or. cbn [fst snd]. cbn [json_value].
  repeat (fold_keys; rewrite ?Hp, ?decode_int_marshalled by done; cbn [keep_or fst snd default]). done.
Qed.

Definition readable (body : string) : Prop := exists e, unmarshal_summary body = Some e.
(** No delivery is left unsettled, and every message can be read. *)
Definition agent_ok (d : agent_db) : Prop := unsettled d = [] /\ Forall readable (summary_queue d).

Lemma keeps_send body : readable body -> keeps agent_ok (send_summary body).
Proof.
  intros Hb. unfold send_summary. apply keeps_bind; [solve_keeps|]. intros _. apply keeps_exec. intros d [Hu Hq].
  split; [done|]. cbn. apply Forall_app. split; [done | by repeat constructor].
Qed.
Lemma keeps_summary_Do u t : in_int64 u -> ValidString t = true -> keeps agent_ok (summary_Do u t).
Proof.
  intros Hu Ht. pose proof (keeps_send (summary_json (SumEvent u t)) (ex_intro _ _ (summary_read u t Hu Ht))) as Hk.
  unfold summary_Do, summary_publish, publish_with, channel. solve_keeps.
Qed.

(** The numbers of users are brought into the range of an [int64]. *)
Lemma getUserIds_range `{ProfileLister} {D} (w : world D) l : (getUserIds w).1 = Val l -> Forall in_int64 l.
Proof.
  unfold getUserIds, mbind, M_bind, attempt, remote. cbn [fst snd].
  destruct (cron_dial _); [|by intros [= <-]]. destruct (GetUsers 1 _) as [[total users]|]; [|by intros [= <-]].
  destruct (more_pages _ _) as [[rest|] w']; [|done]. intros [= <-]. apply Forall_map, Forall_forall.
  intros z _. apply wrap_int64_range.
Qed.

Lemma keeps_cron `{ProfileLister} t : ValidString t = true -> keeps agent_ok (userIds ← getUserIds; for_each userIds (fun v => summary_Do v t)).
Proof.
  intros Ht w Hw. unfold mbind, M_bind. pose proof (getUserIds_range w) as Hr. pose proof (reads_getUserIds w) as Hd.
  destruct (getUserIds w) as [[l|e] w']; cbn in *; [|by rewrite Hd].
  rewrite <- Hd in Hw. clear Hd. specialize (Hr l eq_refl). revert w' Hw. induction Hr as [|v l Hv Hl IH]; intros w' Hw; [done|].
  cbn [for_each]. revert w' Hw. apply keeps_bind; [by apply keeps_summary_Do|]. intros _. exact IH.
Qed.

(** ** The consumer *)

Section consumer.
Context `{Float64} `{ProfileReader} `{ChatServer} `{ToolServices} (chat : chat_cfg) (smtp : smtp_cfg) (offset : Z).

Definition anything (r : chat_request) : Prop := True.
Lemma talks_any_chat tools fuel texts : tools_talk anything tools -> follows (talks anything) (Chat chat tools fuel texts).
Proof. intros Ht. unfold Chat. by apply talks_loop. Qed.
#[local] Hint Resolve talks_any_chat weekly_talk daily_talk recent_talk : talks.

Lemma talks_weekly_report fuel u : follows (talks anything) (WeeklyReportForCoach chat smtp offset fuel u).
Proof. unfold WeeklyReportForCoach. solve_follows. Qed.
#[local] Hint Resolve talks_weekly_report : talks.
Lemma talks_last_day fuel u : follows (talks anything) (PersonalLastDay chat smtp offset fuel u).
Proof. unfold PersonalLastDay. solve_follows. Qed.
Lemma talks_recent fuel u : follows (talks anything) (PersonalRecent chat fuel u).
Proof. unfold PersonalRecent. solve_follows. Qed.
#[local] Hint Resolve talks_last_day talks_recent : talks.
Lemma talks_consume fuel body : follows (talks anything) (consume_summary chat smtp offset fuel body).
Proof. unfold consume_summary. solve_follows. Qed.

(** When a summary has been made, there is one. *)
Lemma recent_stored fuel u w w' : healthy w -> PersonalRecent chat fuel u w = (Val (Some ()), w') ->
  is_Some (w_redis w' !! summary_key u).
Proof.
  intros Hw. unfold PersonalRecent, mbind, M_bind, now. cbn [fst snd].
  set (texts := [recent_style; _]). pose proof (talks_any_chat recent_tools fuel texts (recent_talk _) (tick w)) as Ht.
  destruct (Chat chat recent_tools fuel texts (tick w)) as [[[r|]|e] w1]; cbn [snd] in Ht; [|done..].
  destruct Ht as (Hf & _). assert (healthy w1) as Hw1 by (intros n; rewrite Hf; apply Hw).
  cbv zeta. unfold redis_exists. rewrite Hw1. destruct (decide (is_Some _)) as [Hs|Hs].
  - rewrite decide_False by done. intros [= <-]. done.
  - rewrite decide_True by done. case_decide; [done|]. cbn [fst snd]. unfold redis_set. change (w_fault (tick (tick w1))) with (w_fault w1). rewrite Hw1. cbn.
    intros [= <-]. cbn. rewrite lookup_insert_eq. by eexists.
Qed.

(** ** Conversations that end *)

Context (n : nat) (Hn : concise n).

Lemma chat_ends_some tools fuel texts w : (n < fuel)%nat -> (Chat chat tools fuel texts w).1 <> Val None.
Proof. intros Hf. destruct fuel as [|fuel]; [lia|]. apply (chat_answers chat tools n Hn). lia. Qed.

Lemma weekly_ends fuel u w : (n < fuel)%nat -> (WeeklyReportForCoach chat smtp offset fuel u w).1 <> Val None.
Proof.
  intros Hf. unfold WeeklyReportForCoach, mbind, M_bind, now. destruct (checkEmailEnabled u w) as [[[]|] w1]; [|done..].
  cbn [negb fst snd]. match goal with |- context [Chat ?c ?t ?f ?x ?w] => pose proof (chat_ends_some t f x w Hf) as Hc;
    destruct (Chat c t f x w) as [[[]|]] end; done.
Qed.
Lemma last_day_ends fuel u w : (n < fuel)%nat -> (PersonalLastDay chat smtp offset fuel u w).1 <> Val None.
Proof.
  intros Hf. assert (forall d w, (daily_report chat smtp fuel u d w).1 <> Val None) as Hd.
  { intros d w1. unfold daily_report, mbind, M_bind. match goal with |- context [Chat ?c ?t ?f ?x ?w] =>
      pose proof (chat_ends_some t f x w Hf) as Hc; destruct (Chat c t f x w) as [[[]|]] end; done. }
  assert (forall w, (admin_extra chat smtp offset fuel u w).1 <> Val None) as He.
  { intros w1. unfold admin_extra, mbind, M_bind, now, attempt. cbn [fst snd]. case_match; [|done].
    pose proof (weekly_ends fuel u (tick w1) Hf) as Hw. cbn. by destruct (WeeklyReportForCoach _ _ _ _ _ _) as [[[[]|]|]]. }
  unfold PersonalLastDay, mbind, M_bind, now. destruct (checkEmailEnabled u w) as [[[]|] w1]; [|done..].
  cbn [negb fst snd]. destruct (checkRoleId u (tick w1)) as [[role|] w2]; [|done]. case_decide.
  - cbn [fst snd]. case_match; [by apply weekly_ends | done].
  - case_decide; [|apply Hd]. specialize (He w2). destruct (admin_extra _ _ _ _ _ w2) as [[[]|] w3]; [apply Hd | done..].
Qed.
Lemma recent_ends fuel u w : (n < fuel)%nat -> (PersonalRecent chat fuel u w).1 <> Val None.
Proof.
  intros Hf. unfold PersonalRecent, mbind, M_bind, now. cbn [fst snd].
  match goal with |- context [Chat ?c ?t ?f ?x ?w] => pose proof (chat_ends_some t f x w Hf) as Hc;
    destruct (Chat c t f x w) as [[[r|]|] w1] end; [|done..].
  cbv zeta. destruct (redis_exists _ w1) as [[x|] w2]; [|done]. repeat case_decide; [done| |done]. cbn [fst snd].
  by destruct (redis_set _ _ _) as [[]].
Qed.

Lemma consume_settles fuel body w : (n < fuel)%nat -> readable body ->
  exists r, (consume_summary chat smtp offset fuel body w).1 = Val (Some r).
Proof.
  intros Hf [e He]. unfold consume_summary. rewrite He. unfold mbind, M_bind, attempt. cbn [fst snd].
  match goal with |- context [(?m w).1] => assert ((m w).1 <> Val None) as Hm end.
  { repeat case_decide; [by apply last_day_ends | by apply recent_ends | done]. }
  cbn. destruct (fst _) as [[[]|]|err]; [by eexists|done|by eexists].
Qed.

Lemma deliver_settles fuel i w : (n < fuel)%nat -> agent_ok (w_db w) -> (i < length (summary_queue (w_db w)))%nat ->
  exists r w', deliver_summary chat smtp offset fuel i w = (Val (Some (Some r)), w')
    /\ unsettled (w_db w') = [] /\ summary_queue (w_db w') = delete i (summary_queue (w_db w)).
Proof.
  intros Hf [Hu Hq] Hi. destruct (lookup_lt_is_Some_2 _ _ Hi) as [body Hb]. unfold deliver_summary. rewrite Hb, Hu.
  rewrite decide_False by (unfold prefetch; simpl; lia).
  assert (readable body) as Hr by (rewrite Forall_forall in Hq; by eapply Hq, list_elem_of_lookup_2).
  set (w0 := set_db _ w). destruct (consume_settles fuel body w0 Hf Hr) as [r Hc].
  pose proof (talks_consume fuel body w0) as (_ & _ & Hqs & Hus & _). unfold mbind, M_bind.
  destruct (consume_summary chat smtp offset fuel body w0) as [o w1]; cbn in *. subst o.
  eexists r, w1. split; [done|]. by rewrite Hus.
Qed.
End consumer.
