(* ===== verification/CoreSystem.v ===== *)
(** The core-data service as a whole: its handlers, its consumer and its hourly task as
    calls, the states that calls reach, and the invariant of those states. *)
From S2P Require Export JobTheory Worker BulletinService HistoryDal.

(** ** Calls *)

Inductive core_call :=
  | CoHttp (r : core_request)
  | CoGetSpider (userId : Z)
  | CoSetSpider (c : ctx) (userId : Z) (platform username : string)
  | CoUpdate (c : ctx) (userId : Z) (platform header : string)
  | CoJob (c : ctx) (jobId : Z)
  | CoJobs (c : ctx) (page pageSize : Z) (scope : string) (userId : Z) (status : string)
  | CoStatus (c : ctx) (userId : Z)
  | CoCreateBulletin (c : ctx) (title content : string) (pinned : bool)
  | CoUpdateBulletin (c : ctx) (id : Z) (title content : string) (pinned : bool)
  | CoDeleteBulletin (c : ctx) (id : Z)
  | CoGetBulletin (id : Z)
  | CoListBulletins (page pageSize : Z)
  | CoContestList (userId offset limit : Z) (platform : string)
  | CoContestRanking (fuel : nat) (contestRow : Z) (groupId : option Z) (offset limit : Z)
  | CoPeriodCount (userId : Z)
  | CoSubmitLog (userId cursor limit : Z)
  | CoLastSubmitTime (userIds : list Z)
  | CoContestHistory (userId cursor limit : Z) (platform : string)
  | CoCron
  | CoDeliver (i : nat).

Section system.
Context `{Fetchers} `{RateLimit} `{Jsonb} `{Collation} `{ContestPages} `{UserService} `{ProfileLister}.
Context `{Gob (list PlatformPeriodCount)} `{Gob (PeriodSubmitCount * PeriodAcCount)} `{Gob SubmitLog} `{Gob ContestLog}.

Definition serve_core (r : core_call) : CM () :=
  match r with
  | CoHttp r => match core_http r with Some m => m;; mret () | None => mret () end
  | CoGetSpider u => svc_GetSpider u;; mret ()
  | CoSetSpider c u p n => svc_SetSpider c u p n;; mret ()
  | CoUpdate c u p h => svc_SpiderUpdate c u p h;; mret ()
  | CoJob c j => svc_Job c j;; mret ()
  | CoJobs c p s sc u st => svc_Jobs c p s sc u st;; mret ()
  | CoStatus c u => svc_Status c u;; mret ()
  | CoCreateBulletin c t x p => svc_CreateBulletin c t x p;; mret ()
  | CoUpdateBulletin c i t x p => svc_UpdateBulletin c i t x p;; mret ()
  | CoDeleteBulletin c i => svc_DeleteBulletin c i;; mret ()
  | CoGetBulletin i => svc_GetBulletin i;; mret ()
  | CoListBulletins p s => svc_ListBulletins p s;; mret ()
  | CoContestList u o l p => svc_GetContestList u o l p;; mret ()
  | CoContestRanking f r g o l => svc_GetContestRanking f r g o l;; mret ()
  | CoPeriodCount u => PeriodCount u;; mret ()
  | CoSubmitLog u c l => svc_GetSubmitLog u c l;; mret ()
  | CoLastSubmitTime us => svc_LastSubmitTime us;; mret ()
  | CoContestHistory u c l p => svc_GetUserContestHistory u c l p;; mret ()
  | CoCron => cron_hourly
  | CoDeliver i => deliver i;; mret ()
  end.

Definition empty_core : core_db :=
  CoreDb (Table [] 1) (Table [] 1) (Table [] 1) (Table [] 1) (Table [] 1) (Table [] 1) (Table [] 1)
         (Table [] 1) [] ∅ zero_time.

(** Calls one after the other, each in a world that satisfies [ok]: whatever the cache
    holds, the clock reads and, unless [ok] says otherwise, the calls do at the time. *)
Inductive core_reachable (ok : world core_db -> Prop) : core_db -> Prop :=
  | core_start : core_reachable ok empty_core
  | core_serve r w : core_reachable ok (w_db w) -> ok w -> core_reachable ok (w_db (serve_core r w).2).

Lemma core_reachable_keeps ok (I : core_db -> Prop) d :
  I empty_core -> (forall r, keeps I (serve_core r)) -> core_reachable ok d -> I d.
Proof. intros Hi Hk. induction 1; [done|]. by apply Hk. Qed.
End system.

(** ** Well-formed states *)

Definition job_states : list string := ["queued"; "running"; "success"; "failed"].
Definition sync_states : list string := [""; "running"; "success"; "failed"].

(** An event names a job of its user, with the same extent. *)
Definition event_ok (d : core_db) (e : SpiderEvent) : Prop :=
  exists j, j ∈ rows (jobs d) /\ j_ID j = e_JobId e /\ j_UserID j = e_UserId e /\ j_NeedAll j = e_NeedAll e.

Definition contests_ok (t : table ContestLog) : Prop :=
  table_wf t /\ forall x y, x ∈ rows t -> y ∈ rows t -> same_contest x y = true -> x = y.

Definition snapshots_ok (t : table FeatureSnapshot) : Prop :=
  table_wf t /\ (forall s, s ∈ rows t -> json_valid (fs_Payload s) = true)
  /\ forall x y, x ∈ rows t -> y ∈ rows t -> fs_UserID x = fs_UserID y -> fs_Kind x = fs_Kind y -> x = y.

Record core_ok (d : core_db) : Prop := {
  ok_platforms : table_wf (platforms d);
  ok_statuses : table_wf (statuses d);
  ok_sync : forall s, s ∈ rows (statuses d) -> ss_Status s ∈ sync_states;
  ok_jobs : table_wf (jobs d);
  ok_job : forall j, j ∈ rows (jobs d) -> j_Status j ∈ job_states;
  ok_queue : forall e, e ∈ spider_queue d -> event_ok d e;
  ok_submits : submits_ok (submits d);
  ok_contests : contests_ok (contests d);
  ok_logs : table_wf (core_logs d);
  ok_details : forall l, l ∈ rows (core_logs d) -> json_valid (cl_Detail l) = true;
  ok_bulletins : table_wf (bulletins d);
  ok_snapshots : snapshots_ok (snapshots d) }.
