(* ===== verification/CoreTheory.v ===== *)
(** Why every call of the core-data service keeps its states well formed. *)
From S2P Require Export CoreSystem.
From S2P Require Import JsonTheory.

(** ** Reads *)

Section readers.
Context `{Fetchers} `{RateLimit} `{Jsonb} `{Collation} `{ContestPages} `{UserService} `{ProfileLister}.

Lemma reads_audit u t sts plats : reads (audit_platforms u t sts plats).
Proof. induction plats as [|p plats IH]; simpl; solve_reads. Qed.
Lemma reads_atcoder_ranks c m us : reads (fetch_atcoder_ranks c m us).
Proof. induction us as [|u us IH]; simpl; solve_reads. Qed.
Lemma reads_scan p : reads (redis_scan p).
Proof. intros w. unfold redis_scan. by case_match. Qed.
Lemma reads_del_keys ks : reads (del_keys ks).
Proof.
  unfold del_keys. apply reads_bind; [|solve_reads]. apply reads_attempt. intros w.
  cbv zeta. pose proof (reads_redis_del ks w) as Hr. by destruct (redis_del ks w) as [[]].
Qed.
Lemma reads_batches ks : forall batch n, reads (unlink_batches ks batch n).
Proof.
  induction ks as [|k ks IH]; intros batch n; simpl.
  - destruct batch; [solve_reads|]. apply reads_bind; [apply reads_del_keys | solve_reads].
  - case_decide; [apply reads_bind; [apply reads_del_keys | auto] | auto].
Qed.
Lemma reads_patterns ps : forall n, reads (unlink_patterns ps n).
Proof.
  induction ps as [|p ps IH]; intros n; simpl; [solve_reads|].
  apply reads_bind; [apply reads_attempt, reads_scan|]. intros r. apply reads_bind; [apply reads_batches | auto].
Qed.
Lemma reads_user_cache u : reads (invalidateUserStatisticCache u).
Proof.
  unfold invalidateUserStatisticCache. apply reads_bind; [solve_reads|]. intros _. apply reads_for_each.
  apply silent_delete_pattern.
Qed.

Lemma reads_page {R} `{Entity R} `{Holds core_db R} `{Gob R} (time_of : R -> Z) zero sk dk q agrees cursor limit :
  reads (page time_of zero sk dk q agrees cursor limit).
Proof.
  assert (forall n, reads (db_page time_of sk dk q n)) as Hdb.
  { intros n. unfold db_page. apply reads_bind; [solve_reads|]. intros [|r rs]; solve_reads. }
  unfold page. apply reads_bind; [apply reads_attempt; intros w; unfold redis_zrange; by repeat case_match|].
  intros [ids|e]; [|auto]. apply reads_bind; [solve_reads|]. intros newest. cbv zeta.
  case_match; [auto|]. destruct (agrees newest ids) as [[]|]; [|auto|solve_reads].
  apply reads_bind; [unfold cached_rows; solve_reads|]. intros []; [solve_reads | auto].
Qed.
Lemma reads_last_submits us : reads (svc_LastSubmitTime us).
Proof.
  unfold svc_LastSubmitTime. apply reads_bind; [solve_reads|]. intros r. destruct (cached_times us _) as [[|v miss] times]; [solve_reads|].
  apply reads_bind; [solve_reads|]. intros []; solve_reads.
Qed.
End readers.
#[export] Hint Extern 0 (keeps _ (invalidateUserStatisticCache _)) => apply keeps_reads, reads_user_cache : keeps.
#[export] Hint Resolve reads_getUserIds reads_audit reads_atcoder_ranks reads_scan reads_del_keys reads_patterns
  reads_page reads_last_submits reads_invalidateCache silent_delete_pattern : reads.
#[export] Hint Extern 3 (keeps _ _) => apply keeps_reads; solve [eauto 1 with reads] : keeps.

(** ** Statements *)

Section statements.
Implicit Types (d : core_db).

Ltac tables := intros []; constructor; cbn [set_table holds_platforms holds_statuses holds_jobs holds_submits
  holds_contests holds_core_logs holds_bulletins holds_snapshots platforms statuses jobs submits contests core_logs
  bulletins snapshots spider_queue set_queue set_limiters set_last_cleanup]; auto.

Lemma ok_set_platforms t d : table_wf t -> core_ok d -> core_ok (set_table (R := Platform) t d).
Proof. intros Ht. by tables. Qed.
Lemma ok_set_bulletins t d : table_wf t -> core_ok d -> core_ok (set_table (R := Bulletin) t d).
Proof. intros Ht. by tables. Qed.
Lemma ok_set_submits t d : submits_ok t -> core_ok d -> core_ok (set_table (R := SubmitLog) t d).
Proof. intros Ht. by tables. Qed.
Lemma ok_set_contests t d : contests_ok t -> core_ok d -> core_ok (set_table (R := ContestLog) t d).
Proof. intros Ht. by tables. Qed.
Lemma ok_set_snapshots t d : snapshots_ok t -> core_ok d -> core_ok (set_table (R := FeatureSnapshot) t d).
Proof. intros Ht. by tables. Qed.
Lemma ok_set_statuses t d : table_wf t -> (forall s, s ∈ rows t -> ss_Status s ∈ sync_states) ->
  core_ok d -> core_ok (set_table (R := SpiderSyncStatus) t d).
Proof. intros Ht Hs. by tables. Qed.
Lemma ok_set_limiters l d : core_ok d -> core_ok (set_limiters l d).
Proof. by tables. Qed.
Lemma ok_set_last_cleanup t d : core_ok d -> core_ok (set_last_cleanup t d).
Proof. by tables. Qed.
Lemma ok_set_queue q d : (forall e, e ∈ q -> event_ok d e) -> core_ok d -> core_ok (set_queue q d).
Proof. intros Hq. by tables. Qed.

(** Jobs keep their number, their user and their extent. *)
Definition same_job (f : SpiderRefreshJob -> SpiderRefreshJob) : Prop :=
  forall j, j_ID (f j) = j_ID j /\ j_UserID (f j) = j_UserID j /\ j_NeedAll (f j) = j_NeedAll j.

Lemma event_ok_update p f d e : same_job f -> event_ok d e ->
  event_ok (set_table (update_match p f (jobs d)) d) e.
Proof.
  intros Hf (j & Hj & Hid & Hu & Hn). exists (if visible p j then f j else j).
  destruct (Hf j) as (H1 & H2 & H3). split.
  - apply elem_of_update. by exists j.
  - destruct (visible p j); split_and!; congruence.
Qed.
Lemma event_ok_insert mk d e : event_ok d e -> event_ok (set_table (insert_row mk (jobs d)) d) e.
Proof. intros (j & Hj & ?). exists j. split; [|done]. apply elem_of_insert. by left. Qed.

Lemma ok_update_jobs p f d : same_job f -> (forall j, j_Status (f j) ∈ job_states \/ j_Status (f j) = j_Status j) ->
  core_ok d -> core_ok (set_table (update_match p f (jobs d)) d).
Proof.
  intros Hf Hs Hd. pose proof (fun e He => event_ok_update p f d e Hf (ok_queue d Hd e He)) as Hq.
  revert Hd. tables; [apply table_wf_update; [|done]; intros j; apply Hf|].
  intros j (j0 & Hj0 & ->)%elem_of_update. destruct (visible p j0); [|by auto].
  destruct (Hs j0) as [?| ->]; auto.
Qed.
Lemma ok_insert_job mk d : (forall i, j_ID (mk i) = i) -> (forall i, j_Status (mk i) ∈ job_states) ->
  core_ok d -> core_ok (set_table (insert_row mk (jobs d)) d).
Proof.
  intros Hid Hs Hd. pose proof (fun e He => event_ok_insert mk d e (ok_queue d Hd e He)) as Hq.
  revert Hd. tables; [by apply table_wf_insert|]. intros j [Hj| ->]%elem_of_insert; auto.
Qed.
Lemma ok_insert_log mk d : (forall i, cl_ID (mk i) = i) -> (forall i, json_valid (cl_Detail (mk i)) = true) ->
  core_ok d -> core_ok (set_table (insert_row mk (core_logs d)) d).
Proof. intros Hid Hs. tables; [by apply table_wf_insert|]. intros j [Hj| ->]%elem_of_insert; auto. Qed.

Lemma ok_insert_platform mk d : (forall i, p_Id (mk i) = i) -> core_ok d ->
  core_ok (set_table (insert_row mk (platforms d)) d).
Proof. intros Hid Hd. apply ok_set_platforms; [|done]. by apply table_wf_insert, Hd. Qed.
Lemma ok_insert_bulletin mk d : (forall i, bu_ID (mk i) = i) -> core_ok d ->
  core_ok (set_table (insert_row mk (bulletins d)) d).
Proof. intros Hid Hd. apply ok_set_bulletins; [|done]. by apply table_wf_insert, Hd. Qed.
Lemma ok_insert_status mk d : (forall i, ss_ID (mk i) = i) -> (forall i, ss_Status (mk i) ∈ sync_states) ->
  core_ok d -> core_ok (set_table (insert_row mk (statuses d)) d).
Proof.
  intros Hid Hs Hd. apply ok_set_statuses; [by apply table_wf_insert, Hd| |done].
  intros s [Hin| ->]%elem_of_insert; [by apply Hd | auto].
Qed.
Lemma ok_update_bulletin p f d : (forall b, bu_ID (f b) = bu_ID b) -> core_ok d ->
  core_ok (set_table (update_match p f (bulletins d)) d).
Proof. intros Hf Hd. apply ok_set_bulletins; [|done]. by apply table_wf_update, Hd. Qed.
Lemma ok_update_status p f d : (forall s, ss_ID (f s) = ss_ID s) -> (forall s, ss_Status (f s) ∈ sync_states) ->
  core_ok d -> core_ok (set_table (update_match p f (statuses d)) d).
Proof.
  intros Hf Hs Hd. apply ok_set_statuses; [by apply table_wf_update, Hd| |done].
  intros s (s0 & Hin & ->)%elem_of_update. destruct (visible p s0); [auto | by apply Hd].
Qed.

(** Removing rows. *)
Lemma rows_removed {R} `{Entity R} (p : R -> bool) (t : table R) r : r ∈ rows (remove_match p t) -> r ∈ rows t.
Proof. by intros [Hr _]%elem_of_where. Qed.

Lemma contests_ok_remove p t : contests_ok t -> contests_ok (remove_match p t).
Proof. intros [Hwf Hu]. split; [by apply table_wf_remove|]. intros x y Hx Hy. apply Hu; by eapply rows_removed. Qed.
Lemma snapshots_ok_remove p t : snapshots_ok t -> snapshots_ok (remove_match p t).
Proof.
  intros (Hwf & Hj & Hu). split_and!; [by apply table_wf_remove| |].
  - intros s Hs. eapply Hj, rows_removed, Hs.
  - intros x y Hx Hy. apply Hu; by eapply rows_removed.
Qed.

Lemma ok_remove_platforms p d : core_ok d -> core_ok (set_table (remove_match p (platforms d)) d).
Proof. intros Hd. by apply ok_set_platforms, Hd; apply table_wf_remove, Hd. Qed.
Lemma ok_remove_bulletins p d : core_ok d -> core_ok (set_table (remove_match p (bulletins d)) d).
Proof. intros Hd. apply ok_set_bulletins; [|done]. apply table_wf_remove, Hd. Qed.
Lemma ok_remove_submits p d : core_ok d -> core_ok (set_table (remove_match p (submits d)) d).
Proof. intros Hd. apply ok_set_submits; [|done]. apply remove_submits_ok, Hd. Qed.
Lemma ok_remove_contests p d : core_ok d -> core_ok (set_table (remove_match p (contests d)) d).
Proof. intros Hd. apply ok_set_contests; [|done]. apply contests_ok_remove, Hd. Qed.
Lemma ok_remove_snapshots p d : core_ok d -> core_ok (set_table (remove_match p (snapshots d)) d).
Proof. intros Hd. apply ok_set_snapshots; [|done]. apply snapshots_ok_remove, Hd. Qed.
Lemma ok_remove_statuses p d : core_ok d -> core_ok (set_table (remove_match p (statuses d)) d).
Proof.
  intros Hd. apply ok_set_statuses; [apply table_wf_remove, Hd| |done].
  intros s Hs. eapply ok_sync, rows_removed, Hs. done.
Qed.

Lemma contests_ok_insert x t : contests_ok t -> contests_ok (insert_contest t x).
Proof.
  intros [Hwf Hu]. unfold insert_contest. destruct (existsb (same_contest x) (rows t)) eqn:He.
  { split; [by apply table_wf_advance | done]. }
  split; [by apply table_wf_insert|].
  assert (forall y, y ∈ rows t -> same_contest x y = false) as Hno.
  { intros y Hy. destruct (same_contest x y) eqn:E; [|done]. rewrite <- He. symmetry.
    apply existsb_exists. exists y. split; [by apply list_elem_of_In | done]. }
  assert (forall y, y ∈ rows t -> same_contest y x = false) as Hno'.
  { intros y Hy. rewrite <- (Hno y Hy). unfold same_contest. f_equal; by apply bool_decide_ext. }
  intros y z [Hy| ->]%elem_of_insert [Hz| ->]%elem_of_insert Hs; [by apply Hu| | |done].
  - change (same_contest y x = true) in Hs. by rewrite Hno' in Hs.
  - change (same_contest x z = true) in Hs. by rewrite Hno in Hs.
Qed.
Lemma fold_insert_contests xs : forall t, contests_ok t -> contests_ok (foldl insert_contest t xs).
Proof. induction xs as [|x xs IH]; intros t Ht; [done|]. by apply IH, contests_ok_insert. Qed.

(** A rollback, when what it rolls back has queued nothing. *)
Lemma ok_rollback d d' : spider_queue d' = spider_queue d -> core_ok d -> core_ok (rollback d d').
Proof.
  intros Hq Hd. pose proof (ok_submits d Hd). pose proof (ok_contests d Hd). pose proof (ok_snapshots d Hd).
  constructor; simpl; try (by apply Hd); try (by apply table_wf_rollback, Hd).
  - intros e He. rewrite Hq in He. by apply (ok_queue d Hd).
  - destruct H. split; [by apply table_wf_rollback | done].
  - destruct H0. split; [by apply table_wf_rollback | done].
  - destruct H1. split; [by apply table_wf_rollback | done].
Qed.
End statements.

#[export] Hint Resolve ok_remove_platforms ok_remove_statuses ok_remove_submits ok_remove_contests ok_remove_bulletins
  ok_remove_snapshots ok_set_limiters ok_set_last_cleanup json_object_valid : keeps.
#[export] Hint Extern 5 (core_ok (set_table (update_match _ _ (table_of _)) _)) =>
  first [ by apply ok_update_bulletin
        | by apply ok_update_status; [done | intros; set_solver |]
        | by apply ok_update_jobs; [done | first [by right | intros; left; set_solver] |]] : keeps.
#[export] Hint Extern 5 (core_ok (set_table (insert_row _ (table_of _)) _)) =>
  first [ by apply ok_insert_platform | by apply ok_insert_bulletin
        | by apply ok_insert_status; [done | intros; set_solver |]
        | by apply ok_insert_log; [done | intros; cbn [cl_Detail]; first [apply json_object_valid | reflexivity] |]] : keeps.

(** ** The queue of events is left alone *)

Definition queue_is (q : list SpiderEvent) (d : core_db) : Prop := spider_queue d = q.

Lemma keeps_tx_queue {A} (m : CM A) :
  (forall q, keeps (queue_is q) m) -> keeps core_ok m -> keeps core_ok (transaction m).
Proof.
  intros Hq Hm w Hw. unfold transaction. pose proof (Hm w Hw) as Hm'. pose proof (Hq _ w eq_refl) as Hq'.
  destruct (m w) as [[a|e] w']; cbn [snd] in *; [|by apply ok_rollback].
  destruct (w_fault w' (w_calls w')); [by apply ok_rollback | done].
Qed.

Section queue_kept.
Context `{Fetchers} (q : list SpiderEvent).

Lemma queue_tx {A} (m : CM A) : keeps (queue_is q) m -> keeps (queue_is q) (transaction m).
Proof.
  intros Hm w Hw. unfold transaction. pose proof (Hm w Hw) as Hm'.
  destruct (m w) as [[a|e] w']; cbn [snd] in *; [|done]. by destruct (w_fault w' (w_calls w')).
Qed.
Lemma queue_exec {A} (f : core_db -> A * core_db) : (forall d, spider_queue (f d).2 = spider_queue d) ->
  keeps (queue_is q) (exec f).
Proof. intros Hf. apply keeps_exec. intros d Hd. unfold queue_is. by rewrite Hf. Qed.
Lemma queue_remove {R} `{Entity R} `{Holds core_db R} (p : R -> bool) :
  (forall t d, spider_queue (set_table t d) = spider_queue d) -> keeps (queue_is q) (remove_where p;; mret ()).
Proof. intros Hs. apply keeps_bind; [|solve_keeps]. apply queue_exec. intros d. apply Hs. Qed.
Lemma queue_save_submits xs : keeps (queue_is q) (save_submits xs).
Proof. apply keeps_for_each. intros b. by apply queue_exec. Qed.
Lemma queue_save_contests xs : keeps (queue_is q) (save_contests xs).
Proof. apply keeps_for_each. intros b. by apply queue_exec. Qed.

Definition submit_body (u : Z) (p : string) (needAll : bool) (logs : list SubmitLog) : CM () :=
  (if needAll then remove_where (submits_of u p);; mret () else mret ());;
  match logs with [] => mret () | _ => save_submits logs end.
Definition contest_body (u : Z) (p : string) (needAll : bool) (tmp : list ContestLog) : CM () :=
  (if needAll then remove_where (contests_of u p);; mret () else mret ());; save_contests tmp.

Lemma queue_submit_body u p needAll logs : keeps (queue_is q) (submit_body u p needAll logs).
Proof.
  apply keeps_bind; [destruct needAll; [by apply queue_remove | solve_keeps]|].
  intros _. destruct logs; [solve_keeps | apply queue_save_submits].
Qed.
Lemma queue_contest_body u p needAll tmp : keeps (queue_is q) (contest_body u p needAll tmp).
Proof.
  apply keeps_bind; [destruct needAll; [by apply queue_remove | solve_keeps]|].
  intros _. apply queue_save_contests.
Qed.

Lemma queue_store u p needAll logs : keeps (queue_is q) (store_submits u p needAll logs).
Proof. apply queue_tx, queue_submit_body. Qed.
Lemma queue_contest u plat needAll : keeps (queue_is q) (fetchAndSaveContest u plat needAll).
Proof.
  unfold fetchAndSaveContest. apply keeps_guarded. intros _. apply keeps_guarded. intros _.
  apply keeps_bind; [solve_keeps|]. intros tmp. destruct tmp as [|c tmp]; [solve_keeps|].
  apply queue_tx, (queue_contest_body u (p_Platform plat) needAll (c :: tmp)).
Qed.
#[local] Hint Resolve queue_store queue_contest : keeps.
#[local] Hint Extern 5 (queue_is _ (set_table _ _)) => assumption : keeps.

Lemma queue_load_attempts u plat needAll n e : keeps (queue_is q) (load_attempts u plat needAll n e).
Proof. revert e. induction n as [|n IH]; intros e; simpl; solve_keeps. Qed.
#[local] Hint Resolve queue_load_attempts : keeps.
Lemma queue_load_platforms j u needAll plats : keeps (queue_is q) (load_platforms j u needAll plats).
Proof. induction plats as [|plat plats IH]; simpl; solve_keeps. Qed.
Lemma queue_filter u plats : keeps (queue_is q) (filterRecentCodeforcesRefresh u plats).
Proof. induction plats as [|plat plats IH]; simpl; solve_keeps. Qed.
#[local] Hint Resolve queue_load_platforms queue_filter : keeps.

Lemma queue_LoadData j u needAll p : keeps (queue_is q) (LoadData j u needAll p).
Proof. unfold LoadData. solve_keeps. Qed.
End queue_kept.

(** ** Carrying out a job *)

Section job_kept.
Context `{Fetchers}.

Lemma ok_save_submits xs : keeps core_ok (save_submits xs).
Proof.
  apply keeps_for_each. intros b. apply keeps_exec. intros d Hd. apply ok_set_submits; [|done].
  apply fold_upsert_ok, Hd.
Qed.
Lemma ok_save_contests xs : keeps core_ok (save_contests xs).
Proof.
  apply keeps_for_each. intros b. apply keeps_exec. intros d Hd. apply ok_set_contests; [|done].
  apply fold_insert_contests, Hd.
Qed.
#[local] Hint Resolve ok_save_submits ok_save_contests : keeps.

Lemma ok_store u p needAll logs : keeps core_ok (store_submits u p needAll logs).
Proof.
  apply (keeps_tx_queue (submit_body u p needAll logs)); [intros q; apply queue_submit_body|].
  unfold submit_body. solve_keeps.
Qed.
Lemma ok_contest u plat needAll : keeps core_ok (fetchAndSaveContest u plat needAll).
Proof.
  unfold fetchAndSaveContest. apply keeps_guarded. intros _. apply keeps_guarded. intros _.
  apply keeps_bind; [solve_keeps|]. intros tmp. destruct tmp as [|c tmp]; [solve_keeps|].
  apply (keeps_tx_queue (contest_body u (p_Platform plat) needAll (c :: tmp))); [intros q; apply queue_contest_body|].
  unfold contest_body. solve_keeps.
Qed.
Lemma ok_finishJob j s e : s ∈ job_states -> keeps core_ok (finishJob j s e).
Proof.
  intros Hs. unfold finishJob, update_job. solve_keeps.
Qed.
Lemma ok_success j e : keeps core_ok (finishJob j "success" e).
Proof. apply ok_finishJob. set_solver. Qed.
Lemma ok_failed j e : keeps core_ok (finishJob j "failed" e).
Proof. apply ok_finishJob. set_solver. Qed.
#[local] Hint Resolve ok_store ok_contest ok_success ok_failed : keeps.

Lemma ok_load_attempts u plat needAll n e : keeps core_ok (load_attempts u plat needAll n e).
Proof. revert e. induction n as [|n IH]; intros e; simpl; solve_keeps. Qed.
#[local] Hint Resolve ok_load_attempts : keeps.
Lemma ok_load_platforms j u needAll plats : keeps core_ok (load_platforms j u needAll plats).
Proof. induction plats as [|plat plats IH]; simpl; solve_keeps. Qed.
Lemma ok_filter u plats : keeps core_ok (filterRecentCodeforcesRefresh u plats).
Proof. induction plats as [|plat plats IH]; simpl; solve_keeps. Qed.
#[local] Hint Resolve ok_load_platforms ok_filter : keeps.
Lemma ok_LoadData j u needAll p : keeps core_ok (LoadData j u needAll p).
Proof. unfold LoadData. solve_keeps. Qed.
#[local] Hint Resolve ok_LoadData : keeps.

Lemma ok_deliver i : keeps core_ok (deliver i).
Proof.
  intros w Hw. unfold deliver. destruct (spider_queue (w_db w) !! i) as [e|] eqn:He; [|done].
  assert (keeps core_ok (r ← consume (event_json e); mret (Some r))) as Hk by (unfold consume; solve_keeps).
  apply Hk. simpl. apply ok_set_queue; [|done]. intros e' Hin. apply (ok_queue _ Hw).
  by eapply list_elem_of_delete_inv.
Qed.
End job_kept.
#[export] Hint Resolve ok_deliver : keeps.

(** ** Queueing a job *)

(** The job an event names is there before the event is. *)
Definition ok_with (e : SpiderEvent) (d : core_db) : Prop := core_ok d /\ event_ok d e.

Lemma keeps_publish e : keeps (ok_with e) (publish e).
Proof.
  assert (keeps (ok_with e) (publishToQueue e)) as Hp.
  { unfold publishToQueue. apply keeps_bind; [solve_keeps|]. intros _. apply keeps_exec.
    intros d [Hd He]. split; [|done]. apply ok_set_queue; [|done].
    intros e' [Hin|Hin%list_elem_of_singleton]%elem_of_app; [by apply (ok_queue d) | by subst]. }
  unfold publish, publish_with, channel. solve_keeps.
Qed.

Lemma create_runs {D R} `{Entity R} `{Holds D R} (mk : Z -> R) (w : world D) r w' :
  create mk w = (Val r, w') -> r = mk (next_id (table_of (w_db w)))
  /\ w_db w' = set_table (insert_row mk (table_of (w_db w))) (w_db w).
Proof. unfold create, exec. destruct (w_fault w (w_calls w)); [done|]. by intros [= <- <-]. Qed.

Lemma ok_announced (w : world core_db) (mk : Z -> SpiderRefreshJob) u n p job w1 :
  (forall i, j_ID (mk i) = i /\ j_UserID (mk i) = u /\ j_NeedAll (mk i) = n) -> core_ok (w_db w1) ->
  create mk w = (Val job, w1) -> core_ok (w_db (publish (Event u n (j_ID job) p) w1).2).
Proof.
  intros Hmk Hok Hc. destruct (create_runs _ _ _ _ Hc) as [-> Hw1]. apply keeps_publish.
  split; [done|]. rewrite Hw1. eexists. split; [apply elem_of_insert; by right|].
  split; [done|]. apply Hmk.
Qed.

Lemma keeps_spider_Do u n s r p : keeps core_ok (spider_Do u n s r p).
Proof.
  unfold spider_Do. apply keeps_bind; [solve_keeps|]. intros [[job|]|e]; [solve_keeps| |solve_keeps].
  cbv zeta. apply keeps_bind; [solve_keeps|]. intros t. apply keeps_bind_run.
  - apply keeps_attempt, keeps_exec. intros d Hd. apply ok_insert_job; [done | intros; cbn; set_solver | done].
  - intros w c w1 _ Hc Hok. unfold attempt in Hc. destruct c as [job|e]; [|done].
    match type of Hc with (_ (_ (?m w).1, _) = _) => idtac | (Val (?m w).1, _) = _ =>
      destruct (m w) as [o w2] eqn:E; cbn in Hc; simplify_eq end.
    match goal with |- core_ok (w_db ((mbind ?f ?m) ?w).2) => 
      assert (core_ok (w_db (m w).2)) as Hp by (unfold attempt; eapply ok_announced; [|done|done]; done);
      unfold mbind, M_bind; destruct (m w) as [[[]|] w3] end; cbn in *; try done.
    assert (forall err, keeps core_ok (t0 ← now; ignore_err (update_where (by_id (j_ID job)) (job_fail (error_text err) t0));;
      mret (j_ID job, Some err))) as Hk by (intros; solve_keeps).
    by apply (Hk e w3).
Qed.
#[export] Hint Resolve keeps_spider_Do : keeps.

(** ** Snapshots *)

Section snapshots_kept.
Context `{Jsonb}.

Lemma snapshots_ok_assign id hash payload t (tb : table FeatureSnapshot) : json_valid payload = true ->
  snapshots_ok tb -> snapshots_ok (update_match (by_id id) (snapshot_assign hash payload t) tb).
Proof.
  intros Hp (Hwf & Hj & Hu). split_and!; [by apply table_wf_update| |].
  - intros s (s0 & Hs0 & ->)%elem_of_update. destruct (visible _ s0); [done | by apply Hj].
  - intros x y (x0 & Hx & ->)%elem_of_update (y0 & Hy & ->)%elem_of_update Huser Hkind.
    assert (x0 = y0) as ->; [|done].
    apply Hu; [done..| |]; by destruct (visible _ x0), (visible _ y0).
Qed.
Lemma snapshots_ok_new u k hash payload t (tb : table FeatureSnapshot) : json_valid payload = true ->
  first_match (snapshot_of u k) tb = None -> snapshots_ok tb ->
  snapshots_ok (insert_row (fun id => SnapshotRow id u k hash payload t) tb).
Proof.
  intros Hp Hn (Hwf & Hj & Hu).
  assert (forall s, s ∈ rows tb -> ~ (fs_UserID s = u /\ fs_Kind s = k)) as Hno.
  { intros s Hs [Hsu Hsk]. pose proof (first_match_none _ _ s Hn Hs eq_refl) as Hf.
    unfold snapshot_of in Hf. by rewrite !bool_decide_true in Hf. }
  split_and!; [by apply table_wf_insert| |].
  - intros s [Hs| ->]%elem_of_insert; [by apply Hj | done].
  - intros x y [Hx| ->]%elem_of_insert [Hy| ->]%elem_of_insert Huser Hkind; [by apply Hu| | |done].
    + by destruct (Hno x Hx).
    + by destruct (Hno y Hy).
Qed.

Lemma ok_assign u k hash payload t : keeps core_ok (assign_or_create u k hash payload t).
Proof.
  unfold assign_or_create. apply keeps_bind_run; [solve_keeps|]. intros w found w' _ Hq Hok.
  destruct (jsonb_in payload) as [pl|] eqn:Hp; [|by apply (keeps_bind core_ok (query (fun _ => ())));
    [solve_keeps|solve_keeps|]]. pose proof (jsonb_valid _ _ Hp) as Hv.
  unfold query in Hq. destruct (w_fault w (w_calls w)); [done|]. injection Hq as <- <-.
  destruct (first_match (snapshot_of u k) (snapshots (w_db w))) as [s|] eqn:Hf.
  - revert Hok. set (w1 := tick w). intros Hok. eapply (keeps_bind core_ok); [|solve_keeps|done].
    apply keeps_exec. intros d Hd. apply ok_set_snapshots; [|done]. by apply snapshots_ok_assign, Hd.
  - unfold mbind, M_bind, create, exec. destruct (w_fault (tick w) (w_calls (tick w))); [done|].
    apply ok_set_snapshots; [|done]. apply snapshots_ok_new; [done..|]. apply Hok.
Qed.

Lemma ok_cleanup_due t : keeps core_ok (cleanup_due t).
Proof. intros w Hw. unfold cleanup_due. case_match; [done|]. by apply ok_set_last_cleanup. Qed.
Lemma ok_allow `{RateLimit} k i : keeps core_ok (allow_request k i).
Proof. unfold allow_request. apply keeps_bind; [solve_keeps|]. intros t w Hw. by apply ok_set_limiters. Qed.
End snapshots_kept.
#[export] Hint Resolve ok_assign ok_cleanup_due ok_allow : keeps.

(** ** Every call *)

Section served.
Context `{Fetchers} `{RateLimit} `{Jsonb} `{Collation} `{ContestPages} `{UserService} `{ProfileLister}.
Context `{Gob (list PlatformPeriodCount)} `{Gob (PeriodSubmitCount * PeriodAcCount)} `{Gob SubmitLog} `{Gob ContestLog}.

Lemma ok_rebuild req us : forall reply, keeps core_ok (rebuild_loop req us reply).
Proof. induction us as [|u us IH]; intros reply; simpl; solve_keeps. Qed.
#[local] Hint Resolve ok_rebuild : keeps.

Lemma ok_core_http r m : core_http r = Some m -> keeps core_ok m.
Proof.
  unfold core_http, core_http_as. repeat case_decide; intros [= <-]; solve_keeps.
Qed.

Lemma ok_serve r : keeps core_ok (serve_core r).
Proof.
  destruct r; cbn [serve_core]; [|solve_keeps..].
  destruct (core_http r) eqn:E; [apply keeps_bind; [by eapply ok_core_http|] | ]; solve_keeps.
Qed.

Lemma ok_empty : core_ok empty_core.
Proof.
  assert (forall R (H : Entity R), table_wf (Table (@nil R) 1)) as Hwf by (intros; split_and!; constructor).
  assert (forall {A} (x : A) (P : Prop), x ∈ [] -> P) as Hno by (intros A x P Hx; by apply not_elem_of_nil in Hx).
  constructor; try apply Hwf; try (by intros x Hx; apply (Hno _ x)).
  - split; [apply Hwf|]. intros x y Hx. by apply (Hno _ x).
  - split; [apply Hwf|]. intros x y Hx. by apply (Hno _ x).
  - split_and!; [apply Hwf | by intros x Hx; apply (Hno _ x)|]. intros x y Hx. by apply (Hno _ x).
Qed.
End served.
