(* ===== verification/JobLiveness.v ===== *)
(** Runs of the core-data service in which no call fails: no job is lost between the
    request that queues it and the worker that ends it. *)
From S2P Require Export CoreTheory.

(** Every job that is not over has its event on the queue. *)
Definition tracked (d : core_db) : Prop :=
  forall j, j ∈ rows (jobs d) -> is_active j = true -> exists e, e ∈ spider_queue d /\ e_JobId e = j_ID j.

(** The numbers of the events fit the 64 bits they are decoded into. *)
Definition numbers_fit (d : core_db) : Prop :=
  forall e, e ∈ spider_queue d -> in_int64 (e_UserId e) /\ in_int64 (e_JobId e).

(** ** Queueing *)

Lemma tracked_update p f d : (forall j, j_ID (f j) = j_ID j) ->
  (forall j, is_active (f j) = true -> is_active j = true) ->
  tracked d -> tracked (set_table (update_match p f (jobs d)) d).
Proof.
  intros Hid Ha Hd j (j0 & Hj0 & ->)%elem_of_update Hact.
  destruct (visible p j0); [rewrite Hid; apply Hd; auto | by apply Hd].
Qed.

Lemma calm_Do u n s r p : calm tracked (spider_Do u n s r p).
Proof.
  intros w Hw Hd.
  change (wp (spider_Do u n s r p) (fun _ w' => healthy w' /\ tracked (w_db w')) w).
  unfold spider_Do, findActiveJob, expireStaleActiveJobs. repeat wp_step. cbn [w_db set_db tick fst snd].
  set (d1 := set_table _ (w_db w)).
  assert (tracked d1) as Hd1 by (by apply tracked_update).
  match goal with |- context [latest_job ?q ?d] => destruct (latest_job q d) as [job|] eqn:E end.
  - repeat wp_step. split; [by eauto with golang | done].
  - repeat wp_step. unfold publish, publish_with, channel, publishToQueue. repeat wp_step.
    split; [by eauto with golang|]. intros j [Hj| ->]%elem_of_insert Ha; simpl.
    + destruct (Hd1 j Hj Ha) as (e & He & ?). exists e. split; [|done]. apply elem_of_app. by left.
    + eexists. split; [apply elem_of_app; right; by apply list_elem_of_singleton | done].
Qed.

(** ** Carrying out *)

(** What carrying out job [j] keeps: anything that other tables, rollbacks and updates of
    the record of [j] keep. *)
Section carried_out.
Context `{Fetchers} (I : core_db -> Prop) (j : Z).
Hypothesis I_statuses : forall t d, I d -> I (set_table (R := SpiderSyncStatus) t d).
Hypothesis I_submits : forall t d, I d -> I (set_table (R := SubmitLog) t d).
Hypothesis I_contests : forall t d, I d -> I (set_table (R := ContestLog) t d).
Hypothesis I_rollback : forall d d', I d -> I (rollback d d').
Hypothesis I_job : forall f d, (forall r, j_ID (f r) = j_ID r) -> I d ->
  I (set_table (update_match (by_id j) f (jobs d)) d).

Lemma carried_save_submits xs : keeps I (save_submits xs).
Proof. apply keeps_for_each. intros b. apply keeps_exec. intros d Hd. by apply I_submits. Qed.
Lemma carried_save_contests xs : keeps I (save_contests xs).
Proof. apply keeps_for_each. intros b. apply keeps_exec. intros d Hd. by apply I_contests. Qed.
#[local] Hint Resolve I_statuses I_submits I_contests I_rollback carried_save_submits carried_save_contests : keeps.
#[local] Hint Extern 4 (I (set_table (update_match _ _ (table_of _)) _)) => by apply I_job : keeps.

Lemma carried_load_attempts u plat needAll n e : keeps I (load_attempts u plat needAll n e).
Proof. revert e. induction n as [|n IH]; intros e; simpl; solve_keeps. Qed.
#[local] Hint Resolve carried_load_attempts : keeps.
Lemma carried_load_platforms u needAll plats : keeps I (load_platforms j u needAll plats).
Proof. induction plats as [|plat plats IH]; simpl; solve_keeps. Qed.
Lemma carried_filter u plats : keeps I (filterRecentCodeforcesRefresh u plats).
Proof. induction plats as [|plat plats IH]; simpl; solve_keeps. Qed.
#[local] Hint Resolve carried_load_platforms carried_filter : keeps.
Lemma carried_LoadData u needAll p : keeps I (LoadData j u needAll p).
Proof. unfold LoadData. solve_keeps. Qed.
End carried_out.

(** The jobs but [j] that are not over have their events on [q]. *)
Definition others (q : list SpiderEvent) (j : Z) (d : core_db) : Prop :=
  forall r, r ∈ rows (jobs d) -> j_ID r <> j -> is_active r = true -> exists e, e ∈ q /\ e_JobId e = j_ID r.

Lemma others_LoadData `{Fetchers} q j u needAll p : keeps (others q j) (LoadData j u needAll p).
Proof.
  apply carried_LoadData; [done..|].
  intros f d Hf Hd r (r0 & Hr0 & ->)%elem_of_update Hne Ha. unfold visible, by_id in *. simpl in *.
  destruct (bool_decide (j_ID r0 = j)) eqn:E; [|by apply Hd]. bool_cases. by rewrite Hf in Hne.
Qed.

(** No record of a job is lost. *)
Definition job_numbers (d : core_db) : list Z := map j_ID (rows (jobs d)).

Lemma numbers_LoadData `{Fetchers} l j u needAll p : keeps (fun d => job_numbers d = l) (LoadData j u needAll p).
Proof.
  apply carried_LoadData; [done..|]. intros f d Hf <-. unfold job_numbers. simpl. rewrite map_map.
  apply map_ext. intros r. destruct (visible (by_id j) r); [apply Hf | done].
Qed.

Lemma steady_LoadData `{Fetchers} j u needAll p : steady (LoadData j u needAll p).
Proof.
  pose proof steady_load_attempts. pose proof steady_load_platforms. pose proof steady_filter.
  unfold LoadData. solve_steady.
Qed.

(** A job that ended is not active. *)
Lemma ended_idle j o d r : table_wf (jobs d) -> job_ended j o d -> r ∈ rows (jobs d) -> j_ID r = j -> is_active r = false.
Proof.
  intros Hwf (r' & Hr' & Ho) Hr Hid. pose proof (has_row_in _ _ _ Hr') as [Hin _].
  rewrite (table_wf_unique (jobs d) r r'); [|done|done|done|by rewrite (has_row_id _ _ _ Hr')].
  unfold is_active. destruct o; destruct Ho as [-> _]; done.
Qed.

(** A message other than number [i] stays. *)
Lemma elem_of_others {A} (l : list A) i x y : l !! i = Some x -> y ∈ l -> y <> x -> y ∈ delete i l.
Proof.
  intros Hi Hy Hne. rewrite <- (take_drop_middle l i x Hi) in Hy. rewrite delete_take_drop.
  set_unfold. naive_solver.
Qed.

(** A delivery ends the job it names, and no other job is lost. *)
Lemma deliver_tracked `{Fetchers} i w : healthy w -> core_ok (w_db w) -> numbers_fit (w_db w) -> tracked (w_db w) ->
  healthy (deliver i w).2 /\ tracked (w_db (deliver i w).2)
  /\ spider_queue (w_db (deliver i w).2) = delete i (spider_queue (w_db w))
  /\ job_numbers (w_db (deliver i w).2) = job_numbers (w_db w).
Proof.
  intros Hw Hok Hfit Ht. unfold deliver. set (q := spider_queue (w_db w)).
  destruct (q !! i) as [e|] eqn:Hi; [|].
  2:{ apply lookup_ge_None_1 in Hi. rewrite delete_take_drop, take_ge, drop_ge, app_nil_r by lia. done. }
  assert (e ∈ q) as He by by eapply list_elem_of_lookup_2.
  destruct (Hfit e He) as [Hu Hj]. destruct (ok_queue _ Hok e He) as (r & Hr & Hid & _).
  pose proof (ok_jobs _ Hok) as Hwf. set (w1 := set_db (set_queue (delete i q) (w_db w)) w).
  destruct (event_read_any e Hu Hj) as (p & Hread & _). unfold consume. rewrite Hread. cbn.
  assert (0 < e_JobId e) as Hpos.
  { destruct Hwf as (_ & Hall & _). rewrite Forall_forall in Hall. specialize (Hall r Hr). simpl in Hall. lia. }
  assert (job_present (e_JobId e) (w_db w1)) as Hpresent by (exists r; by apply has_row_iff).
  assert (others (delete i q) (e_JobId e) (w_db w1)) as Hothers.
  { intros r' Hr' Hne Ha. destruct (Ht r' Hr' Ha) as (e' & He' & Heq). exists e'. split; [|done].
    eapply elem_of_others; [done..|]. congruence. }
  pose proof (LoadData_ends (e_JobId e) (e_UserId e) (e_NeedAll e) p w1 Hw Hpos Hpresent) as Hend.
  pose proof (others_LoadData _ _ (e_UserId e) (e_NeedAll e) p w1 Hothers) as Hothers'.
  pose proof (queue_LoadData _ (e_JobId e) (e_UserId e) (e_NeedAll e) p w1 eq_refl) as Hq.
  pose proof (steady_LoadData (e_JobId e) (e_UserId e) (e_NeedAll e) p w1) as [Hf _].
  pose proof (numbers_LoadData _ (e_JobId e) (e_UserId e) (e_NeedAll e) p w1 eq_refl) as Hnum.
  assert (core_ok (w_db w1)) as Hok1.
  { apply ok_set_queue; [|done]. intros e' Hin%list_elem_of_delete_inv. by apply (ok_queue _ Hok). }
  pose proof (ok_LoadData (e_JobId e) (e_UserId e) (e_NeedAll e) p w1 Hok1) as Hok2.
  unfold wpd, mbind, M_bind, attempt in *.
  destruct (LoadData (e_JobId e) (e_UserId e) (e_NeedAll e) p w1) as [o w2]. cbn in *.
  split_and!; [intros n; rewrite Hf; apply Hw| |done|done]. intros r' Hr' Ha.
  destruct (decide (j_ID r' = e_JobId e)) as [Heq|Hne].
  - rewrite (ended_idle _ _ _ _ (ok_jobs _ Hok2) Hend Hr' Heq) in Ha. done.
  - rewrite Hq. by apply Hothers'.
Qed.

(** ** Every call *)

Lemma tracked_limiters l d : tracked d -> tracked (set_limiters l d).
Proof. done. Qed.
Lemma tracked_last_cleanup t d : tracked d -> tracked (set_last_cleanup t d).
Proof. done. Qed.
#[export] Hint Resolve calm_Do : calm.
#[export] Hint Resolve tracked_limiters tracked_last_cleanup : keeps.
#[export] Hint Extern 4 (tracked (set_table _ _)) => assumption : keeps.

Section steady_calls.
Context `{Fetchers} `{RateLimit} `{Jsonb} `{Collation} `{ContestPages} `{UserService} `{ProfileLister}.

Lemma steady_more_pages {D} l : steady (D := D) (more_pages l).
Proof. induction l as [|i l IH]; simpl; solve_steady. Qed.
Lemma steady_audit u t sts plats : steady (audit_platforms u t sts plats).
Proof. induction plats as [|p plats IH]; simpl; solve_steady. Qed.
Lemma steady_atcoder_ranks c m us : steady (fetch_atcoder_ranks c m us).
Proof. induction us as [|u us IH]; simpl; solve_steady. Qed.
Lemma steady_del_keys ks : steady (del_keys ks).
Proof.
  unfold del_keys. apply steady_bind; [|solve_steady]. apply steady_attempt. intros w.
  cbv zeta. pose proof (steady_redis_del ks w) as Hr. by destruct (redis_del ks w) as [[]].
Qed.
Lemma steady_batches ks : forall batch n, steady (unlink_batches ks batch n).
Proof.
  induction ks as [|k ks IH]; intros batch n; simpl.
  - destruct batch; [solve_steady|]. apply steady_bind; [apply steady_del_keys | solve_steady].
  - case_decide; [apply steady_bind; [apply steady_del_keys | auto] | auto].
Qed.
Lemma steady_patterns ps : forall n, steady (unlink_patterns ps n).
Proof.
  induction ps as [|p ps IH]; intros n; simpl; [solve_steady|].
  apply steady_bind; [solve_steady|]. intros r. apply steady_bind; [apply steady_batches | auto].
Qed.
Lemma steady_cleanup_due t : steady (cleanup_due t).
Proof. intros w. unfold cleanup_due. by case_match. Qed.
Lemma steady_allow k i : steady (allow_request k i).
Proof. unfold allow_request. apply steady_bind; [solve_steady|]. by intros t w. Qed.
Lemma steady_zrange k max n : steady (redis_zrange k max n).
Proof. intros w. unfold redis_zrange. repeat case_match; split; done. Qed.
Lemma steady_page {R} `{Entity R} `{Holds core_db R} `{Gob R} (time_of : R -> Z) zero sk dk q agrees cursor limit :
  steady (page time_of zero sk dk q agrees cursor limit).
Proof.
  pose proof steady_zrange. assert (forall n, steady (db_page time_of sk dk q n)) as Hdb.
  { intros n. unfold db_page, set_cache. solve_steady. }
  unfold page, cached_rows. cbv zeta. solve_steady.
Qed.
End steady_calls.
#[export] Hint Resolve steady_more_pages steady_audit steady_atcoder_ranks steady_del_keys steady_patterns
  steady_cleanup_due steady_allow steady_page : steady.

Section tracked_calls.
Context `{Fetchers} `{RateLimit} `{Jsonb} `{Collation} `{ContestPages} `{UserService} `{ProfileLister}.
Context `{Gob (list PlatformPeriodCount)} `{Gob (PeriodSubmitCount * PeriodAcCount)} `{Gob SubmitLog} `{Gob ContestLog}.

Lemma tracked_cleanup_due t : keeps tracked (cleanup_due t).
Proof. intros w Hw. unfold cleanup_due. by case_match. Qed.
Lemma tracked_allow k i : keeps tracked (allow_request k i).
Proof. unfold allow_request. apply keeps_bind; [solve_keeps|]. by intros t w Hw. Qed.
#[local] Hint Resolve tracked_cleanup_due tracked_allow : keeps.

Lemma calm_rebuild req us : forall reply, calm tracked (rebuild_loop req us reply).
Proof. induction us as [|u us IH]; intros reply; simpl; solve_calm. Qed.
Lemma calm_cron : calm tracked cron_hourly.
Proof.
  unfold cron_hourly. apply calm_bind; [|solve_calm].
  apply calm_keeps; [solve_steady | apply keeps_reads, reads_getUserIds].
Qed.
Lemma calm_SetSpider c u p n : calm tracked (svc_SetSpider c u p n).
Proof. unfold svc_SetSpider. cbv zeta. solve_calm. Qed.
Lemma calm_Update c u p h : calm tracked (svc_SpiderUpdate c u p h).
Proof. unfold svc_SpiderUpdate. cbv zeta. solve_calm. Qed.
Lemma calm_Retry c j : calm tracked (svc_Retry c j).
Proof. unfold svc_Retry. solve_calm. Qed.
#[local] Hint Resolve calm_rebuild calm_cron calm_SetSpider calm_Update calm_Retry : calm.
Lemma calm_RebuildAll c : calm tracked (svc_RebuildAll c).
Proof. unfold svc_RebuildAll. solve_calm. Qed.
#[local] Hint Resolve calm_RebuildAll : calm.

Lemma calm_core_http r m : core_http r = Some m -> calm tracked m.
Proof.
  unfold core_http, core_http_as.
  repeat case_decide; intros [= <-]; unfold only, with_int, route_retry, route_rebuild_all, writeHTTPJSON; cbv zeta;
    solve_calm.
Qed.

(** Calls other than deliveries, in runs without failures. *)
Lemma calm_serve r : (forall i, r <> CoDeliver i) -> calm tracked (serve_core r).
Proof.
  intros Hr. destruct r; cbn [serve_core]; [|solve_calm..|by destruct (Hr i)].
  destruct (core_http r) eqn:E; [apply calm_bind; [by eapply calm_core_http|] | ]; solve_calm.
Qed.

(** All calls: a delivery needs the well-formed state it is made in. *)
Lemma tracked_serve r w : healthy w -> core_ok (w_db w) -> numbers_fit (w_db w) -> tracked (w_db w) ->
  tracked (w_db (serve_core r w).2).
Proof.
  intros Hw Hok Hfit Ht. assert ((exists i, r = CoDeliver i) \/ forall i, r <> CoDeliver i) as [[i ->]|Hr] by (destruct r; (by right) || (left; by eexists)).
  - pose proof (deliver_tracked i w Hw Hok Hfit Ht) as (_ & Hd & _). cbn [serve_core]. unfold mbind, M_bind.
    by destruct (deliver i w) as [[]].
  - by apply calm_serve.
Qed.
End tracked_calls.

(** ** Draining the queue *)

Section drained.
Context `{Fetchers}.

Lemma deliver_first w e q : spider_queue (w_db w) = e :: q -> exists r, (deliver 0 w).1 = Val (Some r).
Proof.
  intros Hq. unfold deliver. rewrite Hq. cbn [lookup list_lookup]. unfold consume.
  destruct (unmarshal_event (event_json e)) as [msg|]; cbn; by eexists.
Qed.

Lemma numbers_fit_delete i d d' : spider_queue d' = delete i (spider_queue d) -> numbers_fit d -> numbers_fit d'.
Proof. intros Hq Hd e He. rewrite Hq in He. by apply Hd, (list_elem_of_delete_inv _ i). Qed.

Lemma drain_ends n : forall w, healthy w -> core_ok (w_db w) -> numbers_fit (w_db w) -> tracked (w_db w) ->
  (length (spider_queue (w_db w)) <= n)%nat ->
  let d := w_db (drain n w).2 in
  core_ok d /\ tracked d /\ spider_queue d = [] /\ job_numbers d = job_numbers (w_db w).
Proof.
  induction n as [|n IH]; intros w Hw Hok Hfit Ht Hn.
  - cbn. split_and!; [done..| |done]. by apply nil_length_inv, Nat.le_0_r.
  - destruct (spider_queue (w_db w)) as [|e q] eqn:Hq.
    { cbn [drain]. unfold mbind, M_bind, deliver. by rewrite Hq. }
    destruct (deliver_first w e q Hq) as [r Hr]. destruct (deliver_tracked 0 w Hw Hok Hfit Ht) as (Hw' & Ht' & Hq' & Hnum).
    pose proof (ok_deliver 0 w Hok) as Hok'. pose proof (numbers_fit_delete 0 _ _ Hq' Hfit) as Hfit'.
    cbn [drain]. unfold mbind, M_bind. destruct (deliver 0 w) as [o w1]. cbn in *. subst o.
    destruct (IH w1) as (? & ? & ? & Hn'); [done..| |]; [rewrite Hq', Hq; simpl in *; lia|].
    split_and!; [done..|congruence].
Qed.
End drained.

(** A job that is not active is over. *)
Lemma idle_states j : j_Status j ∈ job_states -> is_active j = false -> j_Status j ∈ ["success"; "failed"].
Proof.
  unfold job_states, is_active. intros Hs Ha. bool_cases. set_unfold in Hs. set_unfold. tauto.
Qed.
