(* ===== verification/StatisticTheory.v ===== *)
(** What the statistics count: the grouped queries against the single ones, and how
    the periods lie within each other. *)
From S2P Require Export StatisticDal.

(** ** Counting *)

Lemma count_distinct_size {A} (key : A -> string) (l : list A) :
  count_distinct key l = Z.of_nat (size (list_to_set (map key l) : gset string)).
Proof.
  unfold count_distinct. f_equal. rewrite <- (size_list_to_set (C := gset string) (remove_dups (map key l)))
    by apply NoDup_remove_dups. f_equal. apply leibniz_equiv. intros x.
  by rewrite !elem_of_list_to_set, elem_of_remove_dups.
Qed.

Lemma count_distinct_mono {A} (key : A -> string) (l l' : list A) :
  (forall x, x ∈ l -> x ∈ l') -> count_distinct key l <= count_distinct key l'.
Proof.
  intros H. rewrite !count_distinct_size. apply inj_le, subseteq_size.
  intros k. rewrite !elem_of_list_to_set, !list_elem_of_fmap. intros (x & -> & Hx). eauto.
Qed.

Lemma count_distinct_le {A} (key : A -> string) (l : list A) :
  count_distinct key l <= Z.of_nat (length l).
Proof.
  unfold count_distinct. rewrite <- (length_map key l). apply inj_le.
  induction (map key l) as [|k ks IH]; [done|]. cbn [remove_dups]. case_decide; simpl; lia.
Qed.

Lemma length_where_split {A} (p : A -> bool) (l : list A) :
  length l = (length (where_ p l) + length (where_ (fun x => negb (p x)) l))%nat.
Proof. induction l as [|x l IH]; [done|]. simpl. destruct (p x); simpl; lia. Qed.

Lemma count_where_mono {A} (p q : A -> bool) (l : list A) :
  (forall x, p x = true -> q x = true) -> count_where p l <= count_where q l.
Proof.
  intros H. unfold count_where. rewrite (length_where_split p (where_ q l)), where_where.
  rewrite (where_ext p (fun x => q x && p x) l); [lia|].
  intros x _. specialize (H x). destruct (p x), (q x); naive_solver.
Qed.

Lemma count_where_disjoint {A} (p q r : A -> bool) (l : list A) :
  (forall x, p x = true -> r x = true /\ q x = false) -> (forall x, q x = true -> r x = true) ->
  count_where p l + count_where q l <= count_where r l.
Proof.
  intros Hp Hq. unfold count_where. rewrite (length_where_split p (where_ r l)), !where_where.
  rewrite (where_ext p (fun x => r x && p x) l).
  2: { intros x _. specialize (Hp x). destruct (p x), (r x); naive_solver. }
  enough (count_where q l <= count_where (fun x => r x && negb (p x)) l) by (unfold count_where in *; lia).
  apply count_where_mono. intros x Hx. specialize (Hp x). rewrite (Hq x Hx).
  destruct (p x); [|done]. destruct (Hp eq_refl). congruence.
Qed.

(** ** Partitions *)

Section partition.
Context {A K : Type} `{EqDecision K} (cls : A -> K).

Definition part (l : list A) (k : K) : list A := where_ (fun x => bool_decide (cls x = k)) l.

Lemma part_where p l k : part (where_ p l) k = where_ p (part l k).
Proof. unfold part. rewrite !where_where. apply where_ext. intros x _. apply andb_comm. Qed.

(** A measure that adds up over two parts adds up over all of them. *)
Lemma measure_partition (f : list A -> Z) (ks : list K) (l : list A) :
  f [] = 0 ->
  (forall k l', (forall x, x ∈ l' -> x ∈ l) ->
     f l' = f (part l' k) + f (where_ (fun x => negb (bool_decide (cls x = k))) l')) ->
  NoDup ks -> (forall x, x ∈ l -> cls x ∈ ks) ->
  f l = sum_list_Z (map (fun k => f (part l k)) ks).
Proof.
  intros H0 Hf Hks. revert l Hf. induction Hks as [|k ks Hk Hks IH]; intros l Hf Hl.
  { destruct l as [|x l]; [done|]. exfalso. specialize (Hl x ltac:(left)). set_solver. }
  rewrite (Hf k l) by done. cbn [map sum_list_Z foldr]. f_equal. fold (sum_list_Z (map (fun k => f (part l k)) ks)).
  rewrite IH.
  - f_equal. apply map_ext_in. intros k' Hk'. f_equal. unfold part. rewrite where_where.
    apply where_ext. intros x _. destruct (bool_decide_reflect (cls x = k)) as [Hx|Hx]; [|done].
    simpl. symmetry. apply bool_decide_eq_false. intros Hx'. apply Hk.
    rewrite <- Hx, Hx'. by apply list_elem_of_In.
  - intros k' l' Hl'. apply Hf. intros x Hx. by apply Hl', elem_of_where in Hx as [? _].
  - intros x [Hx Hn]%elem_of_where. bool_cases. specialize (Hl x Hx). set_solver.
Qed.

Lemma count_partition (p : A -> bool) ks l : NoDup ks -> (forall x, x ∈ l -> cls x ∈ ks) ->
  count_where p l = sum_list_Z (map (fun k => count_where p (part l k)) ks).
Proof.
  apply (measure_partition (count_where p)); [done|]. intros k l' _.
  unfold count_where, part. rewrite (length_where_split (fun x => bool_decide (cls x = k)) (where_ p l')).
  rewrite !where_where, Nat2Z.inj_add. f_equal; do 2 f_equal; apply where_ext; intros; apply andb_comm.
Qed.

(** The keys of different classes differ. *)
Lemma distinct_partition (key : A -> string) (p : A -> bool) ks l :
  (forall x y, x ∈ l -> y ∈ l -> key x = key y -> cls x = cls y) ->
  NoDup ks -> (forall x, x ∈ l -> cls x ∈ ks) ->
  count_distinct key (where_ p l) = sum_list_Z (map (fun k => count_distinct key (where_ p (part l k))) ks).
Proof.
  intros Hkey. apply (measure_partition (fun l => count_distinct key (where_ p l))); [done|].
  intros k l' Hl'. unfold part. rewrite !count_distinct_size, <- Nat2Z.inj_add, <- size_union.
  - do 2 f_equal. apply leibniz_equiv. intros z.
    rewrite elem_of_union, !elem_of_list_to_set, !list_elem_of_fmap.
    split.
    + intros (x & -> & [Hx Hp]%elem_of_where).
      destruct (decide (cls x = k)); [left|right]; exists x; (split; [done|]);
        rewrite !elem_of_where; case_bool_decide; naive_solver.
    + intros [(x & -> & Hx)|(x & -> & Hx)]; exists x; (split; [done|]);
        rewrite !elem_of_where in *; naive_solver.
  - intros z. rewrite !elem_of_list_to_set, !list_elem_of_fmap.
    intros (x & -> & Hx) (y & Hxy & Hy). rewrite !elem_of_where in *.
    destruct Hx as [[Hx1 Hx2] _], Hy as [[Hy1 Hy2] _]. bool_cases. apply Hy2.
    by rewrite <- (Hkey x y) by auto.
Qed.
End partition.

(** ** The keys of problems *)

Lemma acDistinctKey_user x y : acDistinctKey x = acDistinctKey y -> s_UserID x = s_UserID y.
Proof.
  intros He. unfold acDistinctKey in He. apply (f_equal bytes_of) in He.
  rewrite !app_bytes in He. apply split_at_unique in He as [He _]; [|by apply number_no_sep..].
  apply (f_equal of_bytes) in He. rewrite !of_bytes_of in He. by apply (inj pretty).
Qed.

(** The name of a platform has no bar in it. *)
Definition bar_free (s : string) : bool := negb (contains s "|").

Lemma bar_free_bytes s : bar_free s = true -> byte_of 124 ∉ bytes_of s.
Proof.
  unfold bar_free. rewrite negb_true_iff. intros Hs Hin.
  apply list_elem_of_split in Hin as (l1 & l2 & Hl). assert (contains s "|" = true); [|congruence].
  apply contains_spec. exists (of_bytes l1), (of_bytes l2).
  by rewrite <- (of_bytes_of s), Hl, of_bytes_app.
Qed.

Lemma acDistinctKey_platform x y : bar_free (s_Platform x) = true -> bar_free (s_Platform y) = true ->
  acDistinctKey x = acDistinctKey y -> s_Platform x = s_Platform y.
Proof.
  intros Hx%bar_free_bytes Hy%bar_free_bytes He. unfold acDistinctKey in He. apply (f_equal bytes_of) in He.
  rewrite !app_bytes in He. apply split_at_unique in He as [_ He]; [|by apply number_no_sep..].
  apply split_at_unique in He as [He _]; [|done..].
  by rewrite <- (of_bytes_of (s_Platform x)), <- (of_bytes_of (s_Platform y)), He.
Qed.

(** ** Runs without failures *)

(** On tables [d], [m] returns [a] and leaves them alone. *)
Definition gives {A} (m : CM A) (d : core_db) (a : A) : Prop :=
  forall w, healthy w -> w_db w = d -> (m w).1 = Val a /\ healthy (m w).2 /\ w_db (m w).2 = d.

Lemma gives_bind {A B} (m : CM A) (f : A -> CM B) d a b :
  gives m d a -> gives (f a) d b -> gives (m ≫= f) d b.
Proof.
  intros Hm Hf w Hw Hd. unfold mbind, M_bind. destruct (Hm w Hw Hd) as (H1 & H2 & H3).
  destruct (m w) as [[a'|e] w']; simplify_eq/=. by apply Hf.
Qed.

Lemma gives_eq {A} (m : CM A) d a a' : gives m d a -> a = a' -> gives m d a'.
Proof. by intros ? <-. Qed.

Lemma gives_ret {A} (a : A) d : gives (mret a) d a.
Proof. done. Qed.

Lemma gives_query {A} (q : core_db -> A) d : gives (query q) d (q d).
Proof. intros w Hw <-. unfold query. rewrite Hw. repeat split. by apply healthy_tick. Qed.

Lemma gives_count_or_zero q d : gives (count_or_zero q) d (q d).
Proof.
  intros w Hw <-. unfold count_or_zero, mbind, M_bind, attempt, query. rewrite Hw.
  repeat split. by apply healthy_tick.
Qed.

Lemma gives_each_period {A B} (f : A -> CM B) g d p :
  (forall r, gives (f r) d (g r)) -> gives (each_period f p) d (pmap g p).
Proof. intros Hf. unfold each_period. repeat (eapply gives_bind; [apply Hf|]). apply gives_ret. Qed.

Lemma gives_now {B} (f : Z -> CM B) w b : healthy w ->
  gives (f (w_clock w (w_calls w))) (w_db w) b -> ((t ← now; f t) w).1 = Val b.
Proof. intros Hw Hf. by apply (Hf (tick w)). Qed.

Lemma gives_map_err {A} g (m : CM A) w a : (m w).1 = Val a -> (map_err g m w).1 = Val a.
Proof. unfold map_err. by destruct (m w) as [[?|?] ?]. Qed.

(** The rows of one user, or all of them. *)
Definition user_rows (userId : Z) (d : core_db) : list SubmitLog := where_ (of_user userId) (rows (submits d)).

Lemma GetPeriodCount_run userId w : healthy w -> (GetPeriodCount userId w).1 =
  let t := w_clock w (w_calls w) in let l := user_rows userId (w_db w) in
  Val (submit_counts t l, ac_counts t l).
Proof.
  intros Hw. unfold GetPeriodCount. apply gives_now; [done|].
  eapply gives_bind; [|eapply gives_bind; [|apply gives_ret]]; apply gives_each_period; intros r;
    (eapply gives_eq; [apply gives_count_or_zero|]).
  - unfold count_match, count_where, user_rows. by rewrite where_where.
  - unfold select, user_rows. f_equal. rewrite where_where. apply where_ext. intros x _. apply (andb_comm _ (of_user userId x)).
Qed.

(** ** Grouped queries *)

Lemma row_at_group_by {K B} `{EqDecision K} (key : SubmitLog -> K) (cols : list SubmitLog -> B) l zero k :
  cols [] = zero -> row_at (group_by key cols l) zero k = cols (part key l k).
Proof.
  intros Hz. unfold row_at, group_by.
  assert (forall ks, k ∈ ks -> List.find (fun r => bool_decide (r.1 = k))
    (map (fun k => (k, cols (part key l k))) ks) = Some (k, cols (part key l k))) as Hfind.
  { induction ks as [|k' ks IH]; [set_solver|]. intros Hk. simpl. case_bool_decide; [by subst|].
    apply IH. set_solver. }
  destruct (decide (k ∈ map key l)) as [Hk|Hk].
  - unfold part in *. by rewrite Hfind by by apply elem_of_remove_dups.
  - destruct (List.find _ _) as [[k' b]|] eqn:E.
    + apply find_some in E as [E1 E2]. bool_cases. simpl in *. subst k'.
      apply list_elem_of_In, list_elem_of_fmap in E1 as (k' & [= -> _] & E1). exfalso. apply Hk.
      by apply elem_of_remove_dups.
    + symmetry. rewrite <- Hz. f_equal. apply where_none. intros x Hx. bool_cases. intros <-.
      apply Hk. apply list_elem_of_fmap. eauto.
Qed.

Lemma counts_nil t : (submit_counts t [], ac_counts t []) = (zeros, zeros).
Proof. done. Qed.

Lemma GetPlatformPeriodCount_run userId ps w : healthy w -> (GetPlatformPeriodCount userId ps w).1 =
  let t := w_clock w (w_calls w) in let l := user_rows userId (w_db w) in
  Val (map (fun p => PlatformPeriod p (submit_counts t (part s_Platform l p)) (ac_counts t (part s_Platform l p))) ps).
Proof.
  intros Hw. unfold GetPlatformPeriodCount. apply gives_now; [done|].
  eapply gives_bind; [apply gives_query|]. eapply gives_eq; [apply gives_ret|].
  apply map_ext_in. intros p Hp%list_elem_of_In. rewrite row_at_group_by by done. simpl.
  assert (part s_Platform (select (fun s => bool_decide (s_Platform s ∈ ps) && of_user userId s) (submits (w_db w))) p
    = part s_Platform (user_rows userId (w_db w)) p) as ->; [|done].
  unfold part, select, user_rows. rewrite !where_where. apply where_ext. intros x _. unfold visible. simpl.
  destruct (bool_decide_reflect (s_Platform x = p)) as [<-|]; [|by rewrite !andb_false_r].
  by rewrite (bool_decide_true (s_Platform x ∈ ps)) by done.
Qed.

Lemma part_of_user u l : u <> -1 -> part s_UserID l u = where_ (of_user u) l.
Proof. intros Hu. apply where_ext. intros x _. unfold of_user. by rewrite (bool_decide_false (u = -1)) by done. Qed.

(** What [GetTeamPeriodCount] says of a user, from the rows of that user. *)
Definition member_of (t : Z) (l : list SubmitLog) (u : Z) : TeamMemberPeriodCount :=
  MemberPeriod u (submit_counts t l) (ac_counts t l) (count_where (fun s => waCondition (s_Status s)) l).

Lemma GetTeamPeriodCount_run ids w : healthy w -> (GetTeamPeriodCount ids w).1 =
  Val (map (fun u => member_of (w_clock w (w_calls w)) (part s_UserID (rows (submits (w_db w))) u) u) ids).
Proof.
  intros Hw. unfold GetTeamPeriodCount. apply gives_now; [done|].
  eapply gives_bind; [apply gives_query|]. eapply gives_eq; [apply gives_ret|].
  apply map_ext_in. intros u Hu%list_elem_of_In. rewrite row_at_group_by by done. simpl.
  assert (part s_UserID (select (fun s => bool_decide (s_UserID s ∈ ids)) (submits (w_db w))) u
    = part s_UserID (rows (submits (w_db w))) u) as ->; [|done].
  unfold part, select. rewrite where_where. apply where_ext. intros x _. unfold visible. simpl.
  destruct (bool_decide_reflect (s_UserID x = u)) as [<-|]; [|by rewrite andb_false_r].
  by rewrite (bool_decide_true (s_UserID x ∈ ids)) by done.
Qed.

Lemma TeamPeriodCount_run ids w : healthy w -> (TeamPeriodCount ids w).1 =
  Val (map (fun u => member_of (w_clock w (w_calls w)) (part s_UserID (rows (submits (w_db w))) u) u) ids).
Proof.
  intros Hw. unfold TeamPeriodCount. destruct ids as [|u ids]; [done|].
  by apply gives_map_err, GetTeamPeriodCount_run.
Qed.

(** ** Sums over users and platforms *)

Definition psum (l : list (periods Z)) : periods Z := foldr (pzip Z.add) zeros l.

Lemma pmap_ext {A B} (f g : A -> B) p : (forall r, f r = g r) -> pmap f p = pmap g p.
Proof. intros H. unfold pmap. by rewrite !H. Qed.

Lemma psum_pmap {A K} (g : K -> A -> Z) (ks : list K) p :
  psum (map (fun k => pmap (g k) p) ks) = pmap (fun r => sum_list_Z (map (fun k => g k r) ks)) p.
Proof. unfold psum. induction ks as [|k ks IH]; [done|]. cbn [map foldr]. by rewrite IH. Qed.

Section sums.
Context {K : Type} `{EqDecision K} (cls : SubmitLog -> K) (ks : list K) (l : list SubmitLog).
Hypothesis ks_nodup : NoDup ks.
Hypothesis ks_cover : forall x, x ∈ l -> cls x ∈ ks.

Lemma submit_counts_sum t :
  submit_counts t l = psum (map (fun k => submit_counts t (part cls l k)) ks).
Proof.
  unfold submit_counts. rewrite (psum_pmap (fun k r => count_where (in_range r) (part cls l k))).
  apply pmap_ext. intros r. by apply count_partition.
Qed.

Lemma ac_counts_sum t :
  (forall x y, x ∈ l -> y ∈ l -> acDistinctKey x = acDistinctKey y -> cls x = cls y) ->
  ac_counts t l = psum (map (fun k => ac_counts t (part cls l k)) ks).
Proof.
  intros Hkey. unfold ac_counts. rewrite (psum_pmap (fun k r => count_distinct acDistinctKey
    (where_ (fun s => acCondition (s_Status s) && in_range r s) (part cls l k)))).
  apply pmap_ext. intros r. by apply distinct_partition.
Qed.
End sums.

(** ** Adding up in machine integers *)

Lemma wrap_int64_add a b : wrap_int64 (wrap_int64 a + b) = wrap_int64 (a + b).
Proof.
  unfold wrap_int64. f_equal.
  replace ((a + 2 ^ 63) mod 2 ^ 64 - 2 ^ 63 + b + 2 ^ 63) with ((a + 2 ^ 63) mod 2 ^ 64 + b) by ring.
  rewrite Z.add_mod_idemp_l by done. f_equal. ring.
Qed.

Lemma add_int64_sum l a : in_int64 a -> foldl add_int64 a l = wrap_int64 (a + sum_list_Z l).
Proof.
  revert a. induction l as [|x l IH]; intros a Ha; simpl; [by rewrite Z.add_0_r, wrap_int64_id|].
  rewrite IH by apply wrap_int64_range. unfold add_int64. rewrite wrap_int64_add. f_equal.
  unfold sum_list_Z. simpl. lia.
Qed.

Lemma pzip_fold {A K} (f : Z -> Z -> Z) (g : K -> A -> Z) (ks : list K) h p :
  foldl (pzip f) (pmap h p) (map (fun k => pmap (g k) p) ks)
  = pmap (fun r => foldl f (h r) (map (fun k => g k r) ks)) p.
Proof.
  revert h. induction ks as [|k ks IH]; intros h; [done|]. cbn [map foldl].
  exact (IH (fun r => f (h r) (g k r))).
Qed.

Lemma add_member_fold tot ms : foldl add_member tot ms =
  MemberPeriod (mp_UserID tot) (foldl addSubmitCount (mp_Submit tot) (map mp_Submit ms))
    (foldl addAcCount (mp_Ac tot) (map mp_Ac ms)) (foldl add_int64 (mp_WaTotal tot) (map mp_WaTotal ms)).
Proof. revert tot. induction ms as [|m ms IH]; intros [u s a wa]; [done|]. simpl. by rewrite IH. Qed.

(** Sums that fit are exact. *)
Lemma add_int64_exact l n : sum_list_Z l = n -> in_int64 n -> foldl add_int64 0 l = n.
Proof. intros <- Hn. by rewrite add_int64_sum, Z.add_0_l, wrap_int64_id. Qed.

Lemma total_exact {K} (g : K -> option (Z * Z) -> Z) (f : option (Z * Z) -> Z) ks t :
  (forall r, f r = sum_list_Z (map (fun k => g k r) ks)) -> (forall r, in_int64 (f r)) ->
  foldl (pzip add_int64) zeros (map (fun k => pmap (g k) (ranges t)) ks) = pmap f (ranges t).
Proof.
  intros Hf Hin. change zeros with (pmap (fun _ : option (Z * Z) => 0) (ranges t)).
  rewrite (pzip_fold add_int64 g ks (fun _ => 0)). apply pmap_ext. intros r. by apply add_int64_exact.
Qed.

Lemma team_total_exact t l ids : Z.of_nat (length l) < 2 ^ 63 -> NoDup ids ->
  (forall x, x ∈ l -> s_UserID x ∈ ids) ->
  foldl add_member (MemberPeriod 0 zeros zeros 0)
    (map (fun u => member_of t (part s_UserID l u) u) ids) = member_of t l 0.
Proof.
  intros Hlen Hids Hcov. rewrite add_member_fold. unfold member_of. cbn [mp_UserID mp_Submit mp_Ac mp_WaTotal].
  assert (forall p : SubmitLog -> bool, in_int64 (count_where p l)) as Hfit.
  { intros p. unfold in_int64, count_where. pose proof (length_where_split p l). lia. }
  assert (forall p : SubmitLog -> bool, in_int64 (count_distinct acDistinctKey (where_ p l))) as Hfit'.
  { intros p. specialize (Hfit p). pose proof (count_distinct_le acDistinctKey (where_ p l)) as Hle.
    unfold in_int64, count_where, count_distinct in *. lia. }
  f_equal.
  - rewrite map_map. apply (total_exact (fun u r => count_where (in_range r) (part s_UserID l u))); [|done].
    intros r. by apply count_partition.
  - rewrite map_map. apply (total_exact (fun u r => count_distinct acDistinctKey
      (where_ (fun s => acCondition (s_Status s) && in_range r s) (part s_UserID l u)))); [|done].
    intros r. apply distinct_partition; [|done..]. intros x y _ _. apply acDistinctKey_user.
  - rewrite map_map. apply add_int64_exact; [|done]. symmetry. by apply count_partition.
Qed.

(** ** Periods within periods *)

(** [r] ends before [r'] begins, or lies inside it. *)
Definition within (r r' : option (Z * Z)) : Prop := forall s, in_range r s = true -> in_range r' s = true.
Definition apart (r r' : option (Z * Z)) : Prop := forall s, in_range r s = true -> in_range r' s = false.

Lemma within_interval a b a' b' : a' <= a -> b <= b' -> within (Some (a, b)) (Some (a', b')).
Proof. intros H1 H2 s. simpl. rewrite !andb_true_iff, !bool_decide_eq_true. lia. Qed.
Lemma within_all r : within r None.
Proof. done. Qed.
Lemma apart_interval a b c : apart (Some (a, b)) (Some (b, c)).
Proof.
  intros s. simpl. rewrite andb_true_iff, !bool_decide_eq_true. intros [H1 H2].
  rewrite bool_decide_false by lia. done.
Qed.
#[local] Hint Resolve within_interval within_all apart_interval : core.

(** How a table of counts is ordered, when a longer period counts no less. *)
Definition nested (p : periods Z) : Prop :=
  0 <= Today p /\ Today p <= ThisWeek p /\ Today p <= ThisMonth p /\ ThisMonth p <= ThisYear p /\
  ThisWeek p <= Total p /\ ThisYear p <= Total p /\
  0 <= LastWeek p <= Total p /\ 0 <= LastMonth p <= Total p /\ 0 <= LastYear p <= Total p.

(** Counts that add up besides: a period and the one before it have nothing in common. *)
Definition consecutive (p : periods Z) : Prop :=
  LastWeek p + ThisWeek p <= Total p /\ LastMonth p + ThisMonth p <= Total p /\
  LastYear p + ThisYear p <= Total p.

Definition below (p q : periods Z) : Prop :=
  Today p <= Today q /\ ThisWeek p <= ThisWeek q /\ LastWeek p <= LastWeek q /\
  ThisMonth p <= ThisMonth q /\ LastMonth p <= LastMonth q /\ ThisYear p <= ThisYear q /\
  LastYear p <= LastYear q /\ Total p <= Total q.

Lemma ranges_nested t : let p := ranges t in
  within (Today p) (ThisWeek p) /\ within (Today p) (ThisMonth p) /\ within (ThisMonth p) (ThisYear p).
Proof.
  pose proof (week_start_spec (local_day t)) as [Hw _].
  pose proof (month_of_spec (local_day t)) as [_ Hm].
  pose proof (month_start_in (year_of (local_day t)) (month_of (local_day t))) as Hin.
  pose proof (month_of_spec (local_day t)) as [Hr _].
  replace ((month_of (local_day t) - 1) / 12) with 0 in Hin by (symmetry; apply Z.div_small; lia).
  rewrite Z.add_0_r in Hin.
  cbn [ranges Today ThisWeek ThisMonth ThisYear]. cbv zeta. rewrite month_start_january.
  split_and!; apply within_interval; try done; unfold getWeekStart; apply midnight_mono; lia.
Qed.

Lemma nested_counts (f : option (Z * Z) -> Z) t : (forall r, 0 <= f r) ->
  (forall r r', within r r' -> f r <= f r') -> nested (pmap f (ranges t)).
Proof.
  intros H0 Hf. destruct (ranges_nested t) as (H1 & H2 & H3).
  unfold nested. cbn [pmap Today ThisWeek LastWeek ThisMonth LastMonth ThisYear LastYear Total].
  repeat split; auto.
Qed.

Lemma submit_counts_nested t l : nested (submit_counts t l).
Proof.
  apply nested_counts; [intros; apply count_where_nonneg|]. intros r r' Hr. by apply count_where_mono.
Qed.

Lemma ac_counts_nested t l : nested (ac_counts t l).
Proof.
  apply nested_counts; [intros; unfold count_distinct; lia|]. intros r r' Hr. apply count_distinct_mono.
  intros x. rewrite !elem_of_where. intros [Hx [Ha Hi]%andb_true_iff]. rewrite Ha. split; [done|]. by apply Hr.
Qed.

Lemma submit_counts_consecutive t l : consecutive (submit_counts t l).
Proof.
  unfold consecutive. repeat split; (apply count_where_disjoint; [|done]); intros x Hx;
    (split; [done|]); revert Hx; apply apart_interval.
Qed.

Lemma ac_counts_below t l : below (ac_counts t l) (submit_counts t l).
Proof.
  assert (forall r, count_distinct acDistinctKey (where_ (fun s => acCondition (s_Status s) && in_range r s) l)
    <= count_where (in_range r) l) as H.
  { intros r. etrans; [apply count_distinct_le|]. apply count_where_mono. intros x. by rewrite andb_true_iff; intros []. }
  unfold below. repeat split; apply H.
Qed.
