(* ===== verification/OpsProps.v ===== *)
(** The properties of the statistics, the snapshots, the cache and the bulletins, with
    instances on concrete data. *)
From S2P Require Export StatisticTheory SnapshotTheory BulletinService CoreProps.

(** ** Statistics *)

(** User 7 solved a problem twice on QOJ, user 8 one on AtCoder, all of it on
    1 January 1970. *)
Definition sample_counts : core_db :=
  CoreDb (platforms sample_core) (statuses sample_core) (jobs sample_core)
    (Table [Submission 1 "QOJ" 7 "1" "" "A" "C++" "AC" 0; Submission 2 "QOJ" 7 "2" "" "A" "C++" "AC" 0;
            Submission 3 AtCoder 8 "3" "" "B" "C++" "WA" 0; Submission 4 AtCoder 8 "4" "" "B" "C++" "AC" 0] 5)
    (Table [] 1) (Table [] 1) (Table [] 1) (Table [] 1) [] ∅ zero_time.
(** Half a minute into that day. *)
Definition sample_noon : world core_db := World sample_counts ∅ 0 (fun _ => None) (fun _ => 30 * second).

(** The statistics of a team say of each member what the statistics of that user
    say at the same moment, although they are counted by one grouped query instead of
    sixteen single ones; and when the team is everybody, the totals that the handler
    adds up in 64 bits are the statistics of the whole site. *)
Theorem team_period_agrees (ids : list Z) (w : world core_db) :
  healthy w -> -1 ∉ ids ->
  exists members total, (svc_TeamPeriod ids w).1 = Val (TeamReply members total) /\
    map mp_UserID members = ids /\
    Forall (fun m => (GetPeriodCount (mp_UserID m) w).1 = Val (mp_Submit m, mp_Ac m)) members /\
    (NoDup ids -> (forall s, s ∈ rows (submits (w_db w)) -> s_UserID s ∈ ids) ->
     Z.of_nat (length (rows (submits (w_db w)))) < 2 ^ 63 ->
     (GetPeriodCount (-1) w).1 = Val (mp_Submit total, mp_Ac total)).
Proof.
  intros Hw Hids. set (t := w_clock w (w_calls w)). set (l := rows (submits (w_db w))).
  set (ms := map (fun u => member_of t (part s_UserID l u) u) ids).
  exists ms, (foldl add_member (MemberPeriod 0 zeros zeros 0) ms). split_and!.
  - unfold svc_TeamPeriod, mbind, M_bind. pose proof (TeamPeriodCount_run ids w Hw) as Hrun.
    destruct (TeamPeriodCount ids w) as [o w']. simpl in Hrun. by rewrite Hrun.
  - unfold ms. rewrite map_map. apply map_id.
  - unfold ms. apply Forall_forall. intros m (u & -> & Hu)%list_elem_of_fmap.
    unfold member_of. cbn [mp_UserID mp_Submit mp_Ac]. rewrite GetPeriodCount_run by done. fold t. cbv zeta. unfold user_rows. rewrite <- part_of_user; [reflexivity|].
    intros ->. by apply Hids, list_elem_of_In.
  - intros Hnd Hcov Hlen. rewrite GetPeriodCount_run by done. fold t. cbv zeta. unfold ms.
    rewrite (team_total_exact t l ids) by assumption. unfold member_of. cbn [mp_Submit mp_Ac].
    assert (user_rows (-1) (w_db w) = l) as ->; [|reflexivity]. by apply where_all.
Qed.

Lemma team_period_agrees_witness :
  exists members total, (svc_TeamPeriod [8; 7] sample_noon).1 = Val (TeamReply members total) /\
    map mp_UserID members = [8; 7] /\
    Forall (fun m => (GetPeriodCount (mp_UserID m) sample_noon).1 = Val (mp_Submit m, mp_Ac m)) members /\
    (NoDup [8; 7] -> (forall s, s ∈ rows (submits sample_counts) -> s_UserID s ∈ [8; 7]) ->
     Z.of_nat (length (rows (submits sample_counts))) < 2 ^ 63 ->
     (GetPeriodCount (-1) sample_noon).1 = Val (mp_Submit total, mp_Ac total)).
Proof.
  apply (team_period_agrees [8; 7] sample_noon); [done|]. set_solver.
Defined.

(** The rows of the statistics by platform add up to the statistics of the user, in
    submissions and in distinct problems solved, when the platforms asked for are all
    that the user has submissions on. *)
Theorem platform_periods_add_up (userId : Z) (w : world core_db) :
  healthy w -> (forall s, s ∈ user_rows userId (w_db w) -> s_Platform s ∈ statistic_platforms) ->
  exists items, (GetPlatformPeriodCount userId statistic_platforms w).1 = Val items /\
    map pp_Platform items = statistic_platforms /\
    (GetPeriodCount userId w).1 = Val (psum (map pp_Submit items), psum (map pp_Ac items)).
Proof.
  intros Hw Hcov. rewrite GetPlatformPeriodCount_run, GetPeriodCount_run by done. cbv zeta.
  set (l := user_rows userId (w_db w)). set (t := w_clock w (w_calls w)).
  assert (NoDup statistic_platforms) as Hnd by (apply (bool_decide_unpack _); vm_compute; exact I).
  assert (Forall (fun p => bar_free p = true) statistic_platforms) as Hbar by by repeat constructor.
  eexists. split; [done|]. split; [by rewrite map_map, map_id|]. rewrite !map_map. cbn [pp_Submit pp_Ac]. do 2 f_equal.
  - by apply submit_counts_sum.
  - apply ac_counts_sum; [done..|]. rewrite Forall_forall in Hbar.
    intros x y Hx Hy. apply acDistinctKey_platform; apply Hbar; by apply Hcov.
Qed.

Lemma platform_periods_add_up_witness :
  exists items, (GetPlatformPeriodCount 7 statistic_platforms sample_noon).1 = Val items /\
    map pp_Platform items = statistic_platforms /\
    (GetPeriodCount 7 sample_noon).1 = Val (psum (map pp_Submit items), psum (map pp_Ac items)).
Proof.
  apply (platform_periods_add_up 7 sample_noon); [done|].
  intros s [Hs Hu]%elem_of_where. simpl in Hs. rewrite !elem_of_cons in Hs.
  destruct_or! Hs; subst; simpl; try (vm_compute in Hu; discriminate); set_solver.
Defined.

(** C27: The counts of a user, and of the whole site, are nested: the day lies within the
    week and the month, the month within the year, each period counts no more than all
    time; a period and the one before it share no submission; and the problems solved
    are never more than the submissions, in any period. *)
Theorem periods_nested (userId : Z) (w : world core_db) :
  healthy w ->
  exists submit ac, (GetPeriodCount userId w).1 = Val (submit, ac) /\
    nested submit /\ consecutive submit /\ nested ac /\ below ac submit.
Proof.
  intros Hw. rewrite GetPeriodCount_run by done. cbv zeta. do 2 eexists. split; [done|].
  split_and!; auto using submit_counts_nested, submit_counts_consecutive, ac_counts_nested, ac_counts_below.
Qed.

Lemma periods_nested_witness :
  (exists ac, (GetPeriodCount 7 sample_noon).1 = Val (Periods 2 2 0 2 0 2 0 2, ac)) /\
  exists submit ac, (GetPeriodCount 7 sample_noon).1 = Val (submit, ac) /\
    nested submit /\ consecutive submit /\ nested ac /\ below ac submit.
Proof.
  split; [eexists; vm_compute; reflexivity|]. apply (periods_nested 7 sample_noon). done.
Defined.

(** ** Snapshots *)

(** A cleanup that is due leaves at most 5000 snapshots of users.  What it removes is
    a snapshot of a user that is older than thirty days, or one for which 3000 others
    are kept, none of them older; no other row goes. *)
Theorem cleanup_keeps_recent (c : ctx) (w : world core_db) :
  healthy w -> table_wf (snapshots (w_db w)) -> let t := w_clock w (w_calls w) in
  due t (last_cleanup (w_db w)) = true ->
  let d := w_db (cleanupExpiredFeatureSnapshots c w).2 in
  count_match user_snapshot (snapshots d) <= featureSnapshotMaxRows /\
  (forall s, s ∈ rows (snapshots d) -> s ∈ rows (snapshots (w_db w)) /\ outdated t s = false) /\
  (forall s, s ∈ rows (snapshots (w_db w)) -> s ∉ rows (snapshots d) -> user_snapshot s = true /\
     (outdated t s = true \/ (count_match user_snapshot (snapshots d) = featureSnapshotKeepRows /\
        forall s', s' ∈ rows (snapshots d) -> user_snapshot s' = true -> fs_GeneratedAt s <= fs_GeneratedAt s'))).
Proof.
  intros Hw Hwf t Hdue. destruct (cleanup_run c w Hw) as (_ & _ & _ & Hs & _). fold t in Hs. rewrite Hdue in Hs.
  cbv zeta. rewrite Hs. by apply cleanup_table_spec.
Qed.

(** Two reports of user 7, the first of 1 January, and the one of the site. *)
Definition sample_reports : core_db :=
  CoreDb (Table [] 1) (Table [] 1) (Table [] 1) (Table [] 1) (Table [] 1) (Table [] 1) (Table [] 1)
    (Table [SnapshotRow 1 7 "weekly_report" "a" "{}" 0; SnapshotRow 2 7 "achievement" "b" "{}" (40 * 24 * hour);
            SnapshotRow 3 (-1) "achievement_global" "c" "{}" 0] 4) [] ∅ zero_time.
Definition in_february : world core_db := World sample_reports ∅ 0 (fun _ => None) (fun _ => 41 * 24 * hour).

Lemma cleanup_keeps_recent_witness :
  map fs_ID (rows (snapshots (w_db (cleanupExpiredFeatureSnapshots None in_february).2))) = [2; 3] /\
  count_match user_snapshot (snapshots (w_db (cleanupExpiredFeatureSnapshots None in_february).2)) <= 5000.
Proof.
  split; [vm_compute; reflexivity|].
  refine (proj1 (cleanup_keeps_recent None in_february _ _ _)); [done|wf_table|reflexivity].
Defined.

(** C34: a snapshot that was saved is what is read until the next cleanup, by everybody
    who may read it: the payload as the database keeps it, marked stale exactly when
    the reader asks for another hash than the stored one, which is the saved one
    without the spaces around it.  Saving an empty hash keeps the hash that was there,
    under the new payload. *)
Theorem snapshot_roundtrip `{Jsonb} (c : ctx) (req : SaveFeatureSnapshotRequest) (kind payload' : string)
    (w : world core_db) :
  healthy w -> 0 < sq_UserID req -> normalizeSnapshotKind (sq_Kind req) = Val kind ->
  may_operate c (sq_UserID req) = true -> json_valid (snapshot_payload req) = true ->
  jsonb_in (snapshot_payload req) = Some payload' ->
  let w' := (svc_SaveFeatureSnapshot c req w).2 in
  let hash := stored_hash (trim_space (sq_SourceHash req))
                (first_match (snapshot_of (sq_UserID req) kind) (cleaned w)) in
  (exists r, (svc_SaveFeatureSnapshot c req w).1 = Val r) /\
  (due (w_clock w' (w_calls w')) (last_cleanup (w_db w')) = false ->
   forall c' asked, may_operate c' (sq_UserID req) = true -> exists t,
     (svc_GetFeatureSnapshot c' (sq_UserID req) (sq_Kind req) asked w').1
     = Val (SnapshotReply "获取快照成功" (sq_UserID req) kind hash payload' true
              (bool_decide (asked <> "") && bool_decide (hash <> asked)) t)).
Proof.
  intros Hw Hu Hk Hm Hv Hj. cbv zeta.
  destruct (save_run c req kind payload' w Hw Hu Hk Hm Hv Hj) as (Hw' & Hr & s & Hs & Hp & Hh).
  split; [exact Hr|]. intros Hd c' asked Hm'. eexists.
  rewrite (get_run c' (sq_UserID req) (sq_Kind req) kind asked s) by (done || (rewrite Hp; by eapply jsonb_valid)).
  by rewrite Hp, Hh.
Qed.

(** A column that keeps JSON texts as they are. *)
#[export, refine] Instance plain_jsonb : Jsonb | 100 :=
  {| jsonb_in s := if json_valid s then Some s else None |}.
Proof.
  - intros s t. destruct (json_valid s) eqn:E; [|done]. by intros [= <-].
  - intros s t. destruct (json_valid s) eqn:E; [|done]. intros [= <-]. by rewrite E.
Defined.

Definition report : SaveFeatureSnapshotRequest := SaveSnapshot 7 " achievement " "" " [1] ".

Lemma snapshot_roundtrip_witness :
  exists t, (svc_GetFeatureSnapshot (sample_ctx 7 0) 7 " achievement " "b"
               (svc_SaveFeatureSnapshot (sample_ctx 7 0) report in_february).2).1
    = Val (SnapshotReply "获取快照成功" 7 "achievement" "b" "[1]" true false t).
Proof.
  refine (proj2 (snapshot_roundtrip (sample_ctx 7 0) report "achievement" "[1]" in_february _ _ _ _ _ _)
            _ (sample_ctx 7 0) "b" _); first [done | vm_compute; reflexivity].
Defined.

(** ** The cache *)

(** Clearing the statistics cache of a user as a coach or an administrator removes
    the keys on the list and those that match a pattern, leaves every other key with
    its value, and reports how many keys are gone. *)
Theorem cache_cleared (pd : JwtPayload) (userId : Z) (w : world core_db) :
  healthy w -> canManageCoreOps (jwt_RoleID pd) = true ->
  let u := if userId <=? 0 then -1 else userId in
  let w' := (svc_ClearCache (Some pd) userId w).2 in
  without (fun k => bool_decide (k ∈ statisticCacheKeys u) || matches_any (statisticCachePatterns u) k)
          (w_redis w) (w_redis w') /\
  (svc_ClearCache (Some pd) userId w).1
  = Val (u, Z.of_nat (size (w_redis w)) - Z.of_nat (size (w_redis w'))).
Proof.
  intros Hw Hc. cbv zeta. set (u := if userId <=? 0 then -1 else userId).
  enough (wp (svc_ClearCache (Some pd) userId) (fun o w' =>
    without (fun k => bool_decide (k ∈ statisticCacheKeys u) || matches_any (statisticCachePatterns u) k)
      (w_redis w) (w_redis w') /\ o = Val (u, Z.of_nat (size (w_redis w)) - Z.of_nat (size (w_redis w')))) w) by done.
  unfold svc_ClearCache. cbn [GetCurrentUser]. fold u. rewrite Hc.
  wp_step. apply wp_refuse_if. cbn [negb]. cbn beta iota.
  wp_step. eapply wp_clears; [by apply clears_del_keys|]. intros w1 Hw1 Hr1.
  wp_step. eapply wp_clears; [by apply clears_patterns|]. intros w2 Hw2 Hr2.
  wp_step. apply wp_record; [done|]. intros w3 _ Hr3 _ _ _. apply wp_ret. rewrite Hr3.
  split; [by eapply without_trans|]. do 2 f_equal. lia.
Qed.

Definition sample_cache : world core_db :=
  World sample_core {["statistic:period:7" := RStr "x"; "statistic:heatmap:7:a" := RStr "y"; "user:7:profile" := RStr "z"]}
    0 (fun _ => None) (fun _ => 0).

Lemma cache_cleared_witness : exists n w', svc_ClearCache (sample_ctx 1 2) 7 sample_cache = (Val (7, n), w') /\
  w_redis w' !! "statistic:heatmap:7:a" = None /\ w_redis w' !! "user:7:profile" = Some (RStr "z").
Proof.
  destruct (cache_cleared (Jwt 1 "" "" "" 2) 7 sample_cache) as [H1 H2]; [done|done|].
  unfold sample_ctx. destruct (svc_ClearCache _ 7 sample_cache) as [o w']. simpl in H1, H2. rewrite H2.
  do 2 eexists. split; [done|]. split; [rewrite (H1 "statistic:heatmap:7:a") | rewrite (H1 "user:7:profile")];
    vm_compute; reflexivity.
Defined.

(** ** Bulletins *)

Definition page_data (o : outcome ListBulletinRes) : list BulletinInfo :=
  match o with Val r => bl_Data r | Exn _ => [] end.

(** The pages of the list of bulletins, read one after the other while nothing
    changes, are all of the bulletins and each of them once, the pinned ones first and
    the newer before the older; no page is longer than asked for, and every page
    reports the number of them all. *)
Theorem bulletin_pages_complete (size : Z) (w : world core_db) :
  healthy w -> 1 <= size <= 50 ->
  exists l, l ≡ₚ rows (bulletins (w_db w)) /\ Sorted pinned_first l /\
    (forall n : nat, Z.of_nat n * size < 2 ^ 63 -> (length l <= n * Z.to_nat size)%nat ->
       concat (map (fun p => page_data (svc_ListBulletins (Z.of_nat p + 1) size w).1) (seq 0 n))
       = map modelToProto l) /\
    (forall page, 1 <= page -> exists r, (svc_ListBulletins page size w).1 = Val r /\
       Z.of_nat (length (bl_Data r)) <= size /\ bl_Total r = Z.of_nat (length l)).
Proof.
  intros Hw Hs. set (d := w_db w). set (l := merge_sort pinned_first (select (fun _ => true) (bulletins d))).
  assert (select (fun _ => true) (bulletins d) = rows (bulletins d)) as Hall by by apply where_all.
  assert (l ≡ₚ rows (bulletins d)) as Hperm by (unfold l; by rewrite merge_sort_Permutation, Hall).
  assert (forall page, 1 <= page -> (svc_ListBulletins page size w).1
    = Val (BulletinPage (map modelToProto (limit_rows size (offset_rows (wrap_int64 (wrap_int64 (page - 1) * size)) l)))
             (Z.of_nat (length l)) page size)) as Hrun.
  { intros page Hp. unfold svc_ListBulletins. destruct (Z.ltb_spec page 1); [lia|].
    destruct (Z.ltb_spec size 1); [lia|]. destruct (Z.ltb_spec 50 size); [lia|].
    unfold bulletin_List, find_page, count_rows, map_err, mbind, M_bind, query. rewrite Hw. simpl. rewrite Hw. simpl.
    do 2 f_equal. unfold count_match, count_where. rewrite Hperm, <- Hall. done. }
  exists l. split_and!; [done| | |].
  - apply Sorted_merge_sort. intros a b. unfold pinned_first. pose proof (Z.le_ge_cases (bu_CreatedAt a) (bu_CreatedAt b)).
    destruct (bu_IsPinned a), (bu_IsPinned b); naive_solver.
  - intros n Hn Hlen.
    assert (forall p, In p (seq 0 n) -> page_data (svc_ListBulletins (Z.of_nat p + 1) size w).1
      = map modelToProto (limit_rows size (offset_rows (Z.of_nat p * size) l))) as Hpage.
    { intros p Hp%in_seq. rewrite Hrun by lia. simpl. do 3 f_equal.
      assert (Z.of_nat p * size <= Z.of_nat n * size) by (apply Z.mul_le_mono_nonneg_r; lia).
      assert (Z.of_nat p * 1 <= Z.of_nat p * size) by (apply Z.mul_le_mono_nonneg_l; lia).
      by rewrite Z.add_simpl_r, (wrap_int64_id (Z.of_nat p)), wrap_int64_id by (unfold in_int64; lia). }
    rewrite (map_ext_in _ _ _ Hpage), <- (map_map _ (map modelToProto)), <- concat_map, pages_concat by lia.
    by rewrite take_ge.
  - intros page Hp. rewrite Hrun by done. eexists. split; [done|]. simpl. split; [|done].
    rewrite length_map. apply limit_rows_length. lia.
Qed.

Definition sample_bulletins : core_db :=
  CoreDb (Table [] 1) (Table [] 1) (Table [] 1) (Table [] 1) (Table [] 1) (Table [] 1)
    (Table [BulletinRow 1 "old" "x" 1 "ann" false 10 10; BulletinRow 2 "new" "y" 1 "ann" false 20 20;
            BulletinRow 3 "rules" "z" 1 "ann" true 5 5] 4) (Table [] 1) [] ∅ zero_time.

Lemma bulletin_pages_complete_witness :
  map bi_Title (page_data (svc_ListBulletins 1 2 (world_of sample_bulletins)).1) = ["rules"; "new"] /\
  exists l, l ≡ₚ rows (bulletins sample_bulletins) /\ Sorted pinned_first l.
Proof.
  split; [vm_compute; reflexivity|].
  destruct (bulletin_pages_complete 2 (world_of sample_bulletins)) as (l & H1 & H2 & _); [done|lia|].
  by exists l.
Defined.
