(* ===== verification/TokenProps.v ===== *)
(** Sessions across the services: the token that a login issues, read by the handlers of
    the core-data service. *)
From S2P Require Export CoreHttp TokenTheory UserProps OpsProps.

(** What the development relies on of [golang-jwt]: a signed token is in compact form. *)
Class JwtCompact `{JwtSigner} := {
  signed_compact secret claims token : SignedString secret claims = Val token ->
    exists header signature, dotless header /\ dotless signature /\ token = compact header claims signature
}.

(** The payload that stands for an account. *)
Definition payload_of (u : user) : JwtPayload := Jwt (u_ID u) (u_Username u) (u_Name u) (u_Email u) (u_RoleID u).

Lemma login_claims_session u exp nbf :
  exists roleIds, login_claims u exp nbf = session_claims (payload_of u) roleIds exp nbf.
Proof. by eexists. Qed.

Section properties.
Context `{Jsonb} `{Collation} `{Gob (list PlatformPeriodCount)}.

(** C39: the token of a successful login, sent as a bearer token, makes every handler of
    the core-data service act for the account whose password was verified, with its
    number, name and role, when the columns of the account hold UTF-8 and numbers that
    fit (as they do). *)
Theorem session_recognised `{Bcrypt} `{JwtSigner} `{!JwtCompact} (secret username password : string)
    (w w' : world user_db) (r : LoginRes) :
  svc_Login secret username password w = (Val r, w') -> lr_Success r = true ->
  (forall u, first_match (with_username username) (users (w_db w)) = Some u -> encodable (payload_of u)) ->
  exists u, first_match (with_username username) (users (w_db w)) = Some u
    /\ password_matches (u_Password u) password
    /\ forall rq, cr_Auth rq = "Bearer " +:+ lr_JwtToken r -> core_http rq = core_http_as (Some (payload_of u)) rq.
Proof.
  intros Hr Hs Henc. destruct (login_ok secret username password w r w' Hr Hs) as (u & exp & nbf & Hu & Hp & Ht).
  exists u. split; [done|]. split; [done|]. intros rq Hauth.
  apply signed_compact in Ht as (h & s & Hh & Hsig & Ht).
  destruct (login_claims_session u exp nbf) as [roleIds Hc]. rewrite Hc in Ht.
  unfold core_http. rewrite Hauth, Ht, session_read; [done..|]. by apply Henc.
Qed.

(** C40: the handlers that are registered without the framework's middlewares act for
    whatever account a token names, whatever its header, its signature and its times
    are: nobody needs the secret to be an administrator there. *)
Theorem signature_not_checked (pd : JwtPayload) (header signature roleIds : string) (exp nbf : Z) (rq : core_request) :
  encodable pd -> dotless header -> dotless signature ->
  cr_Auth rq = "Bearer " +:+ compact header (session_claims pd roleIds exp nbf) signature ->
  core_http rq = core_http_as (Some pd) rq.
Proof. intros Hpd Hh Hs Hauth. unfold core_http. by rewrite Hauth, session_read. Qed.
End properties.

(** ** Instances *)

#[local] Instance compact_signer : JwtSigner := {| SignedString _ claims := Val (compact "header" claims "signature") |}.
#[local] Instance compact_signed : JwtCompact.
Proof.
  constructor. intros secret claims token [= <-]. exists "header", "signature".
  split_and!; [by apply dotless_check..|done].
Qed.
#[export, refine] Instance by_length : Collation | 100 :=
  {| text_le s t := (String.length s <= String.length t)%nat; text_le_dec s t := _ |}.
Proof.
  - apply _.
  - intros s t. lia.
  - intros s t u. lia.
Defined.
#[export, refine] Instance nothing_cached {A} : Gob A | 100 :=
  {| GobEncoder _ := None; GobDecoder _ := Exn (Driver "EOF") |}.
Proof. done. Defined.

Definition post (path body auth : string) : core_request := CoreRequest "POST" path (fun _ => "") body auth.

Lemma session_recognised_witness : exists r w' u,
  svc_Login "k" "ann" "ann-secret" (world_of sample_db) = (Val r, w') /\ lr_Success r = true
  /\ first_match (with_username "ann") (users sample_db) = Some u
  /\ core_http (post "/v1/core/spider/rebuild-all" "" ("Bearer " +:+ lr_JwtToken r))
     = core_http_as (Some (payload_of u)) (post "/v1/core/spider/rebuild-all" "" ("Bearer " +:+ lr_JwtToken r)).
Proof.
  destruct (svc_Login "k" "ann" "ann-secret" (world_of sample_db)) as [[r|e] w'] eqn:Hr;
    [|vm_compute in Hr; discriminate].
  assert (lr_Success r = true) as Hs by (vm_compute in Hr; by injection Hr as <- _).
  destruct (session_recognised "k" "ann" "ann-secret" (world_of sample_db) w' r Hr Hs) as (u & Hu & _ & Hrq).
  - intros u Hu. vm_compute in Hu. injection Hu as <-. vm_compute. by repeat split.
  - exists r, w', u. split; [done|]. split; [done|]. split; [exact Hu|]. by apply Hrq.
Defined.

(** A token that nobody signed clears the cache. *)
Definition root : JwtPayload := Jwt 99 "root" "root" "" RoleAdmin.
Definition forged : string := "Bearer " +:+ compact "none" (session_claims root "[1]" 0 0) "no signature".
Definition forged_clear : core_request :=
  post "/v1/core/statistic/cache-clear" (json_object [("userId", JInt 7)]) forged.
Definition reply_and_cache (m : option (CM core_reply)) (w : world core_db) : option (outcome core_reply * option redis_value) :=
  match m with Some m => Some ((m w).1, w_redis (m w).2 !! "statistic:period:7") | None => None end.

Lemma signature_not_checked_witness :
  encodable root /\ core_http forged_clear = core_http_as (Some root) forged_clear
  /\ w_redis sample_cache !! "statistic:period:7" = Some (RStr "x")
  /\ reply_and_cache (core_http_as (Some root) forged_clear) sample_cache
     = Some (Val (CoreReply 200 (BodyCacheClear (7, 2))), None).
Proof.
  assert (encodable root) as He by (vm_compute; by repeat split).
  split; [exact He|]. split; [|split; vm_compute; reflexivity].
  apply (signature_not_checked root "none" "no signature" "[1]" 0 0 forged_clear He);
    [by apply dotless_check | by apply dotless_check | reflexivity].
Defined.
