(* ===== verification/CronTheory.v ===== *)
(** The hourly task: it finds every user of the user service, and leaves a job under way
    for each of them. *)
From S2P Require Export JobLiveness ProfileService.

(** ** Jobs under way *)

(** A job over all the platforms of the user is queued or running. *)
Definition under_way (u : Z) (d : core_db) : Prop :=
  exists j, j ∈ rows (jobs d) /\ active_conflict u "" j = true.

Lemma under_way_update v u p q t d : v <> u -> under_way v d ->
  under_way v (set_table (update_match (fun j => active_conflict u p j && q j) (job_fail stale_error t) (jobs d)) d).
Proof.
  intros Hne (j & Hj & Ha). exists j. split; [|done]. apply elem_of_update. exists j. split; [done|].
  unfold visible. simpl. unfold active_conflict at 1. rewrite bool_decide_false; [done|].
  unfold active_conflict in Ha. bool_cases. congruence.
Qed.

Lemma Do_under_way u n s r w : healthy w ->
  wp (spider_Do u n s r "") (fun o w' => is_val o = true /\ healthy w' /\ under_way u (w_db w')
        /\ forall v, under_way v (w_db w) -> under_way v (w_db w')) w.
Proof.
  intros Hw. unfold spider_Do, findActiveJob, expireStaleActiveJobs. repeat wp_step. cbn [w_db set_db tick fst snd].
  set (d1 := set_table _ (w_db w)).
  assert (forall v, v <> u -> under_way v (w_db w) -> under_way v d1) as Hd1 by (intros; by apply under_way_update).
  assert (forall d2, under_way u d2 -> (forall j, j ∈ rows (jobs d1) -> j ∈ rows (jobs d2)) ->
    forall v, under_way v (w_db w) -> under_way v d2) as Hlift.
  { intros d2 Hu Hin v Hv. destruct (decide (v = u)) as [->|Hne]; [done|].
    destruct (Hd1 v Hne Hv) as (j & Hj & ?). exists j. auto. }
  match goal with |- context [latest_job ?q ?d] => destruct (latest_job q d) as [job|] eqn:E end.
  - apply latest_job_in, elem_of_select in E as (Hin & _ & Ha). repeat wp_step.
    assert (under_way u d1) as Hu by by exists job. split_and!; [done|by eauto with golang|done|]. by apply Hlift.
  - repeat wp_step. unfold publish, publish_with, channel, publishToQueue. repeat wp_step.
    set (d2 := set_queue _ _). assert (under_way u d2) as Hu.
    { eexists. split; [apply elem_of_insert; by right|]. unfold active_conflict, is_active, conflicts. cbn.
      by rewrite bool_decide_true. }
    split_and!; [done|by eauto with golang|done|]. apply Hlift; [done|].
    intros j Hj. apply elem_of_insert. by left.
Qed.

Lemma cron_loop ids : forall w, healthy w ->
  wp (for_each ids (fun v => spider_Do v false "cron" 0 "";; mret ()))
     (fun _ w' => forall v, v ∈ ids \/ under_way v (w_db w) -> under_way v (w_db w')) w.
Proof.
  induction ids as [|u ids IH]; intros w Hw; cbn [for_each].
  - apply wp_ret. intros v [Hv|Hv]; [by apply not_elem_of_nil in Hv | done].
  - do 2 apply wp_bind. eapply wp_mono; [by apply (Do_under_way u false "cron" 0)|].
    intros [a|e] w1 (Ho & Hw1 & Hu & Hkeep); [|done]. cbn. eapply wp_mono; [by apply IH|].
    intros o w2 Hall v [[->|Hv]%elem_of_cons|Hv]; apply Hall; auto.
Qed.

(** ** The users *)

(** The user service in the state [uw], as the task reaches it. *)
Definition lister_of `{CoreDataRPC} (uw : world user_db) : ProfileLister :=
  {| cron_dial _ := Val ();
     GetUsers p _ := match (svc_GetList None 100 p uw).1 with
                     | Val (l, total) => Val (total, map lp_UserId l)
                     | Exn e => Exn e
                     end |}.

Section everyone.
Context `{CoreDataRPC} (uw : world user_db).
Hypothesis calls_work : healthy uw.
Hypothesis core_answers : coreDataRPC = Val ().
Hypothesis times_answer : forall us, exists b m, LastSubmitTime us = Val b /\ decode_times b = Val m.

(** The accounts in the order of the list. *)
Definition accounts : list user := merge_sort (asc_by u_ID) (select (fun _ => true) (users (w_db uw))).
Hypothesis not_too_many : Z.of_nat (length accounts) < 2 ^ 62.

Lemma accounts_count : count_match (fun _ => true) (users (w_db uw)) = Z.of_nat (length accounts).
Proof. unfold accounts. rewrite merge_sort_Permutation. done. Qed.

(** Page [p] of the list. *)
Lemma GetUsers_page (p : nat) n : Z.of_nat p * 100 < 2 ^ 63 ->
  @GetUsers (lister_of uw) (Z.of_nat (S p)) n
  = Val (Z.of_nat (length accounts), map u_ID (limit_rows 100 (offset_rows (Z.of_nat p * 100) accounts))).
Proof.
  intros Hp. cbn [GetUsers lister_of].
  assert (wp (svc_GetList None 100 (Z.of_nat (S p))) (fun o _ => match o with
      | Val (l, total) => total = Z.of_nat (length accounts)
          /\ map lp_UserId l = map u_ID (limit_rows 100 (offset_rows (Z.of_nat p * 100) accounts))
      | Exn _ => False end) uw) as Hwp.
  { unfold svc_GetList, profile_GetList, find_page. rewrite core_answers. repeat wp_step. cbn [fst snd].
    match goal with |- context [LastSubmitTime ?us] => destruct (times_answer us) as (b & m & -> & Hm) end.
    unfold of_outcome. repeat wp_step. rewrite Hm. repeat wp_step. split; [apply accounts_count|].
    rewrite !map_map. cbn. do 3 f_equal. change (w_db (tick uw)) with (w_db uw).
    rewrite (wrap_int64_id (Z.of_nat (S p) - 1)) by (unfold in_int64; lia). rewrite wrap_int64_id by (unfold in_int64; lia).
    f_equal. lia. }
  unfold wp in Hwp. destruct (svc_GetList None 100 (Z.of_nat (S p)) uw).1 as [[l total]|e]; [|done].
  by destruct Hwp as [-> ->].
Qed.

Lemma more_pages_run k : forall s w, (Z.of_nat (s + k) * 100 < 2 ^ 63) ->
  (@more_pages (lister_of uw) core_db (map Z.of_nat (seq (S s) k)) w).1
  = Val (map u_ID (concat (map (fun p => limit_rows 100 (offset_rows (Z.of_nat p * 100) accounts)) (seq s k)))).
Proof.
  induction k as [|k IH]; intros s w Hs; [done|]. cbn [seq map more_pages]. unfold mbind, M_bind, attempt, remote.
  rewrite GetUsers_page by lia. cbn [fst snd]. specialize (IH (S s) (tick w)).
  destruct (@more_pages (lister_of uw) core_db (map Z.of_nat (seq (S (S s)) k)) (tick w)) as [o w']. cbn in *.
  rewrite IH by lia. cbn. by rewrite map_app.
Qed.

Lemma getUserIds_run w : (@getUserIds (lister_of uw) core_db w).1 = Val (map (fun u => wrap_int64 (u_ID u)) accounts).
Proof.
  set (N := length accounts) in *.
  assert (total_pages (Z.of_nat N) = (Z.of_nat N + 99) / 100) as Htp.
  { unfold total_pages. rewrite wrap_int64_id by (unfold in_int64; lia). apply Z.quot_div_nonneg; lia. }
  unfold getUserIds, mbind, M_bind, attempt, remote. change (@cron_dial (lister_of uw)) with (fun _ : nat => Val ()). cbn [fst snd].
  change 1 with (Z.of_nat 1) at 1. rewrite GetUsers_page by lia.
  fold N. set (K := Z.to_nat (total_pages (Z.of_nat N) - 1)).
  pose proof (Z.mod_pos_bound (Z.of_nat N + 99) 100). pose proof (Z.div_mod (Z.of_nat N + 99) 100).
  assert (Z.of_nat (1 + K) * 100 < 2 ^ 63) as Hb by (subst K; rewrite Htp; lia).
  pose proof (more_pages_run K 1 (tick (tick w))) as Hm.
  destruct (@more_pages (lister_of uw) core_db (map Z.of_nat (seq 2 K)) (tick (tick w))) as [o w']. cbn in Hm.
  rewrite Hm by done. cbn. f_equal. rewrite <- map_app, map_map.
  pose proof (pages_concat 100 accounts (S K)) as Hp. cbn [seq map concat] in Hp. rewrite Hp by lia.
  rewrite take_ge; [done|]. fold N. subst K. rewrite Htp. lia.
Qed.

Lemma cron_covers w u : healthy w -> u ∈ accounts -> in_int64 (u_ID u) ->
  under_way (u_ID u) (w_db (@cron_hourly (lister_of uw) w).2).
Proof.
  intros Hw Hu Hfit. unfold cron_hourly, mbind, M_bind. pose proof (getUserIds_run w) as Hrun.
  assert (steady (@getUserIds (lister_of uw) core_db)) as Hs by solve_steady. destruct (Hs w) as [Hf _].
  destruct (@getUserIds (lister_of uw) core_db w) as [o w1]. cbn in *. subst o. apply cron_loop.
  - intros n. rewrite Hf. apply Hw.
  - left. apply list_elem_of_fmap. exists u. by rewrite wrap_int64_id.
Qed.
End everyone.

Lemma elem_of_accounts uw u : u ∈ rows (users (w_db uw)) -> u_deleted u = false -> u ∈ accounts uw.
Proof.
  intros Hu Hl. unfold accounts. rewrite merge_sort_Permutation. apply elem_of_select. split_and!; [done| |done].
  simpl. by rewrite Hl.
Qed.

Lemma accounts_length uw : (length (accounts uw) <= length (rows (users (w_db uw))))%nat.
Proof. unfold accounts. rewrite merge_sort_Permutation. apply List.filter_length_le. Qed.
