(* ===== verification/SystemProps.v ===== *)
(** The properties of the core-data service as a running system: its handlers, its
    worker and its hourly task together, with instances on concrete runs. *)
From S2P Require Export CronTheory ContestProps OpsProps TokenProps.

(** ** Sample services *)

#[export] Existing Instances sample_pages sample_users | 100.
#[export] Instance sample_fetchers : Fetchers | 100 := fetching fetched.
#[export] Instance sample_lister : ProfileLister | 100 := lister_of (world_of sample_db).

(** ** States *)

Section system_states.
Context `{Fetchers} `{RateLimit} `{Jsonb} `{Collation} `{ContestPages} `{UserService} `{ProfileLister}.
Context `{Gob (list PlatformPeriodCount)} `{Gob (PeriodSubmitCount * PeriodAcCount)} `{Gob SubmitLog} `{Gob ContestLog}.


End system_states.

(** What a call leaves, in a run without failures. *)
Definition after (r : core_call) (d : core_db) : core_db := w_db (serve_core r (world_of d)).2.

(** User 7 binds an account, whose job the worker carries out; then 8 does, whose job
    is left on the queue. *)
Definition bound : core_db := after (CoSetSpider (sample_ctx 7 RoleUser) 7 "QOJ" " ann ") empty_core.
Definition loaded : core_db := after (CoDeliver 0) bound.
Definition waiting : core_db := after (CoSetSpider (sample_ctx 8 RoleUser) 8 "QOJ" "bob") loaded.

Lemma reach_after ok r d : core_reachable ok d -> ok (world_of d) -> core_reachable ok (after r d).
Proof. intros Hd Hok. unfold after. exact (core_serve ok r (world_of d) Hd Hok). Qed.

Lemma in_world (P : core_db -> Prop) d : P d -> P (w_db (world_of d)).
Proof. done. Qed.
Lemma fit_world d : numbers_fit d -> healthy (world_of d) /\ numbers_fit (w_db (world_of d)).
Proof. done. Qed.

Lemma bound_queue : spider_queue bound = [Event 7 true 1 "QOJ"].
Proof. vm_compute. reflexivity. Qed.
Lemma waiting_queue : spider_queue waiting = [Event 8 true 2 "QOJ"].
Proof. vm_compute. reflexivity. Qed.


Lemma fit_one d e : spider_queue d = [e] -> in_int64 (e_UserId e) -> in_int64 (e_JobId e) -> numbers_fit d.
Proof. intros Hq Hu Hj e' He. rewrite Hq in He. by apply list_elem_of_singleton in He as ->. Qed.

Lemma fit_none d : spider_queue d = [] -> numbers_fit d.
Proof. intros Hq e He. rewrite Hq in He. by apply not_elem_of_nil in He. Qed.

Lemma waiting_reachable :
  core_reachable (fun w => healthy w /\ numbers_fit (w_db w)) waiting /\ numbers_fit waiting.
Proof.
  assert (numbers_fit empty_core) as He by (apply fit_none; reflexivity).
  assert (numbers_fit bound) as Hb by (eapply fit_one; [exact bound_queue | done | done]).
  assert (numbers_fit loaded) as Hl by (apply fit_none; vm_compute; reflexivity).
  split; [|eapply fit_one; [exact waiting_queue | done | done]].
  unfold waiting. apply reach_after; [|exact (fit_world _ Hl)].
  unfold loaded. apply reach_after; [|exact (fit_world _ Hb)].
  unfold bound. apply reach_after; [|exact (fit_world _ He)]. apply core_start.
Qed.


(** ** The hourly task *)

(** C12: when no call fails, the hourly task leaves a refresh of all platforms queued or
    running for every account of the user service: the pages it asks [GetList] for are
    all the accounts, and what it does for one account takes nothing from another. *)
Theorem cron_reaches_everyone `{CoreDataRPC} (uw : world user_db) (w : world core_db) (u : user) :
  healthy uw -> healthy w -> coreDataRPC = Val () ->
  (forall us, exists b m, LastSubmitTime us = Val b /\ decode_times b = Val m) ->
  Z.of_nat (length (rows (users (w_db uw)))) < 2 ^ 62 ->
  u ∈ rows (users (w_db uw)) -> u_deleted u = false -> in_int64 (u_ID u) ->
  under_way (u_ID u) (w_db (@cron_hourly (lister_of uw) w).2).
Proof.
  intros Huw Hw Hrpc Htimes Hlen Hu Hlive Hfit. pose proof (accounts_length uw).
  apply cron_covers; [done..|lia|done| |done]. by apply elem_of_accounts.
Qed.

Lemma cron_reaches_everyone_witness :
  under_way 2 (w_db (@cron_hourly (lister_of (world_of sample_db)) (world_of sample_core)).2)
  /\ length (spider_queue (w_db (@cron_hourly (lister_of (world_of sample_db)) (world_of sample_core)).2)) = 4%nat.
Proof.
  split; [|vm_compute; reflexivity].
  apply (cron_reaches_everyone (world_of sample_db) (world_of sample_core) (sample_user 2 1 RoleUser "bob"));
    try done.
  - intros us. by exists "", ∅.
  - set_solver.
Defined.
