(* ===== verification/AgentProps.v ===== *)
(** The properties of the agent, with instances on concrete conversations. *)
From S2P Require Export AgentTheory UserProps.

(** ** Conversations *)

(** C31: a conversation with the model ends.  When the model, having asked for tools a
    number of times, answers, that many requests and one more are enough: the result is
    a text or an error and not an open conversation, whatever the tools do and whatever
    fails, and a larger bound changes nothing. *)
Theorem chat_ends `{ChatServer} (chat : chat_cfg) (tools : list agent_tool) (n fuel : nat) (texts : list string)
    (w : world agent_db) :
  concise n -> (n < fuel)%nat ->
  (Chat chat tools fuel texts w).1 <> Val None
  /\ forall fuel', (fuel <= fuel')%nat -> Chat chat tools fuel' texts w = Chat chat tools fuel texts w.
Proof.
  intros Hn Hf. assert ((Chat chat tools fuel texts w).1 <> Val None) as Hend.
  { destruct fuel as [|fuel]; [lia|]. apply (chat_answers chat tools n Hn). lia. }
  split; [done|]. intros fuel' Hle. by apply chat_more_fuel.
Qed.

(** ** Reports *)

Section reports.
Context `{ChatServer} `{ToolServices} `{ProfileReader} (chat : chat_cfg) (smtp : smtp_cfg) (offset : Z).

End reports.

(** ** The summary on the site *)

Section summaries.
Context `{Float64}.

(** Whatever the model wrote, fenced, with text around it, broken or empty, the text
    that is stored for it is valid JSON: an object with the members the page reads.  When
    there is an object with a message in it, all its members are kept. *)
Theorem normalized_summary_valid (raw : string) (t : Z) : exists kvs,
  normalizeRecentSummaryJSON raw t = marshal (AObject kvs)
  /\ json_valid (normalizeRecentSummaryJSON raw t) = true
  /\ is_Some (map_get "msg" kvs) /\ is_Some (map_get "updateTime" kvs)
  /\ forall candidate obj, candidate_of (unwrap_summary raw) = Some candidate -> unmarshal_map candidate = Some obj ->
       is_Some (map_get "msg" obj) -> forall k v, map_get k obj = Some v -> map_get k kvs = Some v.
Proof.
  destruct (normalized_object raw t) as (kvs & -> & (Hf & Hm & Hu) & Hk). exists kvs. split_and!; [done| |done..].
  by apply marshal_valid.
Qed.

Context `{ProfileReader} `{ChatServer} `{ToolServices} (chat : chat_cfg) (smtp : smtp_cfg) (offset : Z).

Lemma summary_Do_run u t w : healthy w ->
  wp (summary_Do u t) (fun o w' => o = Val () /\ healthy w' /\ w_redis w' = w_redis w
    /\ w_db w' = set_queue_of (summary_queue (w_db w) ++ [summary_json (SumEvent u t)]) (w_db w)) w.
Proof. intros Hw. unfold summary_Do, summary_publish, publish_with, channel, send_summary. repeat wp_step. all: done. Qed.


(** C30: no summary is stuck.  The consumer never settles a message it can not read, and
    takes no more once two are unsettled; but in every state that calls of the agent and
    runs of the timer reach, whatever fails, all messages can be read and none is left
    unsettled, so that each one on the queue is delivered and settled as soon as the
    consumer turns to it - as long as the model ends its conversations. *)
Theorem no_summary_stuck `{ProfileLister} (n fuel : nat) (d : agent_db) :
  concise n -> (n < fuel)%nat -> agent_reachable (serve_agent chat smtp offset fuel) d ->
  unsettled d = [] /\ Forall readable (summary_queue d)
  /\ forall w i, w_db w = d -> (i < length (summary_queue d))%nat ->
       exists r w', deliver_summary chat smtp offset fuel i w = (Val (Some (Some r)), w')
         /\ unsettled (w_db w') = [] /\ summary_queue (w_db w') = delete i (summary_queue d).
Proof.
  intros Hn Hf Hd. assert (agent_ok d) as Hok.
  { induction Hd as [|r w Hr IH Hcall]; [by split|]. destruct r as [u| | |i]; cbn [serve_agent].
    - assert (in_int64 u) as Hu by by apply Hcall. pose proof (keeps_summary_Do u "PersonalRecent" Hu eq_refl).
      revert w IH Hr Hcall. intros w IH _ _. revert w IH. change (keeps agent_ok (GetRecentSummary u;; mret ())).
      unfold GetRecentSummary. solve_keeps.
    - by apply (keeps_cron "PersonalLastDay").
    - by apply (keeps_cron "PersonalRecent").
    - destruct (decide (i < length (summary_queue (w_db w)))%nat) as [Hi|Hi].
      + destruct (deliver_settles chat smtp offset n Hn fuel i w Hf IH Hi) as (r & w' & E & Hus & Hqs).
        unfold mbind, M_bind. rewrite E. cbn. split; [done|]. rewrite Hqs. destruct IH as [_ IH].
        rewrite Forall_forall in IH |- *. intros b Hb. apply IH. by apply list_elem_of_delete_inv in Hb.
      + unfold deliver_summary, mbind, M_bind. by rewrite (lookup_ge_None_2 _ _) by lia. }
  split_and!; [apply Hok..|]. intros w i <- Hi. by apply (deliver_settles chat smtp offset n Hn).
Qed.
End summaries.

(** ** Sample conversations *)

(** Whole numbers only. *)
#[export] Instance whole_numbers : Float64 | 100 :=
  {| float64 := Z; parse_float := signed_digits; float_text z := pretty z;
     float_text_head := pretty_head; float_text_scan := scan_number_pretty |}.

Definition says (finish text : string) (calls : list tool_call) : outcome (Z * string * outcome chat_response) :=
  Val (200, "", Val (ChatResponse [Choice finish (ChatMessage "assistant" text "" calls "")] None)).
(** A model that answers at once, and one that writes to Redis first. *)
Definition plain_model (text : string) : ChatServer := {| chat_post _ _ _ := says "stop" text [] |}.
Definition writing_args (key value : string) : string := json_struct [("key", JString key); ("value", JString value)].
Definition writing_model (key value : string) : ChatServer :=
  {| chat_post _ req _ :=
       if decide (tool_turns (aq_Messages req) = 0%nat)
       then says "tool_calls" "" [ToolCall "1" "function" "redis_set" (writing_args key value)]
       else says "stop" "done" [] |}.
#[export] Instance quiet_services : ToolServices | 100 :=
  {| heatmap_json _ _ _ _ := Val "[]"; profile_json _ _ := Val "{}"; submits_json _ _ _ _ := Val "[]";
     period_json _ _ := Val "{}"; dial_and_send _ _ := Val () |}.
Definition profile_says (role : Z) (enabled : bool) : ProfileReader :=
  {| agent_dial _ := Val (); read_profile _ _ := Val (role, enabled) |}.
#[export] Instance two_users : ProfileLister | 100 := {| cron_dial _ := Val (); GetUsers _ _ := Val (2, [7; 8]) |}.
Definition sample_chat : chat_cfg := NewChat (fun _ => "") (Some ("model", "secret")).
Definition no_mail : smtp_cfg := Smtp "" "".

(** Monday, 5 January 1970. *)
Definition on_monday (d : agent_db) : world agent_db := World d ∅ 0 (fun _ => None) (fun _ => 4 * day).

Lemma plain_concise text : @concise (plain_model text) 0.
Proof. intros url req k st body resp first rest _ Hp Hc. cbn in Hp. injection Hp as <- <- <-. injection Hc as <- <-. by right. Qed.
Lemma writing_concise key value : @concise (writing_model key value) 1.
Proof.
  intros url req k st body resp first rest Hn Hp Hc. cbn in Hp. rewrite decide_False in Hp by lia.
  injection Hp as <- <- <-. injection Hc as <- <-. by right.
Qed.

Lemma chat_ends_witness : let _ := writing_model "k" "v" in
  (Chat sample_chat recent_tools 2 ["hello"] (on_monday empty_agent)).1 = Val (Some "done")
  /\ w_redis (Chat sample_chat recent_tools 2 ["hello"] (on_monday empty_agent)).2 !! "k" = Some (RStr "v")
  /\ Chat sample_chat recent_tools 9 ["hello"] (on_monday empty_agent)
     = Chat sample_chat recent_tools 2 ["hello"] (on_monday empty_agent).
Proof.
  intros model. split; [vm_compute; reflexivity|]. split; [vm_compute; reflexivity|].
  apply (chat_ends sample_chat recent_tools 1 2 ["hello"] (on_monday empty_agent) (writing_concise "k" "v")); lia.
Defined.



Lemma no_summary_stuck_witness : let _ := plain_model "{}" in let _ := profile_says 0 true in
  let d := w_db (serve_agent sample_chat no_mail 0 1 AgCronRecent (on_monday empty_agent)).2 in
  length (summary_queue d) = 2%nat /\ unsettled d = [] /\ Forall readable (summary_queue d).
Proof.
  intros model reader d. split; [vm_compute; reflexivity|].
  assert (agent_reachable (serve_agent sample_chat no_mail 0 1) d) as Hd.
  { apply (agent_serve _ AgCronRecent (on_monday empty_agent)); [apply agent_start | done]. }
  destruct (no_summary_stuck sample_chat no_mail 0 0 1 d (plain_concise "{}") ltac:(lia) Hd) as (Hu & Hq & _).
  exact (conj Hu Hq).
Defined.

(** Fences and an object without a time; the time is added. *)
Example unfenced :
  normalizeRecentSummaryJSON (backticks +:+ "json" +:+ json_struct [("msg", JString "go on")] +:+ backticks) 1700000000
  = json_struct [("msg", JString "go on"); ("updateTime", JInt 1700000000)].
Proof. vm_compute. reflexivity. Qed.

(** Two messages that can not be read, and the one behind them is not delivered any
    more. *)
Example two_unreadable_stop : let _ := plain_model "{}" in let _ := profile_says 0 true in
  let w := on_monday (AgentDb ["x"; "y"; summary_json (SumEvent 7 "PersonalRecent")] [] [] []) in
  let step := deliver_summary sample_chat no_mail 0 1 0 in
  (step w).1 = Val (Some None) /\ (step (step w).2).1 = Val (Some None) /\ (step (step (step w).2).2).1 = Val None.
Proof. vm_compute. done. Qed.

(** A summary that is there stays, when the model does not write the new one itself. *)
Example old_summary_stays : let _ := plain_model "news" in
  let w := set_redis {[summary_key 7 := RStr "old"]} (on_monday empty_agent) in
  let r := PersonalRecent sample_chat 1 7 w in
  r.1 = Val (Some ()) /\ w_redis r.2 !! summary_key 7 = Some (RStr "old").
Proof. vm_compute. done. Qed.

(** When the user service can not be reached, a user who wants no mail gets the report. *)
Example refusal_forgotten : let _ := plain_model "report" in
  let _ : ProfileReader := {| agent_dial _ := Exn (Driver "timeout"); read_profile _ _ := Val (0, false) |} in
  let r := PersonalLastDay sample_chat no_mail 0 1 7 (on_monday empty_agent) in
  length (asked (w_db r.2)) = 1%nat.
Proof. vm_compute. done. Qed.
