(* ===== verification/SiteStatistics.v ===== *)
(** The statistics that count by the days of the database session: the heatmap
    ([data/dal/statistic.go], [biz/service/statistic.go]) and the site-wide achievements of
    [service/statistic_ops.go], how a user stands among all users, from the submissions of
    everybody, and how many users have an achievement. *)
From Stdlib Require Import SpecFloat.
From S2P Require Export OpsProps Web TimeText.

(** ** [float64] *)

(** IEEE binary64, rounding to the nearest. *)
Definition float : Type := spec_float.
Definition f_of (z : Z) : float := binary_normalize 53 1024 z 0 false.
Definition f_add : float -> float -> float := SFadd 53 1024.
Definition f_sub : float -> float -> float := SFsub 53 1024.
Definition f_mul : float -> float -> float := SFmul 53 1024.
Definition f_div : float -> float -> float := SFdiv 53 1024.
Definition f_lt : float -> float -> bool := SFltb.
Definition f_zero : float := S754_zero false.
(** [math.Max] *)
Definition f_max (x y : float) : float :=
  match x, y with
  | S754_infinity false, _ | _, S754_infinity false => S754_infinity false
  | S754_nan, _ | _, S754_nan => S754_nan
  | S754_zero _, S754_zero true => x
  | S754_zero _, S754_zero false => y
  | _, _ => if f_lt y x then x else y
  end.
(** [(float64(a) / float64(b)) * 100] *)
Definition percent (a b : Z) : float := f_mul (f_div (f_of a) (f_of b)) (f_of 100).
Definition percent_or_zero (a b : Z) : float := if 0 <? b then percent a b else f_zero.

Definition achievementPercentile (values : list float) (value : float) : float :=
  match values with
  | [] => f_zero
  | _ => percent (count_where (fun item => f_lt item value) values) (Z.of_nat (length values))
  end.

(** The inner loop: from the back, everything greater moves up by one. *)
Fixpoint insert_back (current : float) (back : list float) : list float :=
  match back with
  | item :: back' => if f_lt current item then item :: insert_back current back' else current :: back
  | [] => [current]
  end.
Definition insertion_sorted (values : list float) : list float := rev (foldl (fun back c => insert_back c back) [] values).
Definition achievementMedian (values : list float) : float :=
  match values with
  | [] => f_zero
  | _ =>
      let items := insertion_sorted values in
      let middle := (length items / 2)%nat in
      let at_ i := default f_zero (items !! i) in
      if decide (length items mod 2 = 1)%nat then at_ middle
      else f_div (f_add (at_ (middle - 1)%nat) (at_ middle)) (f_of 2)
  end.

Definition achievementDistributionDistance (left right : list float) : float :=
  foldl (fun sum lr => f_add sum (SFabs (f_sub lr.1 lr.2))) f_zero (zip left right).

(** ** The numbers of each user *)

Record achievementUserMetric := Metric {
  um_UserID : Z; um_TotalSubmit : Z; um_AcceptedSubmit : Z; um_NightAcCount : Z;
  um_TodaySubmit : Z; um_TodayAc : Z; um_MaxDailyWa : Z; um_Hourly : list float }.
Definition set_max_wa (n : Z) (m : achievementUserMetric) : achievementUserMetric :=
  Metric (um_UserID m) (um_TotalSubmit m) (um_AcceptedSubmit m) (um_NightAcCount m) (um_TodaySubmit m)
    (um_TodayAc m) n (um_Hourly m).
Definition set_hour (h : nat) (f : float) (m : achievementUserMetric) : achievementUserMetric :=
  Metric (um_UserID m) (um_TotalSubmit m) (um_AcceptedSubmit m) (um_NightAcCount m) (um_TodaySubmit m)
    (um_TodayAc m) (um_MaxDailyWa m) (<[h := f]> (um_Hourly m)).
Definition no_hours : list float := replicate 24 f_zero.

Section achievements.
(** How far the time zone of the database session is ahead of UTC: days, hours and minutes
    of a query are those of that zone.  A minute is its number; its text is only compared. *)
Context (offset : Z).
Definition db_day (t : Z) : Z := (t + offset) / day.
Definition db_hour (t : Z) : Z := (t + offset) mod day / hour.
Definition db_minute (t : Z) : Z := (t + offset) / (60 * second).

(** ** The heatmap *)

Record DailyCount := mkDailyCount { dc_Day : Z; dc_Cnt : Z }.
Record HeatmapReq := mkHeatmapReq { hq_UserId : Z; hq_StartDate : string; hq_EndDate : string; hq_IsAc : bool }.
Definition day_start (z : Z) : Z := z * day - offset.
Definition heat_counts (userId : Z) (isAc : bool) (s : SubmitLog) : bool :=
  (negb isAc || acCondition (s_Status s)) && (bool_decide (userId = 0) || bool_decide (s_UserID s = userId)).
Definition heat_day (userId : Z) (isAc : bool) (l : list SubmitLog) (z : Z) : DailyCount :=
  mkDailyCount (day_start z) (count_where (fun s => heat_counts userId isAc s
    && (bool_decide (day_start z <= s_Time s) && bool_decide (s_Time s < day_start z + 24 * hour))) l).
(** [generate_series]; [read_date] is how Postgres reads a date, as the number of its day. *)
Definition days_between (a b : Z) : list Z := map (fun i => a + Z.of_nat i) (seq 0 (Z.to_nat (b - a + 1))).
Definition all_submits (d : core_db) : list SubmitLog := select (fun _ => true) (submits d).
Definition bad_date : goerr := Driver "invalid input syntax for type date".
Definition HeatmapQuery (read_date : string -> option Z) (startDate endDate : string) (userId : Z) (isAc : bool)
    : CM (list DailyCount) :=
  r ← query (fun d => match read_date startDate, read_date endDate with
                      | Some a, Some b => Some (map (heat_day userId isAc (all_submits d)) (days_between a b))
                      | _, _ => None
                      end);
  match r with Some result => mret result | None => throw bad_date end.
(** [Format("2006-01-02")] in the zone of the process, so many seconds ahead. *)
Definition format_date (zone_secs t : Z) : string := of_bytes (firstn 10 (bytes_of (format_date_time zone_secs t))).
Definition Heatmap `{Gob (list DailyCount)} (zone_secs : Z) (read_date : string -> option Z) (req : HeatmapReq)
    : CM (list (string * Z)) :=
  if decide (hq_StartDate req = "" \/ hq_EndDate req = "") then throw (BadRequest "参数错误" "日期参数错误")
  else
    let cacheKey := "statistic:heatmap:" +:+ pretty (hq_UserId req) +:+ ":" +:+ hq_StartDate req +:+ ":" +:+ hq_EndDate req
                    +:+ ":" +:+ (if hq_IsAc req then "true" else "false") in
    r ← map_err internal_error (GetCacheDal GobEncoder GobDecoder cacheKey
          (HeatmapQuery read_date (hq_StartDate req) (hq_EndDate req) (hq_UserId req) (hq_IsAc req)));
    mret (map (fun v => (format_date zone_secs (dc_Day v), dc_Cnt v)) r.1).

(** ** The numbers of all users *)

Definition sub_ac (s : SubmitLog) : bool := acCondition (s_Status s).
Definition at_night (s : SubmitLog) : bool := (0 <=? db_hour (s_Time s)) && (db_hour (s_Time s) <? 5).
Definition on_day (z : Z) (s : SubmitLog) : bool := bool_decide (db_day (s_Time s) = z).
Definition metric_row (today u : Z) (l : list SubmitLog) : achievementUserMetric :=
  Metric u (Z.of_nat (length l)) (count_where sub_ac l) (count_where (fun s => sub_ac s && at_night s) l)
    (count_where (on_day today) l) (count_where (fun s => on_day today s && sub_ac s) l) 0 no_hours.

(** A query that knows the time. *)
Definition query_at {A} (q : Z -> core_db -> A) : CM A := fun w => query (q (w_clock w (w_calls w))) w.

Definition add_daily_wa (metrics : gmap Z achievementUserMetric) (row : (Z * Z) * Z) : gmap Z achievementUserMetric :=
  match metrics !! row.1.1 with
  | Some m => if um_MaxDailyWa m <? row.2 then <[row.1.1 := set_max_wa row.2 m]> metrics else metrics
  | None => metrics
  end.
Definition add_hour_total (totals : gmap Z float) (row : (Z * Z) * Z) : gmap Z float :=
  <[row.1.1 := f_add (default f_zero (totals !! row.1.1)) (f_of row.2)]> totals.
Definition add_hour (totals : gmap Z float) (metrics : gmap Z achievementUserMetric) (row : (Z * Z) * Z)
    : gmap Z achievementUserMetric :=
  let total := default f_zero (totals !! row.1.1) in
  match metrics !! row.1.1 with
  | Some m =>
      if negb (f_lt f_zero total) || (row.1.2 <? 0) || (23 <? row.1.2) then metrics
      else <[row.1.1 := set_hour (Z.to_nat row.1.2) (f_div (f_of row.2) total) m]> metrics
  | None => metrics
  end.

Definition metric_rows (today : Z) (l : list SubmitLog) : list (Z * achievementUserMetric) :=
  map (fun r => (r.1, metric_row today r.1 r.2)) (group_by s_UserID (fun g => g) l).
Definition wa_rows (l : list SubmitLog) : list ((Z * Z) * Z) :=
  group_by (fun s => (s_UserID s, db_day (s_Time s))) (fun g => Z.of_nat (length g))
    (where_ (fun s => waCondition (s_Status s)) l).
Definition hour_rows (l : list SubmitLog) : list ((Z * Z) * Z) :=
  group_by (fun s => (s_UserID s, db_hour (s_Time s))) (fun g => Z.of_nat (length g)) l.

Definition achievementUserMetrics : CM (gmap Z achievementUserMetric) :=
  rows ← query_at (fun t d => metric_rows (db_day t) (all_submits d));
  dailyWaRows ← query (fun d => wa_rows (all_submits d));
  hourRows ← query (fun d => hour_rows (all_submits d));
  let metrics := foldl add_daily_wa (list_to_map rows) dailyWaRows in
  mret (foldl (add_hour (foldl add_hour_total ∅ hourRows)) metrics hourRows).

(** ** The snapshot *)

Record achievement_item := Item { it_Key : string; it_Unlocked : bool }.
Definition achievement_fields : list (json_field achievement_item) :=
  [string_member "key" (fun s x => Item s (it_Unlocked x)); bool_member "unlocked" (fun b x => Item (it_Key x) b)].
Definition payload_fields : list (json_field (list achievement_item)) :=
  [array_member "achievements" (struct_value (fields_of achievement_fields) (Item "" false)) (fun l _ => l)].
Definition unmarshal_achievements : string -> option (list achievement_item) :=
  unmarshal (struct_value (fields_of payload_fields) []).

(** How often each achievement is unlocked, and how many snapshots count. *)
Definition count_item (counts : gmap string Z) (i : achievement_item) : gmap string Z :=
  if decide (trim_space (it_Key i) = "") then counts
  else if negb (it_Unlocked i) then counts
  else <[it_Key i := default 0 (counts !! it_Key i) + 1]> counts.
Definition count_snapshot (acc : gmap string Z * Z) (payload : string) : gmap string Z * Z :=
  match unmarshal_achievements payload with
  | None | Some [] => acc
  | Some l => (foldl count_item acc.1 l, acc.2 + 1)
  end.

Record AchievementGlobalRate := GlobalRate { gr_Unlocked : Z; gr_Total : Z; gr_Rate : float }.
Record site_context := SiteContext {
  sc_totalSubmitPercentile : float; sc_acceptRatePercentile : float; sc_medianSubmit : float;
  sc_medianAcceptRate : float; sc_uniqueAcMinute : bool; sc_siteDailyWaLeader : bool;
  sc_todaySubmitLeader : bool; sc_todaySubmit : Z; sc_todayAcRatePercentile : float; sc_offPeakPercentile : float }.
Record AchievementGlobalSnapshot := GlobalSnapshot {
  gs_Rates : gmap string AchievementGlobalRate; gs_NightPercentiles : gmap Z float;
  gs_SiteContexts : gmap Z site_context; gs_GeneratedAt : Z }.

(** [encoding/json] of a snapshot, with its floating point: what is written into the column
    is read back from it. *)
Class GlobalJson `{Jsonb} := {
  global_text : AchievementGlobalSnapshot -> option string;
  read_global : string -> option AchievementGlobalSnapshot;
  global_again s x t : global_text s = Some x -> jsonb_in x = Some t -> read_global t = Some s
}.

Definition rates_of (counts : gmap string Z * Z) : gmap string AchievementGlobalRate :=
  (fun unlocked => GlobalRate unlocked counts.2 (percent_or_zero unlocked counts.2)) <$> counts.1.

Definition accept_rate (m : achievementUserMetric) : float := percent_or_zero (um_AcceptedSubmit m) (um_TotalSubmit m).
Definition today_rate (m : achievementUserMetric) : float := percent_or_zero (um_TodayAc m) (um_TodaySubmit m).
Definition lucky (m : achievementUserMetric) : bool := 10 <=? um_TodaySubmit m.
Definition leader (f : achievementUserMetric -> Z) (ms : list achievementUserMetric) : Z :=
  foldl (fun best m => if best <? f m then f m else best) 0 ms.
(** The mean of the hours, in the order in which the map is gone through. *)
Definition average_hours (ms : list achievementUserMetric) : list float :=
  foldl (fun avg m => zip_with (fun a h => f_add a (f_div h (f_max (f_of (Z.of_nat (length ms))) (f_of 1)))) avg (um_Hourly m))
    no_hours ms.
Definition off_peak (ms : list achievementUserMetric) (m : achievementUserMetric) : float :=
  achievementDistributionDistance (um_Hourly m) (average_hours ms).

(** Minutes with their owners; who owns one alone. *)
Definition minute_owners (rows : list (Z * Z)) (minute : Z) : gset Z :=
  list_to_set (map fst (where_ (fun r => bool_decide (r.2 = minute)) rows)).
Definition owns_minute (rows : list (Z * Z)) (u : Z) : bool :=
  existsb (fun r => bool_decide (r.1 = u) && bool_decide (size (minute_owners rows r.2) = 1%nat)) rows.

(** [ms]: the metrics in the order of the map. *)
Definition context_of (ms : list achievementUserMetric) (minutes : list (Z * Z)) (m : achievementUserMetric) : site_context :=
  let totals := map (fun m => f_of (um_TotalSubmit m)) ms in
  let rates := map accept_rate ms in
  let wa := leader um_MaxDailyWa ms in
  let today := leader um_TodaySubmit ms in
  SiteContext (achievementPercentile totals (f_of (um_TotalSubmit m))) (achievementPercentile rates (accept_rate m))
    (achievementMedian totals) (achievementMedian rates) (owns_minute minutes (um_UserID m))
    ((20 <=? wa) && (um_MaxDailyWa m =? wa)) ((0 <? today) && (um_TodaySubmit m =? today)) (um_TodaySubmit m)
    (if lucky m then achievementPercentile (map today_rate (where_ lucky ms)) (today_rate m) else f_zero)
    (achievementPercentile (map (off_peak ms) ms) (off_peak ms m)).
Definition night_percentile (ms : list achievementUserMetric) (m : achievementUserMetric) : float :=
  achievementPercentile (map (fun m => f_of (um_NightAcCount m)) ms) (f_of (um_NightAcCount m)).

(** A map is gone through in any order; only the rounding of the average depends on it. *)
Context (range : gmap Z achievementUserMetric -> list achievementUserMetric).
Definition achievement_row (s : FeatureSnapshot) : bool := bool_decide (fs_Kind s = "achievement") && (0 <? fs_UserID s).
Definition buildAchievementGlobalSnapshot : CM AchievementGlobalSnapshot :=
  snapshots ← query (fun d => select achievement_row (snapshots d));
  let counts := foldl count_snapshot (∅, 0) (map fs_Payload snapshots) in
  metrics ← achievementUserMetrics;
  minuteRows ← query (fun d => map (fun s => (s_UserID s, db_minute (s_Time s))) (select sub_ac (submits d)));
  t ← now;
  let ms := range metrics in
  mret (GlobalSnapshot (rates_of counts) (list_to_map (map (fun m => (um_UserID m, night_percentile ms m)) ms))
    (list_to_map (map (fun m => (um_UserID m, context_of ms minuteRows m)) ms)) (time_unix t)).

(** ** The request *)

Definition achievementGlobalSnapshotTTL : Z := 30 * minute.
Definition achievement_global : string := "achievement_global".
Definition fresh (t : Z) (s : FeatureSnapshot) : bool :=
  (time_sub t (fs_GeneratedAt s) <? achievementGlobalSnapshotTTL) && json_valid (fs_Payload s).
Definition generated_at (t : Z) (s : AchievementGlobalSnapshot) : AchievementGlobalSnapshot :=
  GlobalSnapshot (gs_Rates s) (gs_NightPercentiles s) (gs_SiteContexts s) t.
Context `{Jsonb} `{GlobalJson}.
Definition rebuild : CM AchievementGlobalSnapshot :=
  payload ← buildAchievementGlobalSnapshot;
  match global_text payload with
  | None => throw (Driver "json")
  | Some raw =>
      t ← now;
      assign_or_create (-1) achievement_global (pretty (time_unix t)) raw t;;
      mret (generated_at (time_unix t) payload)
  end.
Definition svc_GetAchievementGlobalSnapshot (c : ctx) : CM AchievementGlobalSnapshot :=
  cleanupExpiredFeatureSnapshots c;;
  r ← attempt (first_by (snapshot_of (-1) achievement_global));
  match r with
  | Val s =>
      t ← now;
      match (if fresh t s then read_global (fs_Payload s) else None) with
      | Some payload => mret payload
      | None => rebuild
      end
  | Exn e => if is_not_found e then rebuild else throw e
  end.

(** What the snapshot says, as a function of the tables. *)
Definition metrics_of (today : Z) (l : list SubmitLog) : gmap Z achievementUserMetric :=
  foldl (add_hour (foldl add_hour_total ∅ (hour_rows l)))
    (foldl add_daily_wa (list_to_map (metric_rows today l)) (wa_rows l)) (hour_rows l).
End achievements.

(** ** The heatmap adds up *)

Section heat.
Context (offset userId : Z) (isAc : bool) (l : list SubmitLog).
Let counts (s : SubmitLog) : bool := heat_counts userId isAc s.
Lemma day_start_next z : day_start offset z + 24 * hour = day_start offset (z + 1).
Proof. unfold day_start, day. lia. Qed.
Lemma count_between (lo mid hi : Z) : lo <= mid -> mid <= hi ->
  count_where (fun s => counts s && (bool_decide (lo <= s_Time s) && bool_decide (s_Time s < hi))) l
  = count_where (fun s => counts s && (bool_decide (lo <= s_Time s) && bool_decide (s_Time s < mid))) l
  + count_where (fun s => counts s && (bool_decide (mid <= s_Time s) && bool_decide (s_Time s < hi))) l.
Proof.
  intros H1 H2. unfold count_where. induction l as [|s l' IH]; [done|]. unfold where_ in *. cbn [List.filter].
  destruct (counts s); cbn [andb]; [|exact IH].
  repeat case_bool_decide; cbn [andb length]; lia.
Qed.
(** The heatmap has every day of the range once, in order, and its counts add up to the
    submissions between its first and its last day. *)
Lemma heatmap_sum (a b : Z) : a <= b + 1 ->
  let items := map (heat_day offset userId isAc l) (days_between a b) in
  map dc_Day items = map (day_start offset) (days_between a b) /\
  sum_list_Z (map dc_Cnt items) = count_where (fun s => counts s &&
    (bool_decide (day_start offset a <= s_Time s) && bool_decide (s_Time s < day_start offset (b + 1)))) l.
Proof.
  intros Hab items. split; [unfold items; by rewrite map_map|]. unfold items, days_between. rewrite !map_map.
  remember (Z.to_nat (b - a + 1)) as n eqn:En. assert (b + 1 = a + Z.of_nat n) as -> by lia. clear En Hab items.
  induction n as [|n IH].
  - cbn. unfold count_where. rewrite where_none; [done|]. intros s _. rewrite Z.add_0_r.
    destruct (counts s); [|done]. repeat case_bool_decide; cbn; try done; lia.
  - rewrite seq_S, map_app, sum_list_Z_app, IH. cbn [map Nat.add].
    rewrite (count_between (day_start offset a) (day_start offset (a + Z.of_nat n)) (day_start offset (a + Z.of_nat (S n)))) by (unfold day_start, day, hour, minute, second; lia).
    f_equal. unfold heat_day. cbn [dc_Cnt sum_list_Z foldr]. rewrite day_start_next, Z.add_0_r.
    by replace (a + Z.of_nat n + 1) with (a + Z.of_nat (S n)) by lia.
Qed.
End heat.

(** ** Lookups *)

Section metrics.
Context (offset today : Z) (l : list SubmitLog).

Definition subs_of (u : Z) : list SubmitLog := where_ (fun s => bool_decide (s_UserID s = u)) l.
(** The wrong answers of a user on a day. *)
Definition wa_on (u z : Z) : Z :=
  count_where (fun s => waCondition (s_Status s) && bool_decide (s_UserID s = u) && on_day offset z s) l.
Definition today_of (u : Z) : Z := count_where (fun s => bool_decide (s_UserID s = u) && on_day offset today s) l.

Lemma base_lookup u : (list_to_map (metric_rows offset today l) : gmap Z achievementUserMetric) !! u
  = if decide (u ∈ map s_UserID l) then Some (metric_row offset today u (subs_of u)) else None.
Proof.
  unfold metric_rows, group_by. rewrite map_map. cbn [fst snd].
  assert (NoDup (map fst (map (fun k => (k, metric_row offset today k (subs_of k))) (remove_dups (map s_UserID l))))) as Hnd.
  { rewrite map_map, map_id. apply NoDup_remove_dups. }
  case_decide as Hu.
  - apply elem_of_list_to_map_1; [exact Hnd|]. apply list_elem_of_fmap. exists u. by rewrite elem_of_remove_dups.
  - apply not_elem_of_list_to_map_1. rewrite list_elem_of_fmap. intros ([k m] & -> & Hk).
    apply list_elem_of_fmap in Hk as (k' & [= -> ->] & Hk'). by rewrite elem_of_remove_dups in Hk'.
Qed.

(** The greatest number in the rows of a user. *)
Definition best (u : Z) (b : Z) (rows : list ((Z * Z) * Z)) : Z :=
  foldl (fun b r => if decide (r.1.1 = u) then if b <? r.2 then r.2 else b else b) b rows.
Lemma wa_lookup u rows (M : gmap Z achievementUserMetric) :
  foldl add_daily_wa M rows !! u = (fun m => set_max_wa (best u (um_MaxDailyWa m) rows) m) <$> M !! u.
Proof.
  revert M. induction rows as [|r rows IH]; intros M.
  { cbn. destruct (M !! u) as [[]|]; done. }
  cbn [foldl best]. rewrite IH. unfold add_daily_wa. fold (best u).
  destruct (M !! r.1.1) as [m|] eqn:E.
  - destruct (um_MaxDailyWa m <? r.2) eqn:Eb; destruct (decide (r.1.1 = u)) as [<-|Hn].
    + rewrite lookup_insert_eq, E. cbn. by rewrite Eb.
    + by rewrite lookup_insert_ne by done.
    + rewrite E. cbn. by rewrite Eb.
    + done.
  - destruct (decide (r.1.1 = u)) as [<-|Hn]; [|done]. by rewrite E.
Qed.
Lemma best_spec u rows b : b <= best u b rows /\ (forall r, r ∈ rows -> r.1.1 = u -> r.2 <= best u b rows) /\
  (best u b rows = b \/ exists r, r ∈ rows /\ r.1.1 = u /\ best u b rows = r.2).
Proof.
  revert b. induction rows as [|r rows IH]; intros b.
  { split_and!; [done|set_solver|by left]. }
  cbn [best foldl]. fold (best u).
  set (b' := if decide (r.1.1 = u) then if b <? r.2 then r.2 else b else b).
  destruct (IH b') as (H1 & H2 & H3). change (foldl _ b' rows) with (best u b' rows) in *.
  assert (b <= b') by (unfold b'; case_decide; [destruct (b <? r.2) eqn:E|]; lia).
  split_and!.
  - lia.
  - intros r' [->|Hr']%elem_of_cons Hu; [|by apply H2]. unfold b' in *. rewrite decide_True in * by done.
    destruct (b <? r.2) eqn:E; lia.
  - destruct H3 as [H3|(r' & Hr' & Hu & H3)]; [|right; exists r'; set_solver].
    unfold b' in *. case_decide; [destruct (b <? r.2) eqn:E|]; [right; exists r; set_solver|by left..].
Qed.

Definition set_hours (h : list float) (m : achievementUserMetric) : achievementUserMetric :=
  Metric (um_UserID m) (um_TotalSubmit m) (um_AcceptedSubmit m) (um_NightAcCount m) (um_TodaySubmit m)
    (um_TodayAc m) (um_MaxDailyWa m) h.
Lemma hours_lookup totals rows (M : gmap Z achievementUserMetric) u :
  set_hours [] <$> (foldl (add_hour totals) M rows !! u) = set_hours [] <$> (M !! u).
Proof.
  revert M. induction rows as [|r rows IH]; intros M; [done|]. cbn [foldl]. rewrite IH. unfold add_hour.
  destruct (M !! r.1.1) as [m|] eqn:E; [|done]. case_match; [done|].
  destruct (decide (r.1.1 = u)) as [<-|Hn]; [by rewrite lookup_insert_eq, E|by rewrite lookup_insert_ne].
Qed.

Lemma elem_of_group {K B} `{EqDecision K} (key : SubmitLog -> K) (cols : list SubmitLog -> B) (ls : list SubmitLog) k b :
  (k, b) ∈ group_by key cols ls <->
  (exists s, s ∈ ls /\ key s = k) /\ b = cols (where_ (fun s => bool_decide (key s = k)) ls).
Proof.
  unfold group_by. rewrite list_elem_of_fmap. split.
  - intros (k' & [= -> ->] & Hk). rewrite elem_of_remove_dups, list_elem_of_fmap in Hk.
    destruct Hk as (s & -> & Hs). split; [by exists s|done].
  - intros [(s & Hs & <-) ->]. exists (key s). split; [done|]. rewrite elem_of_remove_dups, list_elem_of_fmap. by exists s.
Qed.
Lemma wa_rows_spec u z n : ((u, z), n) ∈ wa_rows offset l -> n = wa_on u z.
Proof.
  intros [_ ->]%elem_of_group. unfold wa_on, count_where. rewrite where_where. do 2 f_equal. apply where_ext.
  intros s _. unfold on_day. destruct (waCondition (s_Status s)); [|done]. simpl.
  rewrite <- bool_decide_and. apply bool_decide_ext. split; [by intros [= -> ->]|by intros [-> ->]].
Qed.
Lemma wa_rows_has u z : 0 < wa_on u z -> ((u, z), wa_on u z) ∈ wa_rows offset l.
Proof.
  intros Hpos. unfold wa_on, count_where in Hpos. destruct (where_ _ l) as [|s rest] eqn:E; [simpl in Hpos; lia|].
  assert (s ∈ where_ (fun s => waCondition (s_Status s) && bool_decide (s_UserID s = u) && on_day offset z s) l) as Hs
    by (rewrite E; left).
  apply elem_of_where in Hs as [Hs Hp]. unfold on_day in Hp. rewrite !andb_true_iff, !bool_decide_eq_true in Hp.
  destruct Hp as [[Hwa Hu] Hz].
  assert (exists n, ((u, z), n) ∈ wa_rows offset l) as [n Hn].
  { eexists. apply elem_of_group. split; [|reflexivity]. exists s. rewrite elem_of_where. by rewrite Hu, Hz. }
  by rewrite <- (wa_rows_spec _ _ _ Hn).
Qed.

(** What the metrics of a user are made of. *)
Record metric_right (u : Z) (m : achievementUserMetric) : Prop := {
  right_user : um_UserID m = u;
  right_total : um_TotalSubmit m = Z.of_nat (length (subs_of u));
  right_accepted : um_AcceptedSubmit m = count_where sub_ac (subs_of u);
  right_today : um_TodaySubmit m = today_of u;
  right_wa_above z : wa_on u z <= um_MaxDailyWa m;
  right_wa_attained : um_MaxDailyWa m = 0 \/ exists z, um_MaxDailyWa m = wa_on u z
}.
Lemma metrics_lookup u :
  match metrics_of offset today l !! u with
  | Some m => u ∈ map s_UserID l /\ metric_right u m
  | None => u ∉ map s_UserID l
  end.
Proof.
  unfold metrics_of. set (totals := foldl _ ∅ _).
  pose proof (hours_lookup totals (hour_rows offset l) (foldl add_daily_wa (list_to_map (metric_rows offset today l)) (wa_rows offset l)) u) as H.
  rewrite wa_lookup, base_lookup in H.
  destruct (foldl (add_hour totals) _ _ !! u) as [m|]; case_decide as Hu; try done. split; [done|].
  cbn [fmap option_fmap option_map um_MaxDailyWa metric_row] in H. injection H as H1 H2 H3 H4 H5 H6 H7.
  destruct (best_spec u (wa_rows offset l) 0) as (B1 & B2 & B3). split; [done..| | |].
  - rewrite H5. unfold today_of, subs_of, count_where. by rewrite where_where.
  - intros z. rewrite H7. destruct (decide (0 < wa_on u z)) as [Hp|Hp]; [|lia].
    apply (B2 ((u, z), wa_on u z)); [by apply wa_rows_has|done].
  - rewrite H7. destruct B3 as [->|([[v z] n] & Hr & Hv & ->)]; [by left|right]. simpl in Hv. subst v.
    exists z. by apply wa_rows_spec.
Qed.
End metrics.

Lemma leader_spec (f : achievementUserMetric -> Z) ms : 0 <= leader f ms /\ (forall m, m ∈ ms -> f m <= leader f ms) /\
  (leader f ms = 0 \/ exists m, m ∈ ms /\ leader f ms = f m).
Proof.
  unfold leader. assert (forall b ms, b <= foldl (fun best m => if best <? f m then f m else best) b ms /\
    (forall m, m ∈ ms -> f m <= foldl (fun best m => if best <? f m then f m else best) b ms) /\
    (foldl (fun best m => if best <? f m then f m else best) b ms = b \/
     exists m, m ∈ ms /\ foldl (fun best m => if best <? f m then f m else best) b ms = f m)) as H; [|apply (H 0)].
  clear ms. intros b ms. revert b. induction ms as [|m ms IH]; intros b.
  { split_and!; [done|set_solver|by left]. }
  cbn [foldl]. destruct (IH (if b <? f m then f m else b)) as (H1 & H2 & H3).
  split_and!.
  - destruct (b <? f m) eqn:E; lia.
  - intros m' [->|Hm]%elem_of_cons; [|by apply H2]. destruct (b <? f m) eqn:E; lia.
  - destruct H3 as [->|(m' & Hm' & ->)]; [|right; exists m'; set_solver].
    destruct (b <? f m); [right; exists m; set_solver|by left].
Qed.

(** A minute is a user's own when all its accepted submissions are theirs. *)
Lemma owns_minute_spec offset (l : list SubmitLog) u :
  owns_minute (map (fun s => (s_UserID s, db_minute offset (s_Time s))) (where_ sub_ac l)) u = true <->
  exists s, s ∈ l /\ s_UserID s = u /\ sub_ac s = true /\
    forall s', s' ∈ l -> sub_ac s' = true -> db_minute offset (s_Time s') = db_minute offset (s_Time s) -> s_UserID s' = u.
Proof.
  set (rows := map _ _).
  assert (forall v k, v ∈ minute_owners rows k <->
    exists s, s ∈ l /\ sub_ac s = true /\ s_UserID s = v /\ db_minute offset (s_Time s) = k) as Hown.
  { intros v k. unfold minute_owners. rewrite elem_of_list_to_set, list_elem_of_fmap. split.
    - intros ([v' k'] & -> & Hr). apply elem_of_where in Hr as [Hr Hk]. bool_cases. simpl in *. subst k'.
      apply list_elem_of_fmap in Hr as (s & [= -> ->] & Hs). apply elem_of_where in Hs as [Hs Ha]. by exists s.
    - intros (s & Hs & Ha & <- & <-). exists (s_UserID s, db_minute offset (s_Time s)). split; [done|].
      apply elem_of_where. split; [|by apply bool_decide_eq_true]. apply list_elem_of_fmap. exists s.
      split; [done|]. by apply elem_of_where. }
  unfold owns_minute. rewrite existsb_exists. split.
  - intros ([v k] & Hr & Hp). rewrite andb_true_iff, !bool_decide_eq_true in Hp. destruct Hp as [Hv Hsz].
    simpl in *. subst v. apply list_elem_of_In in Hr.
    apply list_elem_of_fmap in Hr as (s & [= -> ->] & Hs). apply elem_of_where in Hs as [Hs Ha].
    exists s. split_and!; [done..|]. intros s' Hs' Ha' Hk.
    apply size_1_elem_of in Hsz as [x Hx].
    assert (s_UserID s ∈ minute_owners rows (db_minute offset (s_Time s))) as H1 by (apply Hown; by exists s).
    assert (s_UserID s' ∈ minute_owners rows (db_minute offset (s_Time s))) as H2 by (apply Hown; by exists s').
    rewrite Hx, elem_of_singleton in H1, H2. congruence.
  - intros (s & Hs & <- & Ha & Hall). exists (s_UserID s, db_minute offset (s_Time s)). split.
    + apply list_elem_of_In, list_elem_of_fmap. exists s. split; [done|]. by apply elem_of_where.
    + rewrite bool_decide_true by done. simpl. apply bool_decide_eq_true.
      assert (minute_owners rows (db_minute offset (s_Time s)) = {[s_UserID s]}) as ->; [|apply size_singleton].
      apply set_eq. intros v. rewrite Hown, elem_of_singleton. split.
      * intros (s' & Hs' & Ha' & <- & Hk). by apply Hall.
      * intros ->. by exists s.
Qed.

(** ** A healthy run *)

Section site.
Context (offset : Z) (range : gmap Z achievementUserMetric -> list achievementUserMetric)
  (range_all : forall M, Permutation (range M) (map snd (map_to_list M))).

Definition minutes_of (l : list SubmitLog) : list (Z * Z) :=
  map (fun s => (s_UserID s, db_minute offset (s_Time s))) (where_ sub_ac l).
Definition site_snapshot (today t : Z) (payloads : list string) (l : list SubmitLog) : AchievementGlobalSnapshot :=
  let ms := range (metrics_of offset today l) in
  GlobalSnapshot (rates_of (foldl count_snapshot (∅, 0) payloads))
    (list_to_map (map (fun m => (um_UserID m, night_percentile ms m)) ms))
    (list_to_map (map (fun m => (um_UserID m, context_of ms (minutes_of l) m)) ms)) (time_unix t).
Lemma select_ac (d : core_db) : select sub_ac (submits d) = where_ sub_ac (all_submits d).
Proof. unfold all_submits, select. rewrite where_where. apply where_ext. intros s _. unfold visible. by destruct (sub_ac s). Qed.
Lemma build_run (w : world core_db) : healthy w -> exists w',
  buildAchievementGlobalSnapshot offset range w
  = (Val (site_snapshot (db_day offset (w_clock w (S (w_calls w)))) (w_clock w (5 + w_calls w))
      (map fs_Payload (select achievement_row (snapshots (w_db w)))) (all_submits (w_db w))), w') /\
  w_db w' = w_db w /\ healthy w' /\ w_clock w' = w_clock w.
Proof.
  intros Hw. exists (Nat.iter 6 tick w). split; [|done].
  unfold buildAchievementGlobalSnapshot, achievementUserMetrics, query_at, query, now, mbind, M_bind, mret, M_ret.
  destruct w as [d r n f c]. unfold healthy in Hw. cbn [w_fault] in Hw.
  do 5 (unfold tick; cbn [w_fault w_calls w_db w_clock w_redis]; rewrite Hw; cbn [fst snd]).
  unfold site_snapshot, minutes_of, metrics_of. by rewrite select_ac.
Qed.

Lemma elem_of_range M m : m ∈ range M <-> exists u, M !! u = Some m.
Proof.
  rewrite range_all, list_elem_of_fmap. split.
  - intros ([u m'] & -> & Hm). exists u. by apply elem_of_map_to_list.
  - intros [u Hu]. exists (u, m). split; [done|]. by apply elem_of_map_to_list.
Qed.
Lemma range_users M : (forall u m, M !! u = Some m -> um_UserID m = u) -> NoDup (map um_UserID (range M)).
Proof.
  intros HM. rewrite (fmap_Permutation um_UserID _ _ (range_all M)).
  change (NoDup (map um_UserID (map snd (map_to_list M)))). rewrite map_map.
  rewrite (map_ext_in _ fst); [apply NoDup_fst_map_to_list|].
  intros [u m] Hm. apply list_elem_of_In, elem_of_map_to_list in Hm. by apply HM.
Qed.
End site.

(** ** The property *)

Section contexts.
Context (offset : Z) (range : gmap Z achievementUserMetric -> list achievementUserMetric)
  (range_all : forall M, Permutation (range M) (map snd (map_to_list M))) (today : Z) (l : list SubmitLog).
Let M : gmap Z achievementUserMetric := metrics_of offset today l.
Let ms : list achievementUserMetric := range M.

Lemma metric_found u m : M !! u = Some m -> u ∈ map s_UserID l /\ metric_right offset today l u m.
Proof. intros Hm. pose proof (metrics_lookup offset today l u) as H. fold M in H. by rewrite Hm in H. Qed.
Lemma metric_of_user u : u ∈ map s_UserID l -> exists m, m ∈ ms /\ metric_right offset today l u m.
Proof.
  intros Hu. pose proof (metrics_lookup offset today l u) as H. fold M in H. destruct (M !! u) as [m|] eqn:E; [|done].
  exists m. split; [|apply H]. apply elem_of_range; [done|]. by exists u.
Qed.
Lemma elem_of_ms m : m ∈ ms -> metric_right offset today l (um_UserID m) m.
Proof. intros [u Hu]%elem_of_range; [|done]. destruct (metric_found u m Hu) as [_ H]. by rewrite (right_user _ _ _ _ _ H). Qed.
Lemma context_lookup u c :
  (list_to_map (map (fun m => (um_UserID m, context_of ms (minutes_of offset l) m)) ms) : gmap Z site_context) !! u = Some c <->
  exists m, m ∈ ms /\ metric_right offset today l u m /\ c = context_of ms (minutes_of offset l) m.
Proof.
  rewrite <- elem_of_list_to_map.
  2: { change (NoDup (map fst (map (fun m => (um_UserID m, context_of ms (minutes_of offset l) m)) ms))).
       rewrite map_map. cbn [fst]. apply range_users; [done|]. intros v m Hm. by destruct (metric_found v m Hm) as [_ []]. }
  rewrite list_elem_of_fmap. split.
  - intros (m & [= -> ->] & Hm). exists m. split_and!; [done| |done]. by apply elem_of_ms.
  - intros (m & Hm & Hr & ->). exists m. by rewrite (right_user _ _ _ _ _ Hr).
Qed.

Lemma today_absent u : u ∉ map s_UserID l -> today_of offset today l u = 0.
Proof.
  intros Hu. unfold today_of, count_where. destruct (where_ _ l) as [|s r] eqn:E; [done|]. exfalso.
  assert (s ∈ where_ (fun s => bool_decide (s_UserID s = u) && on_day offset today s) l) as Hs by (rewrite E; left).
  apply elem_of_where in Hs as [Hs Hp]. apply andb_true_iff in Hp as [Hp _]. apply bool_decide_eq_true in Hp.
  apply Hu, list_elem_of_fmap. by exists s.
Qed.
Lemma wa_absent u z : u ∉ map s_UserID l -> wa_on offset l u z = 0.
Proof.
  intros Hu. unfold wa_on, count_where. destruct (where_ _ l) as [|s r] eqn:E; [done|]. exfalso.
  assert (s ∈ where_ (fun s => waCondition (s_Status s) && bool_decide (s_UserID s = u) && on_day offset z s) l) as Hs by (rewrite E; left).
  apply elem_of_where in Hs as [Hs Hp]. rewrite !andb_true_iff in Hp. destruct Hp as [[_ Hp] _]. apply bool_decide_eq_true in Hp.
  apply Hu, list_elem_of_fmap. by exists s.
Qed.

Lemma today_leader u m : m ∈ ms -> metric_right offset today l u m ->
  (0 <? leader um_TodaySubmit ms) && (um_TodaySubmit m =? leader um_TodaySubmit ms) = true <->
  0 < today_of offset today l u /\ forall v, today_of offset today l v <= today_of offset today l u.
Proof.
  intros Hm Hr. destruct (leader_spec um_TodaySubmit ms) as (L0 & L1 & L2).
  rewrite andb_true_iff, Z.ltb_lt, Z.eqb_eq, <- (right_today _ _ _ _ _ Hr). split.
  - intros [Hpos Heq]. split; [lia|]. intros v. destruct (decide (v ∈ map s_UserID l)) as [Hv|Hv].
    + destruct (metric_of_user v Hv) as (m' & Hm' & Hr'). rewrite <- (right_today _ _ _ _ _ Hr'). specialize (L1 m' Hm'). lia.
    + rewrite today_absent by done. lia.
  - intros [Hpos Hall]. specialize (L1 m Hm). destruct L2 as [L2|(m' & Hm' & L2)]; [lia|].
    specialize (Hall (um_UserID m')). rewrite <- (right_today _ _ _ _ _ (elem_of_ms m' Hm')) in Hall. lia.
Qed.
Lemma wa_leader u m : m ∈ ms -> metric_right offset today l u m ->
  (20 <=? leader um_MaxDailyWa ms) && (um_MaxDailyWa m =? leader um_MaxDailyWa ms) = true <->
  exists z, 20 <= wa_on offset l u z /\ forall v z', wa_on offset l v z' <= wa_on offset l u z.
Proof.
  intros Hm Hr. destruct (leader_spec um_MaxDailyWa ms) as (L0 & L1 & L2).
  rewrite andb_true_iff, Z.leb_le, Z.eqb_eq. split.
  - intros [Hpos Heq]. destruct (right_wa_attained _ _ _ _ _ Hr) as [?|[z Hz]]; [lia|]. exists z. split; [lia|].
    intros v z'. destruct (decide (v ∈ map s_UserID l)) as [Hv|Hv].
    + destruct (metric_of_user v Hv) as (m' & Hm' & Hr'). specialize (L1 m' Hm').
      pose proof (right_wa_above _ _ _ _ _ Hr' z'). lia.
    + rewrite wa_absent by done. lia.
  - intros (z & Hz & Hall). pose proof (right_wa_above _ _ _ _ _ Hr z). specialize (L1 m Hm).
    destruct L2 as [L2|(m' & Hm' & L2)]; [lia|].
    destruct (right_wa_attained _ _ _ _ _ (elem_of_ms m' Hm')) as [?|[z' Hz']]; [lia|].
    specialize (Hall (um_UserID m') z'). lia.
Qed.
End contexts.

(** C32: How a user stands on the site: when no call fails the snapshot has a context for exactly the
    users with a submission, whatever the order in which the map of metrics is gone through; who
    leads the day, who had the most wrong answers on one day (at least 20) and who had a
    minute's accepted submissions alone are those of whom the submissions say so. *)
Theorem site_contexts_right (offset : Z) (range : gmap Z achievementUserMetric -> list achievementUserMetric)
    (w : world core_db) :
  (forall M, Permutation (range M) (map snd (map_to_list M))) -> healthy w ->
  let l := all_submits (w_db w) in
  let today := db_day offset (w_clock w (S (w_calls w))) in
  exists snap w', buildAchievementGlobalSnapshot offset range w = (Val snap, w') /\ w_db w' = w_db w /\
  forall u,
    (is_Some (gs_SiteContexts snap !! u) <-> exists s, s ∈ l /\ s_UserID s = u) /\
    forall c, gs_SiteContexts snap !! u = Some c ->
      sc_todaySubmit c = today_of offset today l u /\
      (sc_todaySubmitLeader c = true <->
         0 < today_of offset today l u /\ forall v, today_of offset today l v <= today_of offset today l u) /\
      (sc_siteDailyWaLeader c = true <->
         exists z, 20 <= wa_on offset l u z /\ forall v z', wa_on offset l v z' <= wa_on offset l u z) /\
      (sc_uniqueAcMinute c = true <->
         exists s, s ∈ l /\ s_UserID s = u /\ sub_ac s = true /\
           forall s', s' ∈ l -> sub_ac s' = true -> db_minute offset (s_Time s') = db_minute offset (s_Time s) -> s_UserID s' = u).
Proof.
  intros Hrange Hw l today. destruct (build_run offset range w Hw) as (w' & E & Hdb & _ & _).
  eexists _, w'. split; [exact E|]. split; [done|]. intros u.
  fold l today. unfold site_snapshot. cbn [gs_SiteContexts]. split.
  - split.
    + intros [c (m & Hm & Hr & _)%context_lookup]; [|done]. apply elem_of_range in Hm as [v Hv]; [|done].
      destruct (metric_found offset today l v m Hv) as [Hin Hr']. rewrite <- (right_user _ _ _ _ _ Hr), (right_user _ _ _ _ _ Hr').
      apply list_elem_of_fmap in Hin as (s & -> & Hs). by exists s.
    + intros (s & Hs & <-). destruct (metric_of_user offset range Hrange today l (s_UserID s)) as (m & Hm & Hr).
      { apply list_elem_of_fmap. by exists s. }
      eexists. apply context_lookup; [done|]. by exists m.
  - intros c (m & Hm & Hr & ->)%context_lookup; [|done]. unfold context_of.
    cbn [sc_todaySubmit sc_todaySubmitLeader sc_siteDailyWaLeader sc_uniqueAcMinute]. split_and!.
    + exact (right_today _ _ _ _ _ Hr).
    + by apply today_leader.
    + by apply (wa_leader offset range Hrange today l).
    + rewrite (right_user _ _ _ _ _ Hr). apply owns_minute_spec.
Qed.

(** ** The witness *)

(** User 7 is alone with a minute, user 8 had twenty wrong answers, both on 1 January 1970. *)
Definition wrong_ones : list SubmitLog :=
  map (fun i => Submission (10 + Z.of_nat i) "QOJ" 8 (pretty i) "" "B" "C++" "WA" 0) (seq 0 20).
Definition sample_site : core_db :=
  CoreDb (platforms sample_core) (statuses sample_core) (jobs sample_core)
    (Table ([Submission 1 "QOJ" 7 "1" "" "A" "C++" "AC" 0; Submission 2 "QOJ" 7 "2" "" "B" "C++" "AC" (90 * second);
             Submission 3 "QOJ" 8 "3" "" "A" "C++" "AC" (30 * second)] ++ wrong_ones) 100)
    (Table [] 1) (Table [] 1) (Table [] 1)
    (Table [SnapshotRow 1 7 "achievement" "" (of_bytes (map (fun a => if code a =? 39 then byte_of 34 else a)
              (bytes_of "{'achievements':[{'key':'first','unlocked':true},{'key':'late','unlocked':false},{'key':'first','unlocked':true}]}"))) 0] 2)
    [] ∅ zero_time.
Definition sample_evening : world core_db := World sample_site ∅ 0 (fun _ => None) (fun _ => hour).
Definition in_key_order (M : gmap Z achievementUserMetric) : list achievementUserMetric := map snd (map_to_list M).
Definition flags_of (c : site_context) : bool * bool * bool * Z :=
  (sc_uniqueAcMinute c, sc_siteDailyWaLeader c, sc_todaySubmitLeader c, sc_todaySubmit c).
Example site_answers :
  match (buildAchievementGlobalSnapshot 0 in_key_order sample_evening).1 with
  | Val s => (flags_of <$> gs_SiteContexts s !! 7, flags_of <$> gs_SiteContexts s !! 8)
  | Exn _ => (None, None)
  end = (Some (true, false, false, 2), Some (false, true, true, 21)).
Proof. vm_compute. reflexivity. Qed.
(** A key that a snapshot names twice counts twice: two hundred per cent. *)
Example two_hundred_per_cent :
  match (buildAchievementGlobalSnapshot 0 in_key_order sample_evening).1 with
  | Val s => gs_Rates s !! "first" = Some (GlobalRate 2 1 (f_of 200))
  | Exn _ => False
  end.
Proof. vm_compute. reflexivity. Qed.
Lemma site_contexts_right_witness :
  exists snap w' c, buildAchievementGlobalSnapshot 0 in_key_order sample_evening = (Val snap, w') /\
    gs_SiteContexts snap !! 8 = Some c /\ sc_todaySubmit c = 21 /\ sc_siteDailyWaLeader c = true /\
    (sc_siteDailyWaLeader c = true <-> exists z, 20 <= wa_on 0 (all_submits sample_site) 8 z /\
       forall v z', wa_on 0 (all_submits sample_site) v z' <= wa_on 0 (all_submits sample_site) 8 z).
Proof.
  destruct (site_contexts_right 0 in_key_order sample_evening) as (snap & w' & E & _ & H); [done|done|].
  destruct (H 8) as [[_ Hin] Hc]. destruct Hin as [c Hin].
  { exists (Submission 3 "QOJ" 8 "3" "" "A" "C++" "AC" (30 * second)). split; [|done].
    apply list_elem_of_In. vm_compute. tauto. }
  destruct (Hc c Hin) as (Ht & _ & Hwa & _). exists snap, w', c. split_and!; [done|done| | |done].
  - rewrite Ht. vm_compute. reflexivity.
  - pose proof site_answers as Ha. rewrite E in Ha. cbn [fst] in Ha. rewrite Hin in Ha. cbn in Ha. by injection Ha.
Defined.

(** ** The median *)

(** A float as a triple in the order of the numbers. *)
Definition not_nan (x : float) : bool := match x with S754_nan => false | _ => true end.
Definition f_key (x : float) : Z * Z * Z :=
  match x with
  | S754_infinity true => (-2, 0, 0)
  | S754_finite true m e => (-1, - e, Z.neg m)
  | S754_zero _ => (0, 0, 0)
  | S754_finite false m e => (1, e, Z.pos m)
  | S754_infinity false => (2, 0, 0)
  | S754_nan => (3, 0, 0)
  end.
Definition key_lt (p q : Z * Z * Z) : Prop :=
  p.1.1 < q.1.1 \/ p.1.1 = q.1.1 /\ (p.1.2 < q.1.2 \/ p.1.2 = q.1.2 /\ p.2 < q.2).
Lemma f_lt_key x y : not_nan x = true -> not_nan y = true -> f_lt x y = true <-> key_lt (f_key x) (f_key y).
Proof.
  intros Hx Hy. unfold f_lt, SFltb, SFcompare, key_lt.
  destruct x as [sx|[]| |[] mx ex], y as [sy|[]| |[] my ey]; cbn [f_key fst snd not_nan] in *;
    try (split; intros; first [done|lia]);
    destruct (Z.compare_spec ex ey) as [<-|?|?]; try (split; intros; first [done|lia]);
    rewrite Pos.compare_cont_spec; cbn;
    destruct (Pos.compare_spec mx my) as [<-|?|?]; cbn; split; intros; first [done|lia].
Qed.

Definition f_le (x y : float) : Prop := f_lt y x = false.
Lemma f_le_key x y : not_nan x = true -> not_nan y = true -> f_le x y <-> ~ key_lt (f_key y) (f_key x).
Proof. intros Hx Hy. unfold f_le. rewrite <- (f_lt_key y x) by done. by destruct (f_lt y x). Qed.

Definition numbers (l : list float) : Prop := Forall (fun x => not_nan x = true) l.
Lemma insert_perm c back : Permutation (insert_back c back) (c :: back).
Proof.
  induction back as [|x back IH]; [done|]. cbn [insert_back]. destruct (f_lt c x); [|done].
  rewrite IH. apply Permutation_swap.
Qed.
(** From the back the list falls. *)
Lemma insert_sorted c back : not_nan c = true -> numbers back ->
  StronglySorted (fun x y => f_le y x) back -> StronglySorted (fun x y => f_le y x) (insert_back c back).
Proof.
  intros Hc Hn Hs. unfold numbers in Hn. rewrite Forall_forall in Hn.
  induction Hs as [|x back Hs IH Hx]; [by repeat constructor|]. rewrite Forall_forall in Hx. cbn [insert_back].
  assert (not_nan x = true) as Hnx by (apply Hn; left).
  assert (forall y, y ∈ back -> not_nan y = true) as Hnb by (intros; apply Hn; by right).
  destruct (f_lt c x) eqn:E.
  - constructor; [by apply IH|]. apply Forall_forall. intros y. rewrite insert_perm. intros [->|Hy]%elem_of_cons; [|by apply Hx].
    apply f_le_key; [done..|]. apply f_lt_key in E; [|done..]. unfold key_lt in *. lia.
  - assert (f_le x c) as Hxc by exact E. apply f_le_key in Hxc; [|done..].
    constructor; [by constructor; [|apply Forall_forall]|]. constructor; [exact E|]. apply Forall_forall. intros y Hy.
    specialize (Hx y Hy). apply f_le_key in Hx; [|by auto..]. apply f_le_key; [by auto..|]. unfold key_lt in *. lia.
Qed.
(** The insertion sort of the code gives the same numbers in order. *)
Lemma insertion_sorted_spec values : numbers values ->
  Permutation (insertion_sorted values) values /\ StronglySorted f_le (insertion_sorted values).
Proof.
  intros Hn. unfold insertion_sorted.
  assert (forall back, numbers back -> StronglySorted (fun x y => f_le y x) back ->
    let r := foldl (fun back c => insert_back c back) back values in
    Permutation r (back ++ values) /\ StronglySorted (fun x y => f_le y x) r) as H.
  { induction Hn as [|c values Hc Hn IH]; intros back Hb Hs; [by rewrite app_nil_r|]. cbn [foldl].
    destruct (IH (insert_back c back)) as [H1 H2].
    - unfold numbers. rewrite insert_perm. by constructor.
    - by apply insert_sorted.
    - split; [|done]. rewrite H1, insert_perm. by rewrite <- Permutation_middle. }
  destruct (H []) as [H1 H2]; [constructor..|]. simpl in H1. split; [by rewrite <- Permutation_rev|].
  clear H H1. induction H2 as [|x l Hl IH Hx]; [constructor|]. simpl. apply StronglySorted_app_2; [|done|by repeat constructor].
  intros y z Hy Hz. apply list_elem_of_singleton in Hz as ->. rewrite Forall_forall in Hx. apply Hx.
  by rewrite <- Permutation_rev in Hy.
Qed.

(** ** Rates *)

Definition unlocked_in (key : string) (l : list achievement_item) : bool :=
  existsb (fun i => it_Unlocked i && bool_decide (it_Key i = key)) l.
Definition counted (payloads : list string) : list (list achievement_item) :=
  omap (fun p => match unmarshal_achievements p with None | Some [] => None | Some l => Some l end) payloads.
Lemma count_items_skip key (l : list achievement_item) counts : key ∉ map it_Key l ->
  foldl count_item counts l !! key = counts !! key.
Proof.
  revert counts. induction l as [|i l IH]; intros counts Hk; [done|]. cbn [foldl map] in *.
  rewrite IH by set_solver. unfold count_item. repeat case_match; try done. apply lookup_insert_ne. set_solver.
Qed.
Lemma count_items (key : string) (l : list achievement_item) counts : trim_space key <> "" -> NoDup (map it_Key l) ->
  default 0 (foldl count_item counts l !! key) = default 0 (counts !! key) + (if unlocked_in key l then 1 else 0).
Proof.
  intros Hkey. revert counts. induction l as [|i l IH]; intros counts Hn; [simpl; lia|].
  cbn [foldl map] in *. apply NoDup_cons in Hn as [Hi Hn]. unfold unlocked_in. cbn [existsb]. fold (unlocked_in key l).
  destruct (decide (it_Key i = key)) as [Heq|Hne].
  - assert (unlocked_in key l = false) as Hl.
    { apply not_true_is_false. unfold unlocked_in. rewrite existsb_exists. intros (j & Hj & Hp). apply Hi.
      apply andb_true_iff in Hp as [_ Hp]. apply bool_decide_eq_true in Hp. rewrite Heq, <- Hp.
      apply list_elem_of_fmap. exists j. split; [done|]. by apply list_elem_of_In. }
    rewrite Hl, orb_false_r, bool_decide_true, andb_true_r by done. rewrite count_items_skip by congruence.
    unfold count_item. rewrite decide_False by congruence.
    destruct (it_Unlocked i); cbn [negb]; [rewrite Heq, lookup_insert_eq; done|lia].
  - rewrite IH by done. rewrite bool_decide_false, andb_false_r by done. cbn [orb]. do 2 f_equal.
    unfold count_item. repeat case_match; try done; by rewrite lookup_insert_ne.
Qed.
(** When no snapshot names a key twice, the number of a key is the number of users whose
    snapshot shows it unlocked, and no rate is above one. *)
Lemma rates_right (payloads : list string) (key : string) : trim_space key <> "" ->
  Forall (fun l => NoDup (map it_Key l)) (counted payloads) ->
  let r := foldl count_snapshot (∅, 0) payloads in
  r.2 = Z.of_nat (length (counted payloads)) /\
  default 0 (r.1 !! key) = count_where (unlocked_in key) (counted payloads) /\ default 0 (r.1 !! key) <= r.2.
Proof.
  intros Hkey Hn.
  assert (forall acc, let r := foldl count_snapshot acc payloads in
    r.2 = acc.2 + Z.of_nat (length (counted payloads)) /\
    default 0 (r.1 !! key) = default 0 (acc.1 !! key) + count_where (unlocked_in key) (counted payloads)) as H.
  { induction payloads as [|p payloads IH]; intros acc; [simpl; split; unfold count_where; simpl; lia|].
    cbn [foldl]. unfold counted in *. cbn [omap list_omap] in *. unfold count_snapshot at 2 4.
    destruct (unmarshal_achievements p) as [[|i l]|]; [by apply IH| |by apply IH].
    apply Forall_cons in Hn as [Hl Hn]. destruct (IH Hn (foldl count_item acc.1 (i :: l), acc.2 + 1)) as [H1 H2].
    cbv zeta. rewrite H1, H2. cbn [fst snd]. rewrite count_items by done.
    unfold count_where, where_. cbn [length List.filter]. destruct (unlocked_in key (i :: l)); simpl; lia. }
  destruct (H (∅, 0)) as [H1 H2]. cbn [fst snd] in *. rewrite lookup_empty in H2. simpl in H2.
  cbv zeta. rewrite H1, H2. split_and!; [lia|lia|].
  unfold count_where. pose proof (length_where_split (unlocked_in key) (counted payloads)). lia.
Qed.

(** ** The stored snapshot *)

Section stored.
Context `{Jsonb} `{!GlobalJson} (offset : Z) (range : gmap Z achievementUserMetric -> list achievementUserMetric).
#[local] Notation request := (svc_GetAchievementGlobalSnapshot offset range).

(** The snapshot of the site is in its table, made at [t]. *)
Definition holds_global (s : AchievementGlobalSnapshot) (t : Z) (tab : table FeatureSnapshot) : Prop :=
  exists row, first_match (snapshot_of (-1) achievement_global) tab = Some row /\
    fs_GeneratedAt row = t /\ json_valid (fs_Payload row) = true /\ read_global (fs_Payload row) = Some s.

Lemma wp_eq {A} (m : CM A) (Q : outcome A -> world core_db -> Prop) w o w' : m w = (o, w') -> Q o w' -> wp m Q w.
Proof. intros E HQ. unfold wp. by rewrite E. Qed.
Lemma rebuild_run w : healthy w -> wp (rebuild offset range) (fun o w' => healthy w' /\
  forall s, o = Val s -> exists s0 n, s = generated_at (gs_GeneratedAt s) s0 /\
    holds_global s0 (w_clock w n) (snapshots (w_db w'))) w.
Proof.
  intros Hw. unfold rebuild. wp_step. destruct (build_run offset range w Hw) as (w1 & E & _ & Hw1 & Hclock).
  eapply wp_eq; [exact E|]. cbn beta iota. destruct (global_text _) as [raw|] eqn:Et; [|by wp_step].
  wp_step. wp_step. wp_step. destruct (jsonb_in raw) as [t|] eqn:Ej.
  - eapply wp_assign_or_create; [by eauto with golang|exact Ej|]. intros w2 row Hw2 Hrow Hp Hg _. cbn beta iota.
    apply wp_ret. split; [done|]. intros s [= <-]. do 2 eexists. split; [reflexivity|]. exists row.
    split_and!; [exact Hrow|rewrite Hg, Hclock; reflexivity| |].
    + rewrite Hp. by eapply jsonb_valid.
    + rewrite Hp. by eapply global_again.
  - unfold assign_or_create. wp_step. wp_step. rewrite Ej. wp_step. wp_step. wp_step. by cbn.
Qed.
Lemma request_stores c w : healthy w -> first_match (snapshot_of (-1) achievement_global) (cleaned w) = None ->
  wp (request c) (fun o w' => healthy w' /\
    forall s, o = Val s -> exists s0 n, s = generated_at (gs_GeneratedAt s) s0 /\
      holds_global s0 (w_clock w n) (snapshots (w_db w'))) w.
Proof.
  intros Hw Hnone. unfold svc_GetAchievementGlobalSnapshot. wp_step. eapply wp_mono; [by apply cleanup_run|].
  intros o w1 (-> & Hw1 & Hc & Hs & _). cbn beta iota. fold (cleaned w) in Hs.
  wp_step. wp_step. wp_step. change (table_of (w_db w1)) with (snapshots (w_db w1)). rewrite Hs, Hnone.
  cbn [is_not_found]. rewrite <- Hc. apply (rebuild_run (tick w1)). by eauto with golang.
Qed.
(** What is stored is what every later request is answered with, for half an hour. *)
Lemma request_again c w s t : healthy w -> due (w_clock w (w_calls w)) (last_cleanup (w_db w)) = false ->
  holds_global s t (snapshots (w_db w)) -> (forall n, time_sub (w_clock w n) t < achievementGlobalSnapshotTTL) ->
  (request c w).1 = Val s.
Proof.
  intros Hw Hd (row & Hrow & Ht & Hv & Hread) Hfresh. enough (wp (request c) (fun o _ => o = Val s) w) by done.
  unfold svc_GetAchievementGlobalSnapshot. wp_step. eapply wp_mono; [by apply cleanup_run|]. rewrite Hd.
  intros o w1 (-> & Hw1 & Hc & Hs & _). cbn beta iota.
  wp_step. wp_step. wp_step. change (table_of (w_db w1)) with (snapshots (w_db w1)). rewrite Hs, Hrow. wp_step. wp_step.
  assert (fresh (w_clock (tick w1) (w_calls (tick w1))) row = true) as ->.
  { unfold fresh. rewrite Hv, Ht, andb_true_r. apply Z.ltb_lt. cbn [tick w_clock w_calls]. rewrite Hc. apply Hfresh. }
  rewrite Hread. by wp_step.
Qed.
End stored.


#[local] Instance float_eq : EqDecision float.
Proof. unfold float. solve_decision. Defined.
#[local] Instance rate_eq : EqDecision AchievementGlobalRate.
Proof. solve_decision. Defined.
#[local] Instance context_eq : EqDecision site_context.
Proof. solve_decision. Defined.
#[local] Instance snapshot_eq : EqDecision AchievementGlobalSnapshot.
Proof. solve_decision. Defined.
Definition evening_snapshot : AchievementGlobalSnapshot :=
  match (buildAchievementGlobalSnapshot 0 in_key_order sample_evening).1 with
  | Val s => s
  | Exn _ => GlobalSnapshot ∅ ∅ ∅ 0
  end.
#[local, refine] Instance one_text : GlobalJson := {|
  global_text s := if decide (s = evening_snapshot) then Some "{}" else None;
  read_global t := if decide (t = "{}") then Some evening_snapshot else None |}.
Proof. intros s x t. case_decide as Hs; [|done]. intros [= <-]. vm_compute (jsonb_in "{}"). intros [= <-]. by rewrite Hs. Defined.
(** Ten minutes after the request of the evening. *)
Definition later (w : world core_db) : world core_db := World (w_db w) ∅ 0 (fun _ => None) (fun _ => hour + 10 * minute).
Lemma later_db w : w_db (later w) = w_db w.
Proof. done. Qed.
Lemma later_healthy w : healthy (later w).
Proof. done. Qed.
Lemma later_clock w n : w_clock (later w) n = hour + 10 * minute.
Proof. done. Qed.
Lemma pair_of {A B} (p : A * B) a : p.1 = a -> p = (a, p.2).
Proof. destruct p. by intros <-. Qed.
